(** * Diabetes prediction front end: form controller and analytics dashboard

    A shallow embedding of [frontend/js/script.js] and
    [frontend/js/dashboard.js], and the properties their specification
    states about them.

    Layout: the JavaScript values the two scripts compute with (numbers,
    strings, JSON), then one module per script with its state and
    functions, then the lemmas and the theorems. *)

From Stdlib Require Import ZArith QArith Qround Qabs Qpower Qreduction Qcanon.
From Stdlib Require Import Lia Lqa Bool List String Ascii DecimalString.
From stdpp Require Import gmap strings.
Import ListNotations.

Local Open Scope Z_scope.
Set Warnings "-register-all".

(** ** JavaScript numbers

    A Number is an IEEE 754 binary64 value.  A finite one is kept as the
    rational it denotes; every arithmetic operation computes the exact
    rational result and rounds it to the nearest binary64 value, ties to
    the even mantissa, which is how IEEE 754 defines the basic operations.
    The sign of zero is not tracked: nothing the two scripts do with a
    number tells [-0] from [0]. *)
Module JSNumber.

Inductive number :=
| NaN
| Inf (negative : bool)
| Fin (q : Q).

(** [scale2 z e] is [z * 2^e] for [0 <= e], and [z] otherwise: the two
    sides of a comparison or of a quotient are scaled by it, one by [e] and
    the other by [- e]. *)
Definition scale2 (z e : Z) : Z := z * 2 ^ Z.max 0 e.

(** [ilog2 a b] is the integer [l] with [2^l <= a/b < 2^(l+1)], for
    positive [a] and [b]. *)
Definition ilog2 (a b : Z) : Z :=
  let l := Z.log2 a - Z.log2 b in
  if scale2 a (- l) <? scale2 b l then l - 1 else l.

(** [rne x y] is the integer nearest to [x/y], the even one of the two at
    a tie, for [0 <= x] and [0 < y]. *)
Definition rne (x y : Z) : Z :=
  let d := x / y in
  match 2 * (x mod y) ?= y with
  | Lt => d
  | Gt => d + 1
  | Eq => if Z.even d then d else d + 1
  end.

(** The exponent of the last mantissa bit of the binary64 interval that
    holds [a/b]: 52 below the leading bit, and never below the subnormal
    exponent. *)
Definition ulp_exp (a b : Z) : Z := Z.max (ilog2 a b - 52) (-1074).

(** The 53-bit mantissa of the binary64 value nearest to [a/b]. *)
Definition mantissa (a b : Z) : Z :=
  let e := ulp_exp a b in
  rne (scale2 a (- e)) (scale2 b e).

(** [2^e] as a rational, for any integer [e]. *)
Definition pow2 (e : Z) : Q := Qpower 2 e.

(** Rounding of an exact rational to binary64; a magnitude that rounds to
    [2^1024] or more overflows to an infinity. *)
Definition round64 (q : Q) : number :=
  let a := Z.abs (Qnum q) in
  let b := Z.pos (Qden q) in
  if a =? 0 then Fin 0
  else
    let e := ulp_exp a b in
    let m := mantissa a b in
    if (971 <? e) || ((e =? 971) && (2 ^ 53 <=? m)) then Inf (Qnum q <? 0)
    else Fin (Qred (inject_Z (Z.sgn (Qnum q) * m) * pow2 e)).

Definition ofZ (z : Z) : number := round64 (inject_Z z).

Definition isNaN (x : number) : bool :=
  match x with NaN => true | _ => false end.

(** [x < y]; false as soon as one side is [NaN]. *)
Definition ltb (x y : number) : bool :=
  match x, y with
  | NaN, _ | _, NaN => false
  | Inf true, Inf true => false
  | Inf true, _ => true
  | _, Inf true => false
  | Inf false, _ => false
  | Fin _, Inf false => true
  | Fin p, Fin q => negb (Qle_bool q p)
  end.

Definition gtb (x y : number) : bool := ltb y x.

Definition eqb (x y : number) : bool :=
  match x, y with
  | Inf s, Inf t => Bool.eqb s t
  | Fin p, Fin q => Qeq_bool p q
  | _, _ => false
  end.

(** [x >= y] and [x <= y] are not the negations of [<] and [>]: with a
    [NaN] all four are false. *)
Definition geb (x y : number) : bool := ltb y x || eqb x y.
Definition leb (x y : number) : bool := ltb x y || eqb x y.

Definition neg (x : number) : number :=
  match x with
  | NaN => NaN
  | Inf s => Inf (negb s)
  | Fin q => Fin (Qred (- q))
  end.

Definition is_zero (q : Q) : bool := Qnum q =? 0.
Definition is_neg (q : Q) : bool := Qnum q <? 0.

Definition add (x y : number) : number :=
  match x, y with
  | NaN, _ | _, NaN => NaN
  | Inf s, Inf t => if Bool.eqb s t then Inf s else NaN
  | Inf s, Fin _ | Fin _, Inf s => Inf s
  | Fin p, Fin q => round64 (p + q)
  end.

Definition sub (x y : number) : number := add x (neg y).

Definition mul (x y : number) : number :=
  match x, y with
  | NaN, _ | _, NaN => NaN
  | Inf s, Inf t => Inf (xorb s t)
  | Inf s, Fin q | Fin q, Inf s =>
      if is_zero q then NaN else Inf (xorb s (is_neg q))
  | Fin p, Fin q => round64 (p * q)
  end.

(** Division; a zero divisor counts as [+0]. *)
Definition div (x y : number) : number :=
  match x, y with
  | NaN, _ | _, NaN => NaN
  | Inf _, Inf _ => NaN
  | Inf s, Fin q => Inf (xorb s (is_neg q))
  | Fin _, Inf _ => Fin 0
  | Fin p, Fin q =>
      if is_zero q then (if is_zero p then NaN else Inf (is_neg p))
      else round64 (p / q)
  end.

(** [Math.floor], [Math.ceil] and [Math.round] (the last rounds a tie
    towards positive infinity); exact on every binary64 value. *)
Definition floor (x : number) : number :=
  match x with
  | Fin q => Fin (inject_Z (Qfloor q))
  | _ => x
  end.

Definition ceil (x : number) : number :=
  match x with
  | Fin q => Fin (inject_Z (Qceiling q))
  | _ => x
  end.

Definition round (x : number) : number :=
  match x with
  | Fin q => Fin (inject_Z (Qfloor (q + (1 # 2))))
  | _ => x
  end.

(** The truth value of a number in a condition: [0] and [NaN] are falsy. *)
Definition truthy (x : number) : bool :=
  match x with
  | NaN => false
  | Inf _ => true
  | Fin q => negb (is_zero q)
  end.

End JSNumber.

(** ** JavaScript strings

    A string is a sequence of code units; the ones modelled are those
    below 256, one [ascii] each. *)
Module JSString.
Import JSNumber.
Local Open Scope string_scope.
Local Open Scope Z_scope.

Definition code (c : ascii) : Z := Z.of_N (N_of_ascii c).

(** The WhiteSpace and LineTerminator code units below 256: TAB, LF, VT,
    FF, CR, SP and NBSP. *)
Definition isWhiteSpace (c : ascii) : bool :=
  let n := code c in
  (n =? 9) || (n =? 10) || (n =? 11) || (n =? 12) || (n =? 13)
  || (n =? 32) || (n =? 160).

Fixpoint trimStart (s : string) : string :=
  match s with
  | String c r => if isWhiteSpace c then trimStart r else s
  | EmptyString => EmptyString
  end.

Fixpoint trimEnd (s : string) : string :=
  match s with
  | EmptyString => EmptyString
  | String c r =>
      match trimEnd r with
      | EmptyString => if isWhiteSpace c then EmptyString else String c EmptyString
      | r' => String c r'
      end
  end.

(** [String.prototype.trim] *)
Definition trim (s : string) : string := trimEnd (trimStart s).

Definition isDigit (c : ascii) : bool := (48 <=? code c) && (code c <=? 57).
Definition digitVal (c : ascii) : Z := code c - 48.

(** The longest run of decimal digits at the head of [s], read on top of
    the value [acc] already read: the value, the number of digits of the
    run added to [n], and the rest of the string. *)
Fixpoint digits (s : string) (acc n : Z) : Z * Z * string :=
  match s with
  | String c r =>
      if isDigit c then digits r (10 * acc + digitVal c) (n + 1)
      else (acc, n, s)
  | EmptyString => (acc, n, s)
  end.

(** The value of the ExponentPart at the head of [s]: [e] or [E], an
    optional sign and at least one digit; [0] when there is none. *)
Definition exponentPart (s : string) : Z :=
  match s with
  | String c r =>
      if (code c =? 101) || (code c =? 69) then
        let '(negative, r1) :=
          match r with
          | String "+" r' => (false, r')
          | String "-" r' => (true, r')
          | _ => (false, r)
          end in
        let '(v, n, _) := digits r1 0 0 in
        if n =? 0 then 0 else if negative then - v else v
      else 0
  | EmptyString => 0
  end.

(** [m * 10^e] as an exact rational. *)
Definition decimalValue (m e : Z) : Q :=
  if 0 <=? e then inject_Z (m * 10 ^ e) else m # Z.to_pos (10 ^ (- e)).

Definition startsWith (p s : string) : bool := String.prefix p s.

(** The longest prefix of [s] that is a StrUnsignedDecimalLiteral
    ([Infinity], or digits with an optional fraction and an optional
    exponent, at least one digit before the exponent), as its Number value;
    [None] when no prefix is one.  [negative] is the sign read before it. *)
Definition strUnsignedDecimalLiteral (negative : bool) (s : string) : option number :=
  let sign := if negative then (-1) else 1 in
  if startsWith "Infinity" s then Some (Inf negative)
  else
    let '(i, ni, r) := digits s 0 0 in
    match r with
    | String "." r' =>
        let '(f, nf, r'') := digits r' i 0 in
        if (ni =? 0) && (nf =? 0) then None
        else Some (round64 (decimalValue (sign * f) (exponentPart r'' - nf)))
    | _ =>
        if ni =? 0 then None
        else Some (round64 (decimalValue (sign * i) (exponentPart r)))
    end.

(** The global [parseFloat], on a string argument: leading white space is
    skipped, the longest prefix that is a StrDecimalLiteral is read and
    whatever follows it is ignored; [NaN] when there is no such prefix. *)
Definition parseFloat (s : string) : number :=
  let t := trimStart s in
  let r :=
    match t with
    | String "-" u => strUnsignedDecimalLiteral true u
    | String "+" u => strUnsignedDecimalLiteral false u
    | _ => strUnsignedDecimalLiteral false t
    end in
  match r with
  | Some x => x
  | None => NaN
  end.

(** The value of a digit in radix 16. *)
Definition hexVal (c : ascii) : option Z :=
  let n := code c in
  if (48 <=? n) && (n <=? 57) then Some (n - 48)
  else if (97 <=? n) && (n <=? 102) then Some (n - 87)
  else if (65 <=? n) && (n <=? 70) then Some (n - 55)
  else None.

Fixpoint hexDigits (s : string) (acc n : Z) : Z * Z :=
  match s with
  | String c r =>
      match hexVal c with
      | Some d => hexDigits r (16 * acc + d) (n + 1)
      | None => (acc, n)
      end
  | EmptyString => (acc, n)
  end.

(** The global [parseInt] with no radix: leading white space and a sign
    are skipped, a [0x] prefix selects radix 16, the longest run of digits
    is read; [NaN] when there is no digit. *)
Definition parseInt (s : string) : number :=
  let t := trimStart s in
  let '(sign, u) :=
    match t with
    | String "-" u => (-1, u)
    | String "+" u => (1, u)
    | _ => (1, t)
    end in
  let hex :=
    match u with
    | String "0" (String x r) =>
        if (code x =? 120) || (code x =? 88) then Some r else None
    | _ => None
    end in
  match hex with
  | Some r =>
      let '(v, n) := hexDigits r 0 0 in
      if n =? 0 then NaN else round64 (inject_Z (sign * v))
  | None =>
      let '(v, n, _) := digits u 0 0 in
      if n =? 0 then NaN else round64 (inject_Z (sign * v))
  end.

(** [s.replace(/,/g, '')] *)
Fixpoint removeCommas (s : string) : string :=
  match s with
  | String c r => if code c =? 44 then removeCommas r else String c (removeCommas r)
  | EmptyString => EmptyString
  end.

(** The decimal digits of an integer, with a minus sign when negative. *)
Definition ofZ (z : Z) : string := DecimalString.NilZero.string_of_int (Z.to_int z).

(** [Array.prototype.join] on an array of strings. *)
Definition join (sep : string) (l : list string) : string := String.concat sep l.

End JSString.

(** ** The host environment

    What the browser provides and the scripts only call: the conversions
    whose result depends on the locale or on the shortest-digits algorithm,
    the parsing and printing of dates, and the CSS parser. *)
Class Host := {
  (** Number::toString on a finite value other than an integer of at most
      [2^53] in magnitude: the shortest digits that denote the value *)
  decimalToString : Q -> string;
  (** [Number.prototype.toLocaleString] *)
  toLocaleString : JSNumber.number -> string;
  (** [String.prototype.toUpperCase] *)
  toUpperCase : string -> string;
  (** StringToNumber: the Number a whole string denotes *)
  stringToNumber : string -> JSNumber.number;
  (** the time value of [new Date(s)], [NaN] for an invalid date *)
  dateParse : string -> JSNumber.number;
  (** [Date.prototype.toISOString], [toLocaleDateString] and
      [toLocaleTimeString] with the options the scripts pass, by time value *)
  toISOString : JSNumber.number -> string;
  toLocaleDateString : JSNumber.number -> string;
  toLocaleTimeString : JSNumber.number -> string;
  toLocaleTimeStringSeconds : JSNumber.number -> string;
  (** whether the CSS parser takes a text as a value of [width]: the
      assignment of a text it does not take leaves the style as it was *)
  isWidth : string -> bool
}.

(** ** JSON values, as [response.json()] yields them *)
Module Json.
Import JSNumber.
Local Open Scope string_scope.

Inductive json :=
| JUndefined
| JNull
| JBool (b : bool)
| JNum (x : number)
| JStr (s : string)
| JArr (items : list json)
| JObj (fields : list (string * json)).

(** What a script can throw or a promise can reject with. *)
Inductive error :=
| TypeError (what : string)
| NetworkError
| SyntaxError
| ThrownError (message : json).

Inductive result (A : Type) :=
| Ok (a : A)
| Throw (e : error).
Arguments Ok {A} a.
Arguments Throw {A} e.

(** The own property [k] of an object, in the order the properties were
    written; [undefined] when there is none. *)
Fixpoint lookup_field (fields : list (string * json)) (k : string) : json :=
  match fields with
  | [] => JUndefined
  | (k', v) :: rest => if String.eqb k k' then v else lookup_field rest k
  end.

(** The array index a property name spells: a decimal numeral without
    sign or leading zero, of at most [2^32 - 2]. *)
Definition arrayIndex (k : string) : option Z :=
  match k with
  | EmptyString => None
  | String c rest =>
      let '(i, _, r) := JSString.digits k 0 0 in
      if negb (String.eqb r "") then None
      else if Ascii.eqb c "0" && negb (String.eqb rest "") then None
      else if (i <=? 4294967294)%Z then Some i else None
  end.

Definition isNamed (kv : string * json) : bool :=
  match arrayIndex (fst kv) with
  | Some _ => false
  | None => true
  end.

(** [placeIndexed i kv placed] puts the property [kv] of index [i] among
    those already placed by ascending index. *)
Fixpoint placeIndexed (i : Z) (kv : string * json) (placed : list (Z * (string * json)))
  : list (Z * (string * json)) :=
  match placed with
  | [] => [(i, kv)]
  | (j, kv') :: rest =>
      if (i <? j)%Z then (i, kv) :: placed else (j, kv') :: placeIndexed i kv rest
  end.

Fixpoint indexedProperties (fields : list (string * json)) (placed : list (Z * (string * json)))
  : list (Z * (string * json)) :=
  match fields with
  | [] => placed
  | kv :: rest =>
      match arrayIndex (fst kv) with
      | Some i => indexedProperties rest (placeIndexed i kv placed)
      | None => indexedProperties rest placed
      end
  end.

(** The own properties of an object in the order [Object.keys],
    [Object.values] and [Object.entries] list them: those named by an
    array index first, by ascending index, then the others in the order
    they were written. *)
Definition ownProperties (fields : list (string * json)) : list (string * json) :=
  map snd (indexedProperties fields []) ++ List.filter isNamed fields.

(** [v.k] for the property names the scripts read, none of which a
    string, a number, a boolean or an array has: reading from [undefined]
    or [null] throws. *)
Definition prop (v : json) (k : string) : result json :=
  match v with
  | JUndefined => Throw (TypeError ("Cannot read properties of undefined (reading '" ++ k ++ "')"))
  | JNull => Throw (TypeError ("Cannot read properties of null (reading '" ++ k ++ "')"))
  | JObj fields => Ok (lookup_field fields k)
  | _ => Ok JUndefined
  end.

(** [v[0]] *)
Definition first (v : json) : result json :=
  match v with
  | JUndefined => Throw (TypeError "Cannot read properties of undefined (reading '0')")
  | JNull => Throw (TypeError "Cannot read properties of null (reading '0')")
  | JArr items => Ok (nth 0 items JUndefined)
  | JStr (String c _) => Ok (JStr (String c EmptyString))
  | JObj fields => Ok (lookup_field fields "0")
  | _ => Ok JUndefined
  end.

Definition truthy (v : json) : bool :=
  match v with
  | JUndefined | JNull => false
  | JBool b => b
  | JNum x => JSNumber.truthy x
  | JStr s => negb (String.eqb s "")
  | JArr _ | JObj _ => true
  end.

(** [a || b] *)
Definition or_else (a b : json) : json := if truthy a then a else b.

(** [v === 'text'] *)
Definition is_string (v : json) (text : string) : bool :=
  match v with
  | JStr s => String.eqb s text
  | _ => false
  end.

Section ToString.
Context `{Host}.

(** Number::toString *)
Definition numberToString (x : number) : string :=
  match x with
  | NaN => "NaN"
  | Inf false => "Infinity"
  | Inf true => "-Infinity"
  | Fin q =>
      let r := Qred q in
      if (Z.pos (Qden r) =? 1)%Z && (Z.abs (Qnum r) <=? 2 ^ 53)%Z
      then JSString.ofZ (Qnum r)
      else decimalToString q
  end.

(** ToString, as a template literal and [+] with a string apply it. *)
Fixpoint toString (v : json) : string :=
  match v with
  | JUndefined => "undefined"
  | JNull => "null"
  | JBool true => "true"
  | JBool false => "false"
  | JNum x => numberToString x
  | JStr s => s
  | JArr items =>
      JSString.join ","
        (map (fun i => match i with
                       | JUndefined | JNull => ""
                       | _ => toString i
                       end) items)
  | JObj _ => "[object Object]"
  end.

(** [Number.prototype.toFixed(1)]: the decimal with one fraction digit
    nearest to the value, the larger one at a tie. *)
Definition toFixed1 (x : number) : string :=
  match x with
  | Fin q =>
      if Qle_bool (inject_Z (10 ^ 21)) (Qabs q) then numberToString x
      else
        let n := Qfloor (Qabs q * 10 + (1 # 2)) in
        (if is_neg q then "-" else "")
        ++ JSString.ofZ (n / 10) ++ "." ++ JSString.ofZ (n mod 10)
  | _ => numberToString x
  end.

(** ToNumber *)
Definition toNumber (v : json) : number :=
  match v with
  | JUndefined => NaN
  | JNull => Fin 0
  | JBool true => Fin 1
  | JBool false => Fin 0
  | JNum x => x
  | JStr s => stringToNumber s
  | JArr _ | JObj _ => stringToNumber (toString v)
  end.

(** [a + b]: concatenation as soon as one side is a string or an object,
    the sum of the two numbers otherwise. *)
Definition plus (a b : json) : json :=
  match a, b with
  | (JStr _ | JArr _ | JObj _), _ | _, (JStr _ | JArr _ | JObj _) =>
      JStr (toString a ++ toString b)
  | _, _ => JNum (add (toNumber a) (toNumber b))
  end.

(** [v.toLocaleString()] *)
Definition localeString (v : json) : result string :=
  match v with
  | JUndefined => Throw (TypeError "Cannot read properties of undefined (reading 'toLocaleString')")
  | JNull => Throw (TypeError "Cannot read properties of null (reading 'toLocaleString')")
  | JNum x => Ok (toLocaleString x)
  | JArr items =>
      Ok (JSString.join ","
            (map (fun i => match i with
                           | JNum x => toLocaleString x
                           | JUndefined | JNull => ""
                           | _ => toString i
                           end) items))
  | _ => Ok (toString v)
  end.

(** The receiver of a string method: anything but a string has no such
    method, and [undefined] and [null] have no properties at all. *)
Definition stringReceiver (v : json) (method : string) : result string :=
  match v with
  | JStr s => Ok s
  | JUndefined => Throw (TypeError ("Cannot read properties of undefined (reading '" ++ method ++ "')"))
  | JNull => Throw (TypeError ("Cannot read properties of null (reading '" ++ method ++ "')"))
  | _ => Throw (TypeError (method ++ " is not a function"))
  end.

(** [v.toFixed(1)] *)
Definition toFixed (v : json) : result string :=
  match v with
  | JNum x => Ok (toFixed1 x)
  | JUndefined => Throw (TypeError "Cannot read properties of undefined (reading 'toFixed')")
  | JNull => Throw (TypeError "Cannot read properties of null (reading 'toFixed')")
  | _ => Throw (TypeError "toFixed is not a function")
  end.

(** The value a [DOMString?] attribute such as [textContent] takes when
    it is assigned [v]. *)
Definition domString (v : json) : string :=
  match v with
  | JUndefined | JNull => ""
  | _ => toString v
  end.

End ToString.

End Json.

(** ** Effects: a state and exception monad *)
Module Eff.
Import Json.

Definition M (S A : Type) : Type := S -> result A * S.

Definition ret {S A} (a : A) : M S A := fun s => (Ok a, s).

Definition bind {S A B} (m : M S A) (k : A -> M S B) : M S B :=
  fun s =>
    match m s with
    | (Ok a, s') => k a s'
    | (Throw e, s') => (Throw e, s')
    end.

Definition throw {S A} (e : error) : M S A := fun s => (Throw e, s).

(** A pure computation that may throw. *)
Definition lift {S A} (r : result A) : M S A := fun s => (r, s).

Definition get {S} : M S S := fun s => (Ok s, s).
Definition modify {S} (f : S -> S) : M S unit := fun s => (Ok tt, f s).

(** [try { body } catch (e) { handler e } finally { final }]: [final] runs
    on every path out of [body] and [handler]; what [final] throws
    replaces the outcome. *)
Definition try_catch_finally {S A}
    (body : M S A) (handler : error -> M S A) (final : M S unit) : M S A :=
  fun s =>
    let '(r, s1) :=
      match body s with
      | (Ok a, s') => (Ok a, s')
      | (Throw e, s') => handler e s'
      end in
    match final s1 with
    | (Ok _, s2) => (r, s2)
    | (Throw e, s2) => (Throw e, s2)
    end.

(** [try { body } catch (e) { handler e }] *)
Definition try_catch {S A} (body : M S A) (handler : error -> M S A) : M S A :=
  try_catch_finally body handler (ret tt).

(** [if (c) body] *)
Definition when {S} (c : bool) (body : M S unit) : M S unit :=
  if c then body else ret tt.

(** [l.forEach(f)] *)
Fixpoint forEach {S A} (l : list A) (f : A -> M S unit) : M S unit :=
  match l with
  | [] => ret tt
  | a :: rest => bind (f a) (fun _ => forEach rest f)
  end.

Definition exec {S A} (m : M S A) (s : S) : S := snd (m s).
Definition outcome {S A} (m : M S A) (s : S) : result A := fst (m s).

End Eff.

Declare Scope eff_scope.
Delimit Scope eff_scope with eff.
Notation "x <- m ;; k" := (Eff.bind m (fun x => k))
  (at level 100, m at next level, right associativity) : eff_scope.
Notation "m ;; k" := (Eff.bind m (fun _ => k))
  (at level 100, right associativity) : eff_scope.

(** ** Timers and the event loop *)
Module EventLoop.

(** A timer that was scheduled and has not fired: when it is due, and
    what its callback does. *)
Record timer (A : Type) := { due : Z; act : A }.
Arguments due {A} t.
Arguments act {A} t.

(** The pending timer that fires first: the earliest, and of two that are
    due together the one scheduled first. *)
Fixpoint earliest {A} (ts : list (timer A)) : option (timer A * list (timer A)) :=
  match ts with
  | [] => None
  | t :: rest =>
      match earliest rest with
      | Some (t', rest') =>
          if due t' <? due t then Some (t', t :: rest') else Some (t, rest)
      | None => Some (t, [])
      end
  end.

End EventLoop.

(** ** The document, as far as the two scripts touch it *)
Module Dom.
Local Open Scope string_scope.

(** A click listener is the closure the script registered: which action,
    over which prediction result. *)
Inductive listener :=
| ShareClick (result : Json.json)
| DownloadClick (result : Json.json).

(** An element: its string-valued properties and attributes by name
    ([textContent], [innerHTML], [className], [style.display], ...), and
    the few that are not strings. *)
Record element := {
  props : gmap string string;
  disabled : bool;
  items : list string;
  clicks : list listener
}.

Definition blank : element :=
  {| props := ∅; disabled := false; items := []; clicks := [] |}.

(** [e.name], the empty string when it was never set *)
Definition getp (name : string) (e : element) : string :=
  default "" (props e !! name).

(** [e.name = v] *)
Definition setp (name v : string) (e : element) : element :=
  {| props := <[name := v]> (props e); disabled := disabled e;
     items := items e; clicks := clicks e |}.

Definition set_disabled (v : bool) (e : element) : element :=
  {| props := props e; disabled := v; items := items e; clicks := clicks e |}.

Definition set_items (v : list string) (e : element) : element :=
  {| props := props e; disabled := disabled e; items := v; clicks := clicks e |}.

(** [e.addEventListener('click', l)] *)
Definition add_click (l : listener) (e : element) : element :=
  {| props := props e; disabled := disabled e; items := items e;
     clicks := (clicks e ++ [l])%list |}.

(** The double quote and the line feed, for the markup the scripts write. *)
Definition dq : string := String (Ascii.Ascii false true false false false true false false) "".
Definition nl : string := String (Ascii.Ascii false true false true false false false false) "".

(** [<i class="cls"></i>] *)
Definition icon_html (cls : string) : string :=
  "<i class=" ++ dq ++ cls ++ dq ++ "></i>".

End Dom.

(** ** The form page: [frontend/js/script.js] *)
Module Script.
Import JSNumber Json Eff Dom EventLoop.
Local Open Scope string_scope.
Local Open Scope Z_scope.
Local Open Scope eff_scope.

Definition API_BASE_URL : string := "http://localhost:5000".

(** *** Validation *)

(** The object [Object.fromEntries(formData.entries())]: its own
    properties, in the order [Object.keys] lists them. *)
Definition formData := list (string * string).

(** [data[k]]; [None] is [undefined] *)
Fixpoint field (data : formData) (k : string) : option string :=
  match data with
  | [] => None
  | (k', v) :: rest => if String.eqb k k' then Some v else field rest k
  end.

Definition keys (data : formData) : list string := map fst data.

(** The truth value of a string in a condition. *)
Definition nonEmpty (s : string) : bool := negb (String.eqb s "").

Record validation := { valid : bool; message : option string }.

Definition requiredFields : list string := ["Glucose"; "BMI"; "Age"].

(** The body of the loop over [requiredFields]: what it pushes. *)
Definition requiredError (data : formData) (name : string) : list string :=
  match field data name with
  | None => [name ++ " is required"]
  | Some v =>
      if negb (nonEmpty v) || String.eqb (JSString.trim v) ""
      then [name ++ " is required"]
      else []
  end.

(** The body of the loop over [Object.keys(data)]. *)
Definition numericError (data : formData) (key : string) : list string :=
  let value :=
    match field data key with
    | Some v => JSString.parseFloat v
    | None => JSString.parseFloat "undefined"
    end in
  if isNaN value then [key ++ " must be a number"] else [].

(** One of the three range blocks: [if (data.name) { const x =
    parseFloat(data.name); if (x < lo || x > hi) errors.push(msg); }] *)
Definition rangeError (data : formData) (name : string) (lo hi : number)
    (msg : string) : list string :=
  match field data name with
  | None => []
  | Some v =>
      if nonEmpty v then
        let x := JSString.parseFloat v in
        if ltb x lo || gtb x hi then [msg] else []
      else []
  end.

Definition glucoseMessage : string := "Glucose must be between 0 and 300 mg/dL".
Definition bmiMessage : string := "BMI must be between 10 and 70".
Definition ageMessage : string := "Age must be between 1 and 120 years".

(** The array [errors] when the checks are over. *)
Definition errors (data : formData) : list string :=
  flat_map (requiredError data) requiredFields
  ++ flat_map (numericError data) (keys data)
  ++ rangeError data "Glucose" (Fin 0) (Fin 300) glucoseMessage
  ++ rangeError data "BMI" (Fin 10) (Fin 70) bmiMessage
  ++ rangeError data "Age" (Fin 1) (Fin 120) ageMessage.

Definition validateFormData (data : formData) : validation :=
  match errors data with
  | [] => {| valid := true; message := None |}
  | errs => {| valid := false; message := Some (JSString.join ", " errs) |}
  end.

(** *** The page *)

(** What a timer does when it fires; a notification element is named by
    its rank among the ones created. *)
Inductive action :=
| MeterWidth (w : string)
| ToastIn (id : nat)
| ToastOut (id : nat)
| ToastRemove (id : nat)
| CounterTick (target : string) (current increment goal : number).

Abbreviation timer := (EventLoop.timer action).

(** The calls of the two utility functions and of [fetch], as they are
    made. *)
Inductive call :=
| Notify (message type : string)
| Loading (show : bool)
| Fetch (url : string) (body : formData)
| ConsoleError (what : string).

Record page := {
  (** the elements [getElementById] and [querySelector] find, by the
      string they are asked for; different strings, different elements *)
  elements : gmap string element;
  (** [document.querySelectorAll('.btn-predict')] *)
  buttons : list element;
  (** every notification element created so far, oldest first *)
  toasts : list element;
  (** the one that is in the document: [querySelector('.notification')] *)
  attached : option nat;
  clock : Z;
  (** the timers scheduled and not fired yet *)
  timers : list timer;
  calls : list call
}.

Definition with_elements (f : gmap string element -> gmap string element) (p : page) : page :=
  {| elements := f (elements p); buttons := buttons p; toasts := toasts p;
     attached := attached p; clock := clock p; timers := timers p; calls := calls p |}.

Definition with_buttons (f : list element -> list element) (p : page) : page :=
  {| elements := elements p; buttons := f (buttons p); toasts := toasts p;
     attached := attached p; clock := clock p; timers := timers p; calls := calls p |}.

Definition with_toasts (f : list element -> list element) (p : page) : page :=
  {| elements := elements p; buttons := buttons p; toasts := f (toasts p);
     attached := attached p; clock := clock p; timers := timers p; calls := calls p |}.

Definition with_attached (a : option nat) (p : page) : page :=
  {| elements := elements p; buttons := buttons p; toasts := toasts p;
     attached := a; clock := clock p; timers := timers p; calls := calls p |}.

Definition with_clock (t : Z) (p : page) : page :=
  {| elements := elements p; buttons := buttons p; toasts := toasts p;
     attached := attached p; clock := t; timers := timers p; calls := calls p |}.

Definition with_timers (f : list timer -> list timer) (p : page) : page :=
  {| elements := elements p; buttons := buttons p; toasts := toasts p;
     attached := attached p; clock := clock p; timers := f (timers p); calls := calls p |}.

Definition with_calls (f : list call -> list call) (p : page) : page :=
  {| elements := elements p; buttons := buttons p; toasts := toasts p;
     attached := attached p; clock := clock p; timers := timers p; calls := f (calls p) |}.

(** [setTimeout(act, delay)], and the first firing of [setInterval] *)
Definition setTimeout (a : action) (delay : Z) : M page unit :=
  modify (fun p => with_timers (fun ts => (ts ++ [{| due := clock p + delay; act := a |}])%list) p).

Definition record (c : call) : M page unit :=
  modify (with_calls (fun cs => (cs ++ [c])%list)).

(** Whether [getElementById(id)] (or [querySelector(id)]) finds an element. *)
Definition present (id : string) : M page bool :=
  p <- get ;; ret (bool_decide (is_Some (elements p !! id))).

(** [if (x) x.name = v], for the element [x] found under [id] *)
Definition assign (id name v : string) : M page unit :=
  modify (with_elements (alter (setp name v) id)).

(** [x.name = v] with no guard: a [TypeError] when [x] is [null] *)
Definition assign_unguarded (id name v : string) : M page unit :=
  there <- present id ;;
  if there then assign id name v
  else throw (TypeError ("Cannot set properties of null (setting '" ++ name ++ "')")).

(** *** Utility functions *)

Definition showLoading (show : bool) : M page unit :=
  record (Loading show) ;;
  modify (with_buttons
    (map (fun btn =>
       if show
       then set_disabled true (setp "innerHTML" (icon_html "fas fa-spinner fa-spin" ++ " Processing...") btn)
       else set_disabled false (setp "innerHTML" (icon_html "fas fa-calculator" ++ " Predict Diabetes Risk") btn)))).

(** The object literal indexed by [type]; [undefined] prints as such in
    the template. *)
Definition toastIcon (type : string) : string :=
  if String.eqb type "success" then "fa-check-circle"
  else if String.eqb type "error" then "fa-exclamation-circle"
  else if String.eqb type "info" then "fa-info-circle"
  else if String.eqb type "warning" then "fa-exclamation-triangle"
  else "undefined".

Definition toastBackground (type : string) : string :=
  if String.eqb type "success" then "#4CAF50"
  else if String.eqb type "error" then "#F44336"
  else if String.eqb type "warning" then "#FF9800"
  else "#2196F3".

(** The element [showNotification] builds, before it is animated; of its
    style, the declarations that change later or depend on [type]. *)
Definition newToast (message type : string) : element :=
  setp "style.opacity" "0"
    (setp "style.transform" "translateX(100%)"
      (setp "style.background" (toastBackground type)
        (setp "innerHTML"
           (nl ++ "        " ++ icon_html ("fas " ++ toastIcon type) ++ nl
            ++ "        <span>" ++ message ++ "</span>" ++ nl ++ "    ")
          (setp "className" ("notification notification-" ++ type) blank)))).

Definition showNotification (message type : string) : M page unit :=
  record (Notify message type) ;;
  (* Remove existing notification *)
  modify (with_attached None) ;;
  (* Create notification *)
  p <- get ;;
  let id := length (toasts p) in
  modify (with_toasts (fun ts => (ts ++ [newToast message type])%list)) ;;
  modify (with_attached (Some id)) ;;
  (* Animate in *)
  setTimeout (ToastIn id) 10 ;;
  (* Remove after 3 seconds *)
  setTimeout (ToastOut id) 3000.

Section WithHost.
Context `{Host}.

(** *** Rendering of a prediction result *)

(** [s.charAt(0)] and [s.slice(1)] *)
Definition charAt0 (s : string) : string := String.substring 0 1 s.
Definition slice1 (s : string) : string :=
  match s with
  | EmptyString => EmptyString
  | String _ r => r
  end.

(** [if (x) x.addEventListener('click', l)], for the element under [id] *)
Definition listen (id : string) (l : listener) : M page unit :=
  modify (with_elements (alter (add_click l) id)).

Definition setupResultActions (result : json) : M page unit :=
  (* Share button *)
  listen "shareResult" (ShareClick result) ;;
  (* Download button *)
  listen "downloadResult" (DownloadClick result).

Definition displayPredictionResult (result : json) : M page unit :=
  (* Show result container *)
  assign ".result-placeholder" "style.display" "none" ;;
  assign "resultContent" "style.display" "block" ;;
  (* Update prediction label *)
  predictionLabel <- present "predictionLabel" ;;
  when predictionLabel (
    label <- lift (prop result "prediction_label") ;;
    assign "predictionLabel" "textContent" (domString label)) ;;
  (* Update risk badge *)
  riskBadge <- present "riskBadge" ;;
  when riskBadge (
    level <- lift (prop result "risk_level") ;;
    s <- lift (stringReceiver level "charAt") ;;
    assign "riskBadge" "textContent" (toUpperCase (charAt0 s) ++ slice1 s ++ " Risk") ;;
    assign "riskBadge" "className" ("risk-badge " ++ s)) ;;
  (* Update confidence meter *)
  confidence <- lift (prop result "confidence") ;;
  diabeticPercent <- lift (prop confidence "diabetic") ;;
  confidenceValue <- present "confidenceValue" ;;
  when confidenceValue (
    t <- lift (toFixed diabeticPercent) ;;
    assign "confidenceValue" "textContent" (t ++ "%")) ;;
  meterFill <- present "meterFill" ;;
  when meterFill (
    assign "meterFill" "style.width" "0%" ;;
    setTimeout (MeterWidth (toString diabeticPercent ++ "%")) 100) ;;
  nonDiabeticProb <- present "nonDiabeticProb" ;;
  when nonDiabeticProb (
    nonDiabetic <- lift (prop confidence "non_diabetic") ;;
    t <- lift (toFixed nonDiabetic) ;;
    assign "nonDiabeticProb" "textContent" (t ++ "%")) ;;
  diabeticProb <- present "diabeticProb" ;;
  when diabeticProb (
    t <- lift (toFixed diabeticPercent) ;;
    assign "diabeticProb" "textContent" (t ++ "%")) ;;
  (* Update health advice *)
  adviceList <- present "adviceList" ;;
  when adviceList (
    advice <- lift (prop result "health_advice") ;;
    when (truthy advice) (
      modify (with_elements (alter (set_items []) "adviceList")) ;;
      match advice with
      | JArr lines =>
          forEach lines (fun line =>
            modify (with_elements
              (alter (fun e => set_items (items e ++ [domString line])%list e) "adviceList")))
      | _ => throw (TypeError "result.health_advice.forEach is not a function")
      end)) ;;
  (* Setup share and download buttons *)
  setupResultActions result ;;
  (* Scroll to results *)
  content <- present "resultContent" ;;
  if content then ret tt
  else throw (TypeError "Cannot read properties of null (reading 'scrollIntoView')").


(** *** Form submission *)

(** How the two awaited promises settle: [fetch] rejects (the service is
    unreachable, the request times out), [response.json()] rejects (the
    body is not JSON), or the body parses. *)
Inductive reply :=
| FetchRejected
| JsonRejected
| Parsed (result : json).

(** [await fetch(...)] and [await response.json()] *)
Definition request (data : formData) (r : reply) : M page json :=
  record (Fetch (API_BASE_URL ++ "/api/predict") data) ;;
  match r with
  | FetchRejected => throw NetworkError
  | JsonRejected => throw SyntaxError
  | Parsed result => ret result
  end.

(** The handler, over the data of the submitted form and the way the
    request settles. *)
Definition handleFormSubmit (data : formData) (r : reply) : M page unit :=
  (* Validate inputs *)
  let validation := validateFormData data in
  if negb (valid validation) then
    showNotification (default "undefined" (message validation)) "error"
  else
    (* Show loading state *)
    showLoading true ;;
    try_catch_finally
      (result <- request data r ;;
       status <- lift (prop result "status") ;;
       if is_string status "success" then
         (* Display results *)
         displayPredictionResult result ;;
         showNotification "Prediction completed successfully!" "success"
       else
         error <- lift (prop result "error") ;;
         showNotification (toString (or_else error (JStr "Prediction failed"))) "error")
      (fun error =>
         record (ConsoleError "Prediction error:") ;;
         showNotification "Unable to connect to prediction service" "error")
      (showLoading false).

(** *** Counter animation *)

(** [animateCounter(element, target)], for the counter found under
    [element]: the interval, with the variables its callback closes over. *)
Definition animateCounter (element : string) (target : number) : M page unit :=
  let current := Fin 0 in
  let increment := div target (Fin 100) in
  let duration := Fin 2000 in
  let stepTime := 20 in
  setTimeout (CounterTick element current increment target) stepTime.

(** *** The event loop: firing the next timer *)

Definition includesDot (s : string) : bool :=
  match String.index 0 "." s with
  | Some _ => true
  | None => false
  end.

(** What the callback of a timer does; [t] is the timer that fires. *)
Definition run (t : timer) : M page unit :=
  match act t with
  | MeterWidth w => when (isWidth w) (assign "meterFill" "style.width" w)
  | ToastIn id =>
      modify (with_toasts (alter (fun e =>
        setp "style.opacity" "1" (setp "style.transform" "translateX(0)" e)) id))
  | ToastOut id =>
      modify (with_toasts (alter (fun e =>
        setp "style.opacity" "0" (setp "style.transform" "translateX(100%)" e)) id)) ;;
      setTimeout (ToastRemove id) 300
  | ToastRemove id =>
      p <- get ;;
      when (bool_decide (attached p = Some id)) (modify (with_attached None))
  | CounterTick element current increment goal =>
      p <- get ;;
      let current := add current increment in
      (* element.getAttribute('data-target').includes('.') ? '%' : '' *)
      let suffix : M page string :=
        match elements p !! element ≫= fun e => props e !! "data-target" with
        | Some attribute => ret (if includesDot attribute then "%" else "")
        | None => throw (TypeError "Cannot read properties of null (reading 'includes')")
        end in
      if geb current goal then
        (* clearInterval(timer) *)
        mark <- suffix ;;
        assign element "textContent" (numberToString goal ++ mark)
      else
        (* the interval goes on, whatever becomes of this turn *)
        modify (with_timers (fun ts =>
          (ts ++ [{| due := due t + 20;
                     act := CounterTick element current increment goal |}])%list)) ;;
        mark <- suffix ;;
        assign element "textContent" (numberToString (floor current) ++ mark)
  end.

(** One turn of the event loop: the next timer is taken off the pending
    ones, the clock moves to its time and its callback runs. *)
Definition fire_next : M page unit :=
  p <- get ;;
  match earliest (timers p) with
  | None => ret tt
  | Some (t, rest) =>
      modify (with_timers (fun _ => rest)) ;;
      modify (with_clock (Z.max (clock p) (due t))) ;;
      run t
  end.

End WithHost.

End Script.

(** ** The analytics page: [frontend/js/dashboard.js] *)
Module Dashboard.
Import JSNumber Json Eff Dom EventLoop.
Local Open Scope string_scope.
Local Open Scope Z_scope.
Local Open Scope eff_scope.

(** A Chart.js instance, by what the script gives it and calls on it:
    the chart type, the labels, the data of its one dataset, and how many
    times [update()] was called. *)
Record chart := {
  kind : string;
  labels : json;
  data : json;
  updates : nat
}.

(** An item of the prediction feed: the values its markup is built from. *)
Record feedItem := {
  title : string;
  time : string;
  glucose : string;
  age : string;
  badgeClass : string;
  badge : string;
  shown : bool
}.

Inductive action :=
| ToastIn (id : nat)
| ToastOut (id : nat)
| ToastRemove (id : nat)
| FeedShow (id : nat)
| CounterTick (target : string) (current increment : number) (goal : json).

Abbreviation timer := (EventLoop.timer action).

Inductive call :=
| Notify (message type : string)
| Loading (show : bool)
| Fetch (url : string)
| ConsoleLog (what : string)
| ConsoleError (what : string).

Record page := {
  (** the elements [getElementById] finds, by id *)
  elements : gmap string element;
  (** the registry [charts]: chart name to instance, an instance being
      named by its rank among the ones constructed *)
  charts : gmap string nat;
  (** every [Chart] constructed so far, oldest first *)
  instances : list chart;
  (** the global [dashboardData]; [None] is [null] *)
  dashboardData : option json;
  (** every feed item created so far, and the ones that are the children
      of the feed container *)
  feedItems : list feedItem;
  feed : list nat;
  (** every notification element created so far, and the one that is in
      the document: [querySelector('.dashboard-notification')] *)
  toasts : list element;
  attached : option nat;
  (** the time, in milliseconds: [Date.now()] *)
  clock : Z;
  timers : list timer;
  (** [Math.random]: the numbers it returns, and how many it has returned *)
  drawn : nat;
  random : nat -> number;
  calls : list call
}.

Definition with_elements (f : gmap string element -> gmap string element) (p : page) : page :=
  {| elements := f (elements p); charts := charts p;
     instances := instances p; dashboardData := dashboardData p;
     feedItems := feedItems p; feed := feed p; toasts := toasts p;
     attached := attached p; clock := clock p; timers := timers p;
     drawn := drawn p; random := random p; calls := calls p |}.

Definition with_charts (f : gmap string nat -> gmap string nat) (p : page) : page :=
  {| elements := elements p; charts := f (charts p);
     instances := instances p; dashboardData := dashboardData p;
     feedItems := feedItems p; feed := feed p; toasts := toasts p;
     attached := attached p; clock := clock p; timers := timers p;
     drawn := drawn p; random := random p; calls := calls p |}.

Definition with_instances (f : list chart -> list chart) (p : page) : page :=
  {| elements := elements p; charts := charts p;
     instances := f (instances p); dashboardData := dashboardData p;
     feedItems := feedItems p; feed := feed p; toasts := toasts p;
     attached := attached p; clock := clock p; timers := timers p;
     drawn := drawn p; random := random p; calls := calls p |}.

Definition with_dashboardData (f : option json -> option json) (p : page) : page :=
  {| elements := elements p; charts := charts p; instances := instances p;
     dashboardData := f (dashboardData p); feedItems := feedItems p;
     feed := feed p; toasts := toasts p; attached := attached p;
     clock := clock p; timers := timers p; drawn := drawn p;
     random := random p; calls := calls p |}.

Definition with_feedItems (f : list feedItem -> list feedItem) (p : page) : page :=
  {| elements := elements p; charts := charts p; instances := instances p;
     dashboardData := dashboardData p; feedItems := f (feedItems p);
     feed := feed p; toasts := toasts p; attached := attached p;
     clock := clock p; timers := timers p; drawn := drawn p;
     random := random p; calls := calls p |}.

Definition with_feed (f : list nat -> list nat) (p : page) : page :=
  {| elements := elements p; charts := charts p; instances := instances p;
     dashboardData := dashboardData p; feedItems := feedItems p;
     feed := f (feed p); toasts := toasts p; attached := attached p;
     clock := clock p; timers := timers p; drawn := drawn p;
     random := random p; calls := calls p |}.

Definition with_toasts (f : list element -> list element) (p : page) : page :=
  {| elements := elements p; charts := charts p; instances := instances p;
     dashboardData := dashboardData p; feedItems := feedItems p;
     feed := feed p; toasts := f (toasts p); attached := attached p;
     clock := clock p; timers := timers p; drawn := drawn p;
     random := random p; calls := calls p |}.

Definition with_attached (f : option nat -> option nat) (p : page) : page :=
  {| elements := elements p; charts := charts p; instances := instances p;
     dashboardData := dashboardData p; feedItems := feedItems p;
     feed := feed p; toasts := toasts p; attached := f (attached p);
     clock := clock p; timers := timers p; drawn := drawn p;
     random := random p; calls := calls p |}.

Definition with_clock (f : Z -> Z) (p : page) : page :=
  {| elements := elements p; charts := charts p; instances := instances p;
     dashboardData := dashboardData p; feedItems := feedItems p;
     feed := feed p; toasts := toasts p; attached := attached p;
     clock := f (clock p); timers := timers p; drawn := drawn p;
     random := random p; calls := calls p |}.

Definition with_timers (f : list timer -> list timer) (p : page) : page :=
  {| elements := elements p; charts := charts p; instances := instances p;
     dashboardData := dashboardData p; feedItems := feedItems p;
     feed := feed p; toasts := toasts p; attached := attached p;
     clock := clock p; timers := f (timers p); drawn := drawn p;
     random := random p; calls := calls p |}.

Definition with_drawn (f : nat -> nat) (p : page) : page :=
  {| elements := elements p; charts := charts p; instances := instances p;
     dashboardData := dashboardData p; feedItems := feedItems p;
     feed := feed p; toasts := toasts p; attached := attached p;
     clock := clock p; timers := timers p; drawn := f (drawn p);
     random := random p; calls := calls p |}.

Definition with_calls (f : list call -> list call) (p : page) : page :=
  {| elements := elements p; charts := charts p; instances := instances p;
     dashboardData := dashboardData p; feedItems := feedItems p;
     feed := feed p; toasts := toasts p; attached := attached p;
     clock := clock p; timers := timers p; drawn := drawn p;
     random := random p; calls := f (calls p) |}.

(** [setTimeout(act, delay)], and the first firing of [setInterval] *)
Definition setTimeout (a : action) (delay : Z) : M page unit :=
  modify (fun p => with_timers (fun ts => (ts ++ [{| due := clock p + delay; act := a |}])%list) p).

Definition record (c : call) : M page unit :=
  modify (with_calls (fun cs => (cs ++ [c])%list)).

Definition present (id : string) : M page bool :=
  p <- get ;; ret (bool_decide (is_Some (elements p !! id))).

(** [if (x) x.name = v], for the element [x] found under [id] *)
Definition assign (id name v : string) : M page unit :=
  modify (with_elements (alter (setp name v) id)).

(** [document.getElementById(id).name = v]: a [TypeError] when there is
    no such element *)
Definition assign_unguarded (id name v : string) : M page unit :=
  there <- present id ;;
  if there then assign id name v
  else throw (TypeError ("Cannot set properties of null (setting '" ++ name ++ "')")).

(** [Math.random()] *)
Definition mathRandom : M page number :=
  p <- get ;;
  modify (with_drawn S) ;;
  ret (random p (drawn p)).

(** [Date.now()], and the time value of [new Date()] *)
Definition now : M page number :=
  p <- get ;; ret (JSNumber.ofZ (clock p)).

Section WithHost.
Context `{Host}.

(** *** Utility functions *)

Definition showLoading (show : bool) : M page unit :=
  record (Loading show) ;;
  modify (with_elements (alter (fun refreshBtn =>
    if show
    then set_disabled true (setp "innerHTML" (icon_html "fas fa-spinner fa-spin" ++ " Loading...") refreshBtn)
    else set_disabled false (setp "innerHTML" (icon_html "fas fa-sync-alt" ++ " Refresh") refreshBtn))
    "refreshFeed")).

(** [colors[type] || colors.info] *)
Definition toastColor (type : string) : string :=
  if String.eqb type "success" then "#4CAF50"
  else if String.eqb type "error" then "#F44336"
  else if String.eqb type "info" then "#2196F3"
  else if String.eqb type "warning" then "#FF9800"
  else "#2196F3".

Definition toastIcon (type : string) : string :=
  if String.eqb type "success" then "check-circle"
  else if String.eqb type "error" then "exclamation-circle"
  else "info-circle".

(** The element [showNotification] creates when the document has none. *)
Definition newToast : element :=
  setp "style.opacity" "0"
    (setp "style.transform" "translateX(100%)"
      (setp "className" "dashboard-notification" blank)).

Definition showNotification (message type : string) : M page unit :=
  record (ConsoleLog (type ++ ": " ++ message)) ;;
  record (Notify message type) ;;
  (* Create or update notification *)
  p <- get ;;
  id <- match attached p with
        | Some id => ret id
        | None =>
            let id := length (toasts p) in
            modify (with_toasts (fun ts => (ts ++ [newToast])%list)) ;;
            modify (with_attached (fun _ => Some id)) ;;
            ret id
        end ;;
  modify (with_toasts (alter (fun e =>
    setp "innerHTML"
      (nl ++ "        " ++ icon_html ("fas fa-" ++ toastIcon type) ++ nl
       ++ "        <span>" ++ message ++ "</span>" ++ nl ++ "    ")
      (setp "style.background" (toastColor type) e)) id)) ;;
  (* Animate in *)
  setTimeout (ToastIn id) 10 ;;
  (* Remove after 3 seconds *)
  setTimeout (ToastOut id) 3000.

(** The time value of [new Date(timestamp)]. *)
Definition dateOf (timestamp : json) : number :=
  match timestamp with
  | JStr s => dateParse s
  | JArr _ | JObj _ => dateParse (toString timestamp)
  | _ =>
      match toNumber timestamp with
      | Fin q =>
          if Qle_bool (Qabs q) (inject_Z 8640000000000000)
          then Fin (inject_Z (Qnum q ÷ Z.pos (Qden q)))
          else NaN
      | _ => NaN
      end
  end.

(** [formatTime(timestamp)], [current] being the time value of the
    [new Date()] it takes. *)
Definition formatTime (current : number) (timestamp : json) : string :=
  if negb (truthy timestamp) then "Just now"
  else
    let date := dateOf timestamp in
    let diffMs := sub current date in
    let diffMins := floor (div diffMs (Fin 60000)) in
    let diffHours := floor (div diffMs (Fin 3600000)) in
    if ltb diffMins (Fin 1) then "Just now"
    else if ltb diffMins (Fin 60) then numberToString diffMins ++ " min ago"
    else if ltb diffHours (Fin 24) then
      numberToString diffHours ++ " hour"
      ++ (if gtb diffHours (Fin 1) then "s" else "") ++ " ago"
    else toLocaleDateString date ++ " " ++ toLocaleTimeString date.

Definition updateLastUpdateTime : M page unit :=
  t <- now ;;
  assign "lastUpdate" "textContent" (toLocaleTimeStringSeconds t).

(** [animateCounter(element, target)]: the interval, with the variables
    its callback closes over. *)
Definition animateCounter (element : string) (target : json) : M page unit :=
  p <- get ;;
  let text := match elements p !! element with
              | Some e => getp "textContent" e
              | None => ""
              end in
  let parsed := JSString.parseInt (JSString.removeCommas text) in
  let current := if JSNumber.truthy parsed then parsed else Fin 0 in
  let increment := ceil (div (sub (toNumber target) current) (Fin 20)) in
  setTimeout (CounterTick element current increment target) 50.

(** *** Statistics *)

Definition updateStats (overview : json) : M page unit :=
  totalPred <- present "totalPredictions" ;;
  accuracyRate <- present "accuracyRate" ;;
  avgResponse <- present "avgResponse" ;;
  highRiskCount <- present "highRiskCount" ;;
  when totalPred (
    total <- lift (prop overview "total_predictions") ;;
    text <- lift (localeString total) ;;
    assign "totalPredictions" "textContent" text ;;
    animateCounter "totalPredictions" total) ;;
  when accuracyRate (
    accuracy <- lift (prop overview "model_accuracy") ;;
    text <- lift (toFixed accuracy) ;;
    assign "accuracyRate" "textContent" (text ++ "%")) ;;
  when avgResponse (
    response <- lift (prop overview "avg_response_time") ;;
    assign "avgResponse" "textContent" (toString (plus response (JStr "s")))) ;;
  p <- get ;;
  match dashboardData p with
  | Some snapshot =>
      (* if (highRiskCount && dashboardData) *)
      when (highRiskCount && truthy snapshot) (
        distribution <- lift (prop snapshot "risk_distribution") ;;
        high <- lift (prop distribution "high") ;;
        let highRisk := or_else high (JNum (Fin 0)) in
        text <- lift (localeString highRisk) ;;
        assign "highRiskCount" "textContent" text)
  | None => ret tt
  end.

(** *** Charts *)

(** [charts.name = new Chart(ctx, { type: kind, data: { labels, datasets:
    [{ data, ... }] }, ... })] *)
Definition createChart (name kind : string) (labels data : json) : M page unit :=
  p <- get ;;
  let instance := length (instances p) in
  modify (with_instances (fun cs =>
    (cs ++ [{| kind := kind; labels := labels; data := data; updates := 0 |}])%list)) ;;
  modify (with_charts <[name := instance]>).

Definition set_data (d : json) (c : chart) : chart :=
  {| kind := kind c; labels := labels c; data := d; updates := updates c |}.
Definition set_labels (l : json) (c : chart) : chart :=
  {| kind := kind c; labels := l; data := data c; updates := updates c |}.
Definition update (c : chart) : chart :=
  {| kind := kind c; labels := labels c; data := data c; updates := S (updates c) |}.

(** [Math.round((count / total) * 100) + '%'] when [total > 0], ['0%']
    otherwise *)
Definition percent (count total : json) : string :=
  if gtb (toNumber total) (Fin 0)
  then toString (plus (JNum (round (mul (div (toNumber count) (toNumber total)) (Fin 100)))) (JStr "%"))
  else "0%".

Definition updateRiskDistributionChart (riskData : json) : M page unit :=
  ctx <- present "riskDistributionChart" ;;
  if negb ctx then ret tt
  else
    low0 <- lift (prop riskData "low") ;;
    let low := or_else low0 (JNum (Fin 0)) in
    medium0 <- lift (prop riskData "medium") ;;
    let medium := or_else medium0 (JNum (Fin 0)) in
    high0 <- lift (prop riskData "high") ;;
    let high := or_else high0 (JNum (Fin 0)) in
    let total := plus (plus low medium) high in
    (* Update percentages *)
    assign_unguarded "lowRiskPercent" "textContent" (percent low total) ;;
    assign_unguarded "mediumRiskPercent" "textContent" (percent medium total) ;;
    assign_unguarded "highRiskPercent" "textContent" (percent high total) ;;
    p <- get ;;
    match charts p !! "riskDistribution" with
    | Some instance =>
        modify (with_instances (alter (set_data (JArr [low; medium; high])) instance)) ;;
        modify (with_instances (alter update instance))
    | None =>
        createChart "riskDistribution" "doughnut"
          (JArr [JStr "Low Risk"; JStr "Medium Risk"; JStr "High Risk"])
          (JArr [low; medium; high])
    end.

Definition features : json :=
  JArr [JStr "Glucose"; JStr "BMI"; JStr "Age"; JStr "Diabetes Pedigree";
        JStr "Blood Pressure"; JStr "Pregnancies"; JStr "Insulin";
        JStr "Skin Thickness"].

Definition importance : json :=
  JArr (map (fun z => JNum (Fin (inject_Z z))) [95; 87; 78; 65; 58; 45; 32; 25]).

Definition updateFeatureImportanceChart : M page unit :=
  ctx <- present "featureImportanceChart" ;;
  if negb ctx then ret tt
  else
    p <- get ;;
    match charts p !! "featureImportance" with
    | Some instance =>
        modify (with_instances (alter (set_data importance) instance)) ;;
        modify (with_instances (alter update instance))
    | None => createChart "featureImportance" "bar" features importance
    end.

(** [Array.from({length: 24}, (_, i) => `${i}:00`)] *)
Definition hourLabels : json :=
  JArr (map (fun i => JStr (JSString.ofZ (Z.of_nat i) ++ ":00")) (seq 0 24)).

(** [Array.from({length: n}, () => Math.floor(Math.random() * 10))] *)
Fixpoint randomCounts (n : nat) : M page (list json) :=
  match n with
  | O => ret []
  | S n' =>
      r <- mathRandom ;;
      rest <- randomCounts n' ;;
      ret (JNum (floor (mul r (Fin 10))) :: rest)
  end.

Definition updateHourlyTrendChart (trendData : json) : M page unit :=
  ctx <- present "hourlyTrendChart" ;;
  if negb ctx then ret tt
  else
    labels0 <- lift (prop trendData "labels") ;;
    let labels := or_else labels0 hourLabels in
    data0 <- lift (prop trendData "data") ;;
    data <- (if truthy data0 then ret data0
             else counts <- randomCounts 24 ;; ret (JArr counts)) ;;
    p <- get ;;
    match charts p !! "hourlyTrend" with
    | Some instance =>
        modify (with_instances (alter (set_labels labels) instance)) ;;
        modify (with_instances (alter (set_data data) instance)) ;;
        modify (with_instances (alter update instance))
    | None => createChart "hourlyTrend" "line" labels data
    end.

Definition updatePerformanceChart (metrics : json) : M page unit :=
  ctx <- present "performanceChart" ;;
  if negb ctx then ret tt
  else
    (* Update metric values *)
    precision <- lift (prop metrics "precision") ;;
    text <- lift (toFixed precision) ;;
    assign_unguarded "precisionValue" "textContent" (text ++ "%") ;;
    recall <- lift (prop metrics "recall") ;;
    text <- lift (toFixed recall) ;;
    assign_unguarded "recallValue" "textContent" (text ++ "%") ;;
    f1_score <- lift (prop metrics "f1_score") ;;
    text <- lift (toFixed f1_score) ;;
    assign_unguarded "f1Value" "textContent" (text ++ "%") ;;
    auc_score <- lift (prop metrics "auc_score") ;;
    let performanceData :=
      JArr [or_else precision (JNum (Fin 92)); or_else recall (JNum (Fin 89));
            or_else f1_score (JNum (Fin 90)); or_else auc_score (JNum (Fin 94))] in
    p <- get ;;
    match charts p !! "performance" with
    | Some instance =>
        modify (with_instances (alter (set_data performanceData) instance)) ;;
        modify (with_instances (alter update instance))
    | None =>
        createChart "performance" "radar"
          (JArr [JStr "Precision"; JStr "Recall"; JStr "F1-Score"; JStr "AUC Score"])
          performanceData
    end.

(** [Object.keys(v)] and [Object.values(v)], for a truthy [v] *)
Definition objectKeys (v : json) : json :=
  match v with
  | JObj fields => JArr (map (fun kv => JStr (fst kv)) (ownProperties fields))
  | JArr items => JArr (map (fun i => JStr (JSString.ofZ (Z.of_nat i))) (seq 0 (length items)))
  | JStr s => JArr (map (fun i => JStr (JSString.ofZ (Z.of_nat i))) (seq 0 (String.length s)))
  | _ => JArr []
  end.

Definition objectValues (v : json) : json :=
  match v with
  | JObj fields => JArr (map snd (ownProperties fields))
  | JArr items => JArr items
  | JStr s => JArr (map (fun c => JStr (String c EmptyString)) (list_ascii_of_string s))
  | _ => JArr []
  end.

Definition defaultAgeGroups : json :=
  JObj [("<30", JNum (Fin 25)); ("30-50", JNum (Fin 45)); (">50", JNum (Fin 30))].

Definition updateAgeDistributionChart (distribution : json) : M page unit :=
  ctx <- present "ageDistributionChart" ;;
  if negb ctx then ret tt
  else
    groups <- lift (prop distribution "age_groups") ;;
    let ageGroups := or_else groups defaultAgeGroups in
    let labels := objectKeys ageGroups in
    let data := objectValues ageGroups in
    p <- get ;;
    match charts p !! "ageDistribution" with
    | Some instance =>
        modify (with_instances (alter (set_labels labels) instance)) ;;
        modify (with_instances (alter (set_data data) instance)) ;;
        modify (with_instances (alter update instance))
    | None => createChart "ageDistribution" "bar" labels data
    end.

Definition updateCharts (data : json) : M page unit :=
  (* Risk Distribution Chart *)
  riskData <- lift (prop data "risk_distribution") ;;
  updateRiskDistributionChart riskData ;;
  (* Feature Importance Chart *)
  updateFeatureImportanceChart ;;
  (* Hourly Trend Chart *)
  trendData <- lift (prop data "hourly_trend") ;;
  updateHourlyTrendChart trendData ;;
  (* Performance Chart *)
  metrics <- lift (prop data "performance_metrics") ;;
  updatePerformanceChart metrics ;;
  (* Age Distribution Chart *)
  distribution <- lift (prop data "feature_distribution") ;;
  updateAgeDistributionChart distribution.

(** *** The prediction feed *)

(** How an awaited request settles: [fetch] rejects, [response.json()]
    rejects, or the body parses. *)
Inductive reply :=
| FetchRejected
| JsonRejected
| Parsed (data : json).

Definition await (url : string) (r : reply) : M page json :=
  record (Fetch url) ;;
  match r with
  | FetchRejected => throw NetworkError
  | JsonRejected => throw SyntaxError
  | Parsed data => ret data
  end.

(** The markup of the empty feed. *)
Definition feedEmptyMarkup : string :=
  nl ++ "            <div class=" ++ dq ++ "feed-empty" ++ dq ++ ">" ++ nl
  ++ "                " ++ icon_html "fas fa-inbox" ++ nl
  ++ "                <p>No predictions yet</p>" ++ nl
  ++ "            </div>" ++ nl ++ "        ".

(** [v.length] *)
Definition lengthOf (v : json) : result json :=
  match v with
  | JArr items => Ok (JNum (JSNumber.ofZ (Z.of_nat (length items))))
  | JStr s => Ok (JNum (JSNumber.ofZ (Z.of_nat (String.length s))))
  | _ => prop v "length"
  end.

(** [v === 0] *)
Definition is_zero_number (v : json) : bool :=
  match v with
  | JNum (Fin q) => is_zero q
  | _ => false
  end.

(** The callback of [predictions.forEach]: one feed item. *)
Definition feedEntry (count : json) (prediction : json) (index : nat) : M page unit :=
  inner <- lift (prop prediction "prediction") ;;
  let predictionData := or_else inner (JObj []) in
  upperGlucose <- lift (prop predictionData "Glucose") ;;
  lowerGlucose <- lift (prop predictionData "glucose") ;;
  let glucose := or_else (or_else upperGlucose lowerGlucose) (JStr "N/A") in
  upperAge <- lift (prop predictionData "Age") ;;
  lowerAge <- lift (prop predictionData "age") ;;
  let age := or_else (or_else upperAge lowerAge) (JStr "N/A") in
  level <- lift (prop prediction "risk_level") ;;
  let riskLevel := or_else level (JStr "unknown") in
  timestamp <- lift (prop prediction "timestamp") ;;
  current <- now ;;
  level_text <- lift (stringReceiver riskLevel "toUpperCase") ;;
  p <- get ;;
  let id := length (feedItems p) in
  modify (with_feedItems (fun l =>
    (l ++ [{| title := "Prediction #"
                ++ numberToString (sub (toNumber count) (JSNumber.ofZ (Z.of_nat index)));
              time := formatTime current timestamp;
              glucose := toString glucose;
              age := toString age;
              badgeClass := "risk-badge " ++ level_text;
              badge := toUpperCase level_text;
              shown := false |}])%list)) ;;
  (* Add animation *)
  setTimeout (FeedShow id) (Z.of_nat index * 100) ;;
  modify (with_feed (fun l => (l ++ [id])%list)).

Fixpoint forEachFrom {A} (index : nat) (l : list A) (f : A -> nat -> M page unit) : M page unit :=
  match l with
  | [] => ret tt
  | a :: rest => f a index ;; forEachFrom (S index) rest f
  end.

(** The body of the asynchronous [updatePredictionFeed]; [r] is how the
    request it makes when it is given no predictions settles, and what
    follows the [await] is run at once. *)
Definition updatePredictionFeed (predictions : json) (r : reply) : M page unit :=
  feedContainer <- present "predictionFeed" ;;
  if negb feedContainer then ret tt
  else
    (* If no predictions provided, fetch from API *)
    predictions <-
      (if truthy predictions then ret predictions
       else
         try_catch
           (data <- await "http://localhost:5000/api/analytics/predictions?limit=5" r ;;
            list <- lift (prop data "predictions") ;;
            ret (or_else list (JArr [])))
           (fun error =>
              record (ConsoleError "Error fetching predictions:") ;;
              ret (JArr []))) ;;
    (* Clear feed *)
    modify (with_feed (fun _ => [])) ;;
    assign "predictionFeed" "innerHTML" "" ;;
    count <- lift (lengthOf predictions) ;;
    if is_zero_number count then
      assign "predictionFeed" "innerHTML" feedEmptyMarkup
    else
      (* Add prediction items *)
      match predictions with
      | JArr items => forEachFrom 0 items (feedEntry count)
      | _ => throw (TypeError "predictions.forEach is not a function")
      end.

(** A call of an [async] function whose promise nobody awaits: what the
    body throws rejects the promise and goes no further. *)
Definition detached (body : M page unit) : M page unit :=
  try_catch body (fun _ => ret tt).

(** *** The refresh cycle *)

Definition updateDashboard (data : json) (feedReply : reply) : M page unit :=
  (* Update stats *)
  overview <- lift (prop data "overview") ;;
  updateStats overview ;;
  (* Update charts *)
  updateCharts data ;;
  (* Update prediction feed *)
  timeline <- lift (prop data "predictions_timeline") ;;
  detached (updatePredictionFeed timeline feedReply).

Definition hourlyLabels : json :=
  JArr (map JStr
    ["00:00"; "01:00"; "02:00"; "03:00"; "04:00"; "05:00"; "06:00"; "07:00";
     "08:00"; "09:00"; "10:00"; "11:00"; "12:00"; "13:00"; "14:00"; "15:00";
     "16:00"; "17:00"; "18:00"; "19:00"; "20:00"; "21:00"; "22:00"; "23:00"]).

Definition hourlyData : json :=
  JArr (map (fun z => JNum (Fin (inject_Z z)))
    [2; 1; 0; 0; 1; 2; 5; 8; 12; 15; 18; 20; 22; 21; 19; 17; 15; 13; 10; 8; 6; 4; 3; 2]).

(** [['low', 'medium', 'high'][i]] *)
Definition riskLevelAt (i : number) : json :=
  match i with
  | Fin q =>
      if Qeq_bool q 0 then JStr "low"
      else if Qeq_bool q 1 then JStr "medium"
      else if Qeq_bool q 2 then JStr "high"
      else JUndefined
  | _ => JUndefined
  end.

(** The body of the loop that generates the sample predictions. *)
Definition samplePrediction (i : Z) : M page json :=
  let hoursAgo := Fin (inject_Z i) in
  current <- now ;;
  let timestamp := toISOString (sub current (mul hoursAgo (Fin 3600000))) in
  r1 <- mathRandom ;;
  r2 <- mathRandom ;;
  r3 <- mathRandom ;;
  ret (JObj [("timestamp", JStr timestamp);
             ("prediction", JObj [("Glucose", JNum (add (Fin 120) (mul r1 (Fin 60))));
                                  ("Age", JNum (add (Fin 30) (mul r2 (Fin 40))))]);
             ("risk_level", riskLevelAt (floor (mul r3 (Fin 3))))]).

Fixpoint samplePredictions (n : nat) (i : Z) : M page (list json) :=
  match n with
  | O => ret []
  | S n' =>
      first <- samplePrediction i ;;
      rest <- samplePredictions n' (i + 1) ;;
      ret (first :: rest)
  end.

(** The object [sampleData], once its predictions are generated.  A
    decimal literal of the script, such as [94.2], is the binary64 value
    nearest to it: the one [parseFloat] gives for its digits. *)
Definition sampleData (timeline : list json) : json :=
  JObj [("overview",
         JObj [("total_predictions", JNum (Fin 1247));
               ("recent_predictions", JNum (Fin 42));
               ("model_accuracy", JNum (JSString.parseFloat "94.2"));
               ("avg_response_time", JNum (JSString.parseFloat "0.3"))]);
        ("risk_distribution",
         JObj [("low", JNum (Fin 560)); ("medium", JNum (Fin 437));
               ("high", JNum (Fin 250))]);
        ("hourly_trend", JObj [("labels", hourlyLabels); ("data", hourlyData)]);
        ("feature_distribution",
         JObj [("age_groups",
                JObj [("<30", JNum (Fin 25)); ("30-50", JNum (Fin 45));
                      (">50", JNum (Fin 30))]);
               ("bmi_categories",
                JObj [("Underweight", JNum (Fin 15)); ("Normal", JNum (Fin 35));
                      ("Overweight", JNum (Fin 30)); ("Obese", JNum (Fin 20))]);
               ("glucose_levels",
                JObj [("Normal", JNum (Fin 40)); ("Prediabetic", JNum (Fin 35));
                      ("Diabetic", JNum (Fin 25))])]);
        ("performance_metrics",
         JObj [("precision", JNum (Fin 92)); ("recall", JNum (Fin 89));
               ("f1_score", JNum (Fin 90)); ("auc_score", JNum (Fin 94))]);
        ("predictions_timeline", JArr timeline)].

Definition loadSampleData (feedReply : reply) : M page unit :=
  record (ConsoleLog "Loading sample data for development") ;;
  (* Generate sample predictions *)
  timeline <- samplePredictions 5 0 ;;
  modify (with_dashboardData (fun _ => Some (sampleData timeline))) ;;
  updateDashboard (sampleData timeline) feedReply ;;
  updateLastUpdateTime.

(** One refresh cycle, over the way its request settles and the way the
    request of the feed, if it makes one, settles. *)
Definition loadDashboardData (r feedReply : reply) : M page unit :=
  try_catch_finally
    (showLoading true ;;
     data <- await "http://localhost:5000/api/analytics/dashboard" r ;;
     error <- lift (prop data "error") ;;
     if truthy error then throw (ThrownError error)
     else
       modify (with_dashboardData (fun _ => Some data)) ;;
       updateDashboard data feedReply ;;
       updateLastUpdateTime ;;
       showNotification "Dashboard updated successfully" "success")
    (fun error =>
       record (ConsoleError "Error loading dashboard data:") ;;
       showNotification "Failed to load dashboard data" "error" ;;
       (* Use sample data if API fails *)
       loadSampleData feedReply)
    (showLoading false).

(** *** The event loop: firing the next timer *)

Definition set_shown (i : feedItem) : feedItem :=
  {| title := title i; time := time i; glucose := glucose i; age := age i;
     badgeClass := badgeClass i; badge := badge i; shown := true |}.

(** What the callback of a timer does; [t] is the timer that fires.  An
    exception a callback throws goes no further. *)
Definition run (t : timer) : M page unit :=
  match act t with
  | ToastIn id =>
      modify (with_toasts (alter (fun e =>
        setp "style.opacity" "1" (setp "style.transform" "translateX(0)" e)) id))
  | ToastOut id =>
      modify (with_toasts (alter (fun e =>
        setp "style.opacity" "0" (setp "style.transform" "translateX(100%)" e)) id)) ;;
      setTimeout (ToastRemove id) 300
  | ToastRemove id =>
      p <- get ;;
      when (bool_decide (attached p = Some id)) (modify (with_attached (fun _ => None)))
  | FeedShow id => modify (with_feedItems (alter set_shown id))
  | CounterTick element current increment goal =>
      let current := add current increment in
      if (gtb increment (Fin 0) && geb current (toNumber goal))
         || (ltb increment (Fin 0) && leb current (toNumber goal))
      then
        (* clearInterval(timer); current = target *)
        match localeString goal with
        | Ok text => assign element "textContent" text
        | Throw _ => ret tt
        end
      else
        assign element "textContent" (toLocaleString current) ;;
        modify (with_timers (fun ts =>
          (ts ++ [{| due := due t + 50;
                     act := CounterTick element current increment goal |}])%list))
  end.

(** One turn of the event loop: the next timer is taken off the pending
    ones, the clock moves to its time and its callback runs. *)
Definition fire_next : M page unit :=
  p <- get ;;
  match earliest (timers p) with
  | None => ret tt
  | Some (t, rest) =>
      modify (with_timers (fun _ => rest)) ;;
      modify (with_clock (fun c => Z.max c (due t))) ;;
      run t
  end.

End WithHost.

End Dashboard.

(** ** A host, and the two pages

    A host to run the scripts on: the conversions of an en-US browser in
    the UTC time zone, as far as integers, ASCII text and ISO 8601 time
    stamps go.  Everything the theorems below state holds for every host;
    this one is where they are tried. *)
Module Browser.
Import JSNumber Json Dom.
Local Open Scope string_scope.
Local Open Scope Z_scope.

Definition upper (c : ascii) : ascii :=
  let n := JSString.code c in
  if (97 <=? n) && (n <=? 122) then ascii_of_N (Z.to_N (n - 32)) else c.

Fixpoint upperCase (s : string) : string :=
  match s with
  | EmptyString => EmptyString
  | String c r => String (upper c) (upperCase r)
  end.

(** [z] on [n] digits, with leading zeros. *)
Fixpoint padded (n : nat) (z : Z) : string :=
  match n with
  | O => ""
  | S n' => padded n' (z / 10) ++ JSString.ofZ (z mod 10)
  end.

(** The digits of a natural number, in groups of three. *)
Fixpoint grouped (fuel : nat) (z : Z) : string :=
  match fuel with
  | O => JSString.ofZ z
  | S fuel' =>
      if z <? 1000 then JSString.ofZ z
      else grouped fuel' (z / 1000) ++ "," ++ padded 3 (z mod 1000)
  end.

Definition integerOf (x : number) : option Z :=
  match x with
  | Fin q => let r := Qred q in
             if Z.pos (Qden r) =? 1 then Some (Qnum r) else None
  | _ => None
  end.

(** A value that is not an integer, to three places at most. *)
Definition places3 (q : Q) : string :=
  let n := Qfloor (Qabs q * 1000 + (1 # 2)) in
  let fraction := n mod 1000 in
  (if Qnum q <? 0 then "-" else "")
  ++ JSString.ofZ (n / 1000)
  ++ (if fraction =? 0 then ""
      else if fraction mod 100 =? 0 then "." ++ padded 1 (fraction / 100)
      else if fraction mod 10 =? 0 then "." ++ padded 2 (fraction / 10)
      else "." ++ padded 3 fraction).

Definition localeNumber (x : number) : string :=
  match integerOf x with
  | Some z => (if z <? 0 then "-" else "") ++ grouped 8 (Z.abs z)
  | None =>
      match x with
      | NaN => "NaN"
      | Inf false => "Infinity"
      | Inf true => "-Infinity"
      | Fin q => places3 q
      end
  end.

(** The days from 1970-01-01 to a date of the Gregorian calendar, and
    back. *)
Definition daysFromCivil (y m d : Z) : Z :=
  let y' := if m <=? 2 then y - 1 else y in
  let era := y' / 400 in
  let yoe := y' - era * 400 in
  let doy := (153 * (m + (if 2 <? m then -3 else 9)) + 2) / 5 + d - 1 in
  let doe := yoe * 365 + yoe / 4 - yoe / 100 + doy in
  era * 146097 + doe - 719468.

Definition civilFromDays (z : Z) : Z * Z * Z :=
  let z' := z + 719468 in
  let era := z' / 146097 in
  let doe := z' - era * 146097 in
  let yoe := (doe - doe / 1460 + doe / 36524 - doe / 146096) / 365 in
  let doy := doe - (365 * yoe + yoe / 4 - yoe / 100) in
  let mp := (5 * doy + 2) / 153 in
  let d := doy - (153 * mp + 2) / 5 + 1 in
  let m := if mp <? 10 then mp + 3 else mp - 9 in
  let y := yoe + era * 400 in
  (if m <=? 2 then y + 1 else y, m, d).

(** The number [n] digits at the head of [s] spell, and what follows. *)
Fixpoint number_of (n : nat) (s : string) (acc : Z) : option (Z * string) :=
  match n with
  | O => Some (acc, s)
  | S n' =>
      match s with
      | String c r =>
          if JSString.isDigit c then number_of n' r (10 * acc + JSString.digitVal c)
          else None
      | EmptyString => None
      end
  end.

Definition expect (c : string) (s : string) : option string :=
  if String.prefix c s then Some (String.substring (String.length c) (String.length s) s)
  else None.

(** [YYYY-MM-DDTHH:MM:SS.sssZ], as milliseconds from the epoch. *)
Definition parseISO (s : string) : number :=
  let parsed :=
    '(y, s) ← number_of 4 s 0; s ← expect "-" s;
    '(m, s) ← number_of 2 s 0; s ← expect "-" s;
    '(d, s) ← number_of 2 s 0; s ← expect "T" s;
    '(h, s) ← number_of 2 s 0; s ← expect ":" s;
    '(mi, s) ← number_of 2 s 0; s ← expect ":" s;
    '(sec, s) ← number_of 2 s 0; s ← expect "." s;
    '(ms, s) ← number_of 3 s 0;
    if String.eqb s "Z"
    then Some ((((daysFromCivil y m d * 24 + h) * 60 + mi) * 60 + sec) * 1000 + ms)
    else None in
  match parsed with
  | Some t => JSNumber.ofZ t
  | None => NaN
  end.

Definition printISO (x : number) : string :=
  match integerOf x with
  | Some t =>
      let '(y, m, d) := civilFromDays (t / 86400000) in
      let r := t mod 86400000 in
      padded 4 y ++ "-" ++ padded 2 m ++ "-" ++ padded 2 d ++ "T"
      ++ padded 2 (r / 3600000) ++ ":" ++ padded 2 (r / 60000 mod 60) ++ ":"
      ++ padded 2 (r / 1000 mod 60) ++ "." ++ padded 3 (r mod 1000) ++ "Z"
  | None => "Invalid Date"
  end.

Definition localeDate (x : number) : string :=
  match integerOf x with
  | Some t =>
      let '(y, m, d) := civilFromDays (t / 86400000) in
      JSString.ofZ m ++ "/" ++ JSString.ofZ d ++ "/" ++ JSString.ofZ y
  | None => "Invalid Date"
  end.

Definition localeTime (seconds : bool) (x : number) : string :=
  match integerOf x with
  | Some t =>
      let r := t mod 86400000 in
      let h := r / 3600000 in
      let h12 := if h mod 12 =? 0 then 12 else h mod 12 in
      padded 2 h12 ++ ":" ++ padded 2 (r / 60000 mod 60)
      ++ (if seconds then ":" ++ padded 2 (r / 1000 mod 60) else "")
      ++ (if h <? 12 then " AM" else " PM")
  | None => "Invalid Date"
  end.

(** StringToNumber, for the strings that are a decimal literal between
    white space: the empty string is [0]. *)
Definition numberOfString (s : string) : number :=
  let t := JSString.trim s in
  if String.eqb t "" then Fin 0 else JSString.parseFloat t.

(** A percentage that is not negative, in decimal digits with an
    optional fraction. *)
Definition percentage (s : string) : bool :=
  let '(_, n, r) := JSString.digits s 0 0 in
  if n =? 0 then false
  else
    match r with
    | String "." fraction =>
        let '(_, m, r') := JSString.digits fraction 0 0 in
        negb (m =? 0) && String.eqb r' "%"
    | _ => String.eqb r "%"
    end.

#[export] Instance host : Host :=
  {| decimalToString := places3;
     toLocaleString := localeNumber;
     toUpperCase := upperCase;
     stringToNumber := numberOfString;
     dateParse := parseISO;
     toISOString := printISO;
     toLocaleDateString := localeDate;
     toLocaleTimeString := localeTime false;
     toLocaleTimeStringSeconds := localeTime true;
     isWidth := percentage |}.

(** An element with a text. *)
Definition labelled (text : string) : element := setp "textContent" text blank.

(** The form page: the elements [script.js] looks up, one button to
    predict, nothing shown yet. *)
Definition formPage : Script.page :=
  {| Script.elements :=
       list_to_map
         [(".result-placeholder", setp "style.display" "block" blank);
          ("resultContent", setp "style.display" "none" blank);
          ("predictionLabel", blank); ("riskBadge", blank);
          ("confidenceValue", blank); ("meterFill", blank);
          ("nonDiabeticProb", blank); ("diabeticProb", blank);
          ("adviceList", blank); ("shareResult", blank);
          ("downloadResult", blank);
          ("counter", setp "data-target" "1000" (labelled "0"))];
     Script.buttons :=
       [setp "innerHTML" (icon_html "fas fa-calculator" ++ " Predict Diabetes Risk") blank];
     Script.toasts := [];
     Script.attached := None;
     Script.clock := 0;
     Script.timers := [];
     Script.calls := [] |}.

(** The analytics page: the elements [dashboard.js] looks up, no chart
    yet, at noon on 1 January 2024, with a [Math.random] that returns one
    half every time. *)
Definition dashboardPage : Dashboard.page :=
  {| Dashboard.elements :=
       list_to_map
         (map (fun id => (id, blank))
            ["totalPredictions"; "accuracyRate"; "avgResponse"; "highRiskCount";
             "riskDistributionChart"; "lowRiskPercent"; "mediumRiskPercent";
             "highRiskPercent"; "featureImportanceChart"; "hourlyTrendChart";
             "performanceChart"; "precisionValue"; "recallValue"; "f1Value";
             "ageDistributionChart"; "predictionFeed"; "refreshFeed";
             "lastUpdate"]);
     Dashboard.charts := ∅;
     Dashboard.instances := [];
     Dashboard.dashboardData := None;
     Dashboard.feedItems := [];
     Dashboard.feed := [];
     Dashboard.toasts := [];
     Dashboard.attached := None;
     Dashboard.clock := 1704110400000;
     Dashboard.timers := [];
     Dashboard.drawn := O;
     Dashboard.random := fun _ => Fin (1 # 2);
     Dashboard.calls := [] |}.

(** A form that passes validation, and a response of the documented
    shape. *)
Definition validForm : Script.formData :=
  [("Pregnancies", "2"); ("Glucose", "100"); ("BloodPressure", "70");
   ("BMI", "22"); ("Age", "30")].

Definition successResponse : json :=
  JObj [("status", JStr "success");
        ("prediction_label", JStr "Non-Diabetic");
        ("risk_level", JStr "low");
        ("confidence", JObj [("diabetic", JNum (JSString.parseFloat "12.5"));
                             ("non_diabetic", JNum (JSString.parseFloat "87.5"))]);
        ("health_advice", JArr [JStr "Maintain a balanced diet";
                                JStr "Exercise regularly"])].

End Browser.

(** ** Facts on numbers *)
Module NumberFacts.
Import JSNumber.

Lemma pow2_pos e : (0 < pow2 e)%Q.
Proof. unfold pow2. apply Qpower_0_lt. reflexivity. Qed.

Lemma pow2_add x y : (pow2 (x + y) == pow2 x * pow2 y)%Q.
Proof. unfold pow2. apply Qpower_plus. discriminate. Qed.

Lemma pow2_opp x : (pow2 (- x) == / pow2 x)%Q.
Proof. unfold pow2. apply Qpower_opp. Qed.

Lemma pow2_inject e : 0 <= e -> (pow2 e == inject_Z (2 ^ e))%Q.
Proof. intros. unfold pow2. symmetry. apply (Zpower_Qpower 2 e). assumption. Qed.

Lemma pow2_succ e : (pow2 (e + 1) == 2 * pow2 e)%Q.
Proof. rewrite pow2_add. unfold pow2 at 2. simpl. ring. Qed.

Lemma pow2_le x y : x <= y -> (pow2 x <= pow2 y)%Q.
Proof.
  intros. unfold pow2. apply Qpower_le_compat_l; [assumption | discriminate].
Qed.

Lemma pow2_lt x y : x < y -> (pow2 x < pow2 y)%Q.
Proof.
  intros. unfold pow2. apply Qpower_lt_compat_l; [assumption | reflexivity].
Qed.

Lemma pow2_lt_inv x y : (pow2 x < pow2 y)%Q -> x < y.
Proof.
  intros Hlt. destruct (Z_lt_le_dec x y) as [?|Hge]; [assumption|].
  apply pow2_le in Hge. lra.
Qed.

Lemma scale2_inject z e :
  (inject_Z (scale2 z e) == inject_Z z * pow2 (Z.max 0 e))%Q.
Proof.
  unfold scale2. rewrite inject_Z_mult, pow2_inject by lia. reflexivity.
Qed.

Lemma pow2_split e : (pow2 e == pow2 (Z.max 0 e) * / pow2 (Z.max 0 (- e)))%Q.
Proof.
  rewrite <- pow2_opp, <- pow2_add. f_equiv. lia.
Qed.


(** *** Rounding a quotient to the nearest integer *)

Lemma rne_bound x y :
  0 <= x -> 0 < y ->
  2 * rne x y * y - y <= 2 * x <= 2 * rne x y * y + y.
Proof.
  intros Hx Hy. unfold rne.
  pose proof (Z.div_mod x y ltac:(lia)) as Hdm.
  pose proof (Z.mod_pos_bound x y Hy) as Hr.
  destruct (Z.compare_spec (2 * (x mod y)) y) as [E|L|G].
  - destruct (Z.even (x / y)); nia.
  - nia.
  - nia.
Qed.

Lemma rne_exact x y : 0 < y -> x mod y = 0 -> rne x y = x / y.
Proof.
  intros Hy Hr. unfold rne. rewrite Hr.
  destruct (Z.compare_spec (2 * 0) y); lia.
Qed.

Lemma rne_nonneg x y : 0 <= x -> 0 < y -> 0 <= rne x y.
Proof.
  intros Hx Hy. unfold rne.
  pose proof (Z.div_pos x y Hx Hy).
  destruct (2 * (x mod y) ?= y); [destruct (Z.even (x / y))| |]; lia.
Qed.

(** The same bound on the rationals. *)
Lemma rne_error x y :
  0 <= x -> 0 < y ->
  (Qabs (inject_Z (rne x y) - inject_Z x / inject_Z y) <= 1 # 2)%Q.
Proof.
  intros Hx Hy. pose proof (rne_bound x y Hx Hy) as [Hlo Hhi].
  assert (Hyq : (0 < inject_Z y)%Q)
    by (change (inject_Z 0 < inject_Z y)%Q; rewrite <- Zlt_Qlt; assumption).
  apply Qabs_Qle_condition.
  assert (Hlo' : (2 * inject_Z (rne x y) * inject_Z y - inject_Z y <= 2 * inject_Z x)%Q).
  { rewrite Zle_Qle in Hlo. unfold Z.sub in Hlo.
    rewrite inject_Z_plus, inject_Z_opp, !inject_Z_mult in Hlo. exact Hlo. }
  assert (Hhi' : (2 * inject_Z x <= 2 * inject_Z (rne x y) * inject_Z y + inject_Z y)%Q).
  { rewrite Zle_Qle in Hhi. rewrite inject_Z_plus, !inject_Z_mult in Hhi. exact Hhi. }
  set (m := inject_Z (rne x y)) in *. set (X := inject_Z x) in *. set (Y := inject_Z y) in *.
  assert (HXY : (X == (X / Y) * Y)%Q) by (field; lra).
  set (R := (X / Y)%Q) in *.
  split.
  - apply Qnot_lt_le. intros Hc.
    assert ((R - m - (1#2)) * Y > 0)%Q by (apply Qmult_lt_0_compat; lra).
    nra.
  - apply Qnot_lt_le. intros Hc.
    assert ((m - R - (1#2)) * Y > 0)%Q by (apply Qmult_lt_0_compat; lra).
    nra.
Qed.


(** *** The binary exponent of a positive rational *)

Lemma inject_Z_pos z : 0 < z -> (0 < inject_Z z)%Q.
Proof. intros. change (inject_Z 0 < inject_Z z)%Q. rewrite <- Zlt_Qlt. assumption. Qed.

Lemma log2_bounds a :
  0 < a -> (pow2 (Z.log2 a) <= inject_Z a /\ inject_Z a < 2 * pow2 (Z.log2 a))%Q.
Proof.
  intros Ha. pose proof (Z.log2_spec a Ha) as [Hlo Hhi].
  pose proof (Z.log2_nonneg a) as Hnn.
  rewrite <- pow2_succ, !pow2_inject by lia.
  rewrite <- Zle_Qle, <- Zlt_Qlt. split; [assumption|]. exact Hhi.
Qed.

Lemma scale2_lt a b l :
  0 < b ->
  scale2 a (- l) < scale2 b l <-> (inject_Z a < pow2 l * inject_Z b)%Q.
Proof.
  intros Hb. rewrite Zlt_Qlt, !scale2_inject.
  pose proof (pow2_split l) as Hs.
  pose proof (pow2_pos (Z.max 0 l)) as H1.
  pose proof (pow2_pos (Z.max 0 (- l))) as H2.
  set (P := pow2 (Z.max 0 l)) in *. set (N := pow2 (Z.max 0 (- l))) in *.
  rewrite Hs. set (A := inject_Z a). set (B := inject_Z b).
  assert (E : (P * / N * B == (B * P) / N)%Q) by (field; lra).
  rewrite E. split; intros Hlt.
  - apply Qlt_shift_div_l; [assumption|]. exact Hlt.
  - apply (Qmult_lt_r _ _ (/ N)); [apply Qinv_lt_0_compat; assumption|].
    assert (E2 : (A * N * / N == A)%Q) by (field; lra).
    rewrite E2. exact Hlt.
Qed.

Lemma ilog2_spec a b :
  0 < a -> 0 < b ->
  (pow2 (ilog2 a b) * inject_Z b <= inject_Z a
   /\ inject_Z a < pow2 (ilog2 a b + 1) * inject_Z b)%Q.
Proof.
  intros Ha Hb. unfold ilog2.
  pose proof (log2_bounds a Ha) as [Ha1 Ha2].
  pose proof (log2_bounds b Hb) as [Hb1 Hb2].
  pose proof (pow2_pos (Z.log2 a)) as Hpa. pose proof (pow2_pos (Z.log2 b)) as Hpb.
  set (l := Z.log2 a - Z.log2 b).
  assert (El : (pow2 l * pow2 (Z.log2 b) == pow2 (Z.log2 a))%Q).
  { rewrite <- pow2_add. f_equiv. unfold l. lia. }
  pose proof (pow2_pos l) as Hpl.
  pose proof (inject_Z_pos b Hb) as HB.
  set (A := inject_Z a) in *. set (B := inject_Z b) in *.
  set (pa := pow2 (Z.log2 a)) in *. set (pb := pow2 (Z.log2 b)) in *.
  destruct (Z.ltb_spec (scale2 a (- l)) (scale2 b l)) as [Hlt|Hge].
  - apply scale2_lt in Hlt; [|assumption]. fold A B in Hlt.
    replace (l - 1 + 1) with l by lia.
    split; [|assumption].
    assert (E1 : (pow2 l == 2 * pow2 (l - 1))%Q).
    { rewrite <- pow2_succ. f_equiv. lia. }
    pose proof (pow2_pos (l - 1)) as Hp1. set (p1 := pow2 (l - 1)) in *.
    assert (0 < p1 * (2 * pb - B))%Q by (apply Qmult_lt_0_compat; lra).
    nra.
  - assert (Hnlt : ~ (A < pow2 l * B)%Q).
    { intros Hc. apply scale2_lt in Hc; [lia|assumption]. }
    split; [lra|].
    rewrite pow2_succ. set (pl := pow2 l) in *.
    assert (0 <= pl * (B - pb))%Q by (apply Qmult_le_0_compat; lra).
    nra.
Qed.


(** *** The mantissa and its error *)

Lemma scaled_ratio a b e :
  0 < b ->
  (inject_Z (scale2 a (- e)) / inject_Z (scale2 b e)
   == inject_Z a / inject_Z b * / pow2 e)%Q.
Proof.
  intros Hb. rewrite !scale2_inject.
  pose proof (pow2_split e) as Hs.
  pose proof (pow2_pos (Z.max 0 e)) as H1.
  pose proof (pow2_pos (Z.max 0 (- e))) as H2.
  pose proof (inject_Z_pos b Hb) as HB.
  rewrite Hs. field. repeat split; lra.
Qed.

Lemma scale2_pos z e : 0 < z -> 0 < scale2 z e.
Proof. intros. unfold scale2. apply Z.mul_pos_pos; [assumption|]. apply Z.pow_pos_nonneg; lia. Qed.

Lemma mantissa_error a b :
  0 < a -> 0 < b ->
  (Qabs (inject_Z (mantissa a b) * pow2 (ulp_exp a b) - inject_Z a / inject_Z b)
   <= pow2 (ulp_exp a b) * (1 # 2))%Q.
Proof.
  intros Ha Hb. unfold mantissa. set (e := ulp_exp a b).
  pose proof (rne_error (scale2 a (- e)) (scale2 b e)
                ltac:(pose proof (scale2_pos a (- e) Ha); lia)
                (scale2_pos b e Hb)) as Herr.
  rewrite scaled_ratio in Herr by assumption.
  set (m := inject_Z (rne (scale2 a (- e)) (scale2 b e))) in *.
  set (R := (inject_Z a / inject_Z b)%Q) in *.
  pose proof (pow2_pos e) as Hpe. set (pe := pow2 e) in *.
  apply Qabs_Qle_condition in Herr. destruct Herr as [Hlo Hhi].
  apply Qabs_Qle_condition.
  assert (E : (m * pe - R == (m - R * / pe) * pe)%Q) by (field; lra).
  rewrite E. split.
  - assert (0 <= (m - R * / pe + (1 # 2)) * pe)%Q by (apply Qmult_le_0_compat; lra). lra.
  - assert (0 <= ((1 # 2) - (m - R * / pe)) * pe)%Q by (apply Qmult_le_0_compat; lra). lra.
Qed.

Lemma mantissa_nonneg a b : 0 < a -> 0 < b -> 0 <= mantissa a b.
Proof.
  intros Ha Hb. unfold mantissa. apply rne_nonneg.
  - pose proof (scale2_pos a (- ulp_exp a b) Ha). lia.
  - apply scale2_pos. assumption.
Qed.

(** In the normal range the exponent is 52 below the leading bit. *)
Lemma ulp_exp_normal a b :
  0 < a -> 0 < b ->
  (pow2 (-1022) * inject_Z b <= inject_Z a)%Q ->
  ulp_exp a b = ilog2 a b - 52.
Proof.
  intros Ha Hb Hn. pose proof (ilog2_spec a b Ha Hb) as [_ Hhi].
  pose proof (inject_Z_pos b Hb) as HB.
  assert (Hlt : (pow2 (-1022) < pow2 (ilog2 a b + 1))%Q).
  { apply Qnot_le_lt. intros Hc.
    assert (0 <= (pow2 (-1022) - pow2 (ilog2 a b + 1)) * inject_Z b)%Q
      by (apply Qmult_le_0_compat; lra).
    lra. }
  apply pow2_lt_inv in Hlt. unfold ulp_exp. lia.
Qed.

Lemma ilog2_upper a b k :
  0 < a -> 0 < b ->
  (inject_Z a < pow2 k * inject_Z b)%Q -> ilog2 a b < k.
Proof.
  intros Ha Hb Hlt. pose proof (ilog2_spec a b Ha Hb) as [Hlo _].
  pose proof (inject_Z_pos b Hb) as HB.
  apply pow2_lt_inv. apply Qnot_le_lt. intros Hc.
  assert (0 <= (pow2 (ilog2 a b) - pow2 k) * inject_Z b)%Q
    by (apply Qmult_le_0_compat; lra).
  lra.
Qed.

Lemma ilog2_lower a b k :
  0 < a -> 0 < b ->
  (pow2 k * inject_Z b <= inject_Z a)%Q -> k <= ilog2 a b.
Proof.
  intros Ha Hb Hle. pose proof (ilog2_spec a b Ha Hb) as [_ Hhi].
  pose proof (inject_Z_pos b Hb) as HB.
  assert (Hlt : (pow2 k < pow2 (ilog2 a b + 1))%Q).
  { apply Qnot_le_lt. intros Hc.
    assert (0 <= (pow2 k - pow2 (ilog2 a b + 1)) * inject_Z b)%Q
      by (apply Qmult_le_0_compat; lra).
    lra. }
  apply pow2_lt_inv in Hlt. lia.
Qed.


(** *** Rounding to binary64 *)

Lemma Q_ratio n d : (n # d == inject_Z n / inject_Z (Z.pos d))%Q.
Proof. apply Qmake_Qdiv. Qed.

Lemma ratio_le_iff n d c :
  (c <= n # d)%Q <-> (c * inject_Z (Z.pos d) <= inject_Z n)%Q.
Proof.
  rewrite Q_ratio. pose proof (inject_Z_pos (Z.pos d) eq_refl) as HB.
  split; intros Hc.
  - apply (Qmult_le_r _ _ (/ inject_Z (Z.pos d))); [apply Qinv_lt_0_compat; assumption|].
    assert (E : (c * inject_Z (Z.pos d) * / inject_Z (Z.pos d) == c)%Q) by (field; lra).
    rewrite E. exact Hc.
  - apply (Qmult_le_r _ _ (/ inject_Z (Z.pos d))) in Hc; [|apply Qinv_lt_0_compat; assumption].
    assert (E : (c * inject_Z (Z.pos d) * / inject_Z (Z.pos d) == c)%Q) by (field; lra).
    rewrite E in Hc. exact Hc.
Qed.

Lemma ratio_lt_iff n d c :
  (n # d < c)%Q <-> (inject_Z n < c * inject_Z (Z.pos d))%Q.
Proof.
  pose proof (ratio_le_iff n d c) as Hle.
  split; intros Hc.
  - apply Qnot_le_lt. intros Hn. apply Hle in Hn. lra.
  - apply Qnot_le_lt. intros Hn. apply Hle in Hn. lra.
Qed.

(** A positive rational in the normal range rounds to a finite value, off
    by at most half a unit in the last place. *)
Lemma round64_pos n d :
  0 < n ->
  (pow2 (-1022) <= n # d)%Q -> (n # d < pow2 1023)%Q ->
  exists r, round64 (n # d) = Fin r
            /\ (Qabs (r - (n # d)) <= (n # d) * pow2 (-53))%Q.
Proof.
  intros Hn Hlo Hhi.
  apply ratio_le_iff in Hlo. apply ratio_lt_iff in Hhi.
  pose proof (ulp_exp_normal n (Z.pos d) Hn eq_refl Hlo) as He.
  pose proof (ilog2_upper n (Z.pos d) 1023 Hn eq_refl Hhi) as Hl.
  pose proof (ilog2_spec n (Z.pos d) Hn eq_refl) as [Hl1 _].
  apply ratio_le_iff in Hl1.
  pose proof (mantissa_error n (Z.pos d) Hn eq_refl) as Herr.
  rewrite <- Q_ratio in Herr.
  unfold round64. cbn [Qnum Qden]. rewrite (Z.abs_eq n) by lia.
  destruct (Z.eqb_spec n 0) as [?|_]; [lia|].
  set (e := ulp_exp n (Z.pos d)) in *. set (m := mantissa n (Z.pos d)) in *.
  destruct (Z.ltb_spec 971 e) as [?|_]; [lia|].
  destruct (Z.eqb_spec e 971) as [?|_]; [lia|].
  cbn [orb andb].
  eexists. split; [reflexivity|].
  rewrite Qred_correct. rewrite (Z.sgn_pos n) by lia. rewrite Z.mul_1_l.
  eapply Qle_trans; [exact Herr|].
  assert (E : (pow2 e * (1 # 2) == pow2 (ilog2 n (Z.pos d)) * pow2 (-53))%Q).
  { rewrite He. replace (ilog2 n (Z.pos d) - 52) with (ilog2 n (Z.pos d) + (-53) + 1) by lia.
    rewrite pow2_succ, pow2_add. ring. }
  rewrite E. apply Qmult_le_compat_r; [assumption|]. apply Qlt_le_weak, pow2_pos.
Qed.

(** Rounding commutes with the change of sign. *)
Lemma round64_opp q : round64 (- q) = neg (round64 q).
Proof.
  destruct q as [n d]. unfold round64. cbn [Qopp Qnum Qden].
  rewrite Z.abs_opp.
  destruct (Z.eqb_spec (Z.abs n) 0) as [E0|N0]; [reflexivity|].
  set (e := ulp_exp (Z.abs n) (Z.pos d)). set (m := mantissa (Z.abs n) (Z.pos d)).
  destruct ((971 <? e) || (e =? 971) && (2 ^ 53 <=? m)).
  - cbn [neg]. f_equal.
    destruct (Z.ltb_spec (- n) 0), (Z.ltb_spec n 0); try reflexivity; lia.
  - cbn [neg]. f_equal. apply Qred_complete.
    rewrite Qred_correct. rewrite Z.sgn_opp, Z.mul_opp_l, inject_Z_opp. ring.
Qed.

Lemma round64_normal q :
  (pow2 (-1022) <= Qabs q)%Q -> (Qabs q < pow2 1023)%Q ->
  exists r, round64 q = Fin r /\ (Qabs (r - q) <= Qabs q * pow2 (-53))%Q.
Proof.
  intros Hlo Hhi. pose proof (pow2_pos (-1022)) as Hp.
  destruct q as [n d].
  destruct (Z.lt_trichotomy n 0) as [Hneg|[Hz|Hpos]].
  - assert (Hq : (Qabs (n # d) == (- n) # d)%Q).
    { rewrite Qabs_neg; [reflexivity|]. unfold Qle; simpl; lia. }
    rewrite Hq in Hlo, Hhi.
    destruct (round64_pos (- n) d ltac:(lia) Hlo Hhi) as [r [Hr Hb]].
    change ((- n) # d) with (- (n # d))%Q in Hr. rewrite round64_opp in Hr.
    destruct (round64 (n # d)) as [| |r']; try discriminate.
    cbn [neg] in Hr. injection Hr as Hr. exists r'. split; [reflexivity|].
    assert (Er : (r == - r')%Q) by (rewrite <- Hr; apply Qred_correct).
    rewrite Er in Hb. change ((- n) # d) with (- (n # d))%Q in Hb.
    assert (E : (- r' - - (n # d) == - (r' - (n # d)))%Q) by ring.
    rewrite E, Qabs_opp in Hb. rewrite Hq. exact Hb.
  - subst n. assert (Hq : (Qabs (0 # d) == 0)%Q) by reflexivity.
    rewrite Hq in Hlo. lra.
  - assert (Hq : (Qabs (n # d) == n # d)%Q).
    { rewrite Qabs_pos; [reflexivity|]. unfold Qle; simpl; lia. }
    rewrite Hq in Hlo, Hhi.
    destruct (round64_pos n d Hpos Hlo Hhi) as [r [Hr Hb]].
    exists r. split; [assumption|]. rewrite Hq. exact Hb.
Qed.


Lemma Qred_inject_Z z : Qred (inject_Z z) = inject_Z z.
Proof. apply Qred_identity. simpl. apply Z.gcd_1_r. Qed.

(** An integer below [2^53] in magnitude is a binary64 value: rounding
    leaves it as it is. *)
Lemma round64_int q z :
  Z.abs z < 2 ^ 53 -> (q == inject_Z z)%Q -> round64 q = Fin (inject_Z z).
Proof.
  intros Hz Hq. destruct q as [n d].
  assert (Hn : n = z * Z.pos d).
  { unfold Qeq in Hq. simpl in Hq. lia. }
  unfold round64. cbn [Qnum Qden].
  destruct (Z.eqb_spec (Z.abs n) 0) as [E0|N0].
  - assert (z = 0) by nia. subst z. reflexivity.
  - assert (Hz0 : z <> 0) by (intros ->; lia).
    assert (Ha : Z.abs n = Z.abs z * Z.pos d) by (rewrite Hn, Z.abs_mul; lia).
    assert (Hapos : 0 < Z.abs n) by lia.
    assert (Hl0 : 0 <= ilog2 (Z.abs n) (Z.pos d)).
    { apply ilog2_lower; [assumption|reflexivity|].
      rewrite Ha, inject_Z_mult. change (pow2 0) with 1%Q.
      assert (1 <= inject_Z (Z.abs z))%Q.
      { change 1%Q with (inject_Z 1). rewrite <- Zle_Qle. lia. }
      pose proof (inject_Z_pos (Z.pos d) eq_refl).
      assert (0 <= (inject_Z (Z.abs z) - 1) * inject_Z (Z.pos d))%Q
        by (apply Qmult_le_0_compat; lra).
      lra. }
    assert (Hl1 : ilog2 (Z.abs n) (Z.pos d) < 53).
    { apply ilog2_upper; [assumption|reflexivity|].
      rewrite Ha, inject_Z_mult, pow2_inject by lia.
      assert (inject_Z (Z.abs z) < inject_Z (2 ^ 53))%Q by (rewrite <- Zlt_Qlt; assumption).
      pose proof (inject_Z_pos (Z.pos d) eq_refl).
      assert (0 < (inject_Z (2 ^ 53) - inject_Z (Z.abs z)) * inject_Z (Z.pos d))%Q
        by (apply Qmult_lt_0_compat; lra).
      lra. }
    assert (He : ulp_exp (Z.abs n) (Z.pos d) = ilog2 (Z.abs n) (Z.pos d) - 52)
      by (unfold ulp_exp; lia).
    assert (Hm : mantissa (Z.abs n) (Z.pos d)
                 = Z.abs z * 2 ^ (52 - ilog2 (Z.abs n) (Z.pos d))).
    { unfold mantissa. rewrite He. set (l := ilog2 (Z.abs n) (Z.pos d)) in *.
      unfold scale2. rewrite (Z.max_r 0 (- (l - 52))) by lia.
      rewrite (Z.max_l 0 (l - 52)) by lia.
      change (2 ^ 0) with 1. rewrite Z.mul_1_r.
      replace (- (l - 52)) with (52 - l) by lia.
      rewrite Ha.
      replace (Z.abs z * Z.pos d * 2 ^ (52 - l))
        with (Z.abs z * 2 ^ (52 - l) * Z.pos d) by ring.
      rewrite rne_exact; [|reflexivity|apply Z.mod_mul; lia].
      apply Z.div_mul. lia. }
    rewrite He, Hm. set (l := ilog2 (Z.abs n) (Z.pos d)) in *.
    destruct (Z.ltb_spec 971 (l - 52)) as [?|_]; [lia|].
    destruct (Z.eqb_spec (l - 52) 971) as [?|_]; [lia|].
    cbn [orb andb]. f_equal.
    rewrite <- (Qred_inject_Z z). apply Qred_complete.
    assert (Hs : Z.sgn n = Z.sgn z).
    { rewrite Hn, Z.sgn_mul. simpl. lia. }
    rewrite Hs.
    replace (Z.sgn z * (Z.abs z * 2 ^ (52 - l))) with (z * 2 ^ (52 - l))
      by (rewrite Z.mul_assoc, (Z.mul_comm (Z.sgn z)), Z.abs_sgn; reflexivity).
    rewrite inject_Z_mult, <- pow2_inject by lia.
    rewrite <- Qmult_assoc, <- pow2_add.
    replace (52 - l + (l - 52)) with 0 by lia. change (pow2 0) with 1%Q. ring.
Qed.

Lemma ofZ_exact z : Z.abs z < 2 ^ 53 -> JSNumber.ofZ z = Fin (inject_Z z).
Proof. intros. apply round64_int; [assumption|reflexivity]. Qed.

Lemma Qfloor_unique r k :
  (inject_Z k <= r)%Q -> (r < inject_Z (k + 1))%Q -> Qfloor r = k.
Proof.
  intros Hlo Hhi. pose proof (Qfloor_le r) as H1. pose proof (Qlt_floor r) as H2.
  assert (Ha : (inject_Z (Qfloor r) < inject_Z (k + 1))%Q) by lra.
  assert (Hb : (inject_Z k < inject_Z (Qfloor r + 1))%Q) by lra.
  rewrite <- Zlt_Qlt in Ha, Hb. lia.
Qed.


(** *** Quotients of integers *)

Lemma inject_Z_nonneg z : 0 <= z -> (0 <= inject_Z z)%Q.
Proof. intros. change (inject_Z 0 <= inject_Z z)%Q. rewrite <- Zle_Qle. assumption. Qed.

(** The floor of a rounded quotient of integers is the quotient of
    Euclidean division, as long as the dividend is below [2^53]. *)
Lemma floor_quotient a b q :
  Z.abs a < 2 ^ 53 -> 0 < b -> b <= 2 ^ 1022 ->
  (q == inject_Z a / inject_Z b)%Q ->
  exists r, round64 q = Fin r /\ Qfloor r = a / b.
Proof.
  intros Ha Hb Hb' Hq.
  pose proof (Z.div_mod a b ltac:(lia)) as Hdm.
  pose proof (Z.mod_pos_bound a b Hb) as Hrm.
  pose proof (inject_Z_pos b Hb) as HB.
  assert (HA : (inject_Z a == inject_Z b * inject_Z (a / b) + inject_Z (a mod b))%Q).
  { rewrite <- inject_Z_mult, <- inject_Z_plus, <- Hdm. reflexivity. }
  destruct (Z.eq_dec (a mod b) 0) as [E0|N0].
  - exists (inject_Z (a / b)). split; [|apply Qfloor_Z].
    apply round64_int.
    + rewrite E0, Z.add_0_r in Hdm. nia.
    + rewrite Hq, HA, E0. field. lra.
  - assert (Hrm1 : (1 <= inject_Z (a mod b))%Q).
    { change 1%Q with (inject_Z 1). rewrite <- Zle_Qle. lia. }
    assert (Hrm2 : (inject_Z (a mod b) <= inject_Z b - 1)%Q).
    { change 1%Q with (inject_Z 1). unfold Qminus. rewrite <- inject_Z_opp, <- inject_Z_plus, <- Zle_Qle. lia. }
    assert (Ha0 : a <> 0) by (intros ->; rewrite Z.mod_0_l in N0; lia).
    assert (HabsA : (1 <= inject_Z (Z.abs a))%Q).
    { change 1%Q with (inject_Z 1). rewrite <- Zle_Qle. lia. }
    assert (HabsA' : (inject_Z (Z.abs a) < inject_Z (2 ^ 53))%Q)
      by (rewrite <- Zlt_Qlt; assumption).
    assert (HB' : (inject_Z b <= inject_Z (2 ^ 1022))%Q) by (rewrite <- Zle_Qle; assumption).
    pose proof (Qinv_lt_0_compat _ HB) as HiB. set (iB := (/ inject_Z b)%Q) in *.
    assert (EiB : (inject_Z b * iB == 1)%Q) by (unfold iB; field; lra).
    assert (Habs : (Qabs q == inject_Z (Z.abs a) * iB)%Q).
    { rewrite Hq. unfold Qdiv. fold iB. rewrite Qabs_Qmult.
      rewrite (Qabs_pos iB) by lra.
      destruct a; simpl Z.abs; try reflexivity. }
    assert (Hlo : (pow2 (-1022) <= Qabs q)%Q).
    { rewrite Habs. assert (Ep : (pow2 (-1022) * inject_Z (2 ^ 1022) == 1)%Q).
      { rewrite <- pow2_inject, <- pow2_add by lia. reflexivity. }
      pose proof (pow2_pos (-1022)) as Hp. set (p := pow2 (-1022)) in *.
      set (A := inject_Z (Z.abs a)) in *. set (B := inject_Z b) in *.
      set (M := inject_Z (2 ^ 1022)) in *.
      assert (0 <= p * (M - B))%Q by (apply Qmult_le_0_compat; lra).
      assert (0 <= (1 - p * B) * iB)%Q by (apply Qmult_le_0_compat; lra).
      assert (0 <= (A - 1) * iB)%Q by (apply Qmult_le_0_compat; lra).
      nra. }
    assert (Hhi : (Qabs q < pow2 1023)%Q).
    { rewrite Habs, pow2_inject by lia.
      set (A := inject_Z (Z.abs a)) in *. set (B := inject_Z b) in *.
      assert (HB1 : (1 <= B)%Q).
      { unfold B. change 1%Q with (inject_Z 1). rewrite <- Zle_Qle. lia. }
      assert (inject_Z (2 ^ 53) < inject_Z (2 ^ 1023))%Q by (rewrite <- Zlt_Qlt; reflexivity).
      assert (0 <= (B - 1) * iB)%Q by (apply Qmult_le_0_compat; lra).
      assert (0 <= (inject_Z (2 ^ 53) - A) * (1 - iB))%Q by (apply Qmult_le_0_compat; lra).
      nra. }
    destruct (round64_normal q Hlo Hhi) as [r [Hr Herr]].
    exists r. split; [assumption|].
    assert (Hu : (Qabs q * pow2 (-53) < iB)%Q).
    { rewrite Habs.
      assert (Ep : (pow2 (-53) * inject_Z (2 ^ 53) == 1)%Q).
      { rewrite <- pow2_inject, <- pow2_add by lia. reflexivity. }
      pose proof (pow2_pos (-53)) as Hp. set (p := pow2 (-53)) in *.
      set (A := inject_Z (Z.abs a)) in *.
      assert (0 < (inject_Z (2 ^ 53) - A) * (p * iB))%Q.
      { apply Qmult_lt_0_compat; [lra|]. apply Qmult_lt_0_compat; assumption. }
      nra. }
    apply Qabs_diff_Qle_condition in Herr. destruct Herr as [Hl Hh].
    assert (Eq : (q == inject_Z (a / b) + inject_Z (a mod b) * iB)%Q).
    { rewrite Hq, HA. unfold iB. field. lra. }
    set (K := inject_Z (a / b)) in *. set (RM := inject_Z (a mod b)) in *.
    assert (0 <= (RM - 1) * iB)%Q by (apply Qmult_le_0_compat; lra).
    assert (0 <= (inject_Z b - 1 - RM) * iB)%Q by (apply Qmult_le_0_compat; lra).
    apply Qfloor_unique.
    + fold K. nra.
    + rewrite inject_Z_plus. fold K. change (inject_Z 1) with 1%Q. nra.
Qed.


(** *** The share of a total, as a rounded percentage *)

(** [Math.round((c / t) * 100)] on integers is an integer nearest to
    [100 c / t], as long as the total is below [2^44]. *)
Lemma percent_nearest c t :
  0 <= c <= t -> 0 < t -> t < 2 ^ 44 ->
  exists n,
    round (mul (div (Fin (inject_Z c)) (Fin (inject_Z t))) (Fin 100)) = Fin (inject_Z n)
    /\ 200 * c - t <= 2 * n * t <= 200 * c + t.
Proof.
  intros Hc Ht Ht'. cbn [div]. unfold is_zero. cbn [inject_Z Qnum].
  destruct (Z.eqb_spec t 0) as [?|_]; [lia|].
  destruct (Z.eq_dec c 0) as [->|Hc0].
  - rewrite (round64_int _ 0) by (first [reflexivity | unfold Qdiv; ring]).
    exists 0. split; [reflexivity|lia].
  - pose proof (inject_Z_pos t Ht) as HT.
    assert (HC1 : (1 <= inject_Z c)%Q).
    { change 1%Q with (inject_Z 1). rewrite <- Zle_Qle. lia. }
    assert (HCT : (inject_Z c <= inject_Z t)%Q) by (rewrite <- Zle_Qle; lia).
    assert (HT' : (inject_Z t <= inject_Z (2 ^ 44) - 1)%Q).
    { change 1%Q with (inject_Z 1). unfold Qminus.
      rewrite <- inject_Z_opp, <- inject_Z_plus, <- Zle_Qle. lia. }
    fold (inject_Z c) (inject_Z t).
    set (C := inject_Z c) in *. set (T := inject_Z t) in *.
    pose proof (Qinv_lt_0_compat _ HT) as HiT. set (iT := (/ T)%Q) in *.
    assert (EiT : (T * iT == 1)%Q) by (unfold iT; field; lra).
    set (x := (C / T)%Q).
    assert (Ex : (x == C * iT)%Q) by reflexivity.
    assert (Hx0 : (0 < x)%Q) by (rewrite Ex; apply Qmult_lt_0_compat; lra).
    assert (Hx1 : (x <= 1)%Q).
    { rewrite Ex. assert (0 <= (T - C) * iT)%Q by (apply Qmult_le_0_compat; lra). lra. }
    assert (Hxlo : (pow2 (-44) <= x)%Q).
    { rewrite Ex.
      assert (Ep : (pow2 (-44) * inject_Z (2 ^ 44) == 1)%Q) by reflexivity.
      pose proof (pow2_pos (-44)) as Hp. set (p := pow2 (-44)) in *.
      assert (0 <= p * (inject_Z (2 ^ 44) - T))%Q by (apply Qmult_le_0_compat; lra).
      assert (0 <= (1 - p * T) * iT)%Q by (apply Qmult_le_0_compat; lra).
      assert (0 <= (C - 1) * iT)%Q by (apply Qmult_le_0_compat; lra).
      nra. }
    assert (Hp44 : (pow2 (-1022) <= pow2 (-44))%Q) by (apply pow2_le; lia).
    assert (Hp1023 : (2 < pow2 1023)%Q) by (change 2%Q with (pow2 1); apply pow2_lt; lia).
    assert (Hp1023' : (200 < pow2 1023)%Q).
    { assert (200 < pow2 8)%Q by reflexivity.
      assert (pow2 8 < pow2 1023)%Q by (apply pow2_lt; lia). lra. }
    destruct (round64_normal x) as [r1 [Hr1 He1]].
    { rewrite Qabs_pos by lra. lra. }
    { rewrite Qabs_pos by lra. lra. }
    rewrite Hr1. cbn [mul].
    rewrite (Qabs_pos x) in He1 by lra.
    assert (Eu : (pow2 (-53) == 1 # 9007199254740992)%Q) by reflexivity.
    rewrite Eu in He1.
    apply Qabs_diff_Qle_condition in He1. destruct He1 as [H1l H1h].
    assert (Hr1pos : (0 < r1)%Q) by lra.
    destruct (round64_normal (r1 * 100)) as [r2 [Hr2 He2]].
    { rewrite Qabs_pos by lra.
      assert (pow2 (-44) <= 2 * (r1 * 100))%Q by lra. lra. }
    { rewrite Qabs_pos by lra. lra. }
    rewrite Hr2. cbn [round].
    rewrite (Qabs_pos (r1 * 100)) in He2 by lra. rewrite Eu in He2.
    apply Qabs_diff_Qle_condition in He2. destruct He2 as [H2l H2h].
    exists (Qfloor (r2 + (1 # 2))). split; [reflexivity|].
    pose proof (Qfloor_le (r2 + (1 # 2))) as Hf1.
    pose proof (Qlt_floor (r2 + (1 # 2))) as Hf2.
    rewrite inject_Z_plus in Hf2. change (inject_Z 1) with 1%Q in Hf2.
    set (n := Qfloor (r2 + (1 # 2))) in *. set (N := inject_Z n) in *.
    assert (ExT : (x * T == C)%Q) by (rewrite Ex; rewrite <- Qmult_assoc, (Qmult_comm iT), EiT; ring).
    set (u := (1 # 9007199254740992)%Q) in *.
    assert (Hr2h : (r2 <= 100 * (1 + u) * (1 + u) * x)%Q) by (unfold u in *; lra).
    assert (Hr2l : (100 * (1 - u) * (1 - u) * x <= r2)%Q) by (unfold u in *; lra).
    assert (Hr2hT : (r2 * T <= 100 * (1 + u) * (1 + u) * C)%Q).
    { apply (Qmult_le_compat_r _ _ T) in Hr2h; [|lra].
      rewrite <- ExT. rewrite Qmult_assoc. exact Hr2h. }
    assert (Hr2lT : (100 * (1 - u) * (1 - u) * C <= r2 * T)%Q).
    { apply (Qmult_le_compat_r _ _ T) in Hr2l; [|lra].
      rewrite <- ExT. rewrite Qmult_assoc. exact Hr2l. }
    assert (HNT : (N * T <= r2 * T + (1 # 2) * T)%Q).
    { assert (E : (r2 * T + (1 # 2) * T == (r2 + (1 # 2)) * T)%Q) by ring.
      rewrite E. apply Qmult_le_compat_r; lra. }
    assert (HNT' : (r2 * T + (1 # 2) * T < N * T + T)%Q).
    { assert (E : (r2 * T + (1 # 2) * T == (r2 + (1 # 2)) * T)%Q) by ring.
      assert (E' : (N * T + T == (N + 1) * T)%Q) by ring.
      rewrite E, E'. apply Qmult_lt_compat_r; lra. }
    assert (HT'' : (T <= 17592186044415)%Q) by exact HT'.
    assert (Hup : (2 * N * T < 200 * C + T + 1)%Q) by (unfold u in *; lra).
    assert (Hdn : (200 * C - T - 1 < 2 * N * T)%Q) by (unfold u in *; lra).
    assert (Hup' : (inject_Z (2 * n * t) < inject_Z (200 * c + t + 1))%Q).
    { rewrite !inject_Z_plus, !inject_Z_mult. exact Hup. }
    assert (Hdn' : (inject_Z (200 * c + - t + -1) < inject_Z (2 * n * t))%Q).
    { rewrite !inject_Z_plus, !inject_Z_mult, inject_Z_opp. exact Hdn. }
    rewrite <- Zlt_Qlt in Hup', Hdn'. lia.
Qed.


(** An integer from [2^53] up to [2^54] rounds to an even integer: the
    last mantissa bit of that interval is worth 2. *)
Lemma round64_even a :
  2 ^ 53 <= a < 2 ^ 54 -> round64 (inject_Z a) = Fin (inject_Z (2 * rne a 2)).
Proof.
  intros Ha. unfold round64. cbn [inject_Z Qnum Qden].
  rewrite (Z.abs_eq a) by lia.
  destruct (Z.eqb_spec a 0) as [?|_]; [lia|].
  assert (Hlog : Z.log2 a = 53) by (apply Z.log2_unique; lia).
  assert (Hl : ilog2 a 1 = 53).
  { unfold ilog2. rewrite Hlog. change (53 - Z.log2 1) with 53.
    destruct (Z.ltb_spec (scale2 a (- (53))) (scale2 1 53)) as [Hlt|_]; [|reflexivity].
    unfold scale2 in Hlt. change (2 ^ Z.max 0 (- (53))) with 1 in Hlt.
    change (1 * 2 ^ Z.max 0 53) with (2 ^ 53) in Hlt. lia. }
  assert (He : ulp_exp a 1 = 1) by (unfold ulp_exp; rewrite Hl; reflexivity).
  assert (Hm : mantissa a 1 = rne a 2).
  { unfold mantissa. rewrite He. unfold scale2.
    change (2 ^ Z.max 0 (- (1))) with 1. change (1 * 2 ^ Z.max 0 1) with 2.
    rewrite Z.mul_1_r. reflexivity. }
  rewrite He, Hm. change (971 <? 1) with false. change (1 =? 971) with false.
  cbn [orb andb]. f_equal.
  rewrite <- (Qred_inject_Z (2 * rne a 2)). apply Qred_complete.
  rewrite (Z.sgn_pos a) by lia. rewrite Z.mul_1_l, inject_Z_mult.
  change (pow2 1) with 2%Q. change (inject_Z 2) with 2%Q. ring.
Qed.

(** The difference of two time values, which lie within 8.64e15 of zero,
    as the subtraction computes it: exact below [2^53], and an even
    integer on the same side of [2^53] beyond. *)
Lemma round64_difference z :
  Z.abs z <= 17280000000000000 ->
  exists d, round64 (inject_Z z) = Fin (inject_Z d)
    /\ ((d = z /\ Z.abs z < 2 ^ 53)
        \/ (2 ^ 53 <= z /\ exists h, d = 2 * h /\ 2 ^ 52 <= h < 2 ^ 53)
        \/ (z <= - 2 ^ 53 /\ exists h, d = 2 * h /\ - 2 ^ 53 < h <= - 2 ^ 52)).
Proof.
  intros Hz.
  destruct (Z.lt_ge_cases (Z.abs z) (2 ^ 53)) as [Hs|Hb].
  - exists z. split; [apply round64_int; [assumption|reflexivity]|left; split; [reflexivity|assumption]].
  - assert (Hr : forall a, 2 ^ 53 <= a <= 17280000000000000 ->
                           2 ^ 52 <= rne a 2 < 2 ^ 53).
    { intros a Ha. unfold rne.
      pose proof (Z.div_mod a 2 ltac:(lia)) as Hdm.
      pose proof (Z.mod_pos_bound a 2 ltac:(lia)) as Hrm.
      destruct (2 * (a mod 2) ?= 2); [destruct (Z.even (a / 2))| |]; lia. }
    destruct (Z.le_ge_cases 0 z) as [Hp|Hn].
    + exists (2 * rne z 2). split; [apply round64_even; lia|].
      right; left. split; [lia|]. exists (rne z 2). split; [reflexivity|apply Hr; lia].
    + exists (2 * - rne (- z) 2). split.
      * replace (inject_Z z) with (- inject_Z (- z))%Q
          by (unfold Qopp, inject_Z; cbn [Qnum Qden]; rewrite Z.opp_involutive; reflexivity).
        rewrite round64_opp, round64_even by lia. cbn [neg]. f_equal.
        rewrite <- (Qred_inject_Z (2 * - rne (- z) 2)). apply Qred_complete.
        rewrite <- inject_Z_opp.
        replace (- (2 * rne (- z) 2)) with (2 * - rne (- z) 2) by ring. reflexivity.
      * right; right. split; [lia|]. exists (- rne (- z) 2).
        split; [reflexivity|]. specialize (Hr (- z) ltac:(lia)). lia.
Qed.

(** The whole minutes or hours of such a difference: the quotient is
    rounded, and its floor is still the integer quotient. *)
Lemma floor_quotient_even h b q :
  Z.abs h < 2 ^ 53 -> 0 < b -> b <= 2 ^ 1022 ->
  (q == inject_Z (2 * h) / inject_Z (2 * b))%Q ->
  exists r, round64 q = Fin r /\ Qfloor r = (2 * h) / (2 * b).
Proof.
  intros Hh Hb Hb' Hq.
  rewrite Z.div_mul_cancel_l by lia.
  apply floor_quotient; try assumption.
  rewrite Hq, !inject_Z_mult.
  pose proof (inject_Z_pos b Hb). field. lra.
Qed.

End NumberFacts.

(** ** Facts on strings *)
Module StringFacts.
Import JSString.
Local Open Scope string_scope.







(** A string of white space only. *)
Definition blankString (s : string) : bool :=
  forallb isWhiteSpace (list_ascii_of_string s).

Lemma trimStart_blank s : blankString s = true -> trimStart s = "".
Proof.
  unfold blankString. induction s as [|c s IH]; simpl; [reflexivity|].
  intros H. apply andb_prop in H as [Hc Hs]. rewrite Hc. apply IH, Hs.
Qed.

Lemma trimEnd_head c s : isWhiteSpace c = false -> trimEnd (String c s) <> "".
Proof. intros Hc. simpl. destruct (trimEnd s); [rewrite Hc|]; discriminate. Qed.

Lemma trimStart_not_blank s :
  blankString s = false -> exists c r, trimStart s = String c r /\ isWhiteSpace c = false.
Proof.
  unfold blankString. induction s as [|c s IH]; simpl; [discriminate|].
  destruct (isWhiteSpace c) eqn:Hc; simpl.
  - exact IH.
  - intros _. exists c, s. split; [reflexivity|assumption].
Qed.

(** [s.trim() === ''] says that [s] is blank. *)
Lemma trim_empty_iff s : String.eqb (trim s) "" = blankString s.
Proof.
  unfold trim. destruct (blankString s) eqn:Hb.
  - rewrite trimStart_blank by assumption. reflexivity.
  - apply trimStart_not_blank in Hb as (c & r & -> & Hc).
    apply String.eqb_neq. apply trimEnd_head. assumption.
Qed.


End StringFacts.

(** ** Validation of the form *)
Module ValidationSpec.
Import JSNumber JSString Script StringFacts.
Local Open Scope string_scope.

(** *** The rules, in the words of the specification *)

(** A required field is absent or blank. *)
Definition absentOrBlank (data : formData) (name : string) : bool :=
  match field data name with
  | None => true
  | Some v => blankString v
  end.

(** The value of a field does not parse as a number. *)
Definition notANumber (data : formData) (key : string) : bool :=
  match field data key with
  | None => true
  | Some v => isNaN (parseFloat v)
  end.

(** The value of a field parses to a number outside [[lo, hi]]. *)
Definition outside (lo hi : number) (data : formData) (name : string) : bool :=
  match field data name with
  | None => false
  | Some v => ltb (parseFloat v) lo || gtb (parseFloat v) hi
  end.

(** Every violated rule, in the order of the rules. *)
Definition reasons (data : formData) : list string :=
  map (fun name => name ++ " is required")
      (List.filter (absentOrBlank data) requiredFields)
  ++ map (fun key => key ++ " must be a number")
         (List.filter (notANumber data) (keys data))
  ++ (if outside (Fin 0) (Fin 300) data "Glucose" then [glucoseMessage] else [])
  ++ (if outside (Fin 10) (Fin 70) data "BMI" then [bmiMessage] else [])
  ++ (if outside (Fin 1) (Fin 120) data "Age" then [ageMessage] else []).

(** *** The checks of [validateFormData] against the rules *)

Lemma flat_map_filter {A B} (p : A -> bool) (f : A -> B) (l : list A) :
  flat_map (fun a => if p a then [f a] else []) l = map f (List.filter p l).
Proof.
  induction l as [|a l IH]; simpl; [reflexivity|].
  destruct (p a); simpl; rewrite IH; reflexivity.
Qed.

Lemma requiredError_spec data name :
  requiredError data name
  = if absentOrBlank data name then [name ++ " is required"] else [].
Proof.
  unfold requiredError, absentOrBlank. destruct (field data name) as [v|]; [|reflexivity].
  rewrite trim_empty_iff. unfold nonEmpty.
  destruct v as [|c v]; [reflexivity|]. reflexivity.
Qed.

Lemma field_keys data key : In key (keys data) <-> exists v, field data key = Some v.
Proof.
  unfold keys. induction data as [|[k v] data IH]; simpl.
  - split; [tauto|intros [? ?]; discriminate].
  - destruct (String.eqb_spec key k) as [->|Hne].
    + split; [intros _; eauto|intros _; left; reflexivity].
    + rewrite <- IH. split; [intros [?|?]; [congruence|assumption]|tauto].
Qed.

Lemma numericError_spec data key :
  In key (keys data) ->
  numericError data key
  = if notANumber data key then [key ++ " must be a number"] else [].
Proof.
  intros Hin. apply field_keys in Hin as [v Hv].
  unfold numericError, notANumber. rewrite Hv. reflexivity.
Qed.

Lemma flat_map_ext_in {A B} (f g : A -> list B) (l : list A) :
  (forall a, In a l -> f a = g a) -> flat_map f l = flat_map g l.
Proof.
  induction l as [|a l IH]; intros H; simpl; [reflexivity|].
  rewrite H by (left; reflexivity). rewrite IH; [reflexivity|].
  intros b Hb. apply H. right. assumption.
Qed.

Lemma rangeError_spec data name lo hi msg :
  rangeError data name lo hi msg = if outside lo hi data name then [msg] else [].
Proof.
  unfold rangeError, outside. destruct (field data name) as [v|]; [|reflexivity].
  destruct v as [|c v]; [|reflexivity].
  change (parseFloat "") with NaN. unfold gtb.
  destruct lo as [|[]|], hi as [|[]|]; reflexivity.
Qed.

(** The array of errors holds every violated rule, in order. *)
Lemma errors_reasons data : errors data = reasons data.
Proof.
  unfold errors, reasons.
  rewrite (flat_map_ext_in (requiredError data) _ _ (fun a _ => requiredError_spec data a)).
  rewrite (flat_map_ext_in (numericError data) _ _ (numericError_spec data)).
  rewrite !flat_map_filter, !rangeError_spec. reflexivity.
Qed.



(** *** Which reason comes from which rule *)


Lemma ltb_Fin p q : ltb (Fin p) (Fin q) = true <-> (p < q)%Q.
Proof.
  cbn [ltb]. rewrite negb_true_iff. split.
  - intros Hle. apply Qnot_le_lt. intros Hc. apply Qle_bool_iff in Hc. congruence.
  - intros Hlt. destruct (Qle_bool q p) eqn:E; [|reflexivity].
    apply Qle_bool_iff in E. lra.
Qed.










End ValidationSpec.

(** ** The claims on validation *)
Module ValidationClaims.
Import JSNumber JSString Script StringFacts ValidationSpec.
Local Open Scope string_scope.



(** Three fields, four violated rules, four reasons. *)
Example validateFormData_collects :
  validateFormData [("Glucose", ""); ("BMI", "abc"); ("Age", "200")]
  = {| valid := false;
       message := Some "Glucose is required, Glucose must be a number, BMI must be a number, Age must be between 1 and 120 years" |}.
Proof. vm_compute. reflexivity. Qed.






End ValidationClaims.

(** ** Facts on effects *)
Module EffFacts.
Import Json Eff.

Lemma bind_run {S A B} (m : M S A) (k : A -> M S B) (s : S) :
  bind m k s
  = match m s with
    | (Ok a, s') => k a s'
    | (Throw e, s') => (Throw e, s')
    end.
Proof. reflexivity. Qed.

Lemma bind_ok {S A B} (m : M S A) (k : A -> M S B) (s s1 : S) a :
  m s = (Ok a, s1) -> bind m k s = k a s1.
Proof. intros E. rewrite bind_run, E. reflexivity. Qed.

Lemma bind_ok_inv {S A B} (m : M S A) (k : A -> M S B) (s s' : S) b :
  bind m k s = (Ok b, s') ->
  exists a s1, m s = (Ok a, s1) /\ k a s1 = (Ok b, s').
Proof.
  rewrite bind_run. destruct (m s) as [[a|e] s1]; [|discriminate].
  intros E. exists a, s1. split; [reflexivity|exact E].
Qed.

Lemma try_catch_ok {S A} (body : M S A) handler (s s' : S) a :
  body s = (Ok a, s') -> try_catch body handler s = (Ok a, s').
Proof. intros E. unfold try_catch, try_catch_finally. rewrite E. reflexivity. Qed.

(** The three ways through [try]-[catch]-[finally] with a [finally]
    block that returns. *)
Lemma try_catch_finally_returns {S A} (body : M S A) handler final (s s1 s2 : S) a :
  body s = (Ok a, s1) -> final s1 = (Ok tt, s2) ->
  try_catch_finally body handler final s = (Ok a, s2).
Proof. intros E1 E2. unfold try_catch_finally. rewrite E1, E2. reflexivity. Qed.

Lemma try_catch_finally_caught {S A}
    (body : M S A) handler final (s s1 s2 s3 : S) e r :
  body s = (Throw e, s1) -> handler e s1 = (r, s2) -> final s2 = (Ok tt, s3) ->
  try_catch_finally body handler final s = (r, s3).
Proof. intros E1 E2 E3. unfold try_catch_finally. rewrite E1, E2, E3. reflexivity. Qed.

(** A computation respects a relation on states when the state it ends
    in, with or without an exception, is related to the one it starts in. *)
Section Respects.
Context {S : Type} (R : S -> S -> Prop).
Hypothesis R_refl : forall s, R s s.
Hypothesis R_trans : forall a b c, R a b -> R b c -> R a c.

Definition respects {A} (m : M S A) : Prop := forall s, R s (snd (m s)).

Lemma respects_ret {A} (a : A) : respects (ret a).
Proof. intros s. apply R_refl. Qed.

Lemma respects_throw {A} e : respects (@throw S A e).
Proof. intros s. apply R_refl. Qed.

Lemma respects_lift {A} (r : result A) : respects (lift r).
Proof. intros s. apply R_refl. Qed.

Lemma respects_get : respects get.
Proof. intros s. apply R_refl. Qed.

Lemma respects_modify (f : S -> S) : (forall s, R s (f s)) -> respects (modify f).
Proof. intros Hf s. apply Hf. Qed.

Lemma respects_bind {A B} (m : M S A) (k : A -> M S B) :
  respects m -> (forall a, respects (k a)) -> respects (bind m k).
Proof.
  intros Hm Hk s. rewrite bind_run. specialize (Hm s).
  destruct (m s) as [[a|e] s']; simpl in *.
  - eapply R_trans; [exact Hm|]. apply Hk.
  - exact Hm.
Qed.

Lemma respects_when (c : bool) (body : M S unit) :
  respects body -> respects (when c body).
Proof. intros Hb. destruct c; [exact Hb|apply respects_ret]. Qed.

Lemma respects_forEach {A} (l : list A) (f : A -> M S unit) :
  (forall a, respects (f a)) -> respects (forEach l f).
Proof.
  intros Hf. induction l as [|a l IH]; simpl.
  - apply respects_ret.
  - apply respects_bind; [apply Hf|]. intros _. exact IH.
Qed.

Lemma respects_try_catch_finally {A} (body : M S A) handler final :
  respects body -> (forall e, respects (handler e)) -> respects final ->
  respects (try_catch_finally body handler final).
Proof.
  intros Hb Hh Hf s. unfold try_catch_finally.
  specialize (Hb s). destruct (body s) as [[a|e] s1]; simpl in Hb.
  - specialize (Hf s1). destruct (final s1) as [[[]|e'] s2]; simpl in *;
      eapply R_trans; eassumption.
  - specialize (Hh e s1). destruct (handler e s1) as [r s2]. simpl in Hh.
    specialize (Hf s2). destruct (final s2) as [[[]|e'] s3]; simpl in *;
      (eapply R_trans; [exact Hb|]; eapply R_trans; eassumption).
Qed.

Lemma respects_try_catch {A} (body : M S A) handler :
  respects body -> (forall e, respects (handler e)) ->
  respects (try_catch body handler).
Proof.
  intros Hb Hh. apply respects_try_catch_finally; [assumption|assumption|].
  apply respects_ret.
Qed.

End Respects.

(** A computation keeps an invariant when, started in a state that
    satisfies it, it returns, not throws, in a state that satisfies it; [Q]
    is what is known of the value it returns. *)
Section Keeps.
Context {S : Type} (I : S -> Prop).

Definition keeps {A} (m : M S A) (Q : A -> S -> Prop) : Prop :=
  forall s, I s -> exists a s', m s = (Ok a, s') /\ I s' /\ Q a s'.

Lemma keeps_ret {A} (a : A) : keeps (ret a) (fun x _ => x = a).
Proof. intros s Hs. exists a, s. repeat split. assumption. Qed.

Lemma keeps_lift {A} (a : A) : keeps (lift (Ok a)) (fun x _ => x = a).
Proof. intros s Hs. exists a, s. repeat split. assumption. Qed.

Lemma keeps_get : keeps get (fun x s => x = s).
Proof. intros s Hs. exists s, s. repeat split. assumption. Qed.

Lemma keeps_modify (f : S -> S) :
  (forall s, I s -> I (f s)) -> keeps (modify f) (fun _ _ => True).
Proof. intros Hf s Hs. exists tt, (f s). repeat split. apply Hf, Hs. Qed.

Lemma keeps_bind {A B} (m : M S A) (k : A -> M S B) Q :
  keeps m Q ->
  (forall a, keeps (k a) (fun _ _ => True)) ->
  keeps (bind m k) (fun _ _ => True).
Proof.
  intros Hm Hk s Hs. destruct (Hm s Hs) as (a & s1 & E1 & H1 & _).
  destruct (Hk a s1 H1) as (b & s2 & E2 & H2 & _).
  exists b, s2. rewrite bind_run, E1. repeat split; assumption.
Qed.


(** The continuation is run on the value that is returned. *)
Lemma keeps_bind_val {A B} (m : M S A) (k : A -> M S B) (a : A) :
  keeps m (fun x _ => x = a) ->
  keeps (k a) (fun _ _ => True) ->
  keeps (bind m k) (fun _ _ => True).
Proof.
  intros Hm Hk s Hs. destruct (Hm s Hs) as (a' & s1 & E1 & H1 & ->).
  destruct (Hk s1 H1) as (b & s2 & E2 & H2 & _).
  exists b, s2. rewrite bind_run, E1. repeat split; assumption.
Qed.

Lemma keeps_weaken {A} (m : M S A) Q : keeps m Q -> keeps m (fun _ _ => True).
Proof.
  intros Hm s Hs. destruct (Hm s Hs) as (a & s1 & E1 & H1 & _).
  exists a, s1. repeat split; assumption.
Qed.

Lemma keeps_when (c : bool) (body : M S unit) Q :
  keeps body Q -> keeps (when c body) (fun _ _ => True).
Proof.
  intros Hb. destruct c; simpl.
  - eapply keeps_weaken, Hb.
  - eapply keeps_weaken, keeps_ret.
Qed.


End Keeps.

(** [finally] runs whatever happens: the state a
    [try]-[catch]-[finally] ends in is one its [finally] block ends in. *)
Lemma finally_runs {S A} (body : M S A) handler final (s : S) :
  exists s1, snd (try_catch_finally body handler final s) = snd (final s1).
Proof.
  unfold try_catch_finally.
  destruct (body s) as [[a|e] s1].
  - exists s1. destruct (final s1) as [[[]|e'] s2]; reflexivity.
  - destruct (handler e s1) as [r s2]. exists s2.
    destruct (final s2) as [[[]|e'] s3]; reflexivity.
Qed.

(** With a handler and a [finally] block that do not throw, nothing is
    thrown. *)
Lemma try_catch_finally_ok {S} (body : M S unit) handler final :
  (forall e s, fst (handler e s) = Ok tt) -> (forall s, fst (final s) = Ok tt) ->
  forall s, fst (try_catch_finally body handler final s) = Ok tt.
Proof.
  intros Hh Hf s. unfold try_catch_finally.
  destruct (body s) as [[[]|e] s1].
  - specialize (Hf s1). destruct (final s1) as [[[]|e'] s2]; simpl in *; congruence.
  - specialize (Hh e s1). destruct (handler e s1) as [r s2]. simpl in Hh. subst r.
    specialize (Hf s2). destruct (final s2) as [[[]|e'] s3]; simpl in *; congruence.
Qed.

End EffFacts.

(** ** Facts on the form page *)
Module ScriptFacts.
Import JSNumber Json Eff Dom EventLoop Script EffFacts.
Local Open Scope string_scope.

Lemma try_catch_finally_exec {S A} (body : M S A) handler final (s : S) :
  exec (try_catch_finally body handler final) s
  = exec final (exec (try_catch body handler) s).
Proof.
  unfold exec, try_catch, try_catch_finally.
  destruct (body s) as [[a|e] s1]; simpl.
  - destruct (final s1) as [[[]|e'] s2]; reflexivity.
  - destruct (handler e s1) as [r s2]; simpl.
    destruct (final s2) as [[[]|e'] s3]; reflexivity.
Qed.

(** *** What leaves the busy indicator alone *)

Definition notLoading (c : call) : Prop :=
  match c with
  | Loading _ => False
  | _ => True
  end.

(** From one state to the other the buttons are the same and no call of
    [showLoading] was made. *)
Definition quiet (p p' : page) : Prop :=
  buttons p' = buttons p
  /\ exists l, calls p' = (calls p ++ l)%list /\ Forall notLoading l.

Lemma quiet_refl p : quiet p p.
Proof. split; [reflexivity|]. exists []. rewrite app_nil_r. split; [reflexivity|constructor]. Qed.

Lemma quiet_trans a b c : quiet a b -> quiet b c -> quiet a c.
Proof.
  intros [Hb1 (l1 & Hc1 & Hl1)] [Hb2 (l2 & Hc2 & Hl2)].
  split; [congruence|]. exists (l1 ++ l2)%list. split.
  - rewrite Hc2, Hc1, app_assoc. reflexivity.
  - apply Forall_app_2; assumption.
Qed.

Lemma quiet_same p p' : buttons p' = buttons p -> calls p' = calls p -> quiet p p'.
Proof.
  intros Hb Hc. split; [assumption|]. exists []. rewrite app_nil_r.
  split; [assumption|constructor].
Qed.

Lemma quiet_elements f : respects quiet (modify (with_elements f)).
Proof. apply respects_modify. intros p. apply quiet_same; reflexivity. Qed.

Lemma quiet_toasts f : respects quiet (modify (with_toasts f)).
Proof. apply respects_modify. intros p. apply quiet_same; reflexivity. Qed.

Lemma quiet_attached a : respects quiet (modify (with_attached a)).
Proof. apply respects_modify. intros p. apply quiet_same; reflexivity. Qed.

Lemma quiet_setTimeout a d : respects quiet (setTimeout a d).
Proof. apply respects_modify. intros p. apply quiet_same; reflexivity. Qed.

Lemma quiet_record c : notLoading c -> respects quiet (record c).
Proof.
  intros Hc. apply respects_modify. intros p. split; [reflexivity|].
  exists [c]. split; [reflexivity|]. repeat constructor. assumption.
Qed.

Ltac quiet_step :=
  first
    [ apply (respects_bind quiet quiet_trans); [|intros ?]
    | apply (respects_ret quiet quiet_refl)
    | apply (respects_throw quiet quiet_refl)
    | apply (respects_lift quiet quiet_refl)
    | apply (respects_get quiet quiet_refl)
    | apply (respects_when quiet quiet_refl)
    | apply (respects_forEach quiet quiet_refl quiet_trans); intros ?
    | apply quiet_elements
    | apply quiet_toasts
    | apply quiet_attached
    | apply quiet_setTimeout
    | apply quiet_record; exact I
    | match goal with
      | |- respects _ (if ?b then _ else _) => destruct b
      | |- respects _ (match ?x with _ => _ end) => destruct x
      end ].

Section WithHost.
Context `{Host}.

Lemma quiet_showNotification message type :
  respects quiet (showNotification message type).
Proof. unfold showNotification. repeat quiet_step. Qed.

Lemma quiet_displayPredictionResult result :
  respects quiet (displayPredictionResult result).
Proof.
  unfold displayPredictionResult, setupResultActions, listen, assign, present.
  repeat quiet_step.
Qed.

Lemma quiet_request data r : respects quiet (request data r).
Proof. unfold request. repeat quiet_step. Qed.

(** *** Responses that render *)










End WithHost.

End ScriptFacts.

(** ** The claims on the form page *)
Module ScriptClaims.
Import JSNumber Json Eff Dom EventLoop Script EffFacts ScriptFacts.
Local Open Scope string_scope.




(** The button at rest. *)
Definition idle (btn : element) : Prop :=
  disabled btn = false
  /\ getp "innerHTML" btn = icon_html "fas fa-calculator" ++ " Predict Diabetes Risk".





Section WithHost.
Context `{Host}.


(** The page when the response arrives: the busy indicator is on and the
    request is on record. *)
Definition arrived (data : formData) (p : page) : page :=
  exec (record (Fetch (API_BASE_URL ++ "/api/predict") data)) (exec (showLoading true) p).





#[local] Arguments displayPredictionResult : simpl never.


(** *** The three branches *)

Lemma showLoading_buttons show p :
  buttons (exec (showLoading show) p)
  = map (fun btn =>
           if show
           then set_disabled true
                  (setp "innerHTML" (icon_html "fas fa-spinner fa-spin" ++ " Processing...") btn)
           else set_disabled false
                  (setp "innerHTML" (icon_html "fas fa-calculator" ++ " Predict Diabetes Risk") btn))
        (buttons p).
Proof. reflexivity. Qed.

Lemma showLoading_calls show p :
  calls (exec (showLoading show) p) = (calls p ++ [Loading show])%list.
Proof. reflexivity. Qed.








Lemma record_elements c p : elements (exec (record c) p) = elements p.
Proof. reflexivity. Qed.






(** *** The summary the share action builds *)


(** *** The busy indicator *)

Lemma getp_setp name v e : getp name (setp name v e) = v.
Proof. unfold getp, setp. simpl. rewrite lookup_insert_eq. reflexivity. Qed.

(** The [try] block and the [catch] block of the handler. *)
Definition submission (data : formData) (r : reply) : M page unit :=
  bind (request data r) (fun result =>
  bind (lift (prop result "status")) (fun status =>
    if is_string status "success" then
      bind (displayPredictionResult result) (fun _ =>
        showNotification "Prediction completed successfully!" "success")
    else
      bind (lift (prop result "error")) (fun error =>
        showNotification (toString (or_else error (JStr "Prediction failed"))) "error"))).

Definition failure (error : Json.error) : M page unit :=
  bind (record (ConsoleError "Prediction error:")) (fun _ =>
    showNotification "Unable to connect to prediction service" "error").

Ltac quiet_named :=
  lazymatch goal with
  | |- respects _ (request _ _) => apply quiet_request
  | |- respects _ (displayPredictionResult _) => apply quiet_displayPredictionResult
  | |- respects _ (showNotification _ _) => apply quiet_showNotification
  end.

Lemma handleFormSubmit_split data r p :
  valid (validateFormData data) = true ->
  handleFormSubmit data r p
  = try_catch_finally (submission data r) failure (showLoading false)
      (exec (showLoading true) p).
Proof. intros Hv. unfold handleFormSubmit. rewrite Hv. reflexivity. Qed.

Lemma quiet_try data r p :
  quiet p (exec (try_catch (submission data r) failure) p).
Proof.
  apply (respects_try_catch quiet quiet_refl quiet_trans).
  - unfold submission. repeat first [quiet_named|quiet_step].
  - intros e. unfold failure. repeat first [quiet_named|quiet_step].
Qed.

(** C4. For every submission that passes validation, whatever the
    response (success, a failure the server reports, a transport failure,
    or a result that cannot be rendered), the handler returns with every
    predict button enabled again and showing its label at rest.  The busy
    indicator is set once and cleared once: between the call that sets it
    and the call that clears it, which is the last thing the handler does,
    no other call of [showLoading] is made; the clearing is the [finally]
    block of the handler, not a step of its branches. *)
Theorem handleFormSubmit_clears_busy (data : formData) (r : reply) (p : page) :
  valid (validateFormData data) = true ->
  let p' := exec (handleFormSubmit data r) p in
  outcome (handleFormSubmit data r) p = Ok tt
  /\ length (buttons p') = length (buttons p)
  /\ Forall idle (buttons p')
  /\ exists middle,
       calls p' = (calls p ++ [Loading true] ++ middle ++ [Loading false])%list
       /\ Forall notLoading middle.
Proof.
  intros Hv p'. subst p'. unfold outcome, exec at 1 2 3.
  rewrite (handleFormSubmit_split data r p Hv).
  split.
  { apply try_catch_finally_ok; intros; reflexivity. }
  change (snd (try_catch_finally ?b ?h ?f ?s)) with (exec (try_catch_finally b h f) s).
  rewrite try_catch_finally_exec.
  pose proof (quiet_try data r (exec (showLoading true) p)) as [Hb (middle & Hc & Hm)].
  remember (exec (try_catch (submission data r) failure) (exec (showLoading true) p)) as p2.
  rewrite showLoading_buttons, showLoading_calls, Hb, Hc.
  rewrite showLoading_buttons, showLoading_calls.
  split; [rewrite !length_map; reflexivity|].
  split.
  - apply List.Forall_forall. intros btn Hin. apply in_map_iff in Hin as (b & <- & _).
    split; [reflexivity|]. apply (getp_setp "innerHTML").
  - exists middle. split; [|assumption]. rewrite <- !app_assoc. reflexivity.
Qed.

End WithHost.

Import Browser.





(** On the form page, with a response of the documented shape. *)
Lemma handleFormSubmit_clears_busy_witness :
  let p' := exec (handleFormSubmit Browser.validForm (Parsed Browser.successResponse))
                 Browser.formPage in
  outcome (handleFormSubmit Browser.validForm (Parsed Browser.successResponse))
          Browser.formPage = Ok tt
  /\ length (buttons p') = length (buttons Browser.formPage)
  /\ Forall idle (buttons p')
  /\ exists middle,
       calls p' = (calls Browser.formPage ++ [Loading true] ++ middle ++ [Loading false])%list
       /\ Forall notLoading middle.
Proof.
  apply (handleFormSubmit_clears_busy Browser.validForm (Parsed Browser.successResponse)
           Browser.formPage).
  vm_compute. reflexivity.
Defined.

End ScriptClaims.

(** ** Facts on the analytics page *)
Module DashboardFacts.
Import JSNumber Json Eff Dom EventLoop Dashboard EffFacts.
Local Open Scope string_scope.

(** *** The chart registry *)

(** The names the script registers charts under. *)
Definition chartNames : list string :=
  ["riskDistribution"; "featureImportance"; "hourlyTrend"; "performance";
   "ageDistribution"].

(** The canvases the charts are drawn on. *)
Definition canvases : list string :=
  ["riskDistributionChart"; "featureImportanceChart"; "hourlyTrendChart";
   "performanceChart"; "ageDistributionChart"].

(** The registry is sound: the instances constructed so far are, in the
    order of their construction, registered under names that are all
    different, and nothing else is registered.  So a name has at most one
    instance, and no instance is left out of the registry. *)
Definition sound (p : page) : Prop :=
  exists names : list string,
    NoDup names
    /\ length names = length (instances p)
    /\ forall name (i : nat), charts p !! name = Some i <-> names !! i = Some name.

(** The elements of [p] are still there in [p']. *)
Definition keepsElements (p p' : page) : Prop :=
  forall id, is_Some (elements p !! id) -> is_Some (elements p' !! id).

(** From [p] to [p'] no element is removed, a chart that is registered
    stays registered under the same instance, only charts of the five names
    are added, and the registry stays sound. *)
Definition grows (p p' : page) : Prop :=
  keepsElements p p'
  /\ (forall name i, charts p !! name = Some i -> charts p' !! name = Some i)
  /\ (forall name, is_Some (charts p' !! name) ->
         is_Some (charts p !! name) \/ In name chartNames)
  /\ (sound p -> sound p').

Lemma grows_refl p : grows p p.
Proof. split; [intros id Hid; exact Hid|]. repeat split; auto. Qed.

Lemma grows_trans a b c : grows a b -> grows b c -> grows a c.
Proof.
  intros (He1 & Hk1 & Hd1 & Hs1) (He2 & Hk2 & Hd2 & Hs2).
  split; [|split; [|split]].
  - intros id Hid. apply He2, He1, Hid.
  - intros name i Hn. apply Hk2, Hk1, Hn.
  - intros name Hn. destruct (Hd2 name Hn) as [Hb|Hin]; [|tauto].
    apply Hd1, Hb.
  - intros Hs. apply Hs2, Hs1, Hs.
Qed.

(** A step that leaves the registry and the instances as they are, and
    removes no element. *)
Lemma grows_same p p' :
  keepsElements p p' -> charts p' = charts p -> instances p' = instances p ->
  grows p p'.
Proof.
  intros He Hc Hi. split; [exact He|]. split; [|split].
  - intros name i. rewrite Hc. auto.
  - intros name. rewrite Hc. auto.
  - intros (names & Hnd & Hlen & Hnames). exists names. rewrite Hc, Hi. auto.
Qed.

Lemma keepsElements_alter f id p :
  keepsElements p (with_elements (alter f id) p).
Proof.
  intros j [e He]. simpl. rewrite lookup_alter.
  destruct (decide (id = j)) as [->|_]; rewrite He; simpl; eauto.
Qed.

Lemma keepsElements_same p p' : elements p' = elements p -> keepsElements p p'.
Proof. intros E id Hid. rewrite E. exact Hid. Qed.

(** Replacing the labels or the data of an instance, or calling its
    [update()]. *)
Lemma grows_alter_instance f i p : grows p (with_instances (alter f i) p).
Proof.
  split; [apply keepsElements_same; reflexivity|]. split; [|split].
  - auto.
  - auto.
  - intros (names & Hnd & Hlen & Hnames).
    exists names. simpl. rewrite length_alter. auto.
Qed.

(** Constructing a chart under a name that has none. *)
Lemma grows_create name kind labels data p :
  charts p !! name = None -> In name chartNames ->
  grows p (exec (createChart name kind labels data) p).
Proof.
  intros Hnone Hin. split; [apply keepsElements_same; reflexivity|].
  simpl. split; [|split].
  - intros n i Hn. simpl. rewrite lookup_insert.
    destruct (decide (name = n)) as [->|_]; [congruence|assumption].
  - intros n. simpl. rewrite lookup_insert.
    destruct (decide (name = n)) as [->|_]; [tauto|].
    intros Hn. left. exact Hn.
  - intros (names & Hnd & Hlen & Hnames).
    exists (names ++ [name])%list. split; [|split].
    + apply NoDup_app. split; [assumption|]. split; [|apply NoDup_singleton].
      intros x Hx Hx'. apply list_elem_of_singleton in Hx'. subst x.
      apply list_elem_of_lookup in Hx as [i Hi]. apply Hnames in Hi. congruence.
    + simpl. rewrite !length_app. simpl. lia.
    + intros n i. simpl. rewrite lookup_insert. destruct (decide (name = n)) as [->|Hne].
      * split.
        -- intros [= <-]. rewrite <- Hlen. rewrite lookup_app_r by lia.
           rewrite Nat.sub_diag. reflexivity.
        -- intros Hi. f_equal.
           destruct (decide (i < length names)%nat) as [Hlt|Hge].
           ++ rewrite lookup_app_l in Hi by assumption. apply Hnames in Hi. congruence.
           ++ apply lookup_lt_Some in Hi. rewrite length_app in Hi. simpl in Hi. lia.
      * rewrite Hnames. split.
        -- intros Hi. rewrite lookup_app_l; [assumption|]. eapply lookup_lt_Some, Hi.
        -- intros Hi. destruct (decide (i < length names)%nat) as [Hlt|Hge].
           ++ rewrite lookup_app_l in Hi by assumption. assumption.
           ++ rewrite lookup_app_r in Hi by lia.
              destruct (i - length names)%nat; simpl in Hi; [congruence|discriminate].
Qed.

(** *** Every function of the page lets the registry grow *)

Lemma grows_modify_elements f id :
  respects grows (modify (with_elements (alter f id))).
Proof.
  apply respects_modify. intros p.
  apply grows_same; [apply keepsElements_alter|reflexivity|reflexivity].
Qed.

Lemma grows_modify_instance f i :
  respects grows (modify (with_instances (alter f i))).
Proof. apply respects_modify. intros p. apply grows_alter_instance. Qed.

(** The end of every function that updates a chart: the instance that is
    registered is updated in place, and one is constructed only when none
    is registered. *)
Lemma grows_upsert name kind labels data (onSome : nat -> M page unit) :
  In name chartNames ->
  (forall i, respects grows (onSome i)) ->
  respects grows
    (bind get (fun p =>
       match charts p !! name with
       | Some instance => onSome instance
       | None => createChart name kind labels data
       end)).
Proof.
  intros Hin Hsome s. rewrite bind_run. cbn [get].
  destruct (charts s !! name) as [i|] eqn:E.
  - apply Hsome.
  - apply grows_create; assumption.
Qed.

Ltac grows_leaf :=
  apply respects_modify; intros ?;
  apply grows_same; [apply keepsElements_same; reflexivity|reflexivity|reflexivity].

Ltac grows_step :=
  lazymatch goal with
  | |- respects _ (bind get (fun p => match charts p !! _ with _ => _ end)) =>
      apply grows_upsert; [simpl; tauto|intros ?]
  | |- respects _ (bind _ _) => apply (respects_bind grows grows_trans); [|intros ?]
  | |- respects _ (ret _) => apply (respects_ret grows grows_refl)
  | |- respects _ (throw _) => apply (respects_throw grows grows_refl)
  | |- respects _ (lift _) => apply (respects_lift grows grows_refl)
  | |- respects _ get => apply (respects_get grows grows_refl)
  | |- respects _ (when _ _) => apply (respects_when grows grows_refl)
  | |- respects _ (forEach _ _) =>
      apply (respects_forEach grows grows_refl grows_trans); intros ?
  | |- respects _ (try_catch _ _) =>
      apply (respects_try_catch grows grows_refl grows_trans); [|intros ?]
  | |- respects _ (try_catch_finally _ _ _) =>
      apply (respects_try_catch_finally grows grows_trans); [|intros ?|]
  | |- respects _ (modify (with_elements (alter _ _))) => apply grows_modify_elements
  | |- respects _ (modify (with_instances (alter _ _))) => apply grows_modify_instance
  | |- respects _ (modify _) => grows_leaf
  | |- respects _ (if ?b then _ else _) => destruct b
  | |- respects _ (match ?x with _ => _ end) => destruct x
  end.

(** What a relation the computation respects says of a run [E]. *)
Ltac run_of G E :=
  unfold respects in G; rewrite E in G; cbn [snd] in G.

Section WithHost.
Context `{Host}.

Lemma grows_setTimeout a d : respects grows (setTimeout a d).
Proof. unfold setTimeout. grows_leaf. Qed.

Lemma grows_record c : respects grows (record c).
Proof. unfold record. grows_leaf. Qed.

Lemma grows_present id : respects grows (present id).
Proof. unfold present. repeat grows_step. Qed.

Lemma grows_assign id name v : respects grows (assign id name v).
Proof. unfold assign. grows_step. Qed.

Lemma grows_assign_unguarded id name v : respects grows (assign_unguarded id name v).
Proof.
  unfold assign_unguarded.
  apply (respects_bind grows grows_trans); [apply grows_present|].
  intros []; [apply grows_assign|grows_step].
Qed.

Lemma grows_now : respects grows now.
Proof. unfold now. repeat grows_step. Qed.

Lemma grows_mathRandom : respects grows mathRandom.
Proof. unfold mathRandom. repeat grows_step. Qed.

Lemma grows_showLoading show : respects grows (showLoading show).
Proof.
  unfold showLoading.
  apply (respects_bind grows grows_trans); [apply grows_record|]. intros _.
  grows_step.
Qed.

Lemma grows_showNotification message type :
  respects grows (showNotification message type).
Proof.
  unfold showNotification.
  repeat first
    [ lazymatch goal with
      | |- respects _ (record _) => apply grows_record
      | |- respects _ (setTimeout _ _) => apply grows_setTimeout
      end
    | grows_step ].
Qed.

Lemma grows_updateLastUpdateTime : respects grows updateLastUpdateTime.
Proof.
  unfold updateLastUpdateTime.
  apply (respects_bind grows grows_trans); [apply grows_now|]. intros ?.
  apply grows_assign.
Qed.

Lemma grows_animateCounter element target :
  respects grows (animateCounter element target).
Proof.
  unfold animateCounter.
  apply (respects_bind grows grows_trans); [grows_step|]. intros ?.
  apply grows_setTimeout.
Qed.

Ltac grows_named :=
  lazymatch goal with
  | |- respects _ (setTimeout _ _) => apply grows_setTimeout
  | |- respects _ (record _) => apply grows_record
  | |- respects _ (present _) => apply grows_present
  | |- respects _ (assign _ _ _) => apply grows_assign
  | |- respects _ (assign_unguarded _ _ _) => apply grows_assign_unguarded
  | |- respects _ now => apply grows_now
  | |- respects _ mathRandom => apply grows_mathRandom
  | |- respects _ (showLoading _) => apply grows_showLoading
  | |- respects _ (showNotification _ _) => apply grows_showNotification
  | |- respects _ updateLastUpdateTime => apply grows_updateLastUpdateTime
  | |- respects _ (animateCounter _ _) => apply grows_animateCounter
  end.

Ltac grows_auto := repeat first [grows_named|grows_step].

Lemma grows_updateStats overview : respects grows (updateStats overview).
Proof. unfold updateStats. grows_auto. Qed.

Lemma grows_updateRiskDistributionChart riskData :
  respects grows (updateRiskDistributionChart riskData).
Proof. unfold updateRiskDistributionChart. grows_auto. Qed.

Lemma grows_updateFeatureImportanceChart :
  respects grows updateFeatureImportanceChart.
Proof. unfold updateFeatureImportanceChart. grows_auto. Qed.

Lemma grows_randomCounts n : respects grows (randomCounts n).
Proof. induction n as [|n IH]; simpl; grows_auto. exact IH. Qed.

Lemma grows_updateHourlyTrendChart trendData :
  respects grows (updateHourlyTrendChart trendData).
Proof.
  unfold updateHourlyTrendChart.
  repeat first
    [ lazymatch goal with
      | |- respects _ (randomCounts _) => apply grows_randomCounts
      end
    | grows_named | grows_step ].
Qed.

Lemma grows_updatePerformanceChart metrics :
  respects grows (updatePerformanceChart metrics).
Proof. unfold updatePerformanceChart. grows_auto. Qed.

Lemma grows_updateAgeDistributionChart distribution :
  respects grows (updateAgeDistributionChart distribution).
Proof. unfold updateAgeDistributionChart. grows_auto. Qed.

Lemma grows_updateCharts data : respects grows (updateCharts data).
Proof.
  unfold updateCharts.
  repeat first
    [ lazymatch goal with
      | |- respects _ (updateRiskDistributionChart _) =>
          apply grows_updateRiskDistributionChart
      | |- respects _ updateFeatureImportanceChart =>
          apply grows_updateFeatureImportanceChart
      | |- respects _ (updateHourlyTrendChart _) =>
          apply grows_updateHourlyTrendChart
      | |- respects _ (updatePerformanceChart _) =>
          apply grows_updatePerformanceChart
      | |- respects _ (updateAgeDistributionChart _) =>
          apply grows_updateAgeDistributionChart
      end
    | grows_step ].
Qed.

Lemma grows_feedEntry count prediction index :
  respects grows (feedEntry count prediction index).
Proof. unfold feedEntry. grows_auto. Qed.

Lemma grows_forEachFrom {A} (f : A -> nat -> M page unit) (l : list A) :
  (forall a i, respects grows (f a i)) ->
  forall index, respects grows (forEachFrom index l f).
Proof.
  intros Hf. induction l as [|a rest IH]; intros index; simpl.
  - grows_step.
  - grows_step; [apply Hf|apply IH].
Qed.

Lemma grows_await url r : respects grows (await url r).
Proof. unfold await. grows_auto. Qed.

Lemma grows_updatePredictionFeed predictions r :
  respects grows (updatePredictionFeed predictions r).
Proof.
  unfold updatePredictionFeed.
  repeat first
    [ lazymatch goal with
      | |- respects _ (await _ _) => apply grows_await
      | |- respects _ (forEachFrom _ _ _) =>
          apply grows_forEachFrom; intros ? ?; apply grows_feedEntry
      end
    | grows_named | grows_step ].
Qed.

Lemma grows_updateDashboard data feedReply :
  respects grows (updateDashboard data feedReply).
Proof.
  unfold updateDashboard, detached.
  repeat first
    [ lazymatch goal with
      | |- respects _ (updateStats _) => apply grows_updateStats
      | |- respects _ (updateCharts _) => apply grows_updateCharts
      | |- respects _ (updatePredictionFeed _ _) => apply grows_updatePredictionFeed
      end
    | grows_step ].
Qed.

Lemma grows_samplePredictions n : forall i, respects grows (samplePredictions n i).
Proof.
  induction n as [|n IH]; intros i; simpl.
  - grows_step.
  - unfold samplePrediction. grows_auto. apply IH.
Qed.

Lemma grows_loadSampleData feedReply : respects grows (loadSampleData feedReply).
Proof.
  unfold loadSampleData.
  repeat first
    [ lazymatch goal with
      | |- respects _ (samplePredictions _ _) => apply grows_samplePredictions
      | |- respects _ (updateDashboard _ _) => apply grows_updateDashboard
      end
    | grows_named | grows_step ].
Qed.

Lemma grows_loadDashboardData r feedReply :
  respects grows (loadDashboardData r feedReply).
Proof.
  unfold loadDashboardData.
  repeat first
    [ lazymatch goal with
      | |- respects _ (await _ _) => apply grows_await
      | |- respects _ (samplePredictions _ _) => apply grows_samplePredictions
      | |- respects _ (loadSampleData _) => apply grows_loadSampleData
      | |- respects _ (updateDashboard _ _) => apply grows_updateDashboard
      end
    | grows_named | grows_step ].
Qed.

Lemma grows_run t : respects grows (run t).
Proof. unfold run. destruct (act t); grows_auto. Qed.

Lemma grows_fire_next : respects grows fire_next.
Proof.
  unfold fire_next.
  grows_step; [grows_step|].
  destruct (earliest (timers _)) as [[t rest]|]; [|grows_step].
  grows_step; [grows_step|].
  grows_step; [grows_step|apply grows_run].
Qed.

(** *** A chart function that returns has registered its chart *)

Definition registered (name : string) (p : page) : Prop :=
  is_Some (charts p !! name).

Lemma grows_registered name p p' : grows p p' -> registered name p -> registered name p'.
Proof. intros (_ & Hk & _) [i Hi]. exists i. apply Hk, Hi. Qed.

(** [Q] holds of every state the computation returns in. *)
Definition always {A} (Q : page -> Prop) (m : M page A) : Prop :=
  forall s a s', m s = (Ok a, s') -> Q s'.

Lemma always_bind {A B} Q (m : M page A) (k : A -> M page B) :
  (forall a, always Q (k a)) -> always Q (bind m k).
Proof.
  intros Hk s b s' E. apply bind_ok_inv in E as (a & s1 & _ & E).
  exact (Hk a s1 b s' E).
Qed.

Lemma always_upsert name kind labels data (onSome : nat -> M page unit) :
  (forall i s a s', onSome i s = (Ok a, s') -> charts s' = charts s) ->
  always (registered name)
    (bind get (fun p =>
       match charts p !! name with
       | Some instance => onSome instance
       | None => createChart name kind labels data
       end)).
Proof.
  intros Hsome s a s' E. rewrite bind_run in E. cbn [get] in E.
  unfold registered. destruct (charts s !! name) as [i|] eqn:En.
  - rewrite (Hsome _ _ _ _ E), En. eauto.
  - injection E as _ <-. simpl. rewrite lookup_insert.
    destruct (decide (name = name)); [eauto|contradiction].
Qed.

Lemma present_run id p :
  present id p = (Ok (bool_decide (is_Some (elements p !! id))), p).
Proof. reflexivity. Qed.

Ltac always_step :=
  lazymatch goal with
  | |- always _ (bind get (fun p => match charts p !! _ with _ => _ end)) =>
      apply always_upsert;
      let E := fresh in intros ? ? ? ? E; injection E as _ <-; reflexivity
  | |- always _ (bind _ _) => apply always_bind; intros ?
  end.

(** With its canvas on the page, a chart function that returns has
    registered its chart. *)
Ltac registers name :=
  let E := fresh "E" in
  intros ? E;
  rewrite bind_run, present_run, bool_decide_eq_true_2 in E by assumption;
  cbn [negb] in E;
  lazymatch type of E with
  | ?m ?s = (Ok ?a, ?s') =>
      let Ha := fresh in
      assert (Ha : always (registered name) m) by (repeat always_step);
      exact (Ha s a s' E)
  end.

Lemma updateRiskDistributionChart_registers riskData s s' :
  is_Some (elements s !! "riskDistributionChart") ->
  updateRiskDistributionChart riskData s = (Ok tt, s') ->
  registered "riskDistribution" s'.
Proof. unfold updateRiskDistributionChart. registers "riskDistribution". Qed.

Lemma updateFeatureImportanceChart_registers s s' :
  is_Some (elements s !! "featureImportanceChart") ->
  updateFeatureImportanceChart s = (Ok tt, s') ->
  registered "featureImportance" s'.
Proof. unfold updateFeatureImportanceChart. registers "featureImportance". Qed.

Lemma updateHourlyTrendChart_registers trendData s s' :
  is_Some (elements s !! "hourlyTrendChart") ->
  updateHourlyTrendChart trendData s = (Ok tt, s') ->
  registered "hourlyTrend" s'.
Proof. unfold updateHourlyTrendChart. registers "hourlyTrend". Qed.

Lemma updatePerformanceChart_registers metrics s s' :
  is_Some (elements s !! "performanceChart") ->
  updatePerformanceChart metrics s = (Ok tt, s') ->
  registered "performance" s'.
Proof. unfold updatePerformanceChart. registers "performance". Qed.

Lemma updateAgeDistributionChart_registers distribution s s' :
  is_Some (elements s !! "ageDistributionChart") ->
  updateAgeDistributionChart distribution s = (Ok tt, s') ->
  registered "ageDistribution" s'.
Proof. unfold updateAgeDistributionChart. registers "ageDistribution". Qed.

(** [updateCharts] that returns, on a page with the five canvases, has
    registered the five charts. *)
Lemma updateCharts_registers data s s' :
  (forall c, In c canvases -> is_Some (elements s !! c)) ->
  updateCharts data s = (Ok tt, s') ->
  forall name, In name chartNames -> registered name s'.
Proof.
  intros Hc E. unfold updateCharts in E.
  apply bind_ok_inv in E as (riskData & ? & [= _ <-] & E).
  apply bind_ok_inv in E as ([] & s1 & E1 & E).
  apply bind_ok_inv in E as ([] & s2 & E2 & E).
  apply bind_ok_inv in E as (trendData & ? & [= _ <-] & E).
  apply bind_ok_inv in E as ([] & s3 & E3 & E).
  apply bind_ok_inv in E as (metrics & ? & [= _ <-] & E).
  apply bind_ok_inv in E as ([] & s4 & E4 & E).
  apply bind_ok_inv in E as (distribution & ? & [= _ <-] & E).
  pose proof (grows_updateRiskDistributionChart riskData s) as G1. run_of G1 E1.
  pose proof (grows_updateFeatureImportanceChart s1) as G2. run_of G2 E2.
  pose proof (grows_updateHourlyTrendChart trendData s2) as G3. run_of G3 E3.
  pose proof (grows_updatePerformanceChart metrics s3) as G4. run_of G4 E4.
  pose proof (grows_updateAgeDistributionChart distribution s4) as G5. run_of G5 E.
  assert (H1 : registered "riskDistribution" s1).
  { eapply updateRiskDistributionChart_registers; [|exact E1]. apply Hc. simpl. tauto. }
  assert (H2 : registered "featureImportance" s2).
  { eapply updateFeatureImportanceChart_registers; [|exact E2].
    apply (proj1 G1), Hc. simpl. tauto. }
  assert (H3 : registered "hourlyTrend" s3).
  { eapply updateHourlyTrendChart_registers; [|exact E3].
    apply (proj1 G2), (proj1 G1), Hc. simpl. tauto. }
  assert (H4 : registered "performance" s4).
  { eapply updatePerformanceChart_registers; [|exact E4].
    apply (proj1 G3), (proj1 G2), (proj1 G1), Hc. simpl. tauto. }
  assert (H5 : registered "ageDistribution" s').
  { eapply updateAgeDistributionChart_registers; [|exact E].
    apply (proj1 G4), (proj1 G3), (proj1 G2), (proj1 G1), Hc. simpl. tauto. }
  intros name Hin. simpl in Hin.
  destruct Hin as [<-|[<-|[<-|[<-|[<-|[]]]]]].
  - eapply grows_registered; [exact G5|]. eapply grows_registered; [exact G4|].
    eapply grows_registered; [exact G3|]. eapply grows_registered; [exact G2|]. exact H1.
  - eapply grows_registered; [exact G5|]. eapply grows_registered; [exact G4|].
    eapply grows_registered; [exact G3|]. exact H2.
  - eapply grows_registered; [exact G5|]. eapply grows_registered; [exact G4|]. exact H3.
  - eapply grows_registered; [exact G5|]. exact H4.
  - exact H5.
Qed.

End WithHost.

(** Any computation put together from the functions of the page. *)
Ltac grows_all :=
  repeat first
    [ lazymatch goal with
      | |- respects _ (setTimeout _ _) => apply grows_setTimeout
      | |- respects _ (record _) => apply grows_record
      | |- respects _ (present _) => apply grows_present
      | |- respects _ (assign _ _ _) => apply grows_assign
      | |- respects _ (assign_unguarded _ _ _) => apply grows_assign_unguarded
      | |- respects _ now => apply grows_now
      | |- respects _ mathRandom => apply grows_mathRandom
      | |- respects _ (showLoading _) => apply grows_showLoading
      | |- respects _ (showNotification _ _) => apply grows_showNotification
      | |- respects _ updateLastUpdateTime => apply grows_updateLastUpdateTime
      | |- respects _ (animateCounter _ _) => apply grows_animateCounter
      | |- respects _ (updateStats _) => apply grows_updateStats
      | |- respects _ (updateRiskDistributionChart _) =>
          apply grows_updateRiskDistributionChart
      | |- respects _ updateFeatureImportanceChart =>
          apply grows_updateFeatureImportanceChart
      | |- respects _ (updateHourlyTrendChart _) => apply grows_updateHourlyTrendChart
      | |- respects _ (updatePerformanceChart _) => apply grows_updatePerformanceChart
      | |- respects _ (updateAgeDistributionChart _) =>
          apply grows_updateAgeDistributionChart
      | |- respects _ (updateCharts _) => apply grows_updateCharts
      | |- respects _ (updatePredictionFeed _ _) => apply grows_updatePredictionFeed
      | |- respects _ (updateDashboard _ _) => apply grows_updateDashboard
      | |- respects _ (await _ _) => apply grows_await
      | |- respects _ (samplePredictions _ _) => apply grows_samplePredictions
      | |- respects _ (loadSampleData _) => apply grows_loadSampleData
      | |- respects _ (loadDashboardData _ _) => apply grows_loadDashboardData
      | |- respects _ fire_next => apply grows_fire_next
      | |- respects _ (detached _) => unfold detached
      end
    | grows_step ].

(** The growth a run [E] of such a computation makes. *)
Ltac grown G E :=
  lazymatch type of E with
  | ?m ?s = (_, ?s') =>
      assert (G : grows s s')
        by (let R := fresh in
            assert (R : respects grows m) by grows_all;
            specialize (R s); rewrite E in R; exact R)
  end.

Section Registration.
Context `{Host}.

(** [updateDashboard] that returns, on a page with the five canvases, has
    registered the five charts. *)
Lemma updateDashboard_registers data feedReply s s' :
  (forall c, In c canvases -> is_Some (elements s !! c)) ->
  updateDashboard data feedReply s = (Ok tt, s') ->
  forall name, In name chartNames -> registered name s'.
Proof.
  intros Hc E name Hin. unfold updateDashboard in E.
  apply bind_ok_inv in E as (overview & ? & [= _ <-] & E).
  apply bind_ok_inv in E as ([] & s1 & E1 & E).
  apply bind_ok_inv in E as ([] & s2 & E2 & E).
  grown G1 E1. grown G E.
  eapply grows_registered; [exact G|].
  eapply updateCharts_registers; [|exact E2|exact Hin].
  intros c Hcin. apply (proj1 G1), Hc, Hcin.
Qed.

End Registration.

End DashboardFacts.

(** ** What a function of the page leaves as it is *)
Module DashboardFrames.
Import JSNumber Json Eff Dom EventLoop Dashboard EffFacts DashboardFacts.
Local Open Scope string_scope.

(** The elements that show the statistics. *)
Definition statIds : list string :=
  ["totalPredictions"; "accuracyRate"; "avgResponse"; "highRiskCount"].

(** The text an element shows. *)
Definition textOf (id : string) (p : page) : option string :=
  getp "textContent" <$> elements p !! id.

(** The chart registered under a name. *)
Definition chartOf (name : string) (p : page) : option chart :=
  charts p !! name ≫= fun i => instances p !! i.

(** The data of the chart registered under a name. *)
Definition chartData (name : string) (p : page) : option json :=
  data <$> chartOf name p.

(** From [p] to [p'] the registry grows, the charts of the names that are
    not in [T] are as they were, and so are the statistics. *)
Definition steady (T : list string) (p p' : page) : Prop :=
  grows p p'
  /\ (sound p -> forall name, ~ In name T -> chartOf name p' = chartOf name p)
  /\ (forall id, In id statIds -> elements p' !! id = elements p !! id).

Lemma steady_refl T p : steady T p p.
Proof. split; [apply grows_refl|]. split; auto. Qed.

Lemma steady_trans T a b c : steady T a b -> steady T b c -> steady T a c.
Proof.
  intros (G1 & F1 & S1) (G2 & F2 & S2). split; [eapply grows_trans; eassumption|].
  split.
  - intros Hs name Hn. rewrite F2, F1; auto. apply G1, Hs.
  - intros id Hid. rewrite S2, S1; auto.
Qed.

(** A step that leaves the registry, the instances and the statistics as
    they are, and removes no element. *)
Lemma steady_same T p p' :
  keepsElements p p' -> charts p' = charts p -> instances p' = instances p ->
  (forall id, In id statIds -> elements p' !! id = elements p !! id) ->
  steady T p p'.
Proof.
  intros He Hc Hi Hs. split; [apply grows_same; assumption|]. split; [|exact Hs].
  intros _ name _. unfold chartOf. rewrite Hc, Hi. reflexivity.
Qed.

(** In a sound registry a registered instance exists, and two names have
    two instances. *)
Lemma sound_lookup p name i :
  sound p -> charts p !! name = Some i -> is_Some (instances p !! i).
Proof.
  intros (names & _ & Hlen & Hnames) Hi. apply lookup_lt_is_Some.
  rewrite <- Hlen. apply Hnames in Hi. eapply lookup_lt_Some, Hi.
Qed.

Lemma sound_distinct p n m i j :
  sound p -> charts p !! n = Some i -> charts p !! m = Some j -> n <> m -> i <> j.
Proof.
  intros (names & _ & _ & Hnames) Hi Hj Hne ->.
  apply Hnames in Hi, Hj. congruence.
Qed.

(** A step on the instances that keeps their number. *)
Lemma grows_instances p p' :
  elements p' = elements p -> charts p' = charts p ->
  length (instances p') = length (instances p) -> grows p p'.
Proof.
  intros He Hc Hl. split; [apply keepsElements_same, He|]. split; [|split].
  - intros name i. rewrite Hc. auto.
  - intros name. rewrite Hc. auto.
  - intros (names & Hnd & Hlen & Hnames). exists names. rewrite Hc, Hl. auto.
Qed.

(** The end of a function that updates the chart of a name in [T]: the
    other charts are as they were. *)
Lemma steady_upsert T name kind labels data (onSome : nat -> M page unit) :
  In name T -> In name chartNames ->
  (forall i s,
     elements (exec (onSome i) s) = elements s
     /\ charts (exec (onSome i) s) = charts s
     /\ length (instances (exec (onSome i) s)) = length (instances s)
     /\ forall j, j <> i -> instances (exec (onSome i) s) !! j = instances s !! j) ->
  respects (steady T)
    (bind get (fun p =>
       match charts p !! name with
       | Some instance => onSome instance
       | None => createChart name kind labels data
       end)).
Proof.
  intros HT Hnames Hsome s. rewrite bind_run. cbn [get].
  destruct (charts s !! name) as [i|] eqn:En.
  - destruct (Hsome i s) as (He & Hc & Hl & Hj). fold (exec (onSome i) s).
    split; [apply grows_instances; assumption|]. split.
    + intros Hs n Hn. unfold chartOf. rewrite Hc.
      destruct (charts s !! n) as [j|] eqn:Ej; [|reflexivity]. simpl.
      apply Hj. eapply sound_distinct; [exact Hs|exact Ej|exact En|].
      intros ->. contradiction.
    + intros id _. rewrite He. reflexivity.
  - fold (exec (createChart name kind labels data) s).
    split; [apply grows_create; assumption|]. split.
    + intros Hs n Hn. unfold chartOf. simpl.
      rewrite lookup_insert_ne by (intros ->; contradiction).
      destruct (charts s !! n) as [j|] eqn:Ej; [|reflexivity]. simpl.
      apply lookup_app_l. apply lookup_lt_is_Some. eapply sound_lookup; eassumption.
    + intros id _. reflexivity.
Qed.

(** The end of a function that updates a chart: the chart of the name
    holds the data. *)
Lemma upsert_holds name kind labels d (onSome : nat -> M page unit) s r s' :
  sound s ->
  (forall i s, charts (exec (onSome i) s) = charts s) ->
  (forall i s c, instances s !! i = Some c ->
     exists c', instances (exec (onSome i) s) !! i = Some c' /\ data c' = d) ->
  bind get (fun p =>
    match charts p !! name with
    | Some instance => onSome instance
    | None => createChart name kind labels d
    end) s = (r, s') ->
  chartData name s' = Some d.
Proof.
  intros Hs Hc Hd E. rewrite bind_run in E. cbn [get] in E.
  unfold chartData, chartOf.
  destruct (charts s !! name) as [i|] eqn:En.
  - destruct (sound_lookup s name i Hs En) as [c Hi].
    destruct (Hd i s c Hi) as (c' & Hi' & Hdata).
    assert (Es : s' = exec (onSome i) s) by (unfold exec; rewrite E; reflexivity).
    subst s'. rewrite Hc, En. simpl. rewrite Hi'. simpl. rewrite Hdata. reflexivity.
  - injection E as _ <-. simpl. rewrite lookup_insert_eq. simpl.
    rewrite lookup_app_r by lia. rewrite Nat.sub_diag. reflexivity.
Qed.

Lemma steady_elements T f id :
  ~ In id statIds -> respects (steady T) (modify (with_elements (alter f id))).
Proof.
  intros Hid. apply respects_modify. intros p.
  apply steady_same; [apply keepsElements_alter|reflexivity|reflexivity|].
  intros i Hi. simpl. apply lookup_alter_ne. intros ->. contradiction.
Qed.

Ltac steady_leaf :=
  apply respects_modify; intros ?;
  apply steady_same;
    [apply keepsElements_same; reflexivity|reflexivity|reflexivity
    |intros ? _; reflexivity].

Ltac steady_step :=
  lazymatch goal with
  | |- respects _ (bind get (fun p => match charts p !! _ with _ => _ end)) =>
      apply steady_upsert;
        [first [assumption|simpl; tauto]|simpl; tauto
        |intros ? ?; repeat split; intros; simpl;
         rewrite ?length_alter, ?list_lookup_alter_ne by congruence; reflexivity]
  | |- respects (steady ?T) (bind _ _) =>
      apply (respects_bind (steady T) (steady_trans T)); [|intros ?]
  | |- respects (steady ?T) (ret _) => apply (respects_ret (steady T) (steady_refl T))
  | |- respects (steady ?T) (throw _) => apply (respects_throw (steady T) (steady_refl T))
  | |- respects (steady ?T) (lift _) => apply (respects_lift (steady T) (steady_refl T))
  | |- respects (steady ?T) get => apply (respects_get (steady T) (steady_refl T))
  | |- respects (steady ?T) (when _ _) => apply (respects_when (steady T) (steady_refl T))
  | |- respects (steady ?T) (try_catch _ _) =>
      apply (respects_try_catch (steady T) (steady_refl T) (steady_trans T)); [|intros ?]
  | |- respects _ (modify (with_elements (alter _ _))) =>
      apply steady_elements; simpl; intuition discriminate
  | |- respects _ (modify _) => steady_leaf
  | |- respects _ (if ?b then _ else _) => destruct b
  | |- respects _ (match ?x with _ => _ end) => destruct x
  end.

Section WithHost.
Context `{Host}.
Variable T : list string.

Lemma steady_randomCounts n : respects (steady T) (randomCounts n).
Proof.
  induction n as [|n IH]; simpl; [steady_step|].
  unfold mathRandom. repeat steady_step. exact IH.
Qed.

Lemma steady_updateRiskDistributionChart riskData :
  In "riskDistribution" T ->
  respects (steady T) (updateRiskDistributionChart riskData).
Proof.
  intros HT. unfold updateRiskDistributionChart, assign_unguarded, assign, present.
  repeat steady_step.
Qed.

Lemma steady_updateFeatureImportanceChart :
  In "featureImportance" T -> respects (steady T) updateFeatureImportanceChart.
Proof. intros HT. unfold updateFeatureImportanceChart, present. repeat steady_step. Qed.

Lemma steady_updateHourlyTrendChart trendData :
  In "hourlyTrend" T -> respects (steady T) (updateHourlyTrendChart trendData).
Proof.
  intros HT. unfold updateHourlyTrendChart, present.
  repeat first
    [ lazymatch goal with
      | |- respects _ (randomCounts _) => apply steady_randomCounts
      end
    | steady_step ].
Qed.

Lemma steady_updatePerformanceChart metrics :
  In "performance" T -> respects (steady T) (updatePerformanceChart metrics).
Proof.
  intros HT. unfold updatePerformanceChart, assign_unguarded, assign, present.
  repeat steady_step.
Qed.

Lemma steady_updateAgeDistributionChart distribution :
  In "ageDistribution" T ->
  respects (steady T) (updateAgeDistributionChart distribution).
Proof. intros HT. unfold updateAgeDistributionChart, present. repeat steady_step. Qed.

Lemma steady_updateCharts data :
  (forall name, In name chartNames -> In name T) ->
  respects (steady T) (updateCharts data).
Proof.
  intros HT. unfold updateCharts.
  repeat first
    [ lazymatch goal with
      | |- respects _ (updateRiskDistributionChart _) =>
          apply steady_updateRiskDistributionChart, HT; simpl; tauto
      | |- respects _ updateFeatureImportanceChart =>
          apply steady_updateFeatureImportanceChart, HT; simpl; tauto
      | |- respects _ (updateHourlyTrendChart _) =>
          apply steady_updateHourlyTrendChart, HT; simpl; tauto
      | |- respects _ (updatePerformanceChart _) =>
          apply steady_updatePerformanceChart, HT; simpl; tauto
      | |- respects _ (updateAgeDistributionChart _) =>
          apply steady_updateAgeDistributionChart, HT; simpl; tauto
      end
    | steady_step ].
Qed.

Lemma steady_forEachFrom {A} (f : A -> nat -> M page unit) (l : list A) :
  (forall a i, respects (steady T) (f a i)) ->
  forall index, respects (steady T) (forEachFrom index l f).
Proof.
  intros Hf. induction l as [|a rest IH]; intros index; simpl.
  - steady_step.
  - steady_step; [apply Hf|apply IH].
Qed.

Lemma steady_feedEntry count prediction index :
  respects (steady T) (feedEntry count prediction index).
Proof. unfold feedEntry, now, setTimeout. repeat steady_step. Qed.

Lemma steady_updatePredictionFeed predictions r :
  respects (steady T) (updatePredictionFeed predictions r).
Proof.
  unfold updatePredictionFeed, await, record, assign, present.
  repeat first
    [ lazymatch goal with
      | |- respects _ (forEachFrom _ _ _) =>
          apply steady_forEachFrom; intros ? ?; apply steady_feedEntry
      end
    | steady_step ].
Qed.

Lemma steady_updateLastUpdateTime : respects (steady T) updateLastUpdateTime.
Proof. unfold updateLastUpdateTime, now, assign. repeat steady_step. Qed.

Lemma steady_showLoading show : respects (steady T) (showLoading show).
Proof. unfold showLoading, record. repeat steady_step. Qed.

End WithHost.

(** What a run [E] of one of these functions leaves as it was. *)
Ltac framed S T E :=
  lazymatch type of E with
  | ?m ?s = (_, ?s') =>
      assert (S : steady T s s')
        by (let R := fresh in
            assert (R : respects (steady T) m)
              by (lazymatch m with
                  | updateRiskDistributionChart _ =>
                      apply steady_updateRiskDistributionChart; simpl; tauto
                  | updateFeatureImportanceChart =>
                      apply steady_updateFeatureImportanceChart; simpl; tauto
                  | updateHourlyTrendChart _ =>
                      apply steady_updateHourlyTrendChart; simpl; tauto
                  | updatePerformanceChart _ =>
                      apply steady_updatePerformanceChart; simpl; tauto
                  | updateAgeDistributionChart _ =>
                      apply steady_updateAgeDistributionChart; simpl; tauto
                  | updateCharts _ => apply steady_updateCharts; intros ? ?; assumption
                  | updatePredictionFeed _ _ => apply steady_updatePredictionFeed
                  | updateLastUpdateTime => apply steady_updateLastUpdateTime
                  | showLoading _ => apply steady_showLoading
                  end);
            specialize (R s); rewrite E in R; exact R)
  end.

Lemma steady_chartData T name p p' :
  steady T p p' -> sound p -> ~ In name T -> chartData name p' = chartData name p.
Proof. intros (_ & F & _) Hs Hn. unfold chartData. rewrite F; auto. Qed.

Lemma steady_textOf T id p p' :
  steady T p p' -> In id statIds -> textOf id p' = textOf id p.
Proof. intros (_ & _ & S) Hid. unfold textOf. rewrite S; auto. Qed.

End DashboardFrames.

(** ** The dashboard on its own sample data *)
Module DashboardRuns.
Import JSNumber Json Eff Dom EventLoop Dashboard EffFacts DashboardFacts DashboardFrames.
Local Open Scope string_scope.

(** The labels the script writes to without a check. *)
Definition labelIds : list string :=
  ["lowRiskPercent"; "mediumRiskPercent"; "highRiskPercent";
   "precisionValue"; "recallValue"; "f1Value"].

(** The elements the script needs to render every chart and the feed:
    the five canvases, these labels, and the container of the feed. *)
Definition required : list string := canvases ++ labelIds ++ ["predictionFeed"].

(** A page is complete when it has them. *)
Definition complete (p : page) : Prop :=
  forall id, In id required -> is_Some (elements p !! id).

(** The shape of a generated sample prediction. *)
Definition sampleShaped (prediction : json) : Prop :=
  exists timestamp glucose age level,
    prediction = JObj [("timestamp", JStr timestamp);
                       ("prediction", JObj [("Glucose", JNum glucose); ("Age", JNum age)]);
                       ("risk_level", level)]
    /\ In level [JStr "low"; JStr "medium"; JStr "high"; JUndefined].

(** The notifications raised, in order: the calls of [showNotification]. *)
Definition raised (cs : list call) : list (string * string) :=
  flat_map (fun c => match c with
                     | Notify message type => [(message, type)]
                     | _ => []
                     end) cs.

Lemma raised_app a b : raised (a ++ b) = (raised a ++ raised b)%list.
Proof. apply flat_map_app. Qed.

(** The page is complete, its data is the sample data, and the
    notifications raised so far are [ns]. *)
Definition ready (timeline : list json) (ns : list (string * string)) (p : page) : Prop :=
  complete p /\ dashboardData p = Some (sampleData timeline) /\ raised (calls p) = ns.

Lemma complete_keeps p p' : keepsElements p p' -> complete p -> complete p'.
Proof. intros He Hc id Hid. apply He, Hc, Hid. Qed.

Lemma complete_alter f id p : complete p -> complete (with_elements (alter f id) p).
Proof. apply complete_keeps, keepsElements_alter. Qed.

Lemma ready_alter tl ns f id p :
  ready tl ns p -> ready tl ns (with_elements (alter f id) p).
Proof. intros [Hc Hd]. split; [apply complete_alter, Hc|exact Hd]. Qed.

Lemma ready_same tl ns p p' :
  elements p' = elements p -> dashboardData p' = dashboardData p ->
  raised (calls p') = raised (calls p) ->
  ready tl ns p -> ready tl ns p'.
Proof.
  intros He Hd Hn (Hc & Hs & Hr). split; [|split; congruence].
  intros id Hid. rewrite He. apply Hc, Hid.
Qed.

(** A run [E] that starts with a value that is read: the rest of it. *)
Ltac lift_inv E :=
  lazymatch type of E with
  | bind (lift ?e) ?k ?s = ?r =>
      let v := eval hnf in e in
      lazymatch v with
      | Ok ?a => change (k a s = r) in E; cbv beta in E
      end
  | bind (ret ?a) ?k ?s = ?r => change (k a s = r) in E; cbv beta in E
  end.

Section Ready.
Context `{Host}.
Variable tl : list json.
Variable ns : list (string * string).

Lemma runs_there {B} id (k : bool -> M page B) Q :
  In id required -> keeps (ready tl ns) (k true) Q ->
  keeps (ready tl ns) (bind (present id) k) Q.
Proof.
  intros Hid Hk s Hs. unfold present. rewrite !bind_run. cbn [get ret].
  rewrite bool_decide_eq_true_2 by (apply (proj1 Hs), Hid).
  apply Hk, Hs.
Qed.

Lemma runs_elements f id :
  keeps (ready tl ns) (modify (with_elements (alter f id))) (fun _ _ => True).
Proof. apply keeps_modify. intros p. apply ready_alter. Qed.

Lemma runs_other (f : page -> page) :
  (forall p, elements (f p) = elements p) ->
  (forall p, dashboardData (f p) = dashboardData p) ->
  (forall p, raised (calls (f p)) = raised (calls p)) ->
  keeps (ready tl ns) (modify f) (fun _ _ => True).
Proof.
  intros He Hd Hn. apply keeps_modify. intros p.
  apply ready_same; [apply He|apply Hd|apply Hn].
Qed.

Lemma runs_upsert name kind labels data (onSome : nat -> M page unit) :
  (forall i, keeps (ready tl ns) (onSome i) (fun _ _ => True)) ->
  keeps (ready tl ns) (createChart name kind labels data) (fun _ _ => True) ->
  keeps (ready tl ns)
    (bind get (fun p =>
       match charts p !! name with
       | Some instance => onSome instance
       | None => createChart name kind labels data
       end))
    (fun _ _ => True).
Proof.
  intros Hsome Hnone s Hs. rewrite bind_run. cbn [get].
  destruct (charts s !! name) as [i|]; [apply Hsome|apply Hnone]; exact Hs.
Qed.

(** [updateStats] reads the data it was given last. *)
Lemma runs_snapshot (k : json -> M page unit) :
  keeps (ready tl ns) (k (sampleData tl)) (fun _ _ => True) ->
  keeps (ready tl ns)
    (bind get (fun p =>
       match dashboardData p with
       | Some snapshot => k snapshot
       | None => ret tt
       end))
    (fun _ _ => True).
Proof.
  intros Hk s Hs. rewrite bind_run. cbn [get].
  rewrite (proj1 (proj2 Hs)). apply Hk, Hs.
Qed.

Ltac ready_step :=
  cbn [negb];
  lazymatch goal with
  | |- keeps _ (bind get (fun p => match charts p !! _ with _ => _ end)) _ =>
      apply runs_upsert; [intros ?|]
  | |- keeps _ (bind get (fun p => match dashboardData p with _ => _ end)) _ =>
      apply runs_snapshot
  | |- keeps _ (bind (present ?id) _) _ =>
      first [ apply runs_there; [simpl; tauto|]
            | eapply keeps_bind; [|intros ?] ]
  | |- keeps _ (bind (lift ?e) ?k) _ =>
      let v := eval hnf in e in
      lazymatch v with
      | Ok ?a =>
          change e with (@Ok _ a);
          eapply keeps_bind_val; [apply keeps_lift|cbv beta]
      end
  | |- keeps _ (bind (ret ?a) _) _ =>
      eapply keeps_bind_val; [apply keeps_ret|cbv beta]
  | |- keeps _ (bind _ _) _ => eapply keeps_bind; [|intros ?]
  | |- keeps _ (when _ _) _ => eapply keeps_when
  | |- keeps _ (if ?b then _ else _) _ =>
      let v := eval hnf in b in
      lazymatch v with
      | true => change b with true; cbv iota
      | false => change b with false; cbv iota
      | _ => destruct b
      end
  | |- keeps _ (match ?x with _ => _ end) _ =>
      let v := eval hnf in x in change x with v; cbv iota
  | |- keeps _ (modify (with_elements (alter _ _))) _ => apply runs_elements
  | |- keeps _ (modify _) _ => apply runs_other; intros ?; reflexivity
  | |- keeps _ get _ => first [apply keeps_get|eapply keeps_weaken, keeps_get]
  | |- keeps _ (ret _) _ => first [apply keeps_ret|eapply keeps_weaken, keeps_ret]
  end.

Lemma runs_setTimeout a d : keeps (ready tl ns) (setTimeout a d) (fun _ _ => True).
Proof. unfold setTimeout. ready_step. Qed.

Lemma runs_record c :
  raised [c] = [] -> keeps (ready tl ns) (record c) (fun _ _ => True).
Proof.
  intros Hc. unfold record. apply runs_other; intros p; try reflexivity.
  simpl. rewrite raised_app, Hc. apply app_nil_r.
Qed.

Lemma runs_present id : keeps (ready tl ns) (present id) (fun _ _ => True).
Proof. unfold present. repeat ready_step. Qed.

Lemma runs_now : keeps (ready tl ns) now (fun _ _ => True).
Proof. unfold now. repeat ready_step. Qed.

Lemma runs_mathRandom : keeps (ready tl ns) mathRandom (fun _ _ => True).
Proof. unfold mathRandom. repeat ready_step. Qed.

Lemma runs_assign id name v : keeps (ready tl ns) (assign id name v) (fun _ _ => True).
Proof. unfold assign. ready_step. Qed.

Lemma runs_assign_unguarded id name v :
  In id required ->
  keeps (ready tl ns) (assign_unguarded id name v) (fun _ _ => True).
Proof.
  intros Hid. unfold assign_unguarded.
  apply runs_there; [exact Hid|]. apply runs_assign.
Qed.

Lemma runs_animateCounter element target :
  keeps (ready tl ns) (animateCounter element target) (fun _ _ => True).
Proof.
  unfold animateCounter. eapply keeps_bind; [apply keeps_get|].
  intros ?. apply runs_setTimeout.
Qed.

Lemma runs_createChart name kind labels data :
  keeps (ready tl ns) (createChart name kind labels data) (fun _ _ => True).
Proof. unfold createChart. repeat ready_step. Qed.

Ltac ready_named :=
  lazymatch goal with
  | |- keeps _ (setTimeout _ _) _ => apply runs_setTimeout
  | |- keeps _ (record _) _ => apply runs_record; reflexivity
  | |- keeps _ now _ => apply runs_now
  | |- keeps _ (present _) _ => apply runs_present
  | |- keeps _ mathRandom _ => apply runs_mathRandom
  | |- keeps _ (assign _ _ _) _ => apply runs_assign
  | |- keeps _ (assign_unguarded _ _ _) _ =>
      apply runs_assign_unguarded; simpl; tauto
  | |- keeps _ (animateCounter _ _) _ => apply runs_animateCounter
  | |- keeps _ (createChart _ _ _ _) _ => apply runs_createChart
  end.

Ltac ready_auto := repeat first [ready_named|ready_step].

Lemma runs_updateStats overview :
  prop (sampleData tl) "overview" = Ok overview ->
  keeps (ready tl ns) (updateStats overview) (fun _ _ => True).
Proof.
  intros E. injection E as <-. unfold updateStats. ready_auto.
Qed.

Lemma runs_updateRiskDistributionChart riskData :
  prop (sampleData tl) "risk_distribution" = Ok riskData ->
  keeps (ready tl ns) (updateRiskDistributionChart riskData) (fun _ _ => True).
Proof.
  intros E. injection E as <-. unfold updateRiskDistributionChart. ready_auto.
Qed.

Lemma runs_updateFeatureImportanceChart :
  keeps (ready tl ns) updateFeatureImportanceChart (fun _ _ => True).
Proof. unfold updateFeatureImportanceChart. ready_auto. Qed.

Lemma runs_updateHourlyTrendChart trendData :
  prop (sampleData tl) "hourly_trend" = Ok trendData ->
  keeps (ready tl ns) (updateHourlyTrendChart trendData) (fun _ _ => True).
Proof.
  intros E. injection E as <-. unfold updateHourlyTrendChart. ready_auto.
Qed.

Lemma runs_updatePerformanceChart metrics :
  prop (sampleData tl) "performance_metrics" = Ok metrics ->
  keeps (ready tl ns) (updatePerformanceChart metrics) (fun _ _ => True).
Proof.
  intros E. injection E as <-. unfold updatePerformanceChart. ready_auto.
Qed.

Lemma runs_updateAgeDistributionChart distribution :
  prop (sampleData tl) "feature_distribution" = Ok distribution ->
  keeps (ready tl ns) (updateAgeDistributionChart distribution) (fun _ _ => True).
Proof.
  intros E. injection E as <-. unfold updateAgeDistributionChart. ready_auto.
Qed.

Lemma runs_updateCharts :
  keeps (ready tl ns) (updateCharts (sampleData tl)) (fun _ _ => True).
Proof.
  unfold updateCharts.
  repeat first
    [ lazymatch goal with
      | |- keeps _ (updateRiskDistributionChart _) _ =>
          apply runs_updateRiskDistributionChart; reflexivity
      | |- keeps _ updateFeatureImportanceChart _ =>
          apply runs_updateFeatureImportanceChart
      | |- keeps _ (updateHourlyTrendChart _) _ =>
          apply runs_updateHourlyTrendChart; reflexivity
      | |- keeps _ (updatePerformanceChart _) _ =>
          apply runs_updatePerformanceChart; reflexivity
      | |- keeps _ (updateAgeDistributionChart _) _ =>
          apply runs_updateAgeDistributionChart; reflexivity
      end
    | ready_step ].
Qed.

(** *** The statistics *)

(** What the statistics show of the sample data. *)
Definition sampleStats : list (string * string) :=
  [("totalPredictions", toLocaleString (Fin 1247));
   ("accuracyRate", toFixed1 (JSString.parseFloat "94.2") ++ "%");
   ("avgResponse", numberToString (JSString.parseFloat "0.3") ++ "s");
   ("highRiskCount", toLocaleString (Fin 250))].

Lemma text_shown id v (m : gmap string element) :
  is_Some (m !! id) ->
  getp "textContent" <$> alter (setp "textContent" v) id m !! id = Some v.
Proof.
  intros [e He]. rewrite lookup_alter_eq, He. simpl.
  unfold getp, setp. simpl. rewrite lookup_insert_eq. reflexivity.
Qed.

(** The element under [id] is as it was. *)
Definition keepsText (id : string) (p p' : page) : Prop :=
  elements p' !! id = elements p !! id.

Lemma keepsText_refl id p : keepsText id p p.
Proof. reflexivity. Qed.

Lemma keepsText_trans id a b c : keepsText id a b -> keepsText id b c -> keepsText id a c.
Proof. unfold keepsText. congruence. Qed.

Ltac keepsText_step :=
  lazymatch goal with
  | |- respects (keepsText ?id) (bind _ _) =>
      apply (respects_bind (keepsText id) (keepsText_trans id)); [|intros ?]
  | |- respects (keepsText ?id) (ret _) =>
      apply (respects_ret (keepsText id) (keepsText_refl id))
  | |- respects (keepsText ?id) (lift _) =>
      apply (respects_lift (keepsText id) (keepsText_refl id))
  | |- respects (keepsText ?id) get =>
      apply (respects_get (keepsText id) (keepsText_refl id))
  | |- respects (keepsText ?id) (when _ _) =>
      apply (respects_when (keepsText id) (keepsText_refl id))
  | |- respects _ (modify (with_elements (alter _ _))) =>
      apply respects_modify; intros ?; apply lookup_alter_ne; discriminate
  | |- respects _ (modify _) => apply respects_modify; intros ?; reflexivity
  | |- respects _ (if ?b then _ else _) => destruct b
  | |- respects _ (match ?x with _ => _ end) => destruct x
  end.

(** The invariant after a run [E] from a state where it holds. *)
Ltac ready_after Hs' E Hs :=
  lazymatch type of E with
  | ?m ?s = (_, ?s') =>
      lazymatch type of Hs with
      | ?I s =>
          assert (Hs' : I s')
            by (let K := fresh in
                assert (K : keeps I m (fun _ _ => True)) by ready_auto;
                let E' := fresh in
                destruct (K s Hs) as (? & ? & E' & ? & _);
                rewrite E in E'; injection E' as _ <-; assumption)
      end
  end.

(** The text a run [E] leaves as it was. *)
Ltac kept id K E :=
  lazymatch type of E with
  | ?m ?s = (_, ?s') =>
      assert (K : keepsText id s s')
        by (let R := fresh in
            assert (R : respects (keepsText id) m)
              by (unfold assign, animateCounter, setTimeout; repeat keepsText_step);
            specialize (R s); rewrite E in R; exact R)
  end.

Lemma textOf_kept id p p' : keepsText id p p' -> textOf id p' = textOf id p.
Proof. unfold textOf, keepsText. intros ->. reflexivity. Qed.

Lemma assign_ok id name v s r s' :
  assign id name v s = (r, s') -> s' = with_elements (alter (setp name v) id) s.
Proof. intros [= _ <-]. reflexivity. Qed.

Lemma animateCounter_ok element target s r s' :
  animateCounter element target s = (r, s') -> elements s' = elements s.
Proof. intros [= _ <-]. reflexivity. Qed.

(** A run of [updateStats] on the sample data: every statistic that has
    its element shows its value. *)
Lemma updateStats_shows overview s s' :
  prop (sampleData tl) "overview" = Ok overview ->
  ready tl ns s ->
  updateStats overview s = (Ok tt, s') ->
  forall id text,
    In (id, text) sampleStats -> is_Some (elements s !! id) ->
    textOf id s' = Some text.
Proof.
  intros Eo Hs E id text Hin Hid. injection Eo as <-. unfold updateStats in E.
  apply bind_ok_inv in E as (a & ? & [= <- <-] & E).
  apply bind_ok_inv in E as (b & ? & [= <- <-] & E).
  apply bind_ok_inv in E as (c & ? & [= <- <-] & E).
  apply bind_ok_inv in E as (d & ? & [= <- <-] & E).
  apply bind_ok_inv in E as ([] & s1 & E1 & E).
  apply bind_ok_inv in E as ([] & s2 & E2 & E).
  apply bind_ok_inv in E as ([] & s3 & E3 & E).
  ready_after Hs1 E1 Hs. ready_after Hs2 E2 Hs1. ready_after Hs3 E3 Hs2.
  apply bind_ok_inv in E as (? & ? & [= <- <-] & E).
  rewrite (proj1 (proj2 Hs3)) in E.
  grown G1 E1. grown G2 E2. grown G3 E3.
  unfold sampleStats in Hin. cbn [In] in Hin.
  destruct Hin as [Heq|[Heq|[Heq|[Heq|[]]]]];
    apply pair_equal_spec in Heq; destruct Heq as [<- <-].
  - kept "totalPredictions" K2 E2. kept "totalPredictions" K3 E3.
    kept "totalPredictions" K4 E.
    rewrite (textOf_kept _ _ _ K4), (textOf_kept _ _ _ K3), (textOf_kept _ _ _ K2).
    rewrite bool_decide_eq_true_2 in E1 by exact Hid. cbn [when] in E1.
    lift_inv E1. lift_inv E1.
    apply bind_ok_inv in E1 as ([] & sa & Ea & E1).
    apply assign_ok in Ea. apply animateCounter_ok in E1.
    unfold textOf. rewrite E1, Ea. apply text_shown, Hid.
  - kept "accuracyRate" K3 E3. kept "accuracyRate" K4 E.
    rewrite (textOf_kept _ _ _ K4), (textOf_kept _ _ _ K3).
    rewrite bool_decide_eq_true_2 in E2 by exact Hid. cbn [when] in E2.
    lift_inv E2. lift_inv E2.
    apply assign_ok in E2. rewrite E2. apply text_shown, (proj1 G1), Hid.
  - kept "avgResponse" K4 E. rewrite (textOf_kept _ _ _ K4).
    rewrite bool_decide_eq_true_2 in E3 by exact Hid. cbn [when] in E3.
    lift_inv E3.
    apply assign_ok in E3. rewrite E3. apply text_shown, (proj1 G2), (proj1 G1), Hid.
  - rewrite bool_decide_eq_true_2 in E by exact Hid.
    change (truthy (sampleData tl)) with true in E. cbn [andb when] in E.
    lift_inv E. lift_inv E. cbv zeta in E. lift_inv E.
    apply assign_ok in E. rewrite E.
    apply text_shown, (proj1 G3), (proj1 G2), (proj1 G1), Hid.
Qed.

(** *** The feed *)

(** One entry of the feed, from a sample prediction: an item is made and
    appended to the feed. *)
Lemma feedEntry_run count prediction index p :
  sampleShaped prediction -> ready tl ns p ->
  exists p', feedEntry count prediction index p = (Ok tt, p')
    /\ ready tl ns p' /\ feed p' = (feed p ++ [length (feedItems p)])%list.
Proof.
  intros (timestamp & glucose & age & level & -> & Hl) Hp.
  simpl in Hl.
  destruct Hl as [<-|[<-|[<-|[<-|[]]]]];
    (eexists; split;
     [ cbn -[formatTime numberToString toString sub toNumber JSNumber.ofZ
             toUpperCase Z.mul Z.of_nat];
       reflexivity
     | split; [|reflexivity] ]);
    (eapply ready_same; [| | |exact Hp]; reflexivity).
Qed.

Lemma forEachFrom_run count items :
  Forall sampleShaped items ->
  forall index p, ready tl ns p ->
  exists p', forEachFrom index items (feedEntry count) p = (Ok tt, p')
    /\ ready tl ns p' /\ length (feed p') = (length (feed p) + length items)%nat.
Proof.
  induction 1 as [|prediction items Hshape _ IH]; intros index p Hp.
  - exists p. split; [reflexivity|]. split; [exact Hp|]. simpl. lia.
  - destruct (feedEntry_run count prediction index p Hshape Hp) as (p1 & E1 & Hp1 & Hf1).
    destruct (IH (S index) p1 Hp1) as (p2 & E2 & Hp2 & Hf2).
    exists p2. split; [|split; [exact Hp2|]].
    + cbn [forEachFrom]. rewrite bind_run, E1. exact E2.
    + rewrite Hf2, Hf1, length_app. simpl. lia.
Qed.

Lemma present_there id p :
  ready tl ns p -> In id required -> present id p = (Ok true, p).
Proof.
  intros Hp Hid. unfold present. rewrite bind_run. cbn [get ret].
  rewrite bool_decide_eq_true_2 by (apply (proj1 Hp), Hid). reflexivity.
Qed.

(** The feed of the five sample predictions has five entries. *)
Lemma updatePredictionFeed_run feedReply p :
  Forall sampleShaped tl -> length tl = 5%nat -> ready tl ns p ->
  exists p', updatePredictionFeed (JArr tl) feedReply p = (Ok tt, p')
    /\ ready tl ns p' /\ length (feed p') = 5%nat.
Proof.
  intros Hshape Hlen Hp. unfold updatePredictionFeed.
  rewrite bind_run, (present_there _ _ Hp) by (simpl; tauto).
  cbn -[forEachFrom feedEntry JSNumber.ofZ is_zero_number alter].
  rewrite Hlen.
  change (is_zero_number (JNum (JSNumber.ofZ (Z.of_nat 5))))
    with (Qnum (inject_Z 5) =? 0)%Z.
  cbn [inject_Z Qnum Z.eqb].
  destruct (forEachFrom_run (JNum (JSNumber.ofZ (Z.of_nat 5))) tl Hshape 0
              (with_elements (alter (setp "innerHTML" "") "predictionFeed")
                 (with_feed (fun _ => []) p)))
    as (p' & E & Hp' & Hf).
  { apply ready_alter. eapply ready_same; [| | |exact Hp]; reflexivity. }
  exists p'. split; [exact E|]. split; [exact Hp'|].
  rewrite Hf, Hlen. reflexivity.
Qed.

Lemma runs_updateLastUpdateTime :
  keeps (ready tl ns) updateLastUpdateTime (fun _ _ => True).
Proof. unfold updateLastUpdateTime. ready_auto. Qed.

Lemma runs_showLoading show :
  keeps (ready tl ns) (showLoading show) (fun _ _ => True).
Proof. unfold showLoading. ready_auto. Qed.

End Ready.

(** *** The charts *)

(** What the charts hold of the sample data. *)
Definition sampleCharts : list (string * json) :=
  [("riskDistribution", JArr [JNum (Fin 560); JNum (Fin 437); JNum (Fin 250)]);
   ("featureImportance", importance);
   ("hourlyTrend", hourlyData);
   ("performance", JArr [JNum (Fin 92); JNum (Fin 89); JNum (Fin 90); JNum (Fin 94)]);
   ("ageDistribution", JArr [JNum (Fin 25); JNum (Fin 45); JNum (Fin 30)])].

(** Through a run [E] that starts with a write to an element, the
    registry stays sound. *)
Ltac past_write E Hs :=
  lazymatch type of E with
  | bind get _ _ = _ => fail
  | bind _ _ _ = _ =>
      let E0 := fresh in let G := fresh in
      apply bind_ok_inv in E as (? & ? & E0 & E);
      grown G E0; apply (proj2 (proj2 (proj2 G))) in Hs; clear E0 G
  end.

(** The chart holds the data once the function has returned. *)
Ltac holds_data E Hs :=
  rewrite bind_run, present_run, bool_decide_eq_true_2 in E by assumption;
  cbn [negb] in E;
  repeat first [lift_inv E; cbv zeta in E | past_write E Hs];
  eapply upsert_holds in E;
    [exact E|exact Hs|intros ? ?; reflexivity
    |let Hi := fresh in
     intros ? ? ? Hi; simpl; rewrite !list_lookup_alter_eq, Hi; simpl;
     eexists; split; reflexivity].

Section ChartData.
Context `{Host}.
Variable tl : list json.

Lemma updateRiskDistributionChart_holds riskData s s' :
  prop (sampleData tl) "risk_distribution" = Ok riskData ->
  sound s -> is_Some (elements s !! "riskDistributionChart") ->
  updateRiskDistributionChart riskData s = (Ok tt, s') ->
  chartData "riskDistribution" s'
  = Some (JArr [JNum (Fin 560); JNum (Fin 437); JNum (Fin 250)]).
Proof.
  intros Ed Hs Hc E. injection Ed as <-. unfold updateRiskDistributionChart in E.
  holds_data E Hs.
Qed.

Lemma updateFeatureImportanceChart_holds s s' :
  sound s -> is_Some (elements s !! "featureImportanceChart") ->
  updateFeatureImportanceChart s = (Ok tt, s') ->
  chartData "featureImportance" s' = Some importance.
Proof.
  intros Hs Hc E. unfold updateFeatureImportanceChart in E. holds_data E Hs.
Qed.

Lemma updateHourlyTrendChart_holds trendData s s' :
  prop (sampleData tl) "hourly_trend" = Ok trendData ->
  sound s -> is_Some (elements s !! "hourlyTrendChart") ->
  updateHourlyTrendChart trendData s = (Ok tt, s') ->
  chartData "hourlyTrend" s' = Some hourlyData.
Proof.
  intros Ed Hs Hc E. injection Ed as <-. unfold updateHourlyTrendChart in E.
  rewrite bind_run, present_run, bool_decide_eq_true_2 in E by assumption.
  cbn [negb] in E. lift_inv E. cbv zeta in E. lift_inv E.
  change (truthy (lookup_field [("labels", hourlyLabels); ("data", hourlyData)] "data"))
    with true in E.
  cbv iota in E.
  change (lookup_field [("labels", hourlyLabels); ("data", hourlyData)] "data")
    with hourlyData in E.
  lift_inv E.
  eapply upsert_holds in E; [exact E|exact Hs|intros ? ?; reflexivity|].
  intros i s0 c Hi. simpl. rewrite !list_lookup_alter_eq, Hi. simpl.
  eexists. split; reflexivity.
Qed.

Lemma updatePerformanceChart_holds metrics s s' :
  prop (sampleData tl) "performance_metrics" = Ok metrics ->
  sound s -> is_Some (elements s !! "performanceChart") ->
  updatePerformanceChart metrics s = (Ok tt, s') ->
  chartData "performance" s'
  = Some (JArr [JNum (Fin 92); JNum (Fin 89); JNum (Fin 90); JNum (Fin 94)]).
Proof.
  intros Ed Hs Hc E. injection Ed as <-. unfold updatePerformanceChart in E.
  holds_data E Hs.
Qed.

Lemma updateAgeDistributionChart_holds distribution s s' :
  prop (sampleData tl) "feature_distribution" = Ok distribution ->
  sound s -> is_Some (elements s !! "ageDistributionChart") ->
  updateAgeDistributionChart distribution s = (Ok tt, s') ->
  chartData "ageDistribution" s'
  = Some (JArr [JNum (Fin 25); JNum (Fin 45); JNum (Fin 30)]).
Proof.
  intros Ed Hs Hc E. injection Ed as <-. unfold updateAgeDistributionChart in E.
  holds_data E Hs.
Qed.

(** [updateCharts] on the sample data: every chart holds its data. *)
Lemma updateCharts_holds s s' :
  sound s -> (forall c, In c canvases -> is_Some (elements s !! c)) ->
  updateCharts (sampleData tl) s = (Ok tt, s') ->
  forall name d, In (name, d) sampleCharts -> chartData name s' = Some d.
Proof.
  intros Hs Hc E. unfold updateCharts in E.
  lift_inv E. apply bind_ok_inv in E as ([] & s1 & E1 & E).
  apply bind_ok_inv in E as ([] & s2 & E2 & E).
  lift_inv E. apply bind_ok_inv in E as ([] & s3 & E3 & E).
  lift_inv E. apply bind_ok_inv in E as ([] & s4 & E4 & E).
  lift_inv E.
  grown G1 E1. grown G2 E2. grown G3 E3. grown G4 E4.
  pose proof (proj2 (proj2 (proj2 G1)) Hs) as Hs1.
  pose proof (proj2 (proj2 (proj2 G2)) Hs1) as Hs2.
  pose proof (proj2 (proj2 (proj2 G3)) Hs2) as Hs3.
  pose proof (proj2 (proj2 (proj2 G4)) Hs3) as Hs4.
  intros name d Hin. unfold sampleCharts in Hin. cbn [In] in Hin.
  destruct Hin as [Heq|[Heq|[Heq|[Heq|[Heq|[]]]]]];
    apply pair_equal_spec in Heq; destruct Heq as [<- <-].
  - set (T := ["featureImportance"; "hourlyTrend"; "performance"; "ageDistribution"]).
    framed S2 T E2. framed S3 T E3. framed S4 T E4. framed S5 T E.
    rewrite (steady_chartData T _ _ _ S5 Hs4), (steady_chartData T _ _ _ S4 Hs3),
      (steady_chartData T _ _ _ S3 Hs2), (steady_chartData T _ _ _ S2 Hs1)
      by (simpl; intuition discriminate).
    eapply (updateRiskDistributionChart_holds _ s s1); [reflexivity|exact Hs| |exact E1].
    apply Hc. simpl. tauto.
  - set (T := ["hourlyTrend"; "performance"; "ageDistribution"]).
    framed S3 T E3. framed S4 T E4. framed S5 T E.
    rewrite (steady_chartData T _ _ _ S5 Hs4), (steady_chartData T _ _ _ S4 Hs3),
      (steady_chartData T _ _ _ S3 Hs2) by (simpl; intuition discriminate).
    eapply (updateFeatureImportanceChart_holds s1 s2); [exact Hs1| |exact E2].
    apply (proj1 G1), Hc. simpl. tauto.
  - set (T := ["performance"; "ageDistribution"]).
    framed S4 T E4. framed S5 T E.
    rewrite (steady_chartData T _ _ _ S5 Hs4), (steady_chartData T _ _ _ S4 Hs3)
      by (simpl; intuition discriminate).
    eapply (updateHourlyTrendChart_holds _ s2 s3); [reflexivity|exact Hs2| |exact E3].
    apply (proj1 G2), (proj1 G1), Hc. simpl. tauto.
  - set (T := ["ageDistribution"]).
    framed S5 T E.
    rewrite (steady_chartData T _ _ _ S5 Hs4) by (simpl; intuition discriminate).
    eapply (updatePerformanceChart_holds _ s3 s4); [reflexivity|exact Hs3| |exact E4].
    apply (proj1 G3), (proj1 G2), (proj1 G1), Hc. simpl. tauto.
  - eapply (updateAgeDistributionChart_holds _ s4 s'); [reflexivity|exact Hs4| |exact E].
    apply (proj1 G4), (proj1 G3), (proj1 G2), (proj1 G1), Hc. simpl. tauto.
Qed.

End ChartData.

Section SampleData.
Context `{Host}.

(** What the page shows of the sample data: the feed has its five
    entries, the five charts are registered, every statistic that has its
    element on the page [p0] shows its value, and every chart holds its
    data if the registry of [p0] was sound. *)
Definition shows (p0 p' : page) : Prop :=
  length (feed p') = 5%nat
  /\ (forall name, In name chartNames -> registered name p')
  /\ (forall id text,
        In (id, text) sampleStats -> is_Some (elements p0 !! id) ->
        textOf id p' = Some text)
  /\ (sound p0 ->
      forall name d, In (name, d) sampleCharts -> chartData name p' = Some d).

(** It still does after a step that touches neither the feed, nor the
    instances, nor the statistics. *)
Lemma shows_after p0 p' p'' :
  shows p0 p' -> feed p'' = feed p' -> charts p'' = charts p' ->
  instances p'' = instances p' ->
  (forall id, In id statIds -> elements p'' !! id = elements p' !! id) ->
  shows p0 p''.
Proof.
  intros (Hfeed & Hreg & Hstats & Hcharts) Ef Ec Ei Ee.
  split; [congruence|]. split; [|split].
  - intros name Hin. unfold registered. rewrite Ec. apply Hreg, Hin.
  - intros id text Hin Hid. rewrite <- (Hstats id text Hin Hid).
    unfold textOf. rewrite Ee; [reflexivity|].
    unfold sampleStats in Hin. cbn [In] in Hin.
    destruct Hin as [Heq|[Heq|[Heq|[Heq|[]]]]];
      apply pair_equal_spec in Heq; destruct Heq as [<- _]; simpl; tauto.
  - intros Hs name d Hin. rewrite <- (Hcharts Hs name d Hin).
    unfold chartData, chartOf. rewrite Ec, Ei. reflexivity.
Qed.

(** It does from a page with the same elements and the same registry. *)
Lemma shows_from p0 p1 p' :
  shows p1 p' -> keepsElements p0 p1 -> (sound p0 -> sound p1) -> shows p0 p'.
Proof.
  intros (Hfeed & Hreg & Hstats & Hcharts) He Hs.
  split; [exact Hfeed|]. split; [exact Hreg|]. split.
  - intros id text Hin Hid. apply Hstats; [exact Hin|apply He, Hid].
  - intros Hs0. apply Hcharts, Hs, Hs0.
Qed.

(** The dashboard renders the sample data: the statistics, the five
    charts and the five entries of the feed. *)
Lemma updateDashboard_run tl ns feedReply p :
  Forall sampleShaped tl -> length tl = 5%nat -> ready tl ns p ->
  exists p', updateDashboard (sampleData tl) feedReply p = (Ok tt, p')
    /\ ready tl ns p' /\ shows p p'.
Proof.
  intros Hshape Hlen Hp.
  destruct (runs_updateStats tl ns _ eq_refl p Hp) as ([] & p1 & E1 & Hp1 & _).
  destruct (runs_updateCharts tl ns p1 Hp1) as ([] & p2 & E2 & Hp2 & _).
  destruct (updatePredictionFeed_run tl ns feedReply p2 Hshape Hlen Hp2)
    as (p3 & E3 & Hp3 & Hfeed).
  grown G1 E1. grown G2 E2. grown G3 E3.
  set (T := chartNames).
  framed S2 T E2. framed S3 T E3.
  assert (Hcanvas : forall c, In c canvases -> is_Some (elements p1 !! c)).
  { intros c Hc. apply (proj1 Hp1). unfold required. apply in_or_app. left. exact Hc. }
  exists p3. split; [|split; [exact Hp3|split; [exact Hfeed|split; [|split]]]].
  - unfold updateDashboard, detached.
    erewrite bind_ok by reflexivity. erewrite bind_ok by exact E1.
    erewrite bind_ok by exact E2. erewrite bind_ok by reflexivity.
    apply try_catch_ok. exact E3.
  - intros name Hin. eapply grows_registered; [exact G3|].
    eapply updateCharts_registers; [exact Hcanvas|exact E2|exact Hin].
  - intros id text Hin Hid.
    assert (Hstat : In id statIds).
    { unfold sampleStats in Hin. cbn [In] in Hin.
      destruct Hin as [Heq|[Heq|[Heq|[Heq|[]]]]];
        apply pair_equal_spec in Heq; destruct Heq as [<- _]; simpl; tauto. }
    rewrite (steady_textOf T _ _ _ S3 Hstat), (steady_textOf T _ _ _ S2 Hstat).
    eapply updateStats_shows; [reflexivity|exact Hp|exact E1|exact Hin|exact Hid].
  - intros Hs name d Hin.
    pose proof (proj2 (proj2 (proj2 G1)) Hs) as Hs1.
    pose proof (proj2 (proj2 (proj2 G2)) Hs1) as Hs2.
    set (T0 := @nil string). framed S0 T0 E3.
    rewrite (steady_chartData T0 _ _ _ S0 Hs2) by (simpl; tauto).
    eapply updateCharts_holds; [exact Hs1|exact Hcanvas|exact E2|exact Hin].
Qed.


Lemma riskLevelAt_cases x :
  In (riskLevelAt x) [JStr "low"; JStr "medium"; JStr "high"; JUndefined].
Proof.
  destruct x as [| |q]; simpl; try tauto.
  destruct (Qeq_bool q 0); [tauto|].
  destruct (Qeq_bool q 1); [tauto|].
  destruct (Qeq_bool q 2); tauto.
Qed.

Lemma samplePrediction_run i p :
  exists prediction p',
    samplePrediction i p = (Ok prediction, p')
    /\ sampleShaped prediction
    /\ elements p' = elements p /\ calls p' = calls p.
Proof.
  eexists _, _. split; [|split; [|split]].
  - cbn -[toISOString sub mul add floor riskLevelAt JSNumber.ofZ]. reflexivity.
  - eexists _, _, _, _. split; [reflexivity|apply riskLevelAt_cases].
  - reflexivity.
  - reflexivity.
Qed.

Lemma samplePredictions_run n :
  forall i p,
  exists timeline p',
    samplePredictions n i p = (Ok timeline, p')
    /\ length timeline = n /\ Forall sampleShaped timeline
    /\ elements p' = elements p /\ calls p' = calls p.
Proof.
  induction n as [|n IH]; intros i p.
  - exists [], p. repeat split. constructor.
  - destruct (samplePrediction_run i p) as (first & p1 & E1 & Hs1 & He1 & Hc1).
    destruct (IH (i + 1)%Z p1) as (rest & p2 & E2 & Hlen & Hs2 & He2 & Hc2).
    exists (first :: rest), p2. split; [|split; [|split; [|split]]].
    + cbn [samplePredictions]. erewrite bind_ok by exact E1.
      erewrite bind_ok by exact E2. reflexivity.
    + simpl. congruence.
    + constructor; assumption.
    + congruence.
    + congruence.
Qed.

Lemma updateLastUpdateTime_ok s r s' :
  updateLastUpdateTime s = (r, s') ->
  exists f, s' = with_elements (alter f "lastUpdate") s.
Proof. intros [= _ <-]. eexists. reflexivity. Qed.

Lemma stat_other id0 f (m : gmap string element) id :
  ~ In id0 statIds -> In id statIds -> alter f id0 m !! id = m !! id.
Proof. intros Hn Hid. apply lookup_alter_ne. intros ->. contradiction. Qed.

(** Loading the sample data on a complete page: the data is installed,
    and the dashboard renders it. *)
Lemma loadSampleData_run feedReply p :
  complete p ->
  exists timeline p',
    loadSampleData feedReply p = (Ok tt, p')
    /\ length timeline = 5%nat
    /\ ready timeline (raised (calls p)) p'
    /\ shows p p'.
Proof.
  intros Hp.
  set (p0 := with_calls
               (fun cs => (cs ++ [ConsoleLog "Loading sample data for development"])%list) p).
  destruct (samplePredictions_run 5 0 p0) as (tl & pa & Ea & Hlen & Hshape & Hel & Hcalls).
  set (pb := with_dashboardData (fun _ => Some (sampleData tl)) pa).
  assert (Hb : ready tl (raised (calls p)) pb).
  { split; [|split].
    - intros id Hid. change (elements pb) with (elements pa). rewrite Hel. apply Hp, Hid.
    - reflexivity.
    - change (calls pb) with (calls pa). rewrite Hcalls. unfold p0. simpl.
      rewrite raised_app. apply app_nil_r. }
  destruct (updateDashboard_run tl _ feedReply pb Hshape Hlen Hb)
    as (p3 & E3 & Hp3 & Hshows).
  destruct (runs_updateLastUpdateTime tl _ p3 Hp3) as ([] & p4 & E4 & Hp4 & _).
  grown Ga Ea.
  exists tl, p4. split; [|split; [exact Hlen|split; [exact Hp4|]]].
  - unfold loadSampleData.
    erewrite bind_ok by reflexivity. fold p0.
    erewrite bind_ok by exact Ea.
    erewrite bind_ok by reflexivity. fold pb.
    erewrite bind_ok by exact E3. exact E4.
  - apply updateLastUpdateTime_ok in E4 as [f ->].
    eapply shows_from; [eapply shows_after; [exact Hshows|..]| |]; try reflexivity.
    + intros id Hid. apply stat_other; [simpl; intuition discriminate|exact Hid].
    + intros id Hid. change (elements pb) with (elements pa). rewrite Hel. exact Hid.
    + intros Hs. apply (proj2 (proj2 (proj2 Ga))). exact Hs.
Qed.

End SampleData.

End DashboardRuns.

(** ** The refresh cycle of the dashboard *)
Module DashboardRefresh.
Import JSNumber Json Eff Dom EventLoop Dashboard EffFacts DashboardFacts DashboardFrames.
Import DashboardRuns.
Local Open Scope string_scope.
Local Open Scope eff_scope.

(** The ways a refresh fails: the request or the reading of its body is
    rejected, or the body carries an [error] field that is truthy. *)
Definition failing (r : reply) : Prop :=
  r = FetchRejected \/ r = JsonRejected
  \/ exists data error,
       r = Parsed data /\ prop data "error" = Ok error /\ truthy error = true.

(** What happens on the page: a refresh, or the next timer firing. *)
Inductive event :=
| Refresh (r feedReply : reply)
| Tick.

Section WithHost.
Context `{Host}.

Definition step (e : event) : M page unit :=
  match e with
  | Refresh r feedReply => loadDashboardData r feedReply
  | Tick => fire_next
  end.

(** The page after a sequence of events; an exception ends the event it
    is thrown in, not the page. *)
Definition after (es : list event) (p : page) : page :=
  fold_left (fun p e => exec (step e) p) es p.

(** A notification: its two timers are appended to the pending ones. *)
Lemma showNotification_raises message type s :
  exists s' id,
    showNotification message type s = (Ok tt, s')
    /\ elements s' = elements s
    /\ dashboardData s' = dashboardData s
    /\ raised (calls s') = (raised (calls s) ++ [(message, type)])%list
    /\ timers s'
       = (timers s ++ [{| due := clock s + 10; act := ToastIn id |};
                       {| due := clock s + 3000; act := ToastOut id |}])%list.
Proof.
  unfold showNotification, record, setTimeout.
  destruct (attached s) as [id|] eqn:Ea.
  - eexists _, id. split; [|split; [|split; [|split]]].
    + cbn -[toastIcon toastColor icon_html nl String.append]. rewrite Ea.
      cbn -[toastIcon toastColor icon_html nl String.append]. reflexivity.
    + reflexivity.
    + reflexivity.
    + simpl. rewrite <- app_assoc, raised_app. simpl. reflexivity.
    + simpl. rewrite <- app_assoc. reflexivity.
  - eexists _, (length (toasts s)). split; [|split; [|split; [|split]]].
    + cbn -[toastIcon toastColor icon_html nl String.append]. rewrite Ea.
      cbn -[toastIcon toastColor icon_html nl String.append]. reflexivity.
    + reflexivity.
    + reflexivity.
    + simpl. rewrite <- app_assoc, raised_app. simpl. reflexivity.
    + simpl. rewrite <- app_assoc. reflexivity.
Qed.

(** The [catch] block of a refresh, on a complete page: the error
    notification is raised, then the sample data is loaded and rendered. *)
Lemma fallback_run feedReply s :
  complete s ->
  exists timeline s',
    (record (ConsoleError "Error loading dashboard data:") ;;
     showNotification "Failed to load dashboard data" "error" ;;
     loadSampleData feedReply) s = (Ok tt, s')
    /\ length timeline = 5%nat
    /\ ready timeline
         (raised (calls s) ++ [("Failed to load dashboard data", "error")])%list s'
    /\ shows s s'.
Proof.
  intros Hs.
  set (s1 := with_calls
               (fun cs => (cs ++ [ConsoleError "Error loading dashboard data:"])%list) s).
  destruct (showNotification_raises "Failed to load dashboard data" "error" s1)
    as (s2 & id & E2 & He2 & _ & Hr2 & _).
  destruct (loadSampleData_run feedReply s2) as (tl & s3 & E3 & Hlen & Hready & Hshows).
  { intros i Hi. rewrite He2. apply Hs, Hi. }
  grown G2 E2.
  exists tl, s3. split; [|split; [exact Hlen|split]].
  - erewrite bind_ok by reflexivity. fold s1.
    erewrite bind_ok by exact E2. exact E3.
  - rewrite Hr2 in Hready. unfold s1 in Hready. simpl in Hready.
    rewrite raised_app in Hready. simpl in Hready. rewrite app_nil_r in Hready.
    exact Hready.
  - eapply shows_from; [exact Hshows| |].
    + intros i Hi. apply (proj1 G2). exact Hi.
    + intros Hsound. apply (proj2 (proj2 (proj2 G2))). exact Hsound.
Qed.

Lemma showLoading_run show s :
  exists s',
    showLoading show s = (Ok tt, s')
    /\ keepsElements s s'
    /\ calls s' = (calls s ++ [Loading show])%list
    /\ dashboardData s' = dashboardData s /\ charts s' = charts s
    /\ feed s' = feed s /\ instances s' = instances s
    /\ forall id, In id statIds -> elements s' !! id = elements s !! id.
Proof.
  eexists. split; [reflexivity|]. split; [|repeat split].
  - intros i Hi. apply (keepsElements_alter _ "refreshFeed" (with_calls _ s)). exact Hi.
  - intros id Hid. apply stat_other; [simpl; intuition discriminate|exact Hid].
Qed.

(** The request of a refresh that fails, up to the exception. *)
Lemma await_failing (k : json -> M page unit) r s :
  failing r ->
  (forall data error,
     prop data "error" = Ok error -> truthy error = true ->
     exists e, k data (with_calls (fun cs => (cs ++ [Fetch "http://localhost:5000/api/analytics/dashboard"])%list) s)
               = (Throw e, with_calls (fun cs => (cs ++ [Fetch "http://localhost:5000/api/analytics/dashboard"])%list) s)) ->
  exists e,
    bind (await "http://localhost:5000/api/analytics/dashboard" r) k s
    = (Throw e, with_calls (fun cs => (cs ++ [Fetch "http://localhost:5000/api/analytics/dashboard"])%list) s).
Proof.
  intros [->|[->|(data & error & -> & Hp & Ht)]] Hk.
  - exists NetworkError. reflexivity.
  - exists SyntaxError. reflexivity.
  - destruct (Hk data error Hp Ht) as [e He]. exists e. exact He.
Qed.

(** A refresh that fails, on a complete page. *)
Lemma refresh_failing r feedReply p :
  complete p -> failing r ->
  exists timeline p',
    loadDashboardData r feedReply p = (Ok tt, p')
    /\ raised (calls p')
       = (raised (calls p) ++ [("Failed to load dashboard data", "error")])%list
    /\ length timeline = 5%nat
    /\ dashboardData p' = Some (sampleData timeline)
    /\ shows p p'.
Proof.
  intros Hp Hr. unfold loadDashboardData.
  destruct (showLoading_run true p) as (s0 & E0 & He0 & Hc0 & _ & Hch0 & _ & Hi0 & _).
  set (s1 := with_calls
               (fun cs => (cs ++ [Fetch "http://localhost:5000/api/analytics/dashboard"])%list) s0).
  assert (Hs1 : complete s1).
  { intros i Hi. apply He0, Hp, Hi. }
  destruct (fallback_run feedReply s1 Hs1) as (tl & s2 & E2 & Hlen & Hready & Hshows).
  destruct (showLoading_run false s2)
    as (s3 & E3 & He3 & Hc3 & Hd3 & Hch3 & Hf3 & Hi3 & Hst3).
  destruct Hready as (_ & Hdata & Hraised).
  assert (Hbody : exists e,
    (showLoading true ;;
     data <- await "http://localhost:5000/api/analytics/dashboard" r ;;
     error <- lift (prop data "error") ;;
     if truthy error then throw (ThrownError error)
     else
       modify (with_dashboardData (fun _ => Some data)) ;;
       updateDashboard data feedReply ;;
       updateLastUpdateTime ;;
       showNotification "Dashboard updated successfully" "success") p
    = (Throw e, s1)).
  { erewrite bind_ok by exact E0. apply await_failing; [exact Hr|].
    intros data error Hprop Ht. exists (ThrownError error).
    rewrite bind_run. unfold lift at 1. rewrite Hprop, Ht. reflexivity. }
  destruct Hbody as [e Ebody].
  exists tl, s3. split; [|split; [|split; [exact Hlen|split]]].
  - eapply try_catch_finally_caught; [exact Ebody|exact E2|exact E3].
  - rewrite Hc3, raised_app. simpl. rewrite app_nil_r, Hraised.
    unfold s1. simpl. rewrite Hc0, !raised_app. simpl. rewrite !app_nil_r. reflexivity.
  - rewrite Hd3. exact Hdata.
  - eapply shows_from; [eapply shows_after; [exact Hshows|..]|exact He0|];
      try assumption.
    intros (names & Hnd & Hl & Hn). exists names.
    change (instances s1) with (instances s0). change (charts s1) with (charts s0).
    rewrite Hi0, Hch0. auto.
Qed.

Lemma complete_canvases p c : complete p -> In c canvases -> is_Some (elements p !! c).
Proof. intros Hp Hc. apply Hp. unfold required. apply in_or_app. left. exact Hc. Qed.

(** Any refresh, on a complete page: it returns, and the five charts are
    registered. *)
Lemma refresh_run r feedReply p :
  complete p ->
  exists p',
    loadDashboardData r feedReply p = (Ok tt, p')
    /\ forall name, In name chartNames -> registered name p'.
Proof.
  intros Hp. unfold loadDashboardData.
  lazymatch goal with
  | |- context [try_catch_finally ?body _ _] =>
      destruct (body p) as [[[]|e] s1] eqn:Eb
  end.
  - destruct (showLoading_run false s1) as (s2 & E2 & _ & _ & _ & Hch2 & _).
    exists s2. split; [eapply try_catch_finally_returns; [exact Eb|exact E2]|].
    intros name Hin. unfold registered. rewrite Hch2.
    apply bind_ok_inv in Eb as ([] & sa & Ea & Eb).
    apply bind_ok_inv in Eb as (data & sb & Eaw & Eb).
    apply bind_ok_inv in Eb as (error & ? & [= _ <-] & Eb).
    destruct (truthy error); [discriminate Eb|].
    apply bind_ok_inv in Eb as ([] & sc & Ec & Eb).
    apply bind_ok_inv in Eb as ([] & sd & Ed & Eb).
    grown Ga Ea. grown Gb Eaw. grown Gc Ec. grown Ge Eb.
    eapply grows_registered; [exact Ge|].
    eapply updateDashboard_registers; [|exact Ed|exact Hin].
    intros c Hc. apply (proj1 Gc), (proj1 Gb), (proj1 Ga), complete_canvases; assumption.
  - grown G Eb.
    destruct (fallback_run feedReply s1) as (tl & s2 & E2 & _ & _ & _ & Hreg & _).
    { eapply complete_keeps; [exact (proj1 G)|exact Hp]. }
    destruct (showLoading_run false s2) as (s3 & E3 & _ & _ & _ & Hch3 & _).
    exists s3. split; [eapply try_catch_finally_caught; [exact Eb|exact E2|exact E3]|].
    intros name Hin. unfold registered. rewrite Hch3. apply Hreg, Hin.
Qed.

(** *** Sequences of events *)

Lemma grows_event e p : grows p (exec (step e) p).
Proof.
  destruct e as [r feedReply|]; unfold exec, step.
  - apply grows_loadDashboardData.
  - apply grows_fire_next.
Qed.

Lemma after_app es1 es2 p : after (es1 ++ es2) p = after es2 (after es1 p).
Proof. apply fold_left_app. Qed.

Lemma grows_after es : forall p, grows p (after es p).
Proof.
  induction es as [|e es IH]; intros p; simpl.
  - apply grows_refl.
  - eapply grows_trans; [apply grows_event|apply IH].
Qed.

(** After a sequence of events with a refresh in it, on a complete page,
    the five charts are registered. *)
Lemma after_registers es p :
  complete p -> (exists r feedReply, In (Refresh r feedReply) es) ->
  forall name, In name chartNames -> registered name (after es p).
Proof.
  intros Hp (r & feedReply & Hin) name Hname.
  apply in_split in Hin as (es1 & es2 & ->).
  rewrite after_app. simpl.
  eapply grows_registered; [apply grows_after|].
  destruct (refresh_run r feedReply (after es1 p)) as (p' & E & Hreg).
  { eapply complete_keeps; [exact (proj1 (grows_after es1 p))|exact Hp]. }
  unfold exec. rewrite E. apply Hreg, Hname.
Qed.

(** *** The size of the registry *)

Lemma sound_fresh p : charts p = ∅ -> instances p = [] -> sound p.
Proof.
  intros Hc Hi. exists []. split; [constructor|]. split; [rewrite Hi; reflexivity|].
  intros name i. rewrite Hc, lookup_empty. split; discriminate.
Qed.

Lemma NoDup_chartNames : NoDup chartNames.
Proof. apply (bool_decide_unpack (NoDup chartNames)). vm_compute. exact I. Qed.

(** A sound registry that holds the five names, and no other, holds five
    instances. *)
Lemma registry_size p :
  sound p -> (forall name, registered name p <-> In name chartNames) ->
  length (instances p) = 5%nat.
Proof.
  intros (names & Hnd & Hlen & Hnames) Hreg. rewrite <- Hlen.
  change 5%nat with (length chartNames). apply Permutation_length.
  apply NoDup_Permutation; [exact Hnd|exact NoDup_chartNames|].
  intros name. rewrite (list_elem_of_In chartNames name), <- Hreg.
  rewrite list_elem_of_lookup. unfold registered, is_Some.
  split; intros [i Hi]; exists i; apply Hnames, Hi.
Qed.

(** Once the five charts are registered, the registry does not change. *)
Lemma registry_settled p p' :
  grows p p' -> (forall name, In name chartNames -> registered name p) ->
  charts p' = charts p.
Proof.
  intros (_ & Hk & Hd & _) Hreg. apply map_eq. intros name.
  destruct (charts p !! name) as [i|] eqn:E; [apply Hk, E|].
  destruct (charts p' !! name) as [i|] eqn:E'; [|reflexivity].
  destruct (Hd name) as [[j Hj]|Hin]; [eauto|congruence|].
  destruct (Hreg name Hin) as [j Hj]. congruence.
Qed.

End WithHost.

End DashboardRefresh.

(** ** Numbers on the dashboard *)
Module DashboardValues.
Import JSNumber Json Eff Dom EventLoop Dashboard EffFacts NumberFacts DashboardFacts.
Import DashboardFrames.
Local Open Scope string_scope.
Local Open Scope Z_scope.

(** [n] is an integer nearest to [100 c / t]: within one half of it. *)
Definition nearestPercent (c t n : Z) : Prop :=
  200 * c - t <= 2 * n * t <= 200 * c + t.

(** The label of a share, as the specification words it: ["0%"] when the
    total is zero, and the percentage rounded to a nearest integer
    otherwise. *)
Definition shareLabel (c t : Z) (text : string) : Prop :=
  if t =? 0 then text = "0%"
  else exists n, nearestPercent c t n /\ text = JSString.ofZ n ++ "%".

(** The relative time of a timestamp that is [age] milliseconds old, as
    the specification words it; [absolute] is the date and the time. *)
Definition relativeTime (age : Z) (absolute : string) : string :=
  if age <? 60000 then "Just now"
  else if age <? 3600000 then JSString.ofZ (age / 60000) ++ " min ago"
  else if age <? 86400000 then
    JSString.ofZ (age / 3600000) ++ " hour"
    ++ (if 1 <? age / 3600000 then "s" else "") ++ " ago"
  else absolute.

(** The counts the server sends. *)
Definition counts (low medium high : Z) : json :=
  JObj [("low", JNum (Fin (inject_Z low)));
        ("medium", JNum (Fin (inject_Z medium)));
        ("high", JNum (Fin (inject_Z high)))].

Lemma ltb_int a b : ltb (Fin (inject_Z a)) (Fin (inject_Z b)) = (a <? b).
Proof.
  cbn [ltb]. destruct (Z.ltb_spec a b) as [Hlt|Hge].
  - destruct (Qle_bool (inject_Z b) (inject_Z a)) eqn:E; [|reflexivity].
    apply Qle_bool_iff in E. rewrite <- Zle_Qle in E. lia.
  - assert (E : Qle_bool (inject_Z b) (inject_Z a) = true).
    { apply Qle_bool_iff. rewrite <- Zle_Qle. exact Hge. }
    rewrite E. reflexivity.
Qed.

Lemma count_or_zero c :
  or_else (JNum (Fin (inject_Z c))) (JNum (Fin 0)) = JNum (Fin (inject_Z c)).
Proof.
  unfold or_else, truthy, JSNumber.truthy, is_zero. cbn [inject_Z Qnum].
  destruct (Z.eqb_spec c 0) as [->|_]; reflexivity.
Qed.

Lemma sub_int a b :
  sub (Fin (inject_Z a)) (Fin (inject_Z b)) = round64 (inject_Z (a - b)).
Proof.
  unfold sub, neg, add. change (- inject_Z b)%Q with (inject_Z (- b)).
  rewrite Qred_inject_Z. unfold Qplus. cbn [inject_Z Qnum Qden Pos.mul].
  replace (a * 1 + - b * 1) with (a - b) by ring. reflexivity.
Qed.

(** The whole minutes, or hours, in the difference of two time values. *)
Lemma floor_div d b :
  0 < b -> b <= 2 ^ 1022 ->
  Z.abs d < 2 ^ 53
  \/ (exists h c, d = 2 * h /\ b = 2 * c /\ Z.abs h < 2 ^ 53) ->
  floor (div (Fin (inject_Z d)) (Fin (inject_Z b))) = Fin (inject_Z (d / b)).
Proof.
  intros Hb Hb' Hd. cbn [div]. unfold is_zero. cbn [inject_Z Qnum].
  destruct (Z.eqb_spec b 0) as [?|_]; [lia|].
  fold (inject_Z d) (inject_Z b).
  assert (Hq : exists r, round64 (inject_Z d / inject_Z b) = Fin r /\ Qfloor r = d / b).
  { destruct Hd as [Hd|(h & c & -> & -> & Hh)].
    - apply floor_quotient; [assumption|assumption|assumption|reflexivity].
    - apply floor_quotient_even; [assumption|lia|lia|reflexivity]. }
  destruct Hq as (r & -> & Hr). cbn [floor]. rewrite Hr. reflexivity.
Qed.

Lemma div_ltb a b k : 0 < b -> (a / b <? k) = (a <? b * k).
Proof.
  intros Hb. destruct (Z.ltb_spec a (b * k)) as [Hlt|Hge].
  - apply Z.ltb_lt, Z.div_lt_upper_bound; assumption.
  - apply Z.ltb_ge, Z.div_le_lower_bound; assumption.
Qed.

Section WithHost.
Context `{Host}.

Lemma numberToString_int k :
  Z.abs k <= 2 ^ 53 -> numberToString (Fin (inject_Z k)) = JSString.ofZ k.
Proof.
  intros Hk. unfold numberToString. rewrite Qred_inject_Z. cbn [inject_Z Qnum Qden].
  destruct (Z.leb_spec (Z.abs k) (2 ^ 53)) as [_|?]; [reflexivity|lia].
Qed.

Lemma plus_int a b :
  Z.abs (a + b) < 2 ^ 53 ->
  plus (JNum (Fin (inject_Z a))) (JNum (Fin (inject_Z b)))
  = JNum (Fin (inject_Z (a + b))).
Proof.
  intros Hab. cbn [plus toNumber add]. f_equal.
  apply round64_int; [exact Hab|]. rewrite inject_Z_plus. reflexivity.
Qed.

(** The label of one share. *)
Lemma percent_share c t :
  0 <= c <= t -> t < 2 ^ 44 ->
  shareLabel c t (percent (JNum (Fin (inject_Z c))) (JNum (Fin (inject_Z t)))).
Proof.
  intros Hc Ht. unfold shareLabel, percent. cbn [toNumber]. unfold gtb.
  change (Fin 0) with (Fin (inject_Z 0)). rewrite ltb_int.
  destruct (Z.eqb_spec t 0) as [->|Hne].
  - reflexivity.
  - destruct (Z.ltb_spec 0 t) as [Hpos|?]; [|lia].
    destruct (percent_nearest c t Hc Hpos Ht) as (n & Hn & Hb).
    exists n. split; [exact Hb|].
    rewrite Hn. cbn [plus toString]. rewrite numberToString_int; [reflexivity|].
    assert (0 <= n <= 100) by nia. lia.
Qed.

End WithHost.

End DashboardValues.

(** ** The claims on the analytics page *)
Module DashboardClaims.
Import JSNumber Json Eff Dom EventLoop Dashboard EffFacts NumberFacts.
Import DashboardFacts DashboardFrames DashboardRuns DashboardRefresh DashboardValues.
Local Open Scope string_scope.
Local Open Scope Z_scope.

Section WithHost.
Context `{Host}.

Lemma assign_unguarded_run id name v s :
  is_Some (elements s !! id) ->
  assign_unguarded id name v s = (Ok tt, with_elements (alter (setp name v) id) s).
Proof.
  intros Hid. unfold assign_unguarded.
  rewrite bind_run, present_run, bool_decide_eq_true_2 by assumption. reflexivity.
Qed.

(** Updating or constructing a chart touches no element. *)
Lemma upsert_run name kind labels data (onSome : nat -> M page unit) s :
  (forall i s, exists s', onSome i s = (Ok tt, s') /\ elements s' = elements s) ->
  exists s',
    bind get (fun p =>
      match charts p !! name with
      | Some instance => onSome instance
      | None => createChart name kind labels data
      end) s = (Ok tt, s')
    /\ elements s' = elements s.
Proof.
  intros Hsome. rewrite bind_run. cbn [get].
  destruct (charts s !! name) as [i|]; [apply Hsome|].
  eexists. split; [unfold createChart; cbn [bind get modify]; reflexivity|reflexivity].
Qed.

(** The three labels [updateRiskDistributionChart] writes. *)
Lemma updateRiskDistributionChart_run low medium high p :
  is_Some (elements p !! "riskDistributionChart") ->
  is_Some (elements p !! "lowRiskPercent") ->
  is_Some (elements p !! "mediumRiskPercent") ->
  is_Some (elements p !! "highRiskPercent") ->
  Z.abs (low + medium + high) < 2 ^ 53 -> Z.abs (low + medium) < 2 ^ 53 ->
  let total := JNum (Fin (inject_Z (low + medium + high))) in
  exists p',
    updateRiskDistributionChart (counts low medium high) p = (Ok tt, p')
    /\ elements p'
       = alter (setp "textContent" (percent (JNum (Fin (inject_Z high))) total))
           "highRiskPercent"
           (alter (setp "textContent" (percent (JNum (Fin (inject_Z medium))) total))
              "mediumRiskPercent"
              (alter (setp "textContent" (percent (JNum (Fin (inject_Z low))) total))
                 "lowRiskPercent" (elements p))).
Proof.
  intros Hcanvas Hl Hm Hh Ht Hlm total.
  unfold updateRiskDistributionChart.
  rewrite bind_run, present_run, bool_decide_eq_true_2 by assumption. cbn [negb].
  do 3 (erewrite bind_ok by reflexivity; cbv beta zeta).
  change (lookup_field _ "low") with (JNum (Fin (inject_Z low))).
  change (lookup_field _ "medium") with (JNum (Fin (inject_Z medium))).
  change (lookup_field _ "high") with (JNum (Fin (inject_Z high))).
  rewrite !count_or_zero, (plus_int low medium), (plus_int (low + medium) high)
    by assumption.
  fold total.
  erewrite bind_ok by (apply assign_unguarded_run; exact Hl).
  erewrite bind_ok
    by (apply assign_unguarded_run, (keepsElements_alter _ "lowRiskPercent"), Hm).
  erewrite bind_ok
    by (apply assign_unguarded_run, (keepsElements_alter _ "mediumRiskPercent"),
          (keepsElements_alter _ "lowRiskPercent"), Hh).
  edestruct upsert_run as (p' & E & He);
    [|exists p'; split; [exact E|rewrite He; reflexivity]].
  intros i s. eexists. split; [cbn [bind modify]; reflexivity|reflexivity].
Qed.

(** C5, as the code has it.  The three percentage labels of the risk
    chart, for counts that are non-negative integers with a total below
    [2^44], on a page that has the canvas and the three labels: nothing is
    thrown, and each label is ["0%"] when the total is zero (so for the
    counts 0, 0, 0) and otherwise an integer nearest to the percentage the
    count is of the total, followed by a percent sign. *)
Theorem risk_shares low medium high p :
  0 <= low -> 0 <= medium -> 0 <= high -> low + medium + high < 2 ^ 44 ->
  is_Some (elements p !! "riskDistributionChart") ->
  is_Some (elements p !! "lowRiskPercent") ->
  is_Some (elements p !! "mediumRiskPercent") ->
  is_Some (elements p !! "highRiskPercent") ->
  exists p' lowText mediumText highText,
    updateRiskDistributionChart (counts low medium high) p = (Ok tt, p')
    /\ textOf "lowRiskPercent" p' = Some lowText
    /\ textOf "mediumRiskPercent" p' = Some mediumText
    /\ textOf "highRiskPercent" p' = Some highText
    /\ shareLabel low (low + medium + high) lowText
    /\ shareLabel medium (low + medium + high) mediumText
    /\ shareLabel high (low + medium + high) highText
    /\ (low + medium + high = 0 ->
        lowText = "0%" /\ mediumText = "0%" /\ highText = "0%").
Proof.
  intros Hlow Hmedium Hhigh Htotal Hcanvas Hl Hm Hh.
  assert (Hp53 : 2 ^ 44 < 2 ^ 53) by reflexivity.
  destruct (updateRiskDistributionChart_run low medium high p Hcanvas Hl Hm Hh)
    as (p' & E & He); [lia|lia|].
  pose proof (percent_share low (low + medium + high) ltac:(lia) Htotal) as Sl.
  pose proof (percent_share medium (low + medium + high) ltac:(lia) Htotal) as Sm.
  pose proof (percent_share high (low + medium + high) ltac:(lia) Htotal) as Sh.
  exists p'. eexists _, _, _.
  split; [exact E|]. unfold textOf. rewrite He.
  split; [|split; [|split; [|split; [exact Sl|split; [exact Sm|split; [exact Sh|]]]]]].
  - rewrite lookup_alter_ne, lookup_alter_ne by discriminate.
    apply text_shown, Hl.
  - rewrite lookup_alter_ne by discriminate. apply text_shown.
    apply lookup_alter_is_Some, Hm.
  - apply text_shown. apply lookup_alter_is_Some, lookup_alter_is_Some, Hh.
  - intros Hz. unfold shareLabel in Sl, Sm, Sh. rewrite Hz in Sl, Sm, Sh.
    rewrite Hz. auto.
Qed.

(** A timestamp that is missing counts as the present. *)
Lemma formatTime_missing current timestamp :
  truthy timestamp = false -> formatTime current timestamp = "Just now".
Proof. intros Ht. unfold formatTime. rewrite Ht. reflexivity. Qed.

(** C6, as the code has it.  The relative time of a timestamp that is
    truthy and denotes a date, the timestamp and the current time being
    time values a [Date] can hold: ["Just now"] under one minute; the whole
    minutes and ["min ago"] under one hour; the whole hours and
    ["hour ago"] or ["hours ago"] under one day; the date and the time
    otherwise.  So at 30 seconds ["Just now"], at 5 minutes ["5 min ago"],
    at 3 hours ["3 hours ago"], and at 2 days the date and the time. *)
Theorem formatTime_relative current t timestamp :
  truthy timestamp = true ->
  dateOf timestamp = Fin (inject_Z t) ->
  Z.abs current <= 8640000000000000 -> Z.abs t <= 8640000000000000 ->
  let absolute :=
    toLocaleDateString (Fin (inject_Z t)) ++ " " ++ toLocaleTimeString (Fin (inject_Z t)) in
  formatTime (Fin (inject_Z current)) timestamp = relativeTime (current - t) absolute
  /\ (current - t = 30000 -> formatTime (Fin (inject_Z current)) timestamp = "Just now")
  /\ (current - t = 300000 -> formatTime (Fin (inject_Z current)) timestamp = "5 min ago")
  /\ (current - t = 10800000 ->
      formatTime (Fin (inject_Z current)) timestamp = "3 hours ago")
  /\ (current - t = 172800000 ->
      formatTime (Fin (inject_Z current)) timestamp = absolute).
Proof.
  intros Htruthy Hdate Hc Ht absolute.
  assert (E : formatTime (Fin (inject_Z current)) timestamp
              = relativeTime (current - t) absolute).
  { unfold formatTime. rewrite Htruthy, Hdate. cbn [negb]. fold absolute.
    rewrite sub_int.
    destruct (round64_difference (current - t)) as (d & -> & Hd); [lia|].
    change (Fin 60000) with (Fin (inject_Z 60000)).
    change (Fin 3600000) with (Fin (inject_Z 3600000)).
    change (Fin 1) with (Fin (inject_Z 1)).
    change (Fin 60) with (Fin (inject_Z 60)).
    change (Fin 24) with (Fin (inject_Z 24)).
    assert (H1022 : 3600000 <= 2 ^ 1022) by (apply Z.leb_le; reflexivity).
    assert (Hbound : Z.abs d < 2 ^ 54).
    { destruct Hd as [[-> ?]|[(_ & h & -> & Hh)|(_ & h & -> & Hh)]]; lia. }
    rewrite (floor_div d 60000), (floor_div d 3600000); try lia.
    - unfold gtb. rewrite !ltb_int, !div_ltb by lia.
      rewrite !numberToString_int.
      + unfold relativeTime.
        change (60000 * 1) with 60000. change (60000 * 60) with 3600000.
        change (3600000 * 24) with 86400000.
        destruct Hd as [[-> ?]|[(? & h & -> & Hh)|(? & h & -> & Hh)]].
        * reflexivity.
        * destruct (Z.ltb_spec (2 * h) 60000); [lia|].
          destruct (Z.ltb_spec (2 * h) 3600000); [lia|].
          destruct (Z.ltb_spec (2 * h) 86400000); [lia|].
          destruct (Z.ltb_spec (current - t) 60000); [lia|].
          destruct (Z.ltb_spec (current - t) 3600000); [lia|].
          destruct (Z.ltb_spec (current - t) 86400000); [lia|]. reflexivity.
        * destruct (Z.ltb_spec (2 * h) 60000); [|lia].
          destruct (Z.ltb_spec (current - t) 60000); [|lia]. reflexivity.
      + pose proof (Z.div_mod d 3600000 ltac:(lia)).
        pose proof (Z.mod_pos_bound d 3600000 ltac:(lia)). lia.
      + pose proof (Z.div_mod d 60000 ltac:(lia)).
        pose proof (Z.mod_pos_bound d 60000 ltac:(lia)). lia.
    - destruct Hd as [[-> ?]|[(_ & h & -> & Hh)|(_ & h & -> & Hh)]];
        [left; assumption|right; exists h, 1800000; lia|right; exists h, 1800000; lia].
    - destruct Hd as [[-> ?]|[(_ & h & -> & Hh)|(_ & h & -> & Hh)]];
        [left; assumption|right; exists h, 30000; lia|right; exists h, 30000; lia]. }
  split; [exact E|].
  split; [|split; [|split]]; intros Hage; rewrite E, Hage; reflexivity.
Qed.

End WithHost.

(** *** In the browser *)

Import Browser.

(** The counts of the sample data: 45%, 35% and 20%. *)
Lemma risk_shares_witness :
  exists p' lowText mediumText highText,
    updateRiskDistributionChart (counts 560 437 250) dashboardPage = (Ok tt, p')
    /\ textOf "lowRiskPercent" p' = Some lowText
    /\ textOf "mediumRiskPercent" p' = Some mediumText
    /\ textOf "highRiskPercent" p' = Some highText
    /\ shareLabel 560 (560 + 437 + 250) lowText
    /\ shareLabel 437 (560 + 437 + 250) mediumText
    /\ shareLabel 250 (560 + 437 + 250) highText
    /\ (560 + 437 + 250 = 0 ->
        lowText = "0%" /\ mediumText = "0%" /\ highText = "0%").
Proof.
  apply (risk_shares 560 437 250 dashboardPage); try lia; vm_compute; eauto.
Defined.

(** C5, as it is stated, fails: with counts near [3.6e13] the label is
    ["70%"], and the share is nearer to 69 percent than to 70.  The
    quotient and the product are rounded to binary64 before [Math.round]
    is taken. *)
Lemma huge_counts_round_away :
  textOf "lowRiskPercent"
    (exec (updateRiskDistributionChart (counts 35925729692763 0 15765967706896))
       dashboardPage)
  = Some "70%"
  /\ 0 < 35925729692763 + 0 + 15765967706896
  /\ nearestPercent 35925729692763 (35925729692763 + 0 + 15765967706896) 69
  /\ ~ nearestPercent 35925729692763 (35925729692763 + 0 + 15765967706896) 70.
Proof.
  split; [vm_compute; reflexivity|]. unfold nearestPercent. lia.
Qed.

(** A timestamp five minutes before noon, at noon. *)
Lemma formatTime_relative_witness :
  formatTime (Fin (inject_Z 1704110400000)) (JStr "2024-01-01T11:55:00.000Z")
  = "5 min ago".
Proof.
  destruct (formatTime_relative 1704110400000 1704110100000
              (JStr "2024-01-01T11:55:00.000Z")) as (E & _).
  - reflexivity.
  - vm_compute. reflexivity.
  - lia.
  - lia.
  - rewrite E. vm_compute. reflexivity.
Defined.

(** C6, as it is stated, fails at the timestamp [0].  It is a time
    value, the first of January 1970, and on the first of January 2024 it
    is more than a day old; the test [!timestamp] takes it for a missing
    timestamp, and the function returns ["Just now"] and not the date and
    the time.  A timestamp that is no date fails it too: it has no age,
    and the function returns what the host prints for an invalid date. *)
Lemma epoch_timestamp_is_just_now :
  dateOf (JNum (Fin 0)) = Fin (inject_Z 0)
  /\ 86400000 <= 1704110400000 - 0
  /\ formatTime (Fin (inject_Z 1704110400000)) (JNum (Fin 0)) = "Just now"
  /\ toLocaleDateString (Fin (inject_Z 0)) ++ " " ++ toLocaleTimeString (Fin (inject_Z 0))
     <> "Just now"
  /\ formatTime (Fin (inject_Z 1704110400000)) (JStr "yesterday")
     = "Invalid Date Invalid Date".
Proof.
  split; [reflexivity|]. split; [lia|]. split; [reflexivity|].
  split; [vm_compute; discriminate|vm_compute; reflexivity].
Qed.

(** What the page shows after a refresh that failed. *)
Example failed_refresh_rendering :
  let p' := exec (loadDashboardData FetchRejected FetchRejected) dashboardPage in
  map (fun id => textOf id p')
    ["totalPredictions"; "accuracyRate"; "avgResponse"; "highRiskCount";
     "lowRiskPercent"; "mediumRiskPercent"; "highRiskPercent";
     "precisionValue"; "recallValue"; "f1Value"]
  = map Some ["1,247"; "94.2%"; "0.3s"; "250"; "45%"; "35%"; "20%";
              "92.0%"; "89.0%"; "90.0%"]
  /\ map time (feedItems p')
     = ["Just now"; "1 hour ago"; "2 hours ago"; "3 hours ago"; "4 hours ago"]
  /\ map title (feedItems p')
     = ["Prediction #5"; "Prediction #4"; "Prediction #3"; "Prediction #2";
        "Prediction #1"]
  /\ map (fun name => kind <$> chartOf name p') chartNames
     = map Some ["doughnut"; "bar"; "line"; "radar"; "bar"].
Proof. vm_compute. repeat split. Qed.

End DashboardClaims.

(** ** The claim on timers, on both pages *)
Module TimerClaims.
Import JSNumber Json Eff Dom EventLoop.
Local Open Scope string_scope.
Local Open Scope Z_scope.
Local Open Scope eff_scope.

Section WithHost.
Context `{Host}.

(** C9, as the scripts have it.  Neither script clears or resets a timer
    of an earlier trigger: a counter animation or a notification that is
    triggered again leaves every pending timer pending and adds its own.
    On the form page a notification detaches the element of the previous
    one, whose timers stay pending, and attaches a new element; on the
    dashboard it writes to the element that is attached, so that the new
    dismiss timer is for the same element as the one still pending. *)
Theorem timers_accumulate :
  (forall element target (p : Script.page),
     Script.timers (exec (Script.animateCounter element target) p)
     = (Script.timers p
        ++ [{| due := Script.clock p + 20;
               act := Script.CounterTick element (Fin 0) (div target (Fin 100)) target |}])%list)
  /\ (forall message type (p : Script.page),
        let id := length (Script.toasts p) in
        let p' := exec (Script.showNotification message type) p in
        Script.timers p'
        = (Script.timers p
           ++ [{| due := Script.clock p + 10; act := Script.ToastIn id |};
               {| due := Script.clock p + 3000; act := Script.ToastOut id |}])%list
        /\ Script.attached p' = Some id)
  /\ (forall message type (q : Dashboard.page),
        let id := default (length (Dashboard.toasts q)) (Dashboard.attached q) in
        let q' := exec (Dashboard.showNotification message type) q in
        Dashboard.timers q'
        = (Dashboard.timers q
           ++ [{| due := Dashboard.clock q + 10; act := Dashboard.ToastIn id |};
               {| due := Dashboard.clock q + 3000; act := Dashboard.ToastOut id |}])%list
        /\ Dashboard.attached q' = Some id)
  /\ (forall element target (q : Dashboard.page),
        exists current increment,
          Dashboard.timers (exec (Dashboard.animateCounter element target) q)
          = (Dashboard.timers q
             ++ [{| due := Dashboard.clock q + 50;
                    act := Dashboard.CounterTick element current increment target |}])%list).
Proof.
  split; [|split; [|split]].
  - intros element target p. reflexivity.
  - intros message type p. split.
    + unfold exec, Script.showNotification, Script.record, Script.setTimeout.
      cbn -[Script.newToast]. rewrite <- app_assoc. reflexivity.
    + reflexivity.
  - intros message type q.
    unfold exec, Dashboard.showNotification, Dashboard.record, Dashboard.setTimeout.
    destruct (Dashboard.attached q) as [id|] eqn:Ea;
      cbn -[Dashboard.toastIcon Dashboard.toastColor icon_html nl String.append];
      rewrite Ea;
      cbn -[Dashboard.toastIcon Dashboard.toastColor icon_html nl String.append];
      rewrite <- app_assoc; split; first [reflexivity|exact Ea].
  - intros element target q. eexists _, _.
    unfold exec, Dashboard.animateCounter, Dashboard.setTimeout.
    cbn [bind get modify snd]. reflexivity.
Qed.

End WithHost.

Import Browser.

(** The pending intervals of the counter of an element of the dashboard. *)
Definition counterTimers (element : string) (q : Dashboard.page) : list Dashboard.timer :=
  List.filter
    (fun t => match act t with
              | Dashboard.CounterTick target _ _ _ => String.eqb target element
              | _ => false
              end)
    (Dashboard.timers q).

(** C9, as it is stated, fails.  Two notifications in a row on the
    dashboard: two dismiss timers are pending for the one notification
    element.  Two animations of the same counter on the form page: two
    intervals are pending for it.  Two refreshes of the dashboard in a row:
    two intervals are pending for the counter of the total. *)
Lemma timers_conflict :
  Dashboard.timers
    (exec (Dashboard.showNotification "first" "info" ;;
           Dashboard.showNotification "second" "info") dashboardPage)
  = [{| due := 1704110400010; act := Dashboard.ToastIn 0 |};
     {| due := 1704110403000; act := Dashboard.ToastOut 0 |};
     {| due := 1704110400010; act := Dashboard.ToastIn 0 |};
     {| due := 1704110403000; act := Dashboard.ToastOut 0 |}]
  /\ Script.timers
       (exec (Script.animateCounter "counter" (Fin 1000) ;;
              Script.animateCounter "counter" (Fin 1000)) formPage)
     = [{| due := 20; act := Script.CounterTick "counter" (Fin 0) (Fin 10) (Fin 1000) |};
        {| due := 20; act := Script.CounterTick "counter" (Fin 0) (Fin 10) (Fin 1000) |}]
  /\ counterTimers "totalPredictions"
       (exec (Dashboard.loadDashboardData Dashboard.FetchRejected Dashboard.FetchRejected ;;
              Dashboard.loadDashboardData Dashboard.FetchRejected Dashboard.FetchRejected)
          dashboardPage)
     = [{| due := 1704110400050;
           act := Dashboard.CounterTick "totalPredictions" (Fin 1247) (Fin 0)
                    (JNum (Fin 1247)) |};
        {| due := 1704110400050;
           act := Dashboard.CounterTick "totalPredictions" (Fin 1247) (Fin 0)
                    (JNum (Fin 1247)) |}].
Proof. vm_compute. repeat split. Qed.

End TimerClaims.

(** ** What a refresh of the dashboard tells the user *)
Module RefreshNotices.
Import JSNumber Json Eff Dom EventLoop Dashboard EffFacts DashboardFacts DashboardFrames.
Import DashboardRuns DashboardRefresh.
Local Open Scope string_scope.
Local Open Scope eff_scope.

(** From [p] to [p'] no notification is raised. *)
Definition hushed (p p' : page) : Prop := raised (calls p') = raised (calls p).

Lemma hushed_refl p : hushed p p.
Proof. reflexivity. Qed.

Lemma hushed_trans a b c : hushed a b -> hushed b c -> hushed a c.
Proof. unfold hushed. congruence. Qed.

(** A call that is not one of [showNotification]. *)
Definition unheard (c : call) : Prop :=
  match c with
  | Notify _ _ => False
  | _ => True
  end.

Lemma hushed_record c : unheard c -> respects hushed (record c).
Proof.
  intros Hc. apply respects_modify. intros p. unfold hushed. simpl.
  rewrite raised_app. destruct c; simpl; try apply app_nil_r. destruct Hc.
Qed.

Ltac hushed_step :=
  lazymatch goal with
  | |- respects _ (bind _ _) => apply (respects_bind hushed hushed_trans); [|intros ?]
  | |- respects _ (ret _) => apply (respects_ret hushed hushed_refl)
  | |- respects _ (throw _) => apply (respects_throw hushed hushed_refl)
  | |- respects _ (lift _) => apply (respects_lift hushed hushed_refl)
  | |- respects _ get => apply (respects_get hushed hushed_refl)
  | |- respects _ (when _ _) => apply (respects_when hushed hushed_refl)
  | |- respects _ (try_catch _ _) =>
      apply (respects_try_catch hushed hushed_refl hushed_trans); [|intros ?]
  | |- respects _ (record _) => apply hushed_record; exact I
  | |- respects _ (modify _) => apply respects_modify; intros ?; reflexivity
  | |- respects _ (setTimeout _ _) => unfold setTimeout
  | |- respects _ (present _) => unfold present
  | |- respects _ (assign _ _ _) => unfold assign
  | |- respects _ (assign_unguarded _ _ _) => unfold assign_unguarded
  | |- respects _ now => unfold now
  | |- respects _ mathRandom => unfold mathRandom
  | |- respects _ (createChart _ _ _ _) => unfold createChart
  | |- respects _ (await _ _) => unfold await
  | |- respects _ (if ?b then _ else _) => destruct b
  | |- respects _ (match ?x with _ => _ end) => destruct x
  end.

Section WithHost.
Context `{Host}.

Lemma hushed_showLoading show : respects hushed (showLoading show).
Proof. unfold showLoading. repeat hushed_step. Qed.

Lemma hushed_updateLastUpdateTime : respects hushed updateLastUpdateTime.
Proof. unfold updateLastUpdateTime. repeat hushed_step. Qed.

Lemma hushed_updateStats overview : respects hushed (updateStats overview).
Proof. unfold updateStats, animateCounter. repeat hushed_step. Qed.

Lemma hushed_randomCounts n : respects hushed (randomCounts n).
Proof. induction n as [|n IH]; simpl; repeat hushed_step. exact IH. Qed.

Lemma hushed_updateCharts data : respects hushed (updateCharts data).
Proof.
  unfold updateCharts, updateRiskDistributionChart, updateFeatureImportanceChart,
    updateHourlyTrendChart, updatePerformanceChart, updateAgeDistributionChart.
  repeat first
    [ lazymatch goal with
      | |- respects _ (randomCounts _) => apply hushed_randomCounts
      end
    | hushed_step ].
Qed.

Lemma hushed_forEachFrom {A} (f : A -> nat -> M page unit) (l : list A) :
  (forall a i, respects hushed (f a i)) ->
  forall index, respects hushed (forEachFrom index l f).
Proof.
  intros Hf. induction l as [|a rest IH]; intros index; simpl.
  - hushed_step.
  - hushed_step; [apply Hf|apply IH].
Qed.

Lemma hushed_feedEntry count prediction index :
  respects hushed (feedEntry count prediction index).
Proof. unfold feedEntry. repeat hushed_step. Qed.

Lemma hushed_updatePredictionFeed predictions r :
  respects hushed (updatePredictionFeed predictions r).
Proof.
  unfold updatePredictionFeed.
  repeat first
    [ lazymatch goal with
      | |- respects _ (forEachFrom _ _ _) =>
          apply hushed_forEachFrom; intros ? ?; apply hushed_feedEntry
      end
    | hushed_step ].
Qed.

Lemma hushed_updateDashboard data feedReply :
  respects hushed (updateDashboard data feedReply).
Proof.
  unfold updateDashboard, detached.
  repeat first
    [ lazymatch goal with
      | |- respects _ (updateStats _) => apply hushed_updateStats
      | |- respects _ (updateCharts _) => apply hushed_updateCharts
      | |- respects _ (updatePredictionFeed _ _) => apply hushed_updatePredictionFeed
      end
    | hushed_step ].
Qed.

Lemma hushed_samplePredictions n : forall i, respects hushed (samplePredictions n i).
Proof.
  induction n as [|n IH]; intros i; simpl.
  - hushed_step.
  - unfold samplePrediction. repeat hushed_step. apply IH.
Qed.

Lemma hushed_loadSampleData feedReply : respects hushed (loadSampleData feedReply).
Proof.
  unfold loadSampleData.
  repeat first
    [ lazymatch goal with
      | |- respects _ (samplePredictions _ _) => apply hushed_samplePredictions
      | |- respects _ (updateDashboard _ _) => apply hushed_updateDashboard
      | |- respects _ updateLastUpdateTime => apply hushed_updateLastUpdateTime
      end
    | hushed_step ].
Qed.

End WithHost.

(** The two notifications of a refresh. *)
Definition succeeded : string * string := ("Dashboard updated successfully", "success").
Definition failed : string * string := ("Failed to load dashboard data", "error").

(** A computation that raises the notification [note] when it returns,
    and none when it throws. *)
Definition notes {A} (note : string * string) (m : M page A) : Prop :=
  forall s,
    match m s with
    | (Ok _, s') => raised (calls s') = (raised (calls s) ++ [note])%list
    | (Throw _, s') => raised (calls s') = raised (calls s)
    end.

Lemma notes_bind {A B} note (m : M page A) (k : A -> M page B) :
  respects hushed m -> (forall a, notes note (k a)) -> notes note (bind m k).
Proof.
  intros Hm Hk s. rewrite bind_run. specialize (Hm s).
  destruct (m s) as [[a|e] s1]; simpl in Hm.
  - specialize (Hk a s1). destruct (k a s1) as [[b|e] s2]; rewrite Hk, Hm; reflexivity.
  - exact Hm.
Qed.

Lemma notes_throw {A} note e : notes note (@throw page A e).
Proof. intros s. reflexivity. Qed.

Section Refresh.
Context `{Host}.

Lemma notes_showNotification message type :
  notes (message, type) (showNotification message type).
Proof.
  intros s. destruct (showNotification_raises message type s) as (s' & id & E & _ & _ & Hr & _).
  rewrite E. exact Hr.
Qed.

(** The [try] block of a refresh. *)
Definition attempt (r feedReply : reply) : M page unit :=
  showLoading true ;;
  data <- await "http://localhost:5000/api/analytics/dashboard" r ;;
  error <- lift (prop data "error") ;;
  if truthy error then throw (ThrownError error)
  else
    modify (with_dashboardData (fun _ => Some data)) ;;
    updateDashboard data feedReply ;;
    updateLastUpdateTime ;;
    showNotification "Dashboard updated successfully" "success".

(** The [catch] block. *)
Definition recover (feedReply : reply) (error : Json.error) : M page unit :=
  record (ConsoleError "Error loading dashboard data:") ;;
  showNotification "Failed to load dashboard data" "error" ;;
  loadSampleData feedReply.

Lemma loadDashboardData_split r feedReply :
  loadDashboardData r feedReply
  = try_catch_finally (attempt r feedReply) (recover feedReply) (showLoading false).
Proof. reflexivity. Qed.

Lemma notes_attempt r feedReply : notes succeeded (attempt r feedReply).
Proof.
  unfold attempt.
  apply notes_bind; [apply hushed_showLoading|]. intros _.
  apply notes_bind; [repeat hushed_step|]. intros data.
  apply notes_bind; [hushed_step|]. intros error.
  destruct (truthy error); [apply notes_throw|].
  apply notes_bind; [hushed_step|]. intros _.
  apply notes_bind; [apply hushed_updateDashboard|]. intros _.
  apply notes_bind; [apply hushed_updateLastUpdateTime|]. intros _.
  apply notes_showNotification.
Qed.

(** The [catch] block raises the notification of the failure, whether
    the sample data is rendered to the end or not. *)
Lemma recover_raises feedReply e s :
  raised (calls (snd (recover feedReply e s))) = (raised (calls s) ++ [failed])%list.
Proof.
  unfold recover. rewrite bind_run. cbn [record modify].
  set (s1 := with_calls _ s).
  assert (H1 : raised (calls s1) = raised (calls s)).
  { unfold s1. simpl. rewrite raised_app. apply app_nil_r. }
  rewrite bind_run.
  destruct (showNotification_raises "Failed to load dashboard data" "error" s1)
    as (s2 & id & E2 & _ & _ & Hr2 & _).
  rewrite E2. pose proof (hushed_loadSampleData feedReply s2) as H3.
  unfold hushed in H3. rewrite H3, Hr2, H1. reflexivity.
Qed.

(** The request of a refresh returns the body that was parsed. *)
Lemma await_returns url r s data s' : await url r s = (Ok data, s') -> r = Parsed data.
Proof.
  unfold await. rewrite bind_run. cbn [record modify].
  destruct r as [| |data0]; [discriminate|discriminate|].
  intros E. apply pair_equal_spec in E as [E _]. congruence.
Qed.

(** X1.  Every refresh of the dashboard, on every page and however its
    requests settle, raises exactly one notification: that the dashboard
    was updated, or that loading failed.  It is the first only when the
    response was parsed and carries no [error] that is truthy. *)
Theorem refresh_notifies_once r feedReply p :
  let p' := exec (loadDashboardData r feedReply) p in
  exists note,
    raised (calls p') = (raised (calls p) ++ [note])%list
    /\ (note = succeeded \/ note = failed)
    /\ (note = succeeded ->
        exists data error,
          r = Parsed data /\ prop data "error" = Ok error /\ truthy error = false).
Proof.
  intros p'. subst p'. unfold exec. rewrite loadDashboardData_split.
  unfold try_catch_finally.
  pose proof (notes_attempt r feedReply p) as Hb.
  destruct (attempt r feedReply p) as [[[]|e] s1] eqn:Eb.
  - pose proof (hushed_showLoading false s1) as Hf. unfold hushed in Hf.
    exists succeeded. split; [|split; [left; reflexivity|intros _]].
    + destruct (showLoading false s1) as [[[]|e] s2]; simpl in Hf |- *; congruence.
    + unfold attempt in Eb.
      apply bind_ok_inv in Eb as ([] & sa & _ & Eb).
      apply bind_ok_inv in Eb as (data & sb & Eaw & Eb).
      apply bind_ok_inv in Eb as (error & sc & El & Eb).
      apply pair_equal_spec in El as [El _].
      exists data, error. split; [eapply await_returns, Eaw|]. split; [exact El|].
      destruct (truthy error); [discriminate Eb|reflexivity].
  - pose proof (recover_raises feedReply e s1) as Hh.
    destruct (recover feedReply e s1) as [r2 s2]. simpl in Hh.
    pose proof (hushed_showLoading false s2) as Hf. unfold hushed in Hf.
    exists failed. split; [|split; [right; reflexivity|discriminate]].
    destruct (showLoading false s2) as [[[]|e'] s3]; simpl in Hf |- *; congruence.
Qed.

(** The refresh button as [showLoading(false)] leaves it. *)
Definition atRest (refreshBtn : element) : Prop :=
  disabled refreshBtn = false
  /\ getp "innerHTML" refreshBtn = icon_html "fas fa-sync-alt" ++ " Refresh".

(** X2.  A refresh ends with the refresh button at rest, enabled and
    with its label, on every page that has the button and however the
    requests settle: also when the response is rendered only in part and
    when the fallback itself throws. *)
Theorem refresh_restores_button r feedReply p refreshBtn :
  elements p !! "refreshFeed" = Some refreshBtn ->
  let p' := exec (loadDashboardData r feedReply) p in
  exists after, elements p' !! "refreshFeed" = Some after /\ atRest after.
Proof.
  intros Hb p'. subst p'. unfold exec. rewrite loadDashboardData_split.
  unfold try_catch_finally.
  assert (Hend : forall s,
            is_Some (elements s !! "refreshFeed") ->
            (exists after,
               elements (snd (showLoading false s)) !! "refreshFeed" = Some after
               /\ atRest after)
            /\ fst (showLoading false s) = Ok tt).
  { intros s [e He]. split; [|reflexivity].
    eexists. split.
    - simpl. rewrite lookup_alter, He. reflexivity.
    - split; [reflexivity|]. unfold getp. simpl. rewrite lookup_insert.
      destruct (decide ("innerHTML" = "innerHTML")); [reflexivity|congruence]. }
  destruct (attempt r feedReply p) as [[[]|e] s1] eqn:Eb.
  - unfold attempt in Eb. grown G Eb.
    destruct (Hend s1) as (Ha & Hf); [apply (proj1 G); eauto|].
    destruct (showLoading false s1) as [[[]|e'] s2]; [|discriminate Hf].
    exact Ha.
  - unfold attempt in Eb. grown G Eb.
    destruct (recover feedReply e s1) as [r2 s2] eqn:Er.
    unfold recover in Er. grown G2 Er.
    destruct (Hend s2) as (Ha & Hf); [apply (proj1 G2), (proj1 G); eauto|].
    destruct (showLoading false s2) as [[[]|e'] s3]; [|discriminate Hf].
    exact Ha.
Qed.

(** X3.  On a page that has the elements the script writes to, a
    refresh never throws, whatever the server answers: a failure of the
    request, a body that is not JSON, or JSON of any shape. *)
Theorem refresh_never_throws r feedReply p :
  complete p -> outcome (loadDashboardData r feedReply) p = Ok tt.
Proof.
  intros Hp. destruct (refresh_run r feedReply p Hp) as (p' & E & _).
  unfold outcome. rewrite E. reflexivity.
Qed.

End Refresh.

Import Browser.

Lemma dashboardPage_has_required : complete dashboardPage.
Proof.
  intros id Hid. unfold required in Hid. simpl in Hid.
  repeat (destruct Hid as [<-|Hid]; [vm_compute; eauto|]).
  destruct Hid.
Defined.

(** A refresh whose request fails, on the page of the browser. *)
Lemma refresh_restores_button_witness :
  let p' := exec (loadDashboardData FetchRejected JsonRejected) dashboardPage in
  exists after, elements p' !! "refreshFeed" = Some after /\ atRest after.
Proof.
  eapply (refresh_restores_button FetchRejected JsonRejected dashboardPage).
  vm_compute. reflexivity.
Defined.

(** The server answers with a number where an object is expected. *)
Lemma refresh_never_throws_witness :
  outcome (loadDashboardData (Parsed (JNum (Fin 7))) FetchRejected) dashboardPage = Ok tt.
Proof. apply refresh_never_throws. exact dashboardPage_has_required. Defined.

End RefreshNotices.

(** ** The prediction feed *)
Module FeedProperties.
Import JSNumber Json Eff Dom EventLoop Dashboard EffFacts NumberFacts.
Import DashboardFacts DashboardFrames DashboardRuns DashboardValues RefreshNotices.
Local Open Scope string_scope.
Local Open Scope eff_scope.

(** A prediction the callback of the feed renders: its risk level can be
    read, and is a string or is falsy (and then shown as unknown). *)
Definition renderable (prediction : json) : Prop :=
  exists level,
    prop prediction "risk_level" = Ok level
    /\ (truthy level = false \/ exists s, level = JStr s).


Lemma bind_lift {A B} (r : result A) (a : A) (k : A -> M page B) s :
  r = Ok a -> bind (lift r) k s = k a s.
Proof. intros ->. reflexivity. Qed.


(** Reading a property of a value that has properties. *)
Lemma prop_other v k x k' : prop v k = Ok x -> exists y, prop v k' = Ok y.
Proof. destruct v; simpl; intros E; try discriminate E; eauto. Qed.

Lemma prop_fallback inner k : exists y, prop (or_else inner (JObj [])) k = Ok y.
Proof.
  unfold or_else. destruct (truthy inner) eqn:E; [|simpl; eauto].
  destruct inner; simpl in *; try discriminate E; eauto.
Qed.

(** The feed item of a prediction, added to the page: the item is
    created, its animation is scheduled, and it is appended to the feed. *)
Definition entered (index : nat) (item : feedItem) (p : page) : page :=
  with_feed (fun l => (l ++ [length (feedItems p)])%list)
    (with_timers
       (fun ts => (ts ++ [{| due := (clock p + Z.of_nat index * 100)%Z;
                             act := FeedShow (length (feedItems p)) |}])%list)
       (with_feedItems (fun l => (l ++ [item])%list) p)).

Section WithHost.
Context `{Host}.




(** The title of the item of rank [j]. *)
Definition titleAt (count : json) (j : nat) : string :=
  "Prediction #" ++ numberToString (sub (toNumber count) (JSNumber.ofZ (Z.of_nat j))).



(** The container of the feed, emptied: what the loop starts from. *)
Definition cleared (p : page) : page :=
  with_elements (alter (setp "innerHTML" "") "predictionFeed")
    (with_feed (fun _ => []) p).

(** The markup of the container. *)
Definition markup (p : page) : option string :=
  getp "innerHTML" <$> elements p !! "predictionFeed".

(** With a list that is passed to it the function makes no request. *)
Lemma updatePredictionFeed_given items r p :
  is_Some (elements p !! "predictionFeed") ->
  (Z.of_nat (length items) < 2 ^ 32)%Z ->
  updatePredictionFeed (JArr items) r p
  = if (Z.of_nat (length items) =? 0)%Z
    then assign "predictionFeed" "innerHTML" feedEmptyMarkup (cleared p)
    else forEachFrom 0 items
           (feedEntry (JNum (Fin (inject_Z (Z.of_nat (length items)))))) (cleared p).
Proof.
  intros Hc Hn. unfold updatePredictionFeed.
  rewrite bind_run, present_run, bool_decide_eq_true_2 by exact Hc.
  cbn [negb truthy]. rewrite !bind_run. cbn [ret modify assign lift lengthOf].
  fold (cleared p).
  destruct (length items) as [|n] eqn:El; [reflexivity|].
  rewrite ofZ_exact; [reflexivity|].
  pose proof (Nat2Z.is_nonneg (S n)). rewrite Z.abs_eq by assumption.
  apply Z.lt_le_trans with (2 ^ 32)%Z; [exact Hn|apply Z.leb_le; reflexivity].
Qed.


(** The title of an item counts down from the number of predictions. *)
Lemma titleAt_counts n j :
  (j < n)%nat -> (Z.of_nat n < 2 ^ 32)%Z ->
  titleAt (JNum (Fin (inject_Z (Z.of_nat n)))) j
  = "Prediction #" ++ JSString.ofZ (Z.of_nat n - Z.of_nat j).
Proof.
  intros Hj Hn. unfold titleAt. cbn [toNumber]. f_equal.
  assert (H32 : (2 ^ 32 < 2 ^ 53)%Z) by reflexivity.
  rewrite ofZ_exact by lia. rewrite sub_int.
  rewrite (round64_int _ (Z.of_nat n - Z.of_nat j)) by (lia || reflexivity).
  apply numberToString_int. lia.
Qed.



(** There is no prediction to show: the list that is passed is empty,
    or none is passed and the request for the latest predictions fails or
    brings none. *)
Definition nothingToShow (predictions : json) (r : reply) : Prop :=
  predictions = JArr []
  \/ (truthy predictions = false
      /\ match r with
         | FetchRejected | JsonRejected => True
         | Parsed data =>
             match prop data "predictions" with
             | Ok list => truthy list = false \/ list = JArr []
             | Throw _ => True
             end
         end).

(** The request the function makes when it is passed no list: it ends
    with a list, whatever the answer is, and raises no notification. *)
Lemma latest_predictions r s :
  exists list s',
    try_catch
      (data <- await "http://localhost:5000/api/analytics/predictions?limit=5" r ;;
       list <- lift (prop data "predictions") ;;
       ret (or_else list (JArr [])))
      (fun error =>
         record (ConsoleError "Error fetching predictions:") ;;
         ret (JArr [])) s
    = (Ok list, s')
    /\ elements s' = elements s /\ feedItems s' = feedItems s
    /\ timers s' = timers s /\ raised (calls s') = raised (calls s)
    /\ list = match r with
              | Parsed data =>
                  match prop data "predictions" with
                  | Ok list => or_else list (JArr [])
                  | Throw _ => JArr []
                  end
              | _ => JArr []
              end.
Proof.
  assert (Hq : forall cs c, unheard c -> raised (cs ++ [c]) = raised cs).
  { intros cs c Hc. rewrite raised_app. destruct c; simpl; try apply app_nil_r.
    destruct Hc. }
  destruct r as [| |data].
  - eexists _, _. split; [reflexivity|]. repeat split.
    simpl. rewrite !Hq by exact I. reflexivity.
  - eexists _, _. split; [reflexivity|]. repeat split.
    simpl. rewrite !Hq by exact I. reflexivity.
  - unfold try_catch, try_catch_finally, await. rewrite !bind_run.
    cbn [record modify ret]. rewrite bind_run. unfold lift.
    destruct (prop data "predictions") as [list|e].
    + eexists _, _. split; [reflexivity|]. repeat split.
      simpl. rewrite !Hq by exact I. reflexivity.
    + eexists _, _. split; [reflexivity|]. repeat split.
      simpl. rewrite !Hq by exact I. reflexivity.
Qed.

Lemma getp_written name v e : getp name (setp name v e) = v.
Proof. unfold getp. simpl. rewrite lookup_insert_eq. reflexivity. Qed.

(** X6.  When there is no prediction to show, on a page that has the
    container: nothing is thrown, no notification is raised, also when the
    request failed, and the container holds the notice of the empty feed
    and no item; no item is created and no timer is scheduled. *)
Theorem feed_shows_empty_notice predictions r p :
  is_Some (elements p !! "predictionFeed") -> nothingToShow predictions r ->
  exists p',
    updatePredictionFeed predictions r p = (Ok tt, p')
    /\ feed p' = [] /\ markup p' = Some feedEmptyMarkup
    /\ feedItems p' = feedItems p /\ timers p' = timers p
    /\ raised (calls p') = raised (calls p).
Proof.
  intros Hc [->|[Hf Hr]].
  - rewrite updatePredictionFeed_given by (exact Hc || reflexivity).
    eexists. split; [reflexivity|]. split; [reflexivity|].
    split; [|repeat split].
    unfold markup. simpl. rewrite !lookup_alter. destruct Hc as [e ->]. simpl.
    rewrite getp_written. reflexivity.
  - unfold updatePredictionFeed.
    rewrite bind_run, present_run, bool_decide_eq_true_2 by exact Hc.
    cbn [negb]. rewrite Hf, bind_run.
    destruct (latest_predictions r p) as (list & s' & E & He & Hi & Ht & Hq & Hl).
    rewrite E.
    assert (El : list = JArr []).
    { rewrite Hl. destruct r as [| |data]; try reflexivity.
      destruct (prop data "predictions") as [l|e]; [|reflexivity].
      unfold or_else. destruct Hr as [Hr| ->]; [rewrite Hr|]; reflexivity. }
    rewrite El. eexists. split; [reflexivity|]. split; [reflexivity|].
    split; [|split; [exact Hi|split; [exact Ht|exact Hq]]].
    unfold markup. simpl. rewrite !lookup_alter, He. destruct Hc as [e ->]. simpl.
    rewrite getp_written. reflexivity.
Qed.

End WithHost.

Import Browser.



(** No list is passed and the request is rejected. *)
Lemma feed_shows_empty_notice_witness :
  exists p',
    updatePredictionFeed JUndefined FetchRejected dashboardPage = (Ok tt, p')
    /\ feed p' = [] /\ markup p' = Some feedEmptyMarkup
    /\ feedItems p' = feedItems dashboardPage /\ timers p' = timers dashboardPage
    /\ raised (calls p') = raised (calls dashboardPage).
Proof.
  apply (feed_shows_empty_notice JUndefined FetchRejected dashboardPage).
  - vm_compute. eauto.
  - right. split; [reflexivity|exact I].
Defined.

End FeedProperties.

(** ** The charts and their labels *)
Module ChartProperties.
Import JSNumber Json Eff Dom EventLoop Dashboard EffFacts NumberFacts.
Import DashboardFacts DashboardFrames DashboardRuns DashboardRefresh RefreshNotices.
Import FeedProperties.
Local Open Scope string_scope.
Local Open Scope eff_scope.

(** From [p] to [p'] no chart is constructed or updated, and the page
    has the elements it had and no other. *)
Definition calm (p p' : page) : Prop :=
  charts p' = charts p /\ instances p' = instances p
  /\ forall id, elements p' !! id = None <-> elements p !! id = None.

Lemma calm_refl p : calm p p.
Proof. repeat split; auto. Qed.

Lemma calm_trans a b c : calm a b -> calm b c -> calm a c.
Proof.
  intros (Hc1 & Hi1 & He1) (Hc2 & Hi2 & He2). split; [congruence|]. split; [congruence|].
  intros id. rewrite He2. apply He1.
Qed.

Lemma calm_alter f id p : calm p (with_elements (alter f id) p).
Proof.
  split; [reflexivity|]. split; [reflexivity|]. intros j. simpl. apply lookup_alter_None.
Qed.

Ltac calm_step :=
  lazymatch goal with
  | |- respects _ (bind _ _) => apply (respects_bind calm calm_trans); [|intros ?]
  | |- respects _ (ret _) => apply (respects_ret calm calm_refl)
  | |- respects _ (throw _) => apply (respects_throw calm calm_refl)
  | |- respects _ (lift _) => apply (respects_lift calm calm_refl)
  | |- respects _ get => apply (respects_get calm calm_refl)
  | |- respects _ (when _ _) => apply (respects_when calm calm_refl)
  | |- respects _ (modify (with_elements (alter _ _))) =>
      apply respects_modify; intros ?; apply calm_alter
  | |- respects _ (modify _) =>
      apply respects_modify; intros ?;
      split; [reflexivity|split; [reflexivity|intros ?; reflexivity]]
  | |- respects _ (record _) => unfold record
  | |- respects _ (setTimeout _ _) => unfold setTimeout
  | |- respects _ (present _) => unfold present
  | |- respects _ (assign _ _ _) => unfold assign
  | |- respects _ (assign_unguarded _ _ _) => unfold assign_unguarded
  | |- respects _ now => unfold now
  | |- respects _ mathRandom => unfold mathRandom
  | |- respects _ (await _ _) => unfold await
  | |- respects _ (if ?b then _ else _) => destruct b
  | |- respects _ (match ?x with _ => _ end) => destruct x
  end.

(** Computations that throw, from every state that satisfies [J], and
    leave the charts as they are. *)
Section Halting.
Variable J : page -> Prop.
Hypothesis J_calm : forall s s', calm s s' -> J s -> J s'.

Definition halts {A} (m : M page A) : Prop :=
  forall s, J s -> exists e s', m s = (Throw e, s') /\ calm s s'.

Lemma halts_first {A B} (m : M page A) (k : A -> M page B) :
  halts m -> halts (bind m k).
Proof.
  intros Hm s Js. destruct (Hm s Js) as (e & s' & E & Hc).
  exists e, s'. rewrite bind_run, E. auto.
Qed.

Lemma halts_then {A B} (m : M page A) (k : A -> M page B) :
  respects calm m -> (forall a, halts (k a)) -> halts (bind m k).
Proof.
  intros Hm Hk s Js. rewrite bind_run. specialize (Hm s).
  destruct (m s) as [[a|e] s1]; simpl in Hm.
  - destruct (Hk a s1 (J_calm _ _ Hm Js)) as (e & s' & E & Hc).
    exists e, s'. split; [exact E|]. eapply calm_trans; eassumption.
  - exists e, s1. auto.
Qed.

Lemma halts_lift {A B} (r : result A) (k : A -> M page B) :
  (forall a, r = Ok a -> halts (k a)) -> halts (bind (lift r) k).
Proof.
  intros Hk s Js. destruct r as [a|e].
  - apply (Hk a eq_refl s Js).
  - exists e, s. split; [reflexivity|apply calm_refl].
Qed.

Lemma halts_throw {A} e : halts (@throw page A e).
Proof. intros s _. exists e, s. split; [reflexivity|apply calm_refl]. Qed.

End Halting.

(** What the performance chart plots for a metric: the metric, unless it
    is [0] or [NaN], which [||] replaces by the default of the script. *)
Definition plotted (x : number) (default : Z) : json :=
  if JSNumber.truthy x then JNum x else JNum (Fin (inject_Z default)).

(** The metrics the server sends, all four of them numbers. *)
Definition metricsOf (precision recall f1 auc : number) : json :=
  JObj [("precision", JNum precision); ("recall", JNum recall);
        ("f1_score", JNum f1); ("auc_score", JNum auc)].

Section WithHost.
Context `{Host}.

Lemma assign_unguarded_there id name v s :
  is_Some (elements s !! id) ->
  assign_unguarded id name v s = (Ok tt, with_elements (alter (setp name v) id) s).
Proof.
  intros Hid. unfold assign_unguarded.
  rewrite bind_run, present_run, bool_decide_eq_true_2 by assumption. reflexivity.
Qed.

Lemma assign_unguarded_absent id name v s :
  elements s !! id = None ->
  exists e, assign_unguarded id name v s = (Throw e, s).
Proof.
  intros Hid. unfold assign_unguarded.
  rewrite bind_run, present_run, bool_decide_eq_false_2.
  - eexists. reflexivity.
  - rewrite Hid. intros [? ?]. discriminate.
Qed.

(** X7.  The performance chart, for metrics that are numbers, on a page
    that has the canvas and the three labels: each label shows its metric
    with one decimal, whatever the metric is, and the chart plots the
    metric unless it is [0] (or [NaN]), in which case it plots 92 for the
    precision, 89 for the recall, 90 for the F1 score and 94 for the AUC
    score.  So a precision of 0 is labelled ["0.0%"] and plotted as 92. *)
Theorem performance_chart_plots_default_for_zero precision recall f1 auc p :
  sound p ->
  is_Some (elements p !! "performanceChart") ->
  is_Some (elements p !! "precisionValue") ->
  is_Some (elements p !! "recallValue") ->
  is_Some (elements p !! "f1Value") ->
  exists p',
    updatePerformanceChart (metricsOf precision recall f1 auc) p = (Ok tt, p')
    /\ textOf "precisionValue" p' = Some (toFixed1 precision ++ "%")
    /\ textOf "recallValue" p' = Some (toFixed1 recall ++ "%")
    /\ textOf "f1Value" p' = Some (toFixed1 f1 ++ "%")
    /\ chartData "performance" p'
       = Some (JArr [plotted precision 92; plotted recall 89;
                     plotted f1 90; plotted auc 94])
    /\ (precision = Fin 0 ->
        textOf "precisionValue" p' = Some "0.0%"
        /\ chartData "performance" p'
           = Some (JArr [JNum (Fin 92); plotted recall 89;
                         plotted f1 90; plotted auc 94])).
Proof.
  intros Hs Hc Hp Hr Hf.
  set (s1 := with_elements
               (alter (setp "textContent" (toFixed1 precision ++ "%")) "precisionValue") p).
  set (s2 := with_elements
               (alter (setp "textContent" (toFixed1 recall ++ "%")) "recallValue") s1).
  set (s3 := with_elements
               (alter (setp "textContent" (toFixed1 f1 ++ "%")) "f1Value") s2).
  set (final := bind get (fun q =>
         match charts q !! "performance" with
         | Some instance =>
             modify (with_instances (alter
               (set_data (JArr [plotted precision 92; plotted recall 89;
                                plotted f1 90; plotted auc 94])) instance)) ;;
             modify (with_instances (alter update instance))
         | None =>
             createChart "performance" "radar"
               (JArr [JStr "Precision"; JStr "Recall"; JStr "F1-Score"; JStr "AUC Score"])
               (JArr [plotted precision 92; plotted recall 89;
                      plotted f1 90; plotted auc 94])
         end)).
  assert (E : updatePerformanceChart (metricsOf precision recall f1 auc) p = final s3).
  { unfold updatePerformanceChart.
    rewrite bind_run, present_run, bool_decide_eq_true_2 by assumption. cbn [negb].
    do 2 (erewrite bind_ok by reflexivity; cbv beta).
    erewrite bind_ok by (apply assign_unguarded_there; exact Hp). fold s1.
    do 2 (erewrite bind_ok by reflexivity; cbv beta).
    erewrite bind_ok
      by (apply assign_unguarded_there, (keepsElements_alter _ "precisionValue"), Hr).
    fold s2.
    do 2 (erewrite bind_ok by reflexivity; cbv beta).
    erewrite bind_ok
      by (apply assign_unguarded_there, (keepsElements_alter _ "recallValue"),
            (keepsElements_alter _ "precisionValue"), Hf).
    fold s3.
    erewrite bind_ok by reflexivity. cbv beta zeta. reflexivity. }
  assert (Hrun : exists p', final s3 = (Ok tt, p') /\ elements p' = elements s3).
  { unfold final. rewrite bind_run. cbn [get].
    destruct (charts s3 !! "performance") as [i|]; eexists;
      (split; [unfold createChart; cbn [bind get modify]; reflexivity|reflexivity]). }
  destruct Hrun as (p' & Ef & He).
  assert (Hd : chartData "performance" p'
               = Some (JArr [plotted precision 92; plotted recall 89;
                             plotted f1 90; plotted auc 94])).
  { pose proof Ef as Eh. unfold final in Eh.
    eapply upsert_holds in Eh;
      [exact Eh|exact Hs|intros ? ?; reflexivity
      |let Hi := fresh in
       intros ? ? ? Hi; simpl; rewrite !list_lookup_alter_eq, Hi; simpl;
       eexists; split; reflexivity]. }
  assert (Ht : textOf "precisionValue" p' = Some (toFixed1 precision ++ "%")).
  { unfold textOf. rewrite He. simpl.
    rewrite lookup_alter_ne, lookup_alter_ne by discriminate.
    apply text_shown, Hp. }
  exists p'. rewrite E. split; [exact Ef|]. split; [exact Ht|].
  split; [|split; [|split; [exact Hd|]]].
  - unfold textOf. rewrite He. simpl. rewrite lookup_alter_ne by discriminate.
    apply text_shown. apply lookup_alter_is_Some, Hr.
  - unfold textOf. rewrite He. simpl. apply text_shown.
    apply lookup_alter_is_Some, lookup_alter_is_Some, Hf.
  - intros ->. split; [exact Ht|exact Hd].
Qed.

Lemma calm_assign_unguarded id name v : respects calm (assign_unguarded id name v).
Proof. repeat calm_step. Qed.

Lemma toFixed_throws v : (forall x, v <> JNum x) -> exists e, toFixed v = Throw e.
Proof.
  intros Hv. destruct v; simpl; eauto. exfalso. eapply Hv. reflexivity.
Qed.

(** X8.  The defaults of the performance chart are out of reach for a
    metric that is missing: when the precision, the recall or the F1 score
    of the response is not a number, the function throws as it formats
    the metric for its label, and the chart is neither constructed nor
    updated. *)
Theorem performance_chart_needs_its_metrics metrics name p :
  In name ["precision"; "recall"; "f1_score"] ->
  is_Some (elements p !! "performanceChart") ->
  (forall x, prop metrics name <> Ok (JNum x)) ->
  exists e p',
    updatePerformanceChart metrics p = (Throw e, p')
    /\ charts p' = charts p /\ instances p' = instances p.
Proof.
  intros Hname Hc Hn. unfold updatePerformanceChart.
  rewrite bind_run, present_run, bool_decide_eq_true_2 by exact Hc. cbn [negb].
  pose (J := fun _ : page => True).
  assert (J_calm : forall s s', calm s s' -> J s -> J s') by (intros; exact I).
  lazymatch goal with
  | |- exists e p', ?m p = _ /\ _ => assert (Hh : halts J m)
  end.
  { simpl in Hname.
    apply halts_lift. intros precision Ep.
    destruct Hname as [<-|Hname].
    { destruct (toFixed_throws precision) as [e He].
      { intros x ->. exact (Hn x Ep). }
      rewrite He. apply halts_lift. intros ? Ea. discriminate Ea. }
    apply halts_lift. intros ? _.
    apply (halts_then J J_calm); [apply calm_assign_unguarded|]. intros _.
    apply halts_lift. intros recall Er.
    destruct Hname as [<-|Hname].
    { destruct (toFixed_throws recall) as [e He].
      { intros x ->. exact (Hn x Er). }
      rewrite He. apply halts_lift. intros ? Ea. discriminate Ea. }
    apply halts_lift. intros ? _.
    apply (halts_then J J_calm); [apply calm_assign_unguarded|]. intros _.
    apply halts_lift. intros f1 Ef.
    destruct Hname as [<-|[]].
    destruct (toFixed_throws f1) as [e He].
    { intros x ->. exact (Hn x Ef). }
    rewrite He. apply halts_lift. intros ? Ea. discriminate Ea. }
  destruct (Hh p I) as (e & p' & E & Hcalm).
  exists e, p'. split; [exact E|]. split; apply Hcalm.
Qed.

(** A page that has the canvas of the risk chart and not the label [L]. *)
Definition lacks (L : string) (s : page) : Prop :=
  is_Some (elements s !! "riskDistributionChart") /\ elements s !! L = None.

Lemma lacks_calm L s s' : calm s s' -> lacks L s -> lacks L s'.
Proof.
  intros (_ & _ & He) [Hc Hl]. split; [|apply He, Hl].
  destruct (elements s' !! "riskDistributionChart") eqn:E; [eauto|].
  apply He in E. rewrite E in Hc. destruct Hc. discriminate.
Qed.

Lemma halts_label L name v : halts (lacks L) (assign_unguarded L name v).
Proof.
  intros s [_ Hl]. destruct (assign_unguarded_absent L name v s Hl) as [e E].
  exists e, s. split; [exact E|apply calm_refl].
Qed.

Lemma halts_updateRiskDistributionChart L riskData :
  In L ["lowRiskPercent"; "mediumRiskPercent"; "highRiskPercent"] ->
  halts (lacks L) (updateRiskDistributionChart riskData).
Proof.
  intros HL s Js. unfold updateRiskDistributionChart.
  rewrite bind_run, present_run, bool_decide_eq_true_2 by apply Js. cbn [negb].
  lazymatch goal with
  | |- exists e s', ?m s = _ /\ _ => revert s Js; change (halts (lacks L) m)
  end.
  do 3 (apply halts_lift; intros ? _). cbv zeta. simpl in HL.
  destruct HL as [<-|HL]; [apply halts_first, halts_label|].
  apply (halts_then _ (lacks_calm L)); [apply calm_assign_unguarded|]. intros _.
  destruct HL as [<-|HL]; [apply halts_first, halts_label|].
  apply (halts_then _ (lacks_calm L)); [apply calm_assign_unguarded|]. intros _.
  destruct HL as [<-|[]]. apply halts_first, halts_label.
Qed.

Lemma calm_updateStats overview : respects calm (updateStats overview).
Proof. unfold updateStats, animateCounter. repeat calm_step. Qed.

Lemma calm_showLoading show : respects calm (showLoading show).
Proof. unfold showLoading. repeat calm_step. Qed.

Lemma calm_showNotification message type : respects calm (showNotification message type).
Proof. unfold showNotification. repeat calm_step. Qed.

Lemma calm_samplePredictions n : forall i, respects calm (samplePredictions n i).
Proof.
  induction n as [|n IH]; intros i; simpl.
  - calm_step.
  - unfold samplePrediction. repeat calm_step. apply IH.
Qed.

Lemma halts_updateDashboard L data feedReply :
  In L ["lowRiskPercent"; "mediumRiskPercent"; "highRiskPercent"] ->
  halts (lacks L) (updateDashboard data feedReply).
Proof.
  intros HL. unfold updateDashboard.
  apply halts_lift. intros overview _.
  apply (halts_then _ (lacks_calm L)); [apply calm_updateStats|]. intros _.
  apply halts_first. unfold updateCharts.
  apply halts_lift. intros riskData _.
  apply halts_first, halts_updateRiskDistributionChart, HL.
Qed.

(** X9.  On a page that has the canvas of the risk chart and lacks one
    of its three percentage labels, no refresh draws any chart: the
    response is given up as the label is written, the failure is notified,
    and the fallback is given up at the same place, so that the refresh
    ends with an exception and the registry of charts is as it was. *)
Theorem missing_label_stops_every_chart L r feedReply p :
  In L ["lowRiskPercent"; "mediumRiskPercent"; "highRiskPercent"] ->
  is_Some (elements p !! "riskDistributionChart") -> elements p !! L = None ->
  let p' := exec (loadDashboardData r feedReply) p in
  (exists e, outcome (loadDashboardData r feedReply) p = Throw e)
  /\ charts p' = charts p /\ instances p' = instances p
  /\ raised (calls p') = (raised (calls p) ++ [failed])%list.
Proof.
  intros HL Hc Hl p'. subst p'.
  assert (Ha : halts (lacks L) (attempt r feedReply)).
  { unfold attempt.
    apply (halts_then _ (lacks_calm L)); [apply calm_showLoading|]. intros _.
    apply (halts_then _ (lacks_calm L)); [repeat calm_step|]. intros data.
    apply halts_lift. intros error _.
    destruct (truthy error); [apply halts_throw|].
    apply (halts_then _ (lacks_calm L)); [calm_step|]. intros _.
    apply halts_first, halts_updateDashboard, HL. }
  assert (Hr : forall e, halts (lacks L) (recover feedReply e)).
  { intros e. unfold recover, loadSampleData.
    apply (halts_then _ (lacks_calm L)); [repeat calm_step|]. intros _.
    apply (halts_then _ (lacks_calm L)); [apply calm_showNotification|]. intros _.
    apply (halts_then _ (lacks_calm L)); [repeat calm_step|]. intros _.
    apply (halts_then _ (lacks_calm L)); [apply calm_samplePredictions|]. intros timeline.
    apply (halts_then _ (lacks_calm L)); [calm_step|]. intros _.
    apply halts_first, halts_updateDashboard, HL. }
  destruct (Ha p (conj Hc Hl)) as (e1 & s1 & E1 & C1).
  destruct (Hr e1 s1 (lacks_calm L _ _ C1 (conj Hc Hl))) as (e2 & s2 & E2 & C2).
  pose proof (notes_attempt r feedReply p) as N1. rewrite E1 in N1.
  pose proof (recover_raises feedReply e1 s1) as N2. rewrite E2 in N2. simpl in N2.
  pose proof (calm_showLoading false s2) as C3.
  pose proof (hushed_showLoading false s2) as N3. unfold hushed in N3.
  unfold exec, outcome. rewrite loadDashboardData_split. unfold try_catch_finally.
  rewrite E1, E2.
  assert (E3 : fst (showLoading false s2) = Ok tt) by reflexivity.
  destruct (showLoading false s2) as [[[]|e3] s3]; [|discriminate E3].
  simpl in C3, N3 |- *.
  pose proof (calm_trans _ _ _ (calm_trans _ _ _ C1 C2) C3) as (Hch & Hin & _).
  split; [eauto|]. split; [exact Hch|]. split; [exact Hin|]. congruence.
Qed.

End WithHost.

Import Browser.

(** The response lacks the recall. *)
Lemma performance_chart_needs_its_metrics_witness :
  exists e p',
    updatePerformanceChart (JObj [("precision", JNum (Fin 92))]) dashboardPage
    = (Throw e, p')
    /\ charts p' = charts dashboardPage /\ instances p' = instances dashboardPage.
Proof.
  apply (performance_chart_needs_its_metrics
           (JObj [("precision", JNum (Fin 92))]) "recall" dashboardPage).
  - simpl. tauto.
  - vm_compute. eauto.
  - discriminate.
Defined.

(** The page of the browser without the label of the low risk. *)
Definition unlabelledPage : page :=
  with_elements (delete "lowRiskPercent") dashboardPage.

Lemma missing_label_stops_every_chart_witness :
  let p' := exec (loadDashboardData FetchRejected FetchRejected) unlabelledPage in
  (exists e, outcome (loadDashboardData FetchRejected FetchRejected) unlabelledPage
             = Throw e)
  /\ charts p' = charts unlabelledPage /\ instances p' = instances unlabelledPage
  /\ raised (calls p') = (raised (calls unlabelledPage) ++ [failed])%list.
Proof.
  apply (missing_label_stops_every_chart
           "lowRiskPercent" FetchRejected FetchRejected unlabelledPage).
  - simpl. tauto.
  - vm_compute. eauto.
  - vm_compute. reflexivity.
Defined.

(** A precision of 0 among metrics that are not. *)
Lemma performance_chart_plots_default_for_zero_witness :
  exists p',
    updatePerformanceChart (metricsOf (Fin 0) (Fin 89) (Fin 90) (Fin 94)) dashboardPage
    = (Ok tt, p')
    /\ textOf "precisionValue" p' = Some "0.0%"
    /\ chartData "performance" p'
       = Some (JArr [JNum (Fin 92); JNum (Fin 89); JNum (Fin 90); JNum (Fin 94)]).
Proof.
  destruct (performance_chart_plots_default_for_zero
              (Fin 0) (Fin 89) (Fin 90) (Fin 94) dashboardPage)
    as (p' & E & Ht & _ & _ & Hd & _).
  - apply sound_fresh; reflexivity.
  - vm_compute. eauto.
  - vm_compute. eauto.
  - vm_compute. eauto.
  - vm_compute. eauto.
  - exists p'. split; [exact E|]. split; [exact Ht|exact Hd].
Defined.

End ChartProperties.

(** ** Timestamps that are not dates *)
Module TimeProperties.
Import JSNumber Json Eff Dom Dashboard.
Local Open Scope string_scope.

Section WithHost.
Context `{Host}.

(** X10.  A timestamp that is truthy and is not a date, one that
    [new Date] turns into an invalid date, is not reported as such:
    every comparison with its age fails, and the function returns what the
    host prints for the date and for the time of an invalid date, one
    after the other. *)
Theorem formatTime_invalid current timestamp :
  truthy timestamp = true -> dateOf timestamp = NaN ->
  formatTime current timestamp
  = toLocaleDateString NaN ++ " " ++ toLocaleTimeString NaN.
Proof.
  intros Ht Hd. unfold formatTime. rewrite Ht, Hd. destruct current; reflexivity.
Qed.

End WithHost.

Import Browser.

(** A string that is no ISO 8601 time stamp, in the browser. *)
Lemma formatTime_invalid_witness :
  formatTime (Fin (inject_Z 1704110400000)) (JStr "yesterday")
  = "Invalid Date Invalid Date".
Proof.
  rewrite (formatTime_invalid (Fin (inject_Z 1704110400000)) (JStr "yesterday")).
  - reflexivity.
  - reflexivity.
  - vm_compute. reflexivity.
Defined.

End TimeProperties.

(** ** The life of a notification *)
Module NotificationProperties.
Import JSNumber Json Eff Dom EventLoop EffFacts.
Local Open Scope string_scope.
Local Open Scope eff_scope.

(** The opacity of the notification element of rank [id]. *)
Definition opacityOf (toasts : list element) (id : nat) : option string :=
  getp "style.opacity" <$> toasts !! id.

(** What the callbacks of the two animation timers do to the element. *)
Definition slidIn (e : element) : element :=
  setp "style.opacity" "1" (setp "style.transform" "translateX(0)" e).
Definition slidOut (e : element) : element :=
  setp "style.opacity" "0" (setp "style.transform" "translateX(100%)" e).

(** Comparisons of times that differ by a constant. *)
Ltac order :=
  repeat match goal with
         | |- context [(?a <? ?b)%Z] =>
             first [rewrite (proj2 (Z.ltb_lt a b)) by lia
                   |rewrite (proj2 (Z.ltb_ge a b)) by lia]
         | |- context [Z.max ?a ?b] =>
             first [rewrite (Z.max_r a b) by lia|rewrite (Z.max_l a b) by lia]
         end.

Ltac tidy H :=
  cbn [default from_option Datatypes.id app act due] in H;
  repeat match type of H with
         | context [Z.max ?a ?b] =>
             first [rewrite (Z.max_r a b) in H by lia|rewrite (Z.max_l a b) in H by lia]
         end.

(** The timer that fires next, among the pending ones [M]. *)
Ltac next M := rewrite M; repeat (cbn [earliest due]; order); reflexivity.

(** *** On the dashboard *)
Module OnDashboard.
Import Dashboard.

(** What a notification is made of: the elements created, the one in
    the document, the time and the pending timers. *)
Definition view (q : page) : list element * option nat * Z * list timer :=
  (toasts q, attached q, clock q, timers q).

Section WithHost.
Context `{Host}.

(** The text and the colour [showNotification] gives the element. *)
Definition painted (message type : string) (e : element) : element :=
  setp "innerHTML"
    (nl ++ "        " ++ icon_html ("fas fa-" ++ toastIcon type) ++ nl
     ++ "        <span>" ++ message ++ "</span>" ++ nl ++ "    ")
    (setp "style.background" (toastColor type) e).

Lemma showNotification_view message type q :
  view (exec (showNotification message type) q)
  = let id := default (length (toasts q)) (attached q) in
    (alter (painted message type) id
       (match attached q with
        | Some _ => toasts q
        | None => (toasts q ++ [newToast])%list
        end),
     Some id, clock q,
     (timers q ++ [{| due := (clock q + 10)%Z; act := ToastIn id |};
                   {| due := (clock q + 3000)%Z; act := ToastOut id |}])%list).
Proof.
  unfold exec, showNotification, record, setTimeout, view.
  destruct (attached q) as [id|] eqn:Ea;
    cbn -[toastIcon toastColor icon_html nl String.append Z.add];
    rewrite Ea;
    cbn -[toastIcon toastColor icon_html nl String.append Z.add];
    rewrite <- app_assoc; first [reflexivity|rewrite Ea; reflexivity].
Qed.

(** One turn of the event loop when the next timer is one of a
    notification. *)
Lemma fire_next_view q t rest :
  earliest (timers q) = Some (t, rest) ->
  let now := Z.max (clock q) (due t) in
  match act t with
  | ToastIn id =>
      view (exec fire_next q) = (alter slidIn id (toasts q), attached q, now, rest)
  | ToastOut id =>
      view (exec fire_next q)
      = (alter slidOut id (toasts q), attached q, now,
         (rest ++ [{| due := (now + 300)%Z; act := ToastRemove id |}])%list)
  | ToastRemove id =>
      view (exec fire_next q)
      = (toasts q, if bool_decide (attached q = Some id) then None else attached q,
         now, rest)
  | _ => True
  end.
Proof.
  intros Ee now. unfold exec, fire_next. rewrite bind_run. cbn [get]. rewrite Ee.
  unfold run. destruct t as [d [id|id|id|id|? ? ? ?]]; cbn [act due]; try exact I.
  - reflexivity.
  - reflexivity.
  - cbn -[Z.max]. destruct (bool_decide (attached q = Some id)); reflexivity.
Qed.

(** The equations of the four parts of a view. *)
Lemma view_parts q ts a c tm :
  view q = (ts, a, c, tm) -> toasts q = ts /\ attached q = a /\ clock q = c /\ timers q = tm.
Proof. unfold view. intros E. injection E as -> -> -> ->. auto. Qed.

(** X11.  On the dashboard a notification that is raised while the
    element of an earlier one is still in the document is written to that
    element, and leaves with it.  From a page with no notification and no
    pending timer: a first notification is raised and fades after 3000
    milliseconds; a second one is raised then, in the same element, and is
    visible 10 milliseconds later; the timer that removes the first one
    fires at 3300 milliseconds and takes the element out of the document,
    290 milliseconds after the second notification was shown in it, while
    the timer that is to dismiss the second one is pending for 2700
    milliseconds more. *)
Theorem later_notification_leaves_with_the_earlier m1 t1 m2 t2 q :
  attached q = None -> timers q = [] ->
  let n := length (toasts q) in
  let q1 := exec (showNotification m1 t1) q in
  let q3 := exec fire_next (exec fire_next q1) in
  let q4 := exec (showNotification m2 t2) q3 in
  let q5 := exec fire_next q4 in
  let q6 := exec fire_next q5 in
  (clock q3 = (clock q + 3000)%Z /\ attached q3 = Some n
   /\ opacityOf (toasts q3) n = Some "0")
  /\ (attached q4 = Some n /\ length (toasts q4) = S n
      /\ toasts q4 !! n = painted m2 t2 <$> toasts q3 !! n)
  /\ (clock q5 = (clock q + 3010)%Z /\ opacityOf (toasts q5) n = Some "1")
  /\ (clock q6 = (clock q + 3300)%Z /\ attached q6 = None
      /\ timers q6 = [{| due := (clock q + 6000)%Z; act := ToastOut n |}]).
Proof.
  intros Ha Ht n q1 q3 q4 q5 q6.
  (* the first notification *)
  pose proof (showNotification_view m1 t1 q) as V1. fold q1 in V1.
  rewrite Ha, Ht in V1. tidy V1. fold n in V1.
  apply view_parts in V1 as (T1 & A1 & C1 & M1).
  (* it slides in *)
  set (q2 := exec fire_next q1) in *.
  pose proof (fire_next_view q1 _ _ ltac:(next M1)) as V2.
  fold q2 in V2. rewrite T1, A1, C1 in V2. tidy V2.
  apply view_parts in V2 as (T2 & A2 & C2 & M2).
  (* it slides out *)
  pose proof (fire_next_view q2 _ _ ltac:(next M2)) as V3.
  fold q3 in V3. rewrite T2, A2, C2 in V3. tidy V3.
  apply view_parts in V3 as (T3 & A3 & C3 & M3).
  (* the second notification *)
  pose proof (showNotification_view m2 t2 q3) as V4. fold q4 in V4.
  rewrite A3, C3, M3 in V4. tidy V4.
  apply view_parts in V4 as (T4 & A4 & C4 & M4).
  (* it slides in *)
  pose proof (fire_next_view q4 _ _ ltac:(next M4)) as V5.
  fold q5 in V5. rewrite T4, A4, C4 in V5. tidy V5.
  apply view_parts in V5 as (T5 & A5 & C5 & M5).
  (* the first one is removed *)
  pose proof (fire_next_view q5 _ _ ltac:(next M5)) as V6.
  fold q6 in V6. rewrite A5, C5 in V6. tidy V6.
  rewrite bool_decide_eq_true_2 in V6 by reflexivity.
  apply view_parts in V6 as (T6 & A6 & C6 & M6).
  assert (Hlen : length (toasts q3) = S n).
  { rewrite T3, !length_alter, length_app. simpl. unfold n. lia. }
  assert (Hnew : (toasts q ++ [newToast])%list !! n = Some newToast).
  { unfold n. rewrite lookup_app_r by lia. rewrite Nat.sub_diag. reflexivity. }
  split; [|split; [|split]].
  - split; [exact C3|]. split; [exact A3|].
    unfold opacityOf. rewrite T3, !list_lookup_alter_eq, Hnew. reflexivity.
  - split; [exact A4|]. split; [rewrite T4, length_alter; exact Hlen|].
    rewrite T4. apply list_lookup_alter_eq.
  - split; [rewrite C5; lia|].
    unfold opacityOf. rewrite T5, T3, !list_lookup_alter_eq, Hnew. reflexivity.
  - split; [rewrite C6; lia|]. split; [exact A6|].
    rewrite M6. replace (clock q + 6000)%Z with (clock q + 3000 + 3000)%Z by lia.
    reflexivity.
Qed.

End WithHost.

Import Browser.

(** Two notifications on the page of the browser: the second is gone
    at 3300 milliseconds past noon. *)
Lemma later_notification_leaves_with_the_earlier_witness :
  let q3 := exec fire_next
              (exec fire_next (exec (showNotification "first" "info") dashboardPage)) in
  let q6 := exec fire_next
              (exec fire_next (exec (showNotification "second" "success") q3)) in
  clock q6 = 1704110403300%Z /\ attached q6 = None
  /\ timers q6 = [{| due := 1704110406000%Z; act := ToastOut 0 |}].
Proof.
  destruct (later_notification_leaves_with_the_earlier
              "first" "info" "second" "success" dashboardPage) as (_ & _ & _ & E).
  - reflexivity.
  - reflexivity.
  - exact E.
Defined.

End OnDashboard.

(** *** On the form page *)
Module OnForm.
Import Script.

Definition view (p : page) : list element * option nat * Z * list timer :=
  (toasts p, attached p, clock p, timers p).

Lemma form_view_parts p ts a c tm :
  view p = (ts, a, c, tm) -> toasts p = ts /\ attached p = a /\ clock p = c /\ timers p = tm.
Proof. unfold view. intros E. injection E as -> -> -> ->. auto. Qed.

Lemma showNotification_form_view message type p :
  view (exec (showNotification message type) p)
  = let id := length (toasts p) in
    ((toasts p ++ [newToast message type])%list, Some id, clock p,
     (timers p ++ [{| due := (clock p + 10)%Z; act := ToastIn id |};
                   {| due := (clock p + 3000)%Z; act := ToastOut id |}])%list).
Proof.
  unfold exec, showNotification, record, setTimeout, view.
  cbn -[newToast Z.add]. rewrite <- app_assoc. reflexivity.
Qed.

Section WithHost.
Context `{Host}.

Lemma fire_next_form_view p t rest :
  earliest (timers p) = Some (t, rest) ->
  let now := Z.max (clock p) (due t) in
  match act t with
  | ToastIn id =>
      view (exec fire_next p) = (alter slidIn id (toasts p), attached p, now, rest)
  | ToastOut id =>
      view (exec fire_next p)
      = (alter slidOut id (toasts p), attached p, now,
         (rest ++ [{| due := (now + 300)%Z; act := ToastRemove id |}])%list)
  | ToastRemove id =>
      view (exec fire_next p)
      = (toasts p, if bool_decide (attached p = Some id) then None else attached p,
         now, rest)
  | _ => True
  end.
Proof.
  intros Ee now. unfold exec, fire_next. rewrite bind_run. cbn [get]. rewrite Ee.
  unfold run. destruct t as [d [w|id|id|id|? ? ? ?]]; cbn [act due]; try exact I.
  - reflexivity.
  - reflexivity.
  - cbn -[Z.max]. destruct (bool_decide (attached p = Some id)); reflexivity.
Qed.

(** X12.  On the form page a notification that is raised while an
    earlier one is in the document takes its place in a new element, and
    the timers of the earlier one do nothing to it.  From a page with no
    pending timer: a first notification is raised and fades after 3000
    milliseconds; a second one is raised then, in an element of its own,
    and is visible 10 milliseconds later; the timer that removes the first
    one fires at 3300 milliseconds and leaves the second one in the
    document, which is removed by its own timer at 6300 milliseconds,
    after which no timer is pending. *)
Theorem later_notification_outlives_the_earlier m1 t1 m2 t2 p :
  timers p = [] ->
  let n := length (toasts p) in
  let p1 := exec (showNotification m1 t1) p in
  let p3 := exec fire_next (exec fire_next p1) in
  let p4 := exec (showNotification m2 t2) p3 in
  let p5 := exec fire_next p4 in
  let p6 := exec fire_next p5 in
  let p8 := exec fire_next (exec fire_next p6) in
  (clock p3 = (clock p + 3000)%Z /\ attached p3 = Some n
   /\ opacityOf (toasts p3) n = Some "0")
  /\ (attached p4 = Some (S n) /\ length (toasts p4) = S (S n))
  /\ (clock p5 = (clock p + 3010)%Z /\ opacityOf (toasts p5) (S n) = Some "1")
  /\ (clock p6 = (clock p + 3300)%Z /\ attached p6 = Some (S n)
      /\ opacityOf (toasts p6) (S n) = Some "1")
  /\ (clock p8 = (clock p + 6300)%Z /\ attached p8 = None /\ timers p8 = []).
Proof.
  intros Ht n p1 p3 p4 p5 p6 p8.
  pose proof (showNotification_form_view m1 t1 p) as V1. fold p1 in V1.
  rewrite Ht in V1. tidy V1. fold n in V1.
  apply form_view_parts in V1 as (T1 & A1 & C1 & M1).
  set (p2 := exec fire_next p1) in *.
  pose proof (fire_next_form_view p1 _ _ ltac:(next M1)) as V2.
  fold p2 in V2. rewrite T1, A1, C1 in V2. tidy V2.
  apply form_view_parts in V2 as (T2 & A2 & C2 & M2).
  pose proof (fire_next_form_view p2 _ _ ltac:(next M2)) as V3.
  fold p3 in V3. rewrite T2, A2, C2 in V3. tidy V3.
  apply form_view_parts in V3 as (T3 & A3 & C3 & M3).
  assert (Hlen : length (toasts p3) = S n).
  { rewrite T3, !length_alter, length_app. simpl. unfold n. lia. }
  pose proof (showNotification_form_view m2 t2 p3) as V4. fold p4 in V4.
  rewrite C3, M3, Hlen in V4. tidy V4.
  apply form_view_parts in V4 as (T4 & A4 & C4 & M4).
  pose proof (fire_next_form_view p4 _ _ ltac:(next M4)) as V5.
  fold p5 in V5. rewrite T4, A4, C4 in V5. tidy V5.
  apply form_view_parts in V5 as (T5 & A5 & C5 & M5).
  pose proof (fire_next_form_view p5 _ _ ltac:(next M5)) as V6.
  fold p6 in V6. rewrite T5, A5, C5 in V6. tidy V6.
  rewrite bool_decide_eq_false_2 in V6 by (intros [= E]; lia).
  apply form_view_parts in V6 as (T6 & A6 & C6 & M6).
  set (p7 := exec fire_next p6) in *.
  pose proof (fire_next_form_view p6 _ _ ltac:(next M6)) as V7.
  fold p7 in V7. rewrite T6, A6, C6 in V7. tidy V7.
  apply form_view_parts in V7 as (T7 & A7 & C7 & M7).
  pose proof (fire_next_form_view p7 _ _ ltac:(next M7)) as V8.
  fold p8 in V8. rewrite A7, C7 in V8. tidy V8.
  rewrite bool_decide_eq_true_2 in V8 by reflexivity.
  apply form_view_parts in V8 as (T8 & A8 & C8 & M8).
  assert (Hfirst : (toasts p ++ [newToast m1 t1])%list !! n = Some (newToast m1 t1)).
  { unfold n. rewrite lookup_app_r by lia. rewrite Nat.sub_diag. reflexivity. }
  assert (Hsecond : (toasts p3 ++ [newToast m2 t2])%list !! S n = Some (newToast m2 t2)).
  { rewrite <- Hlen. rewrite lookup_app_r by lia. rewrite Nat.sub_diag. reflexivity. }
  split; [|split; [|split; [|split]]].
  - split; [exact C3|]. split; [exact A3|].
    unfold opacityOf. rewrite T3, !list_lookup_alter_eq, Hfirst. reflexivity.
  - split; [exact A4|]. rewrite T4, length_app, Hlen. simpl. lia.
  - split; [rewrite C5; lia|].
    unfold opacityOf. rewrite T5, list_lookup_alter_eq, Hsecond. reflexivity.
  - split; [rewrite C6; lia|]. split; [exact A6|].
    unfold opacityOf. rewrite T6, list_lookup_alter_eq, Hsecond. reflexivity.
  - split; [rewrite C8; lia|]. split; [exact A8|exact M8].
Qed.

End WithHost.

Import Browser.

(** Two notifications on the form page of the browser. *)
Lemma later_notification_outlives_the_earlier_witness :
  let p3 := exec fire_next
              (exec fire_next (exec (showNotification "first" "info") formPage)) in
  let p6 := exec fire_next
              (exec fire_next (exec (showNotification "second" "success") p3)) in
  clock p6 = 3300%Z /\ attached p6 = Some 1%nat
  /\ opacityOf (toasts p6) 1 = Some "1".
Proof.
  destruct (later_notification_outlives_the_earlier
              "first" "info" "second" "success" formPage) as (_ & _ & _ & E & _).
  - reflexivity.
  - exact E.
Defined.

End OnForm.

End NotificationProperties.

(** ** The counter animations *)
Module CounterProperties.
Import JSNumber Json Eff Dom EventLoop EffFacts NumberFacts.
Import DashboardFacts DashboardFrames DashboardRuns DashboardRefresh DashboardValues.
Local Open Scope string_scope.
Local Open Scope Z_scope.
Local Open Scope eff_scope.

(** *** Arithmetic on integers that are binary64 values *)

Lemma eqb_int a b : eqb (Fin (inject_Z a)) (Fin (inject_Z b)) = (a =? b).
Proof.
  cbn [eqb]. destruct (Z.eqb_spec a b) as [->|Hne].
  - apply Qeq_bool_iff. reflexivity.
  - destruct (Qeq_bool (inject_Z a) (inject_Z b)) eqn:E; [|reflexivity].
    apply Qeq_bool_iff in E. unfold Qeq in E. simpl in E. lia.
Qed.

Lemma add_int a b :
  Z.abs (a + b) < 2 ^ 53 ->
  add (Fin (inject_Z a)) (Fin (inject_Z b)) = Fin (inject_Z (a + b)).
Proof.
  intros Hab. cbn [add]. apply round64_int; [exact Hab|].
  rewrite inject_Z_plus. reflexivity.
Qed.

(** [Math.ceil] of a rounded quotient of integers. *)
Lemma ceil_div d b :
  Z.abs d < 2 ^ 53 -> 0 < b -> b <= 2 ^ 1022 ->
  ceil (div (Fin (inject_Z d)) (Fin (inject_Z b))) = Fin (inject_Z (- (- d / b))).
Proof.
  intros Hd Hb Hb'. cbn [div]. unfold is_zero. cbn [inject_Z Qnum].
  destruct (Z.eqb_spec b 0) as [?|_]; [lia|].
  fold (inject_Z d) (inject_Z b).
  assert (HB : ~ (inject_Z b == 0)%Q).
  { unfold Qeq. simpl. lia. }
  destruct (floor_quotient d b (inject_Z d / inject_Z b) Hd Hb Hb') as (r & Hr & _);
    [reflexivity|].
  destruct (floor_quotient (- d) b (- (inject_Z d / inject_Z b))) as (r' & Hr' & Hf');
    [lia|exact Hb|exact Hb'|rewrite inject_Z_opp; field; exact HB|].
  rewrite round64_opp, Hr in Hr'. cbn [neg] in Hr'. injection Hr' as Er.
  rewrite Hr. cbn [ceil]. do 2 f_equal. unfold Qceiling. f_equal.
  rewrite <- Hf', <- Er. apply Qfloor_comp. symmetry. apply Qred_correct.
Qed.

(** *** The counter of the dashboard *)
Module DashboardCounter.
Import Dashboard.

(** The interval of a counter that shows [current], moves by
    [increment] and is to reach [goal], all of them integers. *)
Definition tick (element : string) (current increment goal : Z) : action :=
  CounterTick element (Fin (inject_Z current)) (Fin (inject_Z increment))
    (JNum (Fin (inject_Z goal))).

(** Whether the callback finds the counter at its goal, or past it. *)
Definition arrived (increment goal current : Z) : bool :=
  (0 <? increment) && (goal <=? current) || (increment <? 0) && (current <=? goal).

(** What a counter is made of: its text, the time, the pending timers. *)
Definition view (element : string) (q : page) : option string * Z * list timer :=
  (textOf element q, clock q, timers q).

Section WithHost.
Context `{Host}.

(** One turn of the event loop when the interval of a counter is the
    one timer that is pending. *)
Lemma counter_turn element current increment goal d q :
  timers q = [{| due := d; act := tick element current increment goal |}] ->
  is_Some (elements q !! element) ->
  Z.abs (current + increment) < 2 ^ 53 ->
  let q' := exec fire_next q in
  is_Some (elements q' !! element)
  /\ view element q'
     = if arrived increment goal (current + increment)
       then (Some (toLocaleString (Fin (inject_Z goal))), Z.max (clock q) d, [])
       else (Some (toLocaleString (Fin (inject_Z (current + increment)))),
             Z.max (clock q) d,
             [{| due := d + 50;
                 act := tick element (current + increment) increment goal |}]).
Proof.
  intros Ht He Hb q'. subst q'. unfold exec, fire_next. rewrite bind_run. cbn [get].
  rewrite Ht. cbn [earliest]. rewrite !bind_run. cbn [modify].
  unfold run, tick. cbn [act due toNumber localeString].
  rewrite add_int by exact Hb. unfold gtb, geb, leb.
  change (Fin 0) with (Fin (inject_Z 0)). rewrite !ltb_int, !eqb_int.
  assert (Ea : (0 <? increment)
                 && ((goal <? current + increment) || (current + increment =? goal))
               || (increment <? 0)
                  && ((current + increment <? goal) || (current + increment =? goal))
               = arrived increment goal (current + increment)).
  { unfold arrived.
    destruct (Z.ltb_spec 0 increment), (Z.ltb_spec increment 0),
      (Z.ltb_spec goal (current + increment)),
      (Z.ltb_spec (current + increment) goal),
      (Z.eqb_spec (current + increment) goal),
      (Z.leb_spec goal (current + increment)),
      (Z.leb_spec (current + increment) goal); simpl; try reflexivity; lia. }
  rewrite Ea. unfold view, textOf.
  destruct (arrived increment goal (current + increment)).
  - split.
    + simpl. apply lookup_alter_is_Some, He.
    + simpl. rewrite text_shown by exact He. reflexivity.
  - split.
    + simpl. apply lookup_alter_is_Some, He.
    + simpl. rewrite text_shown by exact He. reflexivity.
Qed.

(** The page after [k] turns of the event loop. *)
Definition turns (k : nat) (q : page) : page := after (repeat Tick k) q.

Lemma turns_S k q : turns (S k) q = turns k (exec fire_next q).
Proof. reflexivity. Qed.

(** The interval runs until the counter is at its goal: [k] turns that
    do not find it there, and one that does. *)
Lemma counter_runs element increment goal :
  forall (k : nat) current d q,
    timers q = [{| due := d; act := tick element current increment goal |}] ->
    is_Some (elements q !! element) ->
    (forall j, 1 <= j <= Z.of_nat k ->
       arrived increment goal (current + j * increment) = false) ->
    arrived increment goal (current + (Z.of_nat k + 1) * increment) = true ->
    (forall j, 1 <= j <= Z.of_nat k + 1 -> Z.abs (current + j * increment) < 2 ^ 53) ->
    view element (turns (S k) q)
    = (Some (toLocaleString (Fin (inject_Z goal))),
       Z.max (clock q) (d + 50 * Z.of_nat k), []).
Proof.
  induction k as [|k IH]; intros current d q Ht He Hnot Hlast Hb.
  - rewrite turns_S.
    destruct (counter_turn element current increment goal d q Ht He) as [_ V].
    { specialize (Hb 1 ltac:(lia)). rewrite Z.mul_1_l in Hb. exact Hb. }
    change (Z.of_nat 0 + 1) with 1 in Hlast. rewrite Z.mul_1_l in Hlast.
    rewrite Hlast in V. unfold turns. simpl. rewrite V.
    do 2 f_equal. lia.
  - rewrite turns_S.
    destruct (counter_turn element current increment goal d q Ht He) as [He1 V].
    { specialize (Hb 1 ltac:(lia)). rewrite Z.mul_1_l in Hb. exact Hb. }
    pose proof (Hnot 1 ltac:(lia)) as H1. rewrite Z.mul_1_l in H1.
    rewrite H1 in V. unfold view in V. injection V as _ Hc Hm.
    rewrite (IH (current + increment) (d + 50) (exec fire_next q) Hm He1).
    + rewrite Hc. do 2 f_equal. lia.
    + intros j Hj. replace (current + increment + j * increment)
        with (current + (j + 1) * increment) by ring.
      apply Hnot. lia.
    + replace (current + increment + (Z.of_nat k + 1) * increment)
        with (current + (Z.of_nat (S k) + 1) * increment) by lia.
      exact Hlast.
    + intros j Hj. replace (current + increment + j * increment)
        with (current + (j + 1) * increment) by ring.
      apply Hb. lia.
Qed.

(** The interval of a counter whose increment is zero never ends: it
    is pending after every turn, and the text is the one it started
    from. *)
Lemma counter_idles element current goal :
  Z.abs current < 2 ^ 53 ->
  forall (k : nat) d q,
    timers q = [{| due := d; act := tick element current 0 goal |}] ->
    is_Some (elements q !! element) ->
    timers (turns k q)
    = [{| due := d + 50 * Z.of_nat k; act := tick element current 0 goal |}]
    /\ ((0 < k)%nat ->
        textOf element (turns k q) = Some (toLocaleString (Fin (inject_Z current)))).
Proof.
  intros Hb. induction k as [|k IH]; intros d q Ht He.
  - split; [|lia]. unfold turns. simpl. rewrite Ht. do 2 f_equal. lia.
  - rewrite turns_S.
    destruct (counter_turn element current 0 goal d q Ht He) as [He1 V].
    { rewrite Z.add_0_r. exact Hb. }
    rewrite Z.add_0_r in V. change (arrived 0 goal current) with false in V.
    unfold view in V. injection V as Hx Hc Hm.
    destruct (IH (d + 50) (exec fire_next q) Hm He1) as [Hm' Hx'].
    split.
    + rewrite Hm'. do 2 f_equal. lia.
    + intros _. destruct k as [|k]; [exact Hx|]. apply Hx'. lia.
Qed.

(** The increment [animateCounter] computes, one twentieth of the
    distance rounded up, and the number of turns it takes. *)
Definition stride (current goal : Z) : Z := - ((current - goal) / 20).
Definition paces (current goal : Z) : Z := - ((current - goal) / stride current goal).

Lemma stride_bounds c g :
  let i := stride c g in
  g - c <= 20 * i < g - c + 20.
Proof.
  unfold stride. pose proof (Z.div_mod (c - g) 20 ltac:(lia)).
  pose proof (Z.mod_pos_bound (c - g) 20 ltac:(lia)). cbv zeta. lia.
Qed.

Lemma paces_rising c g :
  c < g ->
  let i := stride c g in let k := paces c g in
  0 < i /\ 1 <= k <= 20 /\ (k - 1) * i < g - c <= k * i.
Proof.
  intros Hcg i k. pose proof (stride_bounds c g) as Hi. fold i in Hi. cbv zeta in Hi.
  assert (Hpos : 0 < i) by lia.
  unfold paces in k. fold i in k.
  pose proof (Z.div_mod (c - g) i ltac:(lia)) as Hd.
  pose proof (Z.mod_pos_bound (c - g) i Hpos) as Hm.
  assert (Hk : i * k = g - c + (c - g) mod i) by (unfold k; lia).
  split; [exact Hpos|]. split; [|nia]. split; nia.
Qed.

Lemma paces_falling c g :
  g <= c - 20 ->
  let i := stride c g in let k := paces c g in
  i < 0 /\ 1 <= k <= 39 /\ k * i <= g - c < (k - 1) * i.
Proof.
  intros Hcg i k. pose proof (stride_bounds c g) as Hi. fold i in Hi. cbv zeta in Hi.
  assert (Hneg : i < 0) by lia.
  unfold paces in k. fold i in k.
  pose proof (Z.div_mod (c - g) i ltac:(lia)) as Hd.
  pose proof (Z.mod_neg_bound (c - g) i Hneg) as Hm.
  assert (Hk : i * k = g - c + (c - g) mod i) by (unfold k; lia).
  split; [exact Hneg|]. split; [|nia]. split; [nia|].
  destruct (Z.eq_dec i (-1)) as [E|E]; [rewrite E in *; lia|nia].
Qed.

(** The number the animation starts from: the one the text of the
    element spells, commas aside, or [0] when it spells none. *)
Definition startOf (e : element) : number :=
  let parsed := JSString.parseInt (JSString.removeCommas (getp "textContent" e)) in
  if JSNumber.truthy parsed then parsed else Fin 0.

(** The interval [animateCounter] starts, on an element that shows the
    integer [c]. *)
Lemma animateCounter_starts element e c g q :
  elements q !! element = Some e ->
  startOf e = Fin (inject_Z c) ->
  Z.abs (g - c) < 2 ^ 53 ->
  exec (animateCounter element (JNum (Fin (inject_Z g)))) q
  = with_timers
      (fun ts => (ts ++ [{| due := clock q + 50;
                            act := tick element c (stride c g) g |}])%list) q.
Proof.
  intros He Hp Hb. unfold exec, animateCounter. rewrite bind_run. cbn [get].
  rewrite He. unfold startOf in Hp. cbv zeta in Hp |- *. rewrite Hp. cbn [toNumber].
  rewrite sub_int, (round64_int _ (g - c)) by (exact Hb || reflexivity).
  change (Fin 20) with (Fin (inject_Z 20)).
  rewrite ceil_div by (exact Hb || lia || (apply Z.leb_le; reflexivity)).
  replace (- (g - c)) with (c - g) by ring. reflexivity.
Qed.

(** X13.  The counter animation of the dashboard, on an element that
    shows the integer [c], towards an integer [g] that is above [c]
    or at least 20 below it, with no other timer pending.  The increment
    is a twentieth of the distance, rounded up; the interval fires every
    50 milliseconds and ends after [paces c g] turns, at most 20 going up
    and at most 39 going down; the element then shows [g] as the host
    prints it, and no timer is left. *)
Theorem counter_reaches_its_goal element e c g q :
  timers q = [] -> elements q !! element = Some e ->
  startOf e = Fin (inject_Z c) ->
  Z.abs c < 2 ^ 51 -> Z.abs g < 2 ^ 51 ->
  c < g \/ g <= c - 20 ->
  let k := paces c g in
  let q' := turns (Z.to_nat k)
              (exec (animateCounter element (JNum (Fin (inject_Z g)))) q) in
  1 <= k <= 39 /\ (c < g -> k <= 20)
  /\ timers q' = []
  /\ textOf element q' = Some (toLocaleString (Fin (inject_Z g)))
  /\ clock q' = clock q + 50 * k.
Proof.
  intros Ht He Hp Hc Hg Hdir k q'.
  assert (H51 : 2 ^ 51 + 2 ^ 51 + 2 ^ 51 < 2 ^ 53) by reflexivity.
  assert (Hfacts : 1 <= k <= 39 /\ (c < g -> k <= 20)
                   /\ (forall j, 1 <= j <= k - 1 ->
                         arrived (stride c g) g (c + j * stride c g) = false)
                   /\ arrived (stride c g) g (c + k * stride c g) = true
                   /\ (forall j, 1 <= j <= k -> Z.abs (c + j * stride c g) < 2 ^ 53)).
  { pose proof (stride_bounds c g) as Hs. cbv zeta in Hs. unfold arrived.
    destruct Hdir as [Hup|Hdown].
    - destruct (paces_rising c g Hup) as (Hi & Hk & Hlo & Hhi). fold k in Hk, Hlo, Hhi.
      split; [lia|]. split; [lia|]. split; [|split].
      + intros j Hj. destruct (Z.ltb_spec 0 (stride c g)); [|lia].
        destruct (Z.ltb_spec (stride c g) 0); [lia|].
        destruct (Z.leb_spec g (c + j * stride c g)); [nia|reflexivity].
      + destruct (Z.ltb_spec 0 (stride c g)); [|lia].
        destruct (Z.leb_spec g (c + k * stride c g)); [reflexivity|nia].
      + intros j Hj. assert (c <= c + j * stride c g <= g + stride c g) by nia. lia.
    - destruct (paces_falling c g Hdown) as (Hi & Hk & Hlo & Hhi). fold k in Hk, Hlo, Hhi.
      split; [lia|]. split; [lia|]. split; [|split].
      + intros j Hj. destruct (Z.ltb_spec 0 (stride c g)); [lia|].
        destruct (Z.ltb_spec (stride c g) 0); [|lia].
        destruct (Z.leb_spec (c + j * stride c g) g); [nia|reflexivity].
      + destruct (Z.ltb_spec 0 (stride c g)); [lia|].
        destruct (Z.ltb_spec (stride c g) 0); [|lia].
        destruct (Z.leb_spec (c + k * stride c g) g); [reflexivity|nia].
      + intros j Hj. assert (g + stride c g <= c + j * stride c g <= c) by nia. lia. }
  destruct Hfacts as (Hk & Hup & Hnot & Hlast & Hb).
  split; [exact Hk|]. split; [exact Hup|].
  subst q'. rewrite (animateCounter_starts element e c g q He Hp) by lia.
  set (q0 := with_timers _ q).
  assert (Ek : Z.to_nat k = S (Z.to_nat (k - 1))) by lia.
  rewrite Ek.
  pose proof (counter_runs element (stride c g) g (Z.to_nat (k - 1)) c (clock q + 50) q0)
    as V.
  rewrite Z2Nat.id in V by lia.
  replace (k - 1 + 1) with k in V by ring.
  specialize (V ltac:(unfold q0; simpl; rewrite Ht; reflexivity)
                ltac:(unfold q0; simpl; eauto) Hnot Hlast Hb).
  unfold view in V. injection V as Vx Vc Vm.
  split; [exact Vm|]. split; [exact Vx|]. rewrite Vc. unfold q0. simpl. lia.
Qed.

(** X14.  When the goal is what the element shows already, or less
    than 20 below it, the increment is zero and the interval never ends:
    after any number of turns it is pending, and the element shows what
    it showed, not the goal.  [updateStats] writes the goal to the element
    before it starts the animation, so that this is the case of every
    refresh on a host whose printing of the number parses back to it. *)
Theorem counter_never_ends_near_its_goal element e c g q :
  timers q = [] -> elements q !! element = Some e ->
  startOf e = Fin (inject_Z c) ->
  Z.abs c < 2 ^ 51 -> Z.abs g < 2 ^ 51 ->
  c - 20 < g <= c ->
  forall n : nat,
    let q' := turns n (exec (animateCounter element (JNum (Fin (inject_Z g)))) q) in
    timers q'
    = [{| due := clock q + 50 + 50 * Z.of_nat n; act := tick element c 0 g |}]
    /\ ((0 < n)%nat -> textOf element q' = Some (toLocaleString (Fin (inject_Z c)))).
Proof.
  intros Ht He Hp Hc Hg Hnear n q'.
  assert (H51 : 2 ^ 51 + 2 ^ 51 < 2 ^ 53) by reflexivity.
  assert (Hs : stride c g = 0).
  { pose proof (stride_bounds c g) as Hs. cbv zeta in Hs. lia. }
  subst q'. rewrite (animateCounter_starts element e c g q He Hp) by lia.
  rewrite Hs. set (q0 := with_timers _ q).
  apply (counter_idles element c g ltac:(lia) n (clock q + 50) q0).
  - unfold q0. simpl. rewrite Ht. reflexivity.
  - unfold q0. simpl. eauto.
Qed.

End WithHost.

Import Browser.

(** The page of the browser with a total of 1,200 on show. *)
Definition countingPage : page :=
  with_elements <["totalPredictions" := labelled "1,200"]> dashboardPage.

(** From 1,200 to 1,247 by steps of 3: sixteen turns, 800 milliseconds. *)
Lemma counter_reaches_its_goal_witness :
  let q' := turns 16
              (exec (animateCounter "totalPredictions" (JNum (Fin (inject_Z 1247))))
                 countingPage) in
  timers q' = [] /\ textOf "totalPredictions" q' = Some "1,247"
  /\ clock q' = 1704110400800.
Proof.
  destruct (counter_reaches_its_goal "totalPredictions" (labelled "1,200") 1200 1247
              countingPage) as (_ & _ & Hm & Hx & Hc).
  - reflexivity.
  - reflexivity.
  - vm_compute. reflexivity.
  - reflexivity.
  - reflexivity.
  - left. lia.
  - split; [exact Hm|]. split; [exact Hx|exact Hc].
Defined.

(** From 1,200 to 1,190: the interval is pending after three turns, and
    the element shows 1,200. *)
Lemma counter_never_ends_near_its_goal_witness :
  let q' := turns 3
              (exec (animateCounter "totalPredictions" (JNum (Fin (inject_Z 1190))))
                 countingPage) in
  timers q' = [{| due := 1704110400200; act := tick "totalPredictions" 1200 0 1190 |}]
  /\ textOf "totalPredictions" q' = Some "1,200".
Proof.
  destruct (counter_never_ends_near_its_goal "totalPredictions" (labelled "1,200")
              1200 1190 countingPage) with (n := 3%nat) as (Hm & Hx).
  - reflexivity.
  - reflexivity.
  - vm_compute. reflexivity.
  - reflexivity.
  - reflexivity.
  - lia.
  - split; [exact Hm|]. apply Hx. lia.
Defined.

End DashboardCounter.

End CounterProperties.

(** ** The form page *)
Module FormProperties.
Import JSNumber JSString Json Eff Dom EventLoop Script EffFacts StringFacts.
Import ValidationSpec ScriptFacts.
Local Open Scope string_scope.
Local Open Scope eff_scope.

(** *** What a valid form holds *)

(** A number of the interval [[lo, hi]]. *)
Definition within (lo hi : Q) (x : number) : Prop :=
  exists q, x = Fin q /\ (lo <= q <= hi)%Q.

(** The field is there, is not blank, and parses to a number of the
    interval. *)
Definition filled (data : formData) (name : string) (lo hi : Q) : Prop :=
  exists v,
    field data name = Some v /\ blankString v = false /\ within lo hi (parseFloat v).

Lemma filter_nil_iff {A} (f : A -> bool) (l : list A) :
  List.filter f l = [] <-> forall a, In a l -> f a = false.
Proof.
  induction l as [|a l IH]; simpl.
  - split; [intros _ ? []|reflexivity].
  - destruct (f a) eqn:E.
    + split; [discriminate|]. intros Hall. rewrite Hall in E by (left; reflexivity).
      discriminate.
    + rewrite IH. split.
      * intros Hall b [<-|Hb]; [exact E|apply Hall, Hb].
      * intros Hall b Hb. apply Hall. right. exact Hb.
Qed.

Lemma not_outside_within lo hi x :
  isNaN x = false ->
  ltb x (Fin lo) || gtb x (Fin hi) = false <-> within lo hi x.
Proof.
  intros Hn. unfold within, gtb. destruct x as [|[]|q]; try discriminate Hn.
  - cbn. split; [discriminate|]. intros (q & E & _). discriminate.
  - cbn. split; [discriminate|]. intros (q & E & _). discriminate.
  - rewrite orb_false_iff. split.
    + intros [H1 H2]. exists q. split; [reflexivity|]. split.
      * apply Qnot_lt_le. intros Hc. apply ltb_Fin in Hc. congruence.
      * apply Qnot_lt_le. intros Hc. apply ltb_Fin in Hc. congruence.
    + intros (q' & [= <-] & Hlo & Hhi). split.
      * destruct (ltb (Fin q) (Fin lo)) eqn:E; [|reflexivity].
        apply ltb_Fin in E. lra.
      * destruct (ltb (Fin hi) (Fin q)) eqn:E; [|reflexivity].
        apply ltb_Fin in E. lra.
Qed.

(** X15.  [validateFormData] accepts a form exactly when Glucose, BMI
    and Age are there, are not blank and parse to numbers of [[0, 300]],
    [[10, 70]] and [[1, 120]], and the value of every field of the form,
    whatever its name, parses to a number.  So a form that is accepted
    holds no value that [parseFloat] turns into [NaN] and none of the
    three that it turns into an infinity. *)
Theorem valid_form_iff data :
  valid (validateFormData data) = true
  <-> filled data "Glucose" 0 300 /\ filled data "BMI" 10 70 /\ filled data "Age" 1 120
      /\ forall key v, field data key = Some v -> isNaN (parseFloat v) = false.
Proof.
  assert (Hv : valid (validateFormData data) = true <-> reasons data = []).
  { unfold validateFormData. rewrite errors_reasons.
    destruct (reasons data); simpl; split; congruence. }
  rewrite Hv. unfold reasons.
  assert (Hnum : List.filter (notANumber data) (keys data) = []
                 <-> forall key v, field data key = Some v -> isNaN (parseFloat v) = false).
  { rewrite filter_nil_iff. split.
    - intros Hall key v Hf. specialize (Hall key). unfold notANumber in Hall.
      rewrite Hf in Hall. apply Hall. apply field_keys. eauto.
    - intros Hall key Hk. apply field_keys in Hk as [v Hf].
      unfold notANumber. rewrite Hf. eapply Hall, Hf. }
  assert (Hfill : forall name lo hi,
            (forall key v, field data key = Some v -> isNaN (parseFloat v) = false) ->
            absentOrBlank data name = false /\ outside (Fin lo) (Fin hi) data name = false
            <-> filled data name lo hi).
  { intros name lo hi Hall. unfold absentOrBlank, outside, filled.
    destruct (field data name) as [v|] eqn:Ef.
    - rewrite (not_outside_within lo hi) by (eapply Hall, Ef). split.
      + intros [Hb Hw]. exists v. auto.
      + intros (v' & [= <-] & Hb & Hw). auto.
    - split; [intros [? _]; discriminate|intros (v & ? & _); discriminate]. }
  split.
  - intros E. apply app_eq_nil in E as [Ereq E]. apply app_eq_nil in E as [Enum E].
    apply app_eq_nil in E as [Eg E]. apply app_eq_nil in E as [Eb Ea].
    apply map_eq_nil in Ereq, Enum.
    pose proof (proj1 Hnum Enum) as Hall.
    pose proof (proj1 (filter_nil_iff _ _) Ereq) as Hreq. simpl in Hreq.
    split; [|split; [|split; [|exact Hall]]]; apply Hfill; try exact Hall.
    + split; [apply Hreq; tauto|].
      destruct (outside (Fin 0) (Fin 300) data "Glucose"); [discriminate Eg|reflexivity].
    + split; [apply Hreq; tauto|].
      destruct (outside (Fin 10) (Fin 70) data "BMI"); [discriminate Eb|reflexivity].
    + split; [apply Hreq; tauto|].
      destruct (outside (Fin 1) (Fin 120) data "Age"); [discriminate Ea|reflexivity].
  - intros (Hg & Hb & Ha & Hall).
    apply (Hfill _ _ _ Hall) in Hg as [Hg1 Hg2].
    apply (Hfill _ _ _ Hall) in Hb as [Hb1 Hb2].
    apply (Hfill _ _ _ Hall) in Ha as [Ha1 Ha2].
    rewrite (proj2 Hnum Hall). simpl. rewrite Hg1, Hb1, Ha1.
    change (Fin 0) with (Fin (0 : Q)) in Hg2.
    rewrite Hg2, Hb2, Ha2. reflexivity.
Qed.

(** *** Submission of a form that is not valid *)

Section WithHost.
Context `{Host}.

(** X16.  A form that does not pass validation is not sent: the handler
    makes no request and does not touch the buttons or the elements of the
    page; all it does is raise one error notification, whose text is the
    reasons of the validation, all of them, joined by commas. *)
Theorem invalid_form_is_not_sent data r p :
  valid (validateFormData data) = false ->
  let p' := exec (handleFormSubmit data r) p in
  outcome (handleFormSubmit data r) p = Ok tt
  /\ calls p' = (calls p ++ [Notify (join ", " (errors data)) "error"])%list
  /\ buttons p' = buttons p /\ elements p' = elements p.
Proof.
  intros Hv p'. subst p'. unfold outcome, exec, handleFormSubmit. rewrite Hv. cbn [negb].
  assert (Em : message (validateFormData data) = Some (join ", " (errors data))).
  { unfold validateFormData in Hv |- *. destruct (errors data); [discriminate Hv|reflexivity]. }
  rewrite Em. cbn [default]. repeat split.
Qed.

End WithHost.


(** *** Rendering a result *)

(** The part [part] of every element is as it was. *)
Definition keepsPart {X} (part : element -> X) (p p' : page) : Prop :=
  forall id, part <$> elements p' !! id = part <$> elements p !! id.

Lemma keepsPart_refl {X} (part : element -> X) p : keepsPart part p p.
Proof. intros id. reflexivity. Qed.

Lemma keepsPart_trans {X} (part : element -> X) a b c :
  keepsPart part a b -> keepsPart part b c -> keepsPart part a c.
Proof. intros H1 H2 id. rewrite H2. apply H1. Qed.

Lemma keepsPart_alter {X} (part : element -> X) f id p :
  (forall e, part (f e) = part e) ->
  keepsPart part p (with_elements (alter f id) p).
Proof.
  intros Hf j. simpl. rewrite lookup_alter.
  destruct (decide (id = j)) as [->|_]; [|reflexivity].
  destruct (elements p !! j) as [e|]; simpl; [rewrite Hf|]; reflexivity.
Qed.

(** [Q] relates the state a computation starts in to every state it
    returns in. *)
Definition reaches {A} (Q : page -> page -> Prop) (m : M page A) : Prop :=
  forall s a s', m s = (Ok a, s') -> Q s s'.

Lemma reaches_after {A B} (R Q : page -> page -> Prop) (m : M page A) (k : A -> M page B) :
  (forall a b c, R a b -> Q b c -> Q a c) ->
  respects R m -> (forall a, reaches Q (k a)) -> reaches Q (bind m k).
Proof.
  intros Hc Hm Hk s b s' E. apply bind_ok_inv in E as (a & s1 & E1 & E2).
  specialize (Hm s). rewrite E1 in Hm. eapply Hc; [exact Hm|]. eapply Hk, E2.
Qed.

Ltac part_step part :=
  lazymatch goal with
  | |- respects _ (bind _ _) =>
      apply (respects_bind (keepsPart part) (keepsPart_trans part)); [|intros ?]
  | |- respects _ (ret _) => apply (respects_ret (keepsPart part) (keepsPart_refl part))
  | |- respects _ (throw _) => apply (respects_throw (keepsPart part) (keepsPart_refl part))
  | |- respects _ (lift _) => apply (respects_lift (keepsPart part) (keepsPart_refl part))
  | |- respects _ get => apply (respects_get (keepsPart part) (keepsPart_refl part))
  | |- respects _ (when _ _) => apply (respects_when (keepsPart part) (keepsPart_refl part))
  | |- respects _ (forEach _ _) =>
      apply (respects_forEach (keepsPart part) (keepsPart_refl part) (keepsPart_trans part));
      intros ?
  | |- respects _ (modify (with_elements (alter _ _))) =>
      apply respects_modify; intros ?; apply keepsPart_alter; intros ?; reflexivity
  | |- respects _ (modify _) => apply respects_modify; intros ? ?; reflexivity
  | |- respects _ (setTimeout _ _) => unfold setTimeout
  | |- respects _ (present _) => unfold present
  | |- respects _ (assign _ _ _) => unfold assign
  | |- respects _ (if ?b then _ else _) => destruct b
  | |- respects _ (match ?x with _ => _ end) => destruct x
  end.

Lemma present_runs id p :
  present id p = (Ok (bool_decide (is_Some (elements p !! id))), p).
Proof. reflexivity. Qed.

(** The click listeners of the element under [id]. *)
Definition listeners (id : string) (p : page) : option (list listener) :=
  clicks <$> elements p !! id.

Section Rendering.
Context `{Host}.

(** X17.  Every result that is rendered adds a click listener of its
    own to the share button and one to the download button, after the
    ones that are there; none is removed.  So after a second prediction a
    click on the share button shares the first result as well. *)
Theorem every_result_adds_its_listeners result p p' :
  displayPredictionResult result p = (Ok tt, p') ->
  listeners "shareResult" p'
  = (fun l => l ++ [ShareClick result])%list <$> listeners "shareResult" p
  /\ listeners "downloadResult" p'
     = (fun l => l ++ [DownloadClick result])%list <$> listeners "downloadResult" p.
Proof.
  set (Q := fun s s' : page =>
         listeners "shareResult" s'
         = (fun l => l ++ [ShareClick result])%list <$> listeners "shareResult" s
         /\ listeners "downloadResult" s'
            = (fun l => l ++ [DownloadClick result])%list <$> listeners "downloadResult" s).
  assert (Hc : forall a b c, keepsPart clicks a b -> Q b c -> Q a c).
  { intros a b c Hab [H1 H2]. unfold Q, listeners in *. rewrite H1, H2, !Hab. auto. }
  assert (Hr : reaches Q (displayPredictionResult result)).
  { unfold displayPredictionResult.
    repeat (apply (reaches_after (keepsPart clicks) Q _ _ Hc);
            [solve [repeat part_step (@clicks)]|intros ?]).
    intros s0 r0 s1 E. unfold setupResultActions, listen in E.
    rewrite !bind_run in E. cbn [modify] in E. rewrite bind_run, present_runs in E.
    destruct (bool_decide _) in E; [|discriminate E].
    apply pair_equal_spec in E as [_ <-]. unfold Q, listeners. simpl.
    rewrite lookup_alter_ne, !lookup_alter_eq by discriminate.
    rewrite lookup_alter_ne by discriminate.
    split.
    - destruct (elements s0 !! "shareResult"); reflexivity.
    - destruct (elements s0 !! "downloadResult"); reflexivity. }
  intros E. exact (Hr p tt p' E).
Qed.

(** The lines of the list of advice. *)
Definition adviceLines (p : page) : option (list string) :=
  items <$> elements p !! "adviceList".

Lemma reaches_present {B} (Q : page -> page -> Prop) id (k : bool -> M page B) :
  (forall s b s',
     k (bool_decide (is_Some (elements s !! id))) s = (Ok b, s') -> Q s s') ->
  reaches Q (bind (present id) k).
Proof. intros Hk s b s' E. rewrite bind_run, present_runs in E. eapply Hk, E. Qed.

(** The loop that appends the lines of the advice. *)
Lemma forEach_appends (lines : list json) :
  forall s,
    exists s',
      forEach lines (fun line =>
        modify (with_elements
          (alter (fun e => set_items (items e ++ [domString line])%list e) "adviceList"))) s
      = (Ok tt, s')
      /\ adviceLines s' = (fun l => l ++ map domString lines)%list <$> adviceLines s.
Proof.
  induction lines as [|line lines IH]; intros s.
  - exists s. split; [reflexivity|]. unfold adviceLines.
    destruct (elements s !! "adviceList"); simpl; [rewrite app_nil_r|]; reflexivity.
  - cbn [forEach]. rewrite bind_run. cbn [modify].
    destruct (IH (with_elements
                    (alter (fun e => set_items (items e ++ [domString line])%list e)
                       "adviceList") s)) as (s' & E & Hl).
    exists s'. split; [exact E|]. rewrite Hl. unfold adviceLines. simpl.
    rewrite lookup_alter_eq. destruct (elements s !! "adviceList"); simpl; [|reflexivity].
    rewrite <- app_assoc. reflexivity.
Qed.

(** X18.  The list of advice after a result is rendered, on a page
    that has the list.  When the advice of the result is an array, the
    list holds its lines and nothing of what it held.  When the result
    carries no advice, or one that is falsy, the list is left as it is:
    the advice of the result before stays on the page.  An advice that is
    truthy and not an array is not rendered at all: the function throws. *)
Theorem advice_list_follows_the_result result advice p p' :
  displayPredictionResult result p = (Ok tt, p') ->
  is_Some (elements p !! "adviceList") ->
  prop result "health_advice" = Ok advice ->
  adviceLines p'
  = match advice with
    | JArr lines => Some (map domString lines)
    | _ => adviceLines p
    end
  /\ (truthy advice = true -> exists lines, advice = JArr lines).
Proof.
  intros E Hthere Hadv.
  set (Q := fun s s' : page =>
         is_Some (elements s !! "adviceList") ->
         adviceLines s'
         = match advice with
           | JArr lines => Some (map domString lines)
           | _ => adviceLines s
           end
         /\ (truthy advice = true -> exists lines, advice = JArr lines)).
  assert (Hc : forall a b c, keepsPart items a b -> Q b c -> Q a c).
  { intros a b c Hab Hbc Ha. unfold Q, adviceLines in *.
    pose proof (Hab "adviceList") as Hi.
    destruct Hbc as [H1 H2].
    - destruct (elements b !! "adviceList"); [eauto|].
      destruct Ha as [e He]. rewrite He in Hi. discriminate Hi.
    - split; [|exact H2]. rewrite H1, Hi. reflexivity. }
  assert (Hr : reaches Q (displayPredictionResult result)).
  { unfold displayPredictionResult.
    do 16 (apply (reaches_after (keepsPart items) Q _ _ Hc);
           [solve [repeat part_step (@items)]|intros ?]).
    apply reaches_present. intros s0 r0 s1 E0 H0.
    rewrite bool_decide_eq_true_2 in E0 by exact H0. cbn [when] in E0.
    apply bind_ok_inv in E0 as ([] & s2 & E1 & E2).
    assert (Hrest : adviceLines s1 = adviceLines s2).
    { lazymatch type of E2 with
      | ?m s2 = _ =>
          assert (R : respects (keepsPart items) m)
            by (unfold setupResultActions, listen; repeat part_step (@items));
          specialize (R s2); rewrite E2 in R; apply R
      end. }
    rewrite Hrest. rewrite Hadv in E1. rewrite bind_run in E1. cbn [lift] in E1.
    destruct (truthy advice) eqn:Ht; cbn [when] in E1.
    - rewrite bind_run in E1. cbn [modify] in E1.
      destruct advice as [| | | | |lines|]; try discriminate E1.
      destruct (forEach_appends lines
                  (with_elements (alter (set_items []) "adviceList") s0))
        as (s' & E' & Hl).
      rewrite E' in E1. apply pair_equal_spec in E1 as [_ <-].
      split; [|eauto]. rewrite Hl. unfold adviceLines. simpl.
      rewrite lookup_alter_eq. destruct H0 as [e ->]. reflexivity.
    - apply pair_equal_spec in E1 as [_ <-].
      split; [|discriminate]. destruct advice; try reflexivity. discriminate Ht. }
  exact (Hr p tt p' E Hthere).
Qed.

End Rendering.

Import Browser.

(** A form with no glucose and an age that is out of range. *)
Lemma invalid_form_is_not_sent_witness :
  let p' := exec (handleFormSubmit [("BMI", "22"); ("Age", "200")] FetchRejected)
              formPage in
  calls p'
  = [Notify "Glucose is required, Age must be between 1 and 120 years" "error"]
  /\ buttons p' = buttons formPage.
Proof.
  destruct (invalid_form_is_not_sent [("BMI", "22"); ("Age", "200")] FetchRejected formPage)
    as (_ & Hc & Hb & _).
  - reflexivity.
  - split; [exact Hc|exact Hb].
Defined.


(** The documented response, rendered twice. *)
Lemma every_result_adds_its_listeners_witness :
  let p1 := exec (displayPredictionResult successResponse) formPage in
  let p2 := exec (displayPredictionResult successResponse) p1 in
  listeners "shareResult" p2
  = Some [ShareClick successResponse; ShareClick successResponse].
Proof.
  intros p1 p2.
  destruct (every_result_adds_its_listeners successResponse p1 p2) as [H2 _];
    [vm_compute; reflexivity|].
  destruct (every_result_adds_its_listeners successResponse formPage p1) as [H1 _];
    [vm_compute; reflexivity|].
  rewrite H2, H1. reflexivity.
Defined.

(** A response with no advice. *)
Definition bareResponse : json :=
  JObj [("status", JStr "success");
        ("prediction_label", JStr "Diabetic");
        ("risk_level", JStr "high");
        ("confidence", JObj [("diabetic", JNum (Fin 90)); ("non_diabetic", JNum (Fin 10))])].

(** The documented response, then one with no advice: the advice of the
    first stays. *)
Lemma advice_list_follows_the_result_witness :
  let p1 := exec (displayPredictionResult successResponse) formPage in
  let p2 := exec (displayPredictionResult bareResponse) p1 in
  adviceLines p2 = Some ["Maintain a balanced diet"; "Exercise regularly"].
Proof.
  intros p1 p2.
  destruct (advice_list_follows_the_result bareResponse JUndefined p1 p2) as [H2 _].
  - vm_compute. reflexivity.
  - vm_compute. eauto.
  - reflexivity.
  - rewrite H2.
    destruct (advice_list_follows_the_result successResponse
                (JArr [JStr "Maintain a balanced diet"; JStr "Exercise regularly"])
                formPage p1) as [H1 _].
    + vm_compute. reflexivity.
    + vm_compute. eauto.
    + reflexivity.
    + rewrite H1. reflexivity.
Defined.

End FormProperties.

(** ** Export of the dashboard data: [exportData] and [convertToCSV] *)
Module DataExport.
Import JSNumber Json Eff Dom EventLoop Dashboard.
Local Open Scope string_scope.
Local Open Scope eff_scope.

(** A file the script hands to the browser: the name it gives the
    download, the type of the blob and its text. *)
Record download := {
  filename : string;
  mimeType : string;
  content : string
}.

(** The dashboard, and the files downloaded so far. *)
Record state := {
  page : Dashboard.page;
  downloads : list download
}.

(** A function of the dashboard, run on the page of the state. *)
Definition onPage {A} (m : M Dashboard.page A) : M state A :=
  fun s =>
    let '(r, p) := m (page s) in
    (r, {| page := p; downloads := downloads s |}).

(** [s.split('T')[0]] *)
Fixpoint beforeT (s : string) : string :=
  match s with
  | EmptyString => EmptyString
  | String c rest => if Ascii.eqb c "T" then EmptyString else String c (beforeT rest)
  end.

(** [Object.entries(v)] *)
Definition objectEntries (v : json) : result (list (string * json)) :=
  match v with
  | JUndefined | JNull => Throw (TypeError "Cannot convert undefined or null to object")
  | JObj fields => Ok (ownProperties fields)
  | JArr items =>
      Ok (combine (map (fun i => JSString.ofZ (Z.of_nat i)) (seq 0 (length items))) items)
  | JStr s =>
      Ok (combine (map (fun i => JSString.ofZ (Z.of_nat i)) (seq 0 (String.length s)))
            (map (fun c => JStr (String c EmptyString)) (list_ascii_of_string s)))
  | JBool _ | JNum _ => Ok []
  end.

(** [format === name], for the value of the [data-format] attribute,
    which is [null] when the button has none *)
Definition isFormat (format : option string) (name : string) : bool :=
  match format with
  | Some f => String.eqb f name
  | None => false
  end.

Section WithHost.
Context `{Host}.

(** [JSON.stringify(v, null, 2)], which the host provides. *)
Variable stringify : json -> string.

(** The rows of one section: [`${key},${value}`] for each entry. *)
Definition rowsOf (entries : list (string * json)) : list string :=
  map (fun kv => fst kv ++ "," ++ toString (snd kv)) entries.

Definition convertToCSV (data : json) : result string :=
  (* Overview *)
  match prop data "overview" with
  | Throw e => Throw e
  | Ok overview =>
      match objectEntries overview with
      | Throw e => Throw e
      | Ok metrics =>
          match prop data "risk_distribution" with
          | Throw e => Throw e
          | Ok distribution =>
              match objectEntries distribution with
              | Throw e => Throw e
              | Ok levels =>
                  Ok (JSString.join nl
                        (["Overview"; "Metric,Value"] ++ rowsOf metrics
                         ++ [nl ++ "Risk Distribution"; "Risk Level,Count"]
                         ++ rowsOf levels))
              end
          end
      end
  end.

(** The download of a file: the link is created, clicked and removed. *)
Definition save (content mimeType filename : string) : M state unit :=
  modify (fun s =>
    {| page := page s;
       downloads := (downloads s
                     ++ [{| filename := filename; mimeType := mimeType;
                            content := content |}])%list |}).

(** [`${format.toUpperCase()} exported successfully!`] *)
Definition exported (format : option string) : M state unit :=
  upper <- lift (match format with
                 | Some f => Ok (toUpperCase f)
                 | None =>
                     Throw (TypeError "Cannot read properties of null (reading 'toUpperCase')")
                 end) ;;
  onPage (showNotification (upper ++ " exported successfully!") "success").

Definition exportData (format : option string) : M state unit :=
  s <- get ;;
  match dashboardData (page s) with
  | None => onPage (showNotification "No data available to export" "error")
  | Some data =>
      if negb (truthy data) then
        onPage (showNotification "No data available to export" "error")
      else if isFormat format "json" then
        today <- onPage now ;;
        save (stringify data) "application/json"
          ("diabetes-analytics-" ++ beforeT (toISOString today) ++ ".json") ;;
        exported format
      else if isFormat format "csv" then
        text <- lift (convertToCSV data) ;;
        today <- onPage now ;;
        save text "text/csv"
          ("diabetes-analytics-" ++ beforeT (toISOString today) ++ ".csv") ;;
        exported format
      else if isFormat format "pdf" then
        (* PDF would require a server endpoint *)
        onPage (showNotification "PDF export requires server implementation" "info")
      else if isFormat format "excel" then
        (* Excel would require a server endpoint or library *)
        onPage (showNotification "Excel export requires server implementation" "info")
      else
        (* no case of the switch: the three variables are undefined *)
        save "undefined" "" "undefined" ;;
        exported format
  end.

End WithHost.

End DataExport.

(** ** What an export does *)
Module ExportProperties.
Import JSNumber Json Eff Dom EventLoop Dashboard EffFacts.
Import DashboardRuns DashboardRefresh DataExport.
Local Open Scope string_scope.
Local Open Scope eff_scope.

(** The notifications raised on the page of a state. *)
Definition notices (s : state) : list (string * string) := raised (calls (page s)).

(** The data the page holds, if it holds any: [dashboardData], unless
    it is [null] or falsy. *)
Definition held (s : state) : option json :=
  match dashboardData (page s) with
  | Some data => if truthy data then Some data else None
  | None => None
  end.

(** Why an export is declined, if it is: there is no data, or the
    format is one the script has no export for. *)
Definition refusal (format : option string) (s : state) : option (string * string) :=
  match held s with
  | None => Some ("No data available to export", "error")
  | Some _ =>
      if isFormat format "json" || isFormat format "csv" then None
      else if isFormat format "pdf" then
        Some ("PDF export requires server implementation", "info")
      else if isFormat format "excel" then
        Some ("Excel export requires server implementation", "info")
      else None
  end.

Section WithHost.
Context `{Host}.
Variable stringify : json -> string.

(** A notification, raised from a state. *)
Lemma onPage_showNotification message type s :
  exists s',
    onPage (showNotification message type) s = (Ok tt, s')
    /\ downloads s' = downloads s
    /\ notices s' = (notices s ++ [(message, type)])%list
    /\ dashboardData (page s') = dashboardData (page s).
Proof.
  destruct (showNotification_raises message type (page s))
    as (p' & id & E & _ & Hd & Hr & _).
  eexists. unfold onPage. rewrite E. split; [reflexivity|]. simpl. auto.
Qed.

(** X19.  An export is declined with one notification, and nothing is
    downloaded, when the page holds no data, whatever the format, and when
    the format is [pdf] or [excel]: the notification says which.  Nothing
    is thrown. *)
Theorem export_declined format s note :
  refusal format s = Some note ->
  exists s',
    exportData stringify format s = (Ok tt, s')
    /\ downloads s' = downloads s
    /\ notices s' = (notices s ++ [note])%list.
Proof.
  unfold refusal, held, exportData. intros Hr. rewrite bind_run. cbn [get].
  destruct (dashboardData (page s)) as [data|].
  - destruct (truthy data); cbn [negb].
    + destruct (isFormat format "json"); [discriminate Hr|].
      destruct (isFormat format "csv"); [discriminate Hr|]. cbn [orb] in Hr.
      destruct (isFormat format "pdf").
      * injection Hr as <-.
        destruct (onPage_showNotification
                    "PDF export requires server implementation" "info" s)
          as (s' & E & Hd & Hn & _).
        exists s'. auto.
      * destruct (isFormat format "excel"); [|discriminate Hr].
        injection Hr as <-.
        destruct (onPage_showNotification
                    "Excel export requires server implementation" "info" s)
          as (s' & E & Hd & Hn & _).
        exists s'. auto.
    + injection Hr as <-.
      destruct (onPage_showNotification "No data available to export" "error" s)
        as (s' & E & Hd & Hn & _).
      exists s'. auto.
  - injection Hr as <-.
    destruct (onPage_showNotification "No data available to export" "error" s)
      as (s' & E & Hd & Hn & _).
    exists s'. auto.
Qed.

(** The file of an export in a format the script has an export for:
    its type and its text. *)
Inductive fileOf (data : json) : string -> string -> string -> Prop :=
| JsonFile : fileOf data "json" "application/json" (stringify data)
| CsvFile text : convertToCSV data = Ok text -> fileOf data "csv" "text/csv" text.

(** The day of the clock of the page, as the name of a file has it. *)
Definition today (s : state) : string :=
  beforeT (toISOString (JSNumber.ofZ (clock (page s)))).

Lemma held_data s data :
  held s = Some data -> dashboardData (page s) = Some data /\ truthy data = true.
Proof.
  unfold held. destruct (dashboardData (page s)) as [d|]; [|discriminate].
  destruct (truthy d) eqn:E; [|discriminate]. intros [= <-]. auto.
Qed.

(** The notification of an export that is done. *)
Definition exportedNote (f : string) : string * string :=
  (toUpperCase f ++ " exported successfully!", "success").

Lemma exported_notifies f s :
  exists s',
    exported (Some f) s = (Ok tt, s')
    /\ downloads s' = downloads s
    /\ notices s' = (notices s ++ [exportedNote f])%list.
Proof.
  unfold exported. rewrite bind_run. cbn [lift].
  destruct (onPage_showNotification (toUpperCase f ++ " exported successfully!") "success" s)
    as (s' & E & Hd & Hn & _).
  exists s'. auto.
Qed.

(** The file a download adds. *)
Definition saved (file : download) (s s' : state) : Prop :=
  downloads s' = (downloads s ++ [file])%list.

(** X20.  An export to [json] or to [csv], from a page that holds
    data: one file is downloaded and one notification says so.  The file
    holds the data of the last refresh, as text, with no request made for
    fresher data; its name carries the day of the clock, in the time zone
    of [toISOString], and the format as its extension. *)
Theorem export_saves_one_file name mime text data s :
  held s = Some data -> fileOf data name mime text ->
  exists s',
    exportData stringify (Some name) s = (Ok tt, s')
    /\ saved {| filename := "diabetes-analytics-" ++ today s ++ "." ++ name;
                mimeType := mime; content := text |} s s'
    /\ notices s' = (notices s ++ [exportedNote name])%list
    /\ Forall (fun c => forall url, c <> Fetch url)
         (drop (length (calls (page s))) (calls (page s'))).
Proof.
  intros Hh Hf. apply held_data in Hh as [Hd Ht].
  unfold exportData. rewrite bind_run. cbn [get]. rewrite Hd, Ht. cbn [negb].
  assert (Hquiet : forall s0 s1 f,
            exported (Some f) s0 = (Ok tt, s1) ->
            calls (page s1)
            = (calls (page s0)
               ++ [ConsoleLog ("success: " ++ (toUpperCase f ++ " exported successfully!"));
                   Notify (toUpperCase f ++ " exported successfully!") "success"])%list).
  { intros s0 s1 f E. unfold exported in E. rewrite bind_run in E. cbn [lift] in E.
    unfold onPage in E.
    destruct (showNotification _ _ (page s0)) as [r p1] eqn:E1.
    apply pair_equal_spec in E as [_ <-]. cbn [page].
    assert (Ec : calls p1 = calls (snd (showNotification
                   (toUpperCase f ++ " exported successfully!") "success" (page s0))))
      by (rewrite E1; reflexivity).
    rewrite Ec. unfold showNotification, record, setTimeout.
    destruct (attached (page s0)) as [id|] eqn:Ea;
      cbn -[toastIcon toastColor icon_html nl String.append];
      rewrite Ea;
      cbn -[toastIcon toastColor icon_html nl String.append];
      rewrite <- app_assoc; reflexivity. }
  destruct Hf as [|text Hcsv].
  - cbn [isFormat String.eqb Ascii.eqb Bool.eqb].
    rewrite !bind_run. cbn [onPage now bind get ret save modify].
    edestruct exported_notifies as (s' & E & Hdl & Hn).
    rewrite E. exists s'. split; [reflexivity|]. split; [exact Hdl|]. split; [exact Hn|].
    rewrite (Hquiet _ _ _ E). cbn [page]. rewrite drop_app_length.
    repeat constructor; discriminate.
  - cbn [isFormat String.eqb Ascii.eqb Bool.eqb].
    rewrite bind_run, Hcsv. cbn [lift].
    rewrite !bind_run. cbn [onPage now bind get ret save modify].
    edestruct exported_notifies as (s' & E & Hdl & Hn).
    rewrite E. exists s'. split; [reflexivity|]. split; [exact Hdl|]. split; [exact Hn|].
    rewrite (Hquiet _ _ _ E). cbn [page]. rewrite drop_app_length.
    repeat constructor; discriminate.
Qed.

(** The formats the switch of [exportData] has a case for. *)
Definition formats : list string := ["json"; "csv"; "pdf"; "excel"].

(** X21.  A format the switch has no case for is not declined.  With
    data on the page, the button downloads a file named ["undefined"], of
    no type, whose text is ["undefined"]; if the button has a format, the
    script then notifies that the export succeeded, and if it has none
    (the attribute is missing) it throws after the download, with no
    notification. *)
Theorem export_of_unknown_format format data s :
  held s = Some data ->
  (forall name, In name formats -> format <> Some name) ->
  let s' := exec (exportData stringify format) s in
  saved {| filename := "undefined"; mimeType := ""; content := "undefined" |} s s'
  /\ match format with
     | Some f =>
         outcome (exportData stringify format) s = Ok tt
         /\ notices s' = (notices s ++ [exportedNote f])%list
     | None =>
         (exists e, outcome (exportData stringify format) s = Throw e)
         /\ notices s' = notices s
     end.
Proof.
  intros Hh Hnot s'. subst s'. apply held_data in Hh as [Hd Ht].
  assert (Hno : forall name, In name formats -> isFormat format name = false).
  { intros name Hin. unfold isFormat. destruct format as [f|]; [|reflexivity].
    destruct (String.eqb_spec f name) as [->|_]; [|reflexivity].
    exfalso. exact (Hnot name Hin eq_refl). }
  unfold outcome, exec, exportData. rewrite bind_run. cbn [get]. rewrite Hd, Ht.
  cbn [negb]. unfold formats in Hno. simpl in Hno.
  rewrite !Hno by tauto. rewrite bind_run. cbn [save modify].
  destruct format as [f|].
  - edestruct exported_notifies as (s' & E & Hdl & Hn). rewrite E. cbn [fst snd].
    split; [exact Hdl|]. split; [reflexivity|exact Hn].
  - cbn. split; [reflexivity|]. split; [eauto|reflexivity].
Qed.

End WithHost.

Import Browser.

(** The page of the browser, empty and with the sample data. *)
Definition emptyState : state := {| page := dashboardPage; downloads := [] |}.
Definition loadedState : state :=
  {| page := with_dashboardData (fun _ => Some (sampleData [])) dashboardPage;
     downloads := [] |}.

(** The sample data as CSV. *)
Definition sampleCSV : string := Eval vm_compute in
  match convertToCSV (sampleData []) with
  | Ok text => text
  | Throw _ => ""
  end.

(** An export before any data is loaded. *)
Lemma export_declined_witness :
  exists s',
    exportData toString (Some "json") emptyState = (Ok tt, s')
    /\ downloads s' = downloads emptyState
    /\ notices s' = (notices emptyState ++ [("No data available to export", "error")])%list.
Proof.
  apply (export_declined toString (Some "json") emptyState). reflexivity.
Defined.

(** The sample data exported to CSV at noon on 1 January 2024. *)
Lemma export_saves_one_file_witness :
  exists s',
    exportData toString (Some "csv") loadedState = (Ok tt, s')
    /\ saved {| filename := "diabetes-analytics-2024-01-01.csv";
                mimeType := "text/csv"; content := sampleCSV |} loadedState s'
    /\ notices s' = (notices loadedState ++ [("CSV exported successfully!", "success")])%list.
Proof.
  destruct (export_saves_one_file toString "csv" "text/csv" sampleCSV
              (sampleData []) loadedState) as (s' & E & Hs & Hn & _).
  - reflexivity.
  - apply CsvFile. vm_compute. reflexivity.
  - exists s'. split; [exact E|]. split; [exact Hs|exact Hn].
Defined.

(** A button whose format is [xml]. *)
Lemma export_of_unknown_format_witness :
  let s' := exec (exportData toString (Some "xml")) loadedState in
  saved {| filename := "undefined"; mimeType := ""; content := "undefined" |}
    loadedState s'
  /\ notices s' = (notices loadedState ++ [("XML exported successfully!", "success")])%list.
Proof.
  destruct (export_of_unknown_format toString (Some "xml") (sampleData []) loadedState)
    as (Hs & _ & Hn).
  - reflexivity.
  - intros name Hin. simpl in Hin.
    destruct Hin as [<-|[<-|[<-|[<-|[]]]]]; discriminate.
  - split; [exact Hs|exact Hn].
Defined.

End ExportProperties.

(** ** The counters of the landing page *)
Module LandingCounter.
Import JSNumber Json Eff Dom EventLoop EffFacts NumberFacts.
Import ValidationSpec DashboardValues.
Import Script.
Local Open Scope string_scope.
Local Open Scope Z_scope.
Local Open Scope eff_scope.

(** *** The sum the interval accumulates *)

(** [current] after [k] turns of the interval, from [current]. *)
Fixpoint paced (current increment : number) (k : nat) : number :=
  match k with
  | O => current
  | S k => add (paced current increment k) increment
  end.

(** The relative error of one rounding, [2^-53]. *)
Definition half_ulp : Q := 1 # 9007199254740992.

(** How far [k] rounded additions of a rounded increment are from [k]
    increments, at most: the sum is between [below k] and [above k]
    increments. *)
Fixpoint below (k : nat) : Q :=
  match k with
  | O => 0
  | S k => (below k + (1 - half_ulp)) * (1 - half_ulp)
  end.

Fixpoint above (k : nat) : Q :=
  match k with
  | O => 0
  | S k => (above k + (1 + half_ulp)) * (1 + half_ulp)
  end.

Lemma half_ulp_pow2 : (pow2 (-53) == half_ulp)%Q.
Proof. reflexivity. Qed.

Lemma below_pos k : (0 <= below k)%Q.
Proof.
  induction k as [|k IH]; [apply Qle_refl|]. cbn [below].
  apply Qmult_le_0_compat; unfold half_ulp in *; lra.
Qed.

Lemma above_rises k : (0 <= above k /\ above k <= above (S k))%Q.
Proof.
  induction k as [|k [IH _]].
  - split; [apply Qle_refl|]. vm_compute. discriminate.
  - assert (H0 : (0 <= above (S k))%Q).
    { cbn [above]. apply Qmult_le_0_compat; unfold half_ulp in *; lra. }
    split; [exact H0|].
    change (above (S (S k))) with ((above (S k) + (1 + half_ulp)) * (1 + half_ulp))%Q.
    unfold half_ulp in *. lra.
Qed.

Lemma above_mono k m : (k <= m)%nat -> (above k <= above m)%Q.
Proof.
  induction 1 as [|m _ IH]; [apply Qle_refl|].
  eapply Qle_trans; [exact IH|apply above_rises].
Qed.

(** A hundred and one additions are past a hundred increments, and
    ninety-nine are not there yet. *)
Lemma below_101 : (100 <= below 101)%Q.
Proof. vm_compute. discriminate. Qed.

Lemma above_99 : (above 99 < 100)%Q.
Proof. vm_compute. reflexivity. Qed.

Lemma above_101 : (above 101 < 102)%Q.
Proof. vm_compute. reflexivity. Qed.

(** Rounding a positive number of the normal range. *)
Lemma round64_near q :
  (pow2 (-1022) <= q)%Q -> (q < pow2 1023)%Q ->
  exists r, round64 q = Fin r
            /\ (q * (1 - half_ulp) <= r)%Q /\ (r <= q * (1 + half_ulp))%Q.
Proof.
  intros Hlo Hhi. pose proof (pow2_pos (-1022)) as Hp.
  assert (Ha : (Qabs q == q)%Q) by (apply Qabs_pos; lra).
  destruct (round64_normal q) as (r & Hr & Hb).
  - rewrite Ha. exact Hlo.
  - rewrite Ha. exact Hhi.
  - exists r. split; [exact Hr|].
    rewrite Ha, half_ulp_pow2 in Hb. apply Qabs_Qle_condition in Hb as [H1 H2].
    split; lra.
Qed.

Lemma normal_range q :
  (1 # 200 <= q)%Q -> (q <= inject_Z (2 ^ 60))%Q ->
  (pow2 (-1022) <= q)%Q /\ (q < pow2 1023)%Q.
Proof.
  intros Hlo Hhi.
  assert (H1 : (pow2 (-1022) <= 1 # 200)%Q) by (vm_compute; discriminate).
  assert (H2 : (inject_Z (2 ^ 60) < pow2 1023)%Q) by (vm_compute; reflexivity).
  split; [eapply Qle_trans; eassumption|eapply Qle_lt_trans; eassumption].
Qed.

(** The increment of a positive target: a hundredth of it, rounded. *)
Lemma increment_near n :
  1 <= n < 2 ^ 53 ->
  exists i, div (Fin (inject_Z n)) (Fin 100) = Fin i
            /\ (inject_Z n * (1 # 100) * (1 - half_ulp) <= i)%Q
            /\ (i <= inject_Z n * (1 # 100) * (1 + half_ulp))%Q.
Proof.
  intros Hn. cbn [div]. change (is_zero 100) with false. cbn iota.
  assert (H1 : (1 <= inject_Z n)%Q).
  { change 1%Q with (inject_Z 1). rewrite <- Zle_Qle. lia. }
  assert (H2 : (inject_Z n <= inject_Z (2 ^ 53))%Q) by (rewrite <- Zle_Qle; lia).
  assert (E : (inject_Z n / 100 == inject_Z n * (1 # 100))%Q) by reflexivity.
  destruct (normal_range (inject_Z n / 100)) as [Hlo Hhi].
  - rewrite E. lra.
  - rewrite E. assert (inject_Z (2 ^ 53) <= inject_Z (2 ^ 60))%Q by (vm_compute; discriminate).
    lra.
  - destruct (round64_near _ Hlo Hhi) as (i & Hi & Hb1 & Hb2).
    exists i. split; [exact Hi|]. rewrite E in Hb1, Hb2. split; assumption.
Qed.

(** The sum after [k] turns, up to the hundred and first. *)
Lemma paced_near (a i : Q) :
  (1 # 100 <= a)%Q -> (a <= inject_Z (2 ^ 53))%Q ->
  (a * (1 - half_ulp) <= i)%Q -> (i <= a * (1 + half_ulp))%Q ->
  forall k, (k <= 101)%nat ->
    exists c, paced (Fin 0) (Fin i) k = Fin c
              /\ (a * below k <= c)%Q /\ (c <= a * above k)%Q.
Proof.
  intros Ha1 Ha2 Hi1 Hi2. induction k as [|k IH]; intros Hk.
  - exists 0%Q. split; [reflexivity|]. cbn [below above]. split; lra.
  - destruct IH as (c & Hc & Hlo & Hhi); [lia|].
    assert (Hy : (0 <= a * below k)%Q).
    { apply Qmult_le_0_compat; [lra|apply below_pos]. }
    assert (Hx : (a * above k <= a * 102)%Q).
    { apply Qmult_le_l; [lra|].
      eapply Qle_trans; [apply (above_mono k 101); lia|].
      apply Qlt_le_weak, above_101. }
    assert (H60 : (inject_Z (2 ^ 53) * 104 <= inject_Z (2 ^ 60))%Q)
      by (vm_compute; discriminate).
    destruct (normal_range (c + i)) as [Hn1 Hn2].
    + unfold half_ulp in *. lra.
    + unfold half_ulp in *. lra.
    + destruct (round64_near _ Hn1 Hn2) as (r & Hr & Hb1 & Hb2).
      exists r. split; [cbn [paced]; rewrite Hc; exact Hr|].
      assert (El : (a * below (S k)
                    == (a * below k + a * (1 - half_ulp)) * (1 - half_ulp))%Q)
        by (cbn [below]; ring).
      assert (Eh : (a * above (S k)
                    == (a * above k + a * (1 + half_ulp)) * (1 + half_ulp))%Q)
        by (cbn [above]; ring).
      rewrite El, Eh. unfold half_ulp in *. split; lra.
Qed.

Lemma geb_Fin c g : geb (Fin c) (Fin g) = true <-> (g <= c)%Q.
Proof.
  unfold geb. rewrite orb_true_iff, ltb_Fin. cbn [eqb]. rewrite Qeq_bool_iff.
  split.
  - intros [Hlt|He]; [lra|rewrite He; apply Qle_refl].
  - intros Hle. destruct (Qlt_le_dec g c) as [Hlt|Hge]; [left; exact Hlt|].
    right. apply Qle_antisym; assumption.
Qed.

(** The interval of a positive target finds the sum below the target
    for ninety-nine turns, and at the target or past it on the hundred
    and first at the latest. *)
Lemma paced_target n :
  1 <= n < 2 ^ 53 ->
  let goal := Fin (inject_Z n) in
  let increment := div goal (Fin 100) in
  (forall k, (k <= 101)%nat ->
     exists c, paced (Fin 0) increment k = Fin c /\ (0 <= c)%Q
               /\ ((k <= 99)%nat -> (c < inject_Z n)%Q))
  /\ geb (paced (Fin 0) increment 101) goal = true.
Proof.
  intros Hn goal increment. subst goal increment.
  destruct (increment_near n Hn) as (i & Hi & Hi1 & Hi2). rewrite Hi.
  assert (H1 : (1 <= inject_Z n)%Q).
  { change 1%Q with (inject_Z 1). rewrite <- Zle_Qle. lia. }
  assert (H2 : (inject_Z n <= inject_Z (2 ^ 53))%Q) by (rewrite <- Zle_Qle; lia).
  set (a := (inject_Z n * (1 # 100))%Q) in *.
  assert (Ha1 : (1 # 100 <= a)%Q) by (unfold a; lra).
  assert (Ha2 : (a <= inject_Z (2 ^ 53))%Q) by (unfold a; lra).
  pose proof (paced_near a i Ha1 Ha2 Hi1 Hi2) as Hp.
  split.
  - intros k Hk. destruct (Hp k Hk) as (c & Hc & Hlo & Hhi).
    exists c. split; [exact Hc|]. split.
    + eapply Qle_trans; [|exact Hlo].
      apply Qmult_le_0_compat; [lra|apply below_pos].
    + intros H99.
      assert (Hx : (a * above k <= a * above 99)%Q).
      { apply Qmult_le_l; [lra|]. apply above_mono, H99. }
      assert (Hy : (a * above 99 < a * 100)%Q).
      { apply Qmult_lt_l; [lra|apply above_99]. }
      unfold a in *. lra.
  - destruct (Hp 101%nat (le_n _)) as (c & Hc & Hlo & _).
    rewrite Hc. apply geb_Fin.
    assert (Hx : (a * 100 <= a * below 101)%Q).
    { apply Qmult_le_l; [lra|apply below_101]. }
    unfold a in *. lra.
Qed.

(** *** The interval on the page *)

(** The text of the element found under [element]. *)
Definition shown (element : string) (p : page) : option string :=
  getp "textContent" <$> elements p !! element.

(** Its [data-target] attribute, when the element is there and has one. *)
Definition dataTarget (element : string) (p : page) : option string :=
  elements p !! element ≫= fun e => props e !! "data-target".

(** The sign the callback appends to the number. *)
Definition percent (attribute : string) : string :=
  if includesDot attribute then "%" else "".

(** What a counter is made of: its text, its attribute, the time, the
    pending timers. *)
Definition view (element : string) (p : page)
  : option string * option string * Z * list timer :=
  (shown element p, dataTarget element p, clock p, timers p).

Lemma view_counter element p s a c tm :
  view element p = (s, a, c, tm) ->
  shown element p = s /\ dataTarget element p = a /\ clock p = c /\ timers p = tm.
Proof. unfold view. intros E. injection E as <- <- <- <-. auto. Qed.

Section WithHost.
Context `{Host}.

(** The page after [k] turns of the event loop. *)
Definition turns (k : nat) (p : page) : page := Nat.iter k (exec fire_next) p.

(** One turn of the event loop when the interval of a counter is the
    one timer that is pending. *)
Lemma landing_counter_turn element attribute current increment goal d p :
  timers p = [{| due := d; act := CounterTick element current increment goal |}] ->
  dataTarget element p = Some attribute ->
  view element (exec fire_next p)
  = let current' := add current increment in
    if geb current' goal
    then (Some (numberToString goal ++ percent attribute), Some attribute,
          Z.max (clock p) d, [])
    else (Some (numberToString (floor current') ++ percent attribute), Some attribute,
          Z.max (clock p) d,
          [{| due := d + 20; act := CounterTick element current' increment goal |}]).
Proof.
  intros Ht Ha. unfold dataTarget in Ha.
  destruct (elements p !! element) as [e|] eqn:He; [|discriminate Ha].
  cbn [mbind option_bind] in Ha.
  unfold exec, fire_next. rewrite bind_run. cbn [get].
  rewrite Ht. cbn [earliest]. rewrite !bind_run. cbn [modify].
  unfold run. cbn [act due]. rewrite bind_run. cbn [modify]. rewrite bind_run.
  cbn [get elements with_clock with_timers].
  rewrite He. cbn [mbind option_bind]. rewrite Ha. fold (percent attribute). cbv zeta.
  assert (Ed : forall v (q : page),
            elements q = elements p ->
            dataTarget element (with_elements (alter (setp "textContent" v) element) q)
            = Some attribute).
  { intros v q Eq. unfold dataTarget. cbn [elements with_elements]. rewrite Eq.
    rewrite lookup_alter_eq, He. cbn [fmap option_fmap option_map mbind option_bind].
    unfold setp. cbn [props]. rewrite lookup_insert_ne by discriminate. exact Ha. }
  assert (Es : forall v (q : page),
            elements q = elements p ->
            shown element (with_elements (alter (setp "textContent" v) element) q)
            = Some v).
  { intros v q Eq. unfold shown. cbn [elements with_elements]. rewrite Eq.
    apply DashboardRuns.text_shown. eauto. }
  destruct (geb (add current increment) goal).
  - rewrite bind_run. cbn [ret]. unfold assign, view. cbn [modify snd].
    rewrite Es, Ed by reflexivity. reflexivity.
  - rewrite bind_run. cbn [modify]. rewrite bind_run. cbn [ret].
    unfold assign, view. cbn [modify snd].
    rewrite Es, Ed by reflexivity. reflexivity.
Qed.

(** The interval runs as long as the callback finds the sum short of
    the goal. *)
Lemma landing_counter_runs element attribute current increment goal d :
  forall (k : nat) p,
    timers p = [{| due := d; act := CounterTick element current increment goal |}] ->
    dataTarget element p = Some attribute ->
    clock p <= d ->
    (forall j, (1 <= j <= k)%nat -> geb (paced current increment j) goal = false) ->
    let p' := turns k p in
    timers p'
    = [{| due := d + 20 * Z.of_nat k;
          act := CounterTick element (paced current increment k) increment goal |}]
    /\ dataTarget element p' = Some attribute
    /\ clock p' <= d + 20 * Z.of_nat k
    /\ ((0 < k)%nat ->
        clock p' = d + 20 * Z.of_nat k - 20
        /\ shown element p'
           = Some (numberToString (floor (paced current increment k))
                   ++ percent attribute)).
Proof.
  induction k as [|k IH]; intros p Ht Ha Hc Hnot; cbv zeta.
  - change (turns 0 p) with p. cbn [paced]. rewrite Ht, Ha, Z.add_0_r.
    split; [reflexivity|]. split; [reflexivity|]. split; [lia|]. intros Hk. lia.
  - destruct (IH p Ht Ha Hc) as (Ht' & Ha' & Hc' & _).
    { intros j Hj. apply Hnot. lia. }
    change (turns (S k) p) with (exec fire_next (turns k p)).
    pose proof (landing_counter_turn _ _ _ _ _ _ _ Ht' Ha') as V. cbv zeta in V.
    change (add (paced current increment k) increment)
      with (paced current increment (S k)) in V.
    rewrite (Hnot (S k)) in V by lia.
    apply view_counter in V as (Vs & Va & Vc & Vt).
    rewrite Vt, Va, Vc, Vs.
    split; [do 2 f_equal; lia|]. split; [reflexivity|]. split; [lia|].
    intros _. split; [lia|reflexivity].
Qed.

(** It ends on the turn that finds the sum at the goal, or past it. *)
Lemma landing_counter_ends element attribute current increment goal d (k : nat) p :
  timers p = [{| due := d; act := CounterTick element current increment goal |}] ->
  dataTarget element p = Some attribute ->
  clock p <= d ->
  (forall j, (1 <= j <= k)%nat -> geb (paced current increment j) goal = false) ->
  geb (paced current increment (S k)) goal = true ->
  view element (turns (S k) p)
  = (Some (numberToString goal ++ percent attribute), Some attribute,
     d + 20 * Z.of_nat k, []).
Proof.
  intros Ht Ha Hc Hnot Hlast.
  destruct (landing_counter_runs element attribute current increment goal d k p
              Ht Ha Hc Hnot) as (Ht' & Ha' & Hc' & _).
  change (turns (S k) p) with (exec fire_next (turns k p)).
  pose proof (landing_counter_turn _ _ _ _ _ _ _ Ht' Ha') as V. cbv zeta in V.
  change (add (paced current increment k) increment)
    with (paced current increment (S k)) in V.
  rewrite Hlast in V. rewrite V. do 2 f_equal. lia.
Qed.

(** The interval [animateCounter] starts. *)
Lemma animateCounter_landing element target p :
  timers p = [] ->
  let start := exec (animateCounter element target) p in
  timers start
  = [{| due := clock p + 20;
        act := CounterTick element (Fin 0) (div target (Fin 100)) target |}]
  /\ dataTarget element start = dataTarget element p
  /\ clock start = clock p.
Proof.
  intros Ht. unfold exec, animateCounter, setTimeout. cbn [modify snd].
  cbn [timers with_timers]. rewrite Ht. repeat split.
Qed.

(** X22.  The counter of the landing page, for a target that is a
    positive integer, on an element that has its [data-target] attribute
    and with no other timer pending.  The interval ends on its hundredth
    turn or on the one after it, 2000 or 2020 milliseconds after the
    call: the element then shows the target, with a percent sign when the
    attribute holds a dot, and no timer is left.  On every turn before
    that one the element shows an integer that is below the target. *)
Theorem landing_counter_reaches_its_target element attribute n p :
  timers p = [] -> dataTarget element p = Some attribute ->
  1 <= n < 2 ^ 53 ->
  let start := exec (animateCounter element (Fin (inject_Z n))) p in
  exists k : nat,
    (k = 100 \/ k = 101)%nat
    /\ (forall j, (0 < j < k)%nat ->
          timers (turns j start) <> []
          /\ exists m, 0 <= m < n
               /\ shown element (turns j start)
                  = Some (JSString.ofZ m ++ percent attribute))
    /\ shown element (turns k start) = Some (JSString.ofZ n ++ percent attribute)
    /\ timers (turns k start) = []
    /\ clock (turns k start) = clock p + 20 * Z.of_nat k.
Proof.
  intros Ht Ha Hn start.
  destruct (animateCounter_landing element (Fin (inject_Z n)) p Ht) as (Hs & Hd & Hc).
  fold start in Hs, Hd, Hc. rewrite Ha in Hd.
  destruct (paced_target n Hn) as [Hp Hlast]. cbv zeta in Hp, Hlast.
  set (goal := Fin (inject_Z n)) in *. set (increment := div goal (Fin 100)) in *.
  assert (Hnot : forall j, (1 <= j <= 99)%nat -> geb (paced (Fin 0) increment j) goal = false).
  { intros j Hj. destruct (Hp j ltac:(lia)) as (c & Ec & _ & Hlt). rewrite Ec.
    destruct (geb (Fin c) goal) eqn:E; [|reflexivity].
    apply geb_Fin in E. specialize (Hlt ltac:(lia)). lra. }
  assert (Hgoal : numberToString goal = JSString.ofZ n).
  { apply numberToString_int. lia. }
  assert (Hshow : forall j : nat,
            (0 < j <= 101)%nat ->
            geb (paced (Fin 0) increment j) goal = false ->
            (forall i, (1 <= i <= j)%nat -> geb (paced (Fin 0) increment i) goal = false) ->
            timers (turns j start) <> []
            /\ exists m, 0 <= m < n
                 /\ shown element (turns j start)
                    = Some (JSString.ofZ m ++ percent attribute)).
  { intros j Hj Hgj Hbefore.
    destruct (landing_counter_runs element attribute (Fin 0) increment goal
                (clock p + 20) j start Hs Hd ltac:(lia) Hbefore) as (Ht' & _ & _ & Hsh).
    destruct (Hsh ltac:(lia)) as [_ Hsh'].
    split; [rewrite Ht'; discriminate|].
    destruct (Hp j ltac:(lia)) as (c & Ec & Hc0 & _). rewrite Ec in Hsh', Hgj.
    assert (Hcn : (c < inject_Z n)%Q).
    { apply Qnot_le_lt. intros Hle. apply geb_Fin in Hle.
      unfold goal in Hgj. rewrite Hle in Hgj. discriminate Hgj. }
    exists (Qfloor c). cbn [floor] in Hsh'.
    assert (Hm : 0 <= Qfloor c < n).
    { split.
      - change 0 with (Qfloor 0). apply Qfloor_resp_le, Hc0.
      - rewrite Zlt_Qlt. eapply Qle_lt_trans; [apply Qfloor_le|exact Hcn]. }
    split; [exact Hm|]. rewrite Hsh'. do 2 f_equal.
    apply numberToString_int. lia. }
  destruct (geb (paced (Fin 0) increment 100) goal) eqn:E100.
  - exists 100%nat. split; [left; reflexivity|].
    pose proof (landing_counter_ends element attribute (Fin 0) increment goal
                  (clock p + 20) 99 start Hs Hd ltac:(lia) Hnot E100) as V.
    apply view_counter in V as (Vs & _ & Vc & Vt).
    split; [|split; [|split]].
    + intros j Hj. apply Hshow; [lia|apply Hnot; lia|].
      intros i Hi. apply Hnot. lia.
    + rewrite Vs, Hgoal. reflexivity.
    + exact Vt.
    + rewrite Vc. lia.
  - assert (Hnot' : forall j, (1 <= j <= 100)%nat ->
                      geb (paced (Fin 0) increment j) goal = false).
    { intros j Hj. destruct (Nat.eq_dec j 100%nat) as [->|Hne]; [exact E100|].
      apply Hnot. lia. }
    exists 101%nat. split; [right; reflexivity|].
    pose proof (landing_counter_ends element attribute (Fin 0) increment goal
                  (clock p + 20) 100 start Hs Hd ltac:(lia) Hnot' Hlast) as V.
    apply view_counter in V as (Vs & _ & Vc & Vt).
    split; [|split; [|split]].
    + intros j Hj. apply Hshow; [lia|apply Hnot'; lia|].
      intros i Hi. apply Hnot'. lia.
    + rewrite Vs, Hgoal. reflexivity.
    + exact Vt.
    + rewrite Vc. lia.
Qed.

(** The first sum of a target that is not positive: it is not below
    the target. *)
Lemma first_sum_of_nonpositive n :
  - 2 ^ 53 < n <= 0 ->
  let goal := Fin (inject_Z n) in
  geb (paced (Fin 0) (div goal (Fin 100)) 1) goal = true.
Proof.
  intros Hn goal. subst goal. cbn [paced].
  destruct (Z.eq_dec n 0) as [->|Hne]; [reflexivity|].
  cbn [div]. change (is_zero 100) with false. cbn iota.
  assert (E : (inject_Z n / 100 == inject_Z n * (1 # 100))%Q) by reflexivity.
  assert (H1 : (inject_Z n <= - 1)%Q).
  { change (- 1)%Q with (inject_Z (- 1)). rewrite <- Zle_Qle. lia. }
  assert (H2 : (inject_Z (- 2 ^ 53) <= inject_Z n)%Q) by (rewrite <- Zle_Qle; lia).
  assert (H53 : (inject_Z (- 2 ^ 53) == - inject_Z (2 ^ 53))%Q) by reflexivity.
  assert (H60 : (inject_Z (2 ^ 53) * 2 <= inject_Z (2 ^ 60))%Q)
    by (vm_compute; discriminate).
  set (q := (inject_Z n / 100)%Q) in *.
  assert (Eq : (Qabs q == - q)%Q) by (apply Qabs_neg; lra).
  destruct (normal_range (- q)) as [Hlo Hhi]; [lra|lra|].
  destruct (round64_normal q) as (i & Hi & Hb).
  { rewrite Eq. exact Hlo. }
  { rewrite Eq. exact Hhi. }
  rewrite Hi. cbn [add].
  rewrite Eq, half_ulp_pow2 in Hb. apply Qabs_Qle_condition in Hb as [Hb1 Hb2].
  unfold half_ulp in Hb1, Hb2.
  assert (Ei : (Qabs (0 + i) == - (0 + i))%Q) by (apply Qabs_neg; lra).
  destruct (normal_range (- (0 + i))) as [Hlo' Hhi']; [lra|lra|].
  destruct (round64_normal (0 + i)) as (c & Hc & Hb').
  { rewrite Ei. exact Hlo'. }
  { rewrite Ei. exact Hhi'. }
  rewrite Hc. apply geb_Fin.
  rewrite Ei, half_ulp_pow2 in Hb'. apply Qabs_Qle_condition in Hb' as [Hb3 Hb4].
  unfold half_ulp in Hb3, Hb4. lra.
Qed.

(** X23.  A target that is zero or a negative integer is not animated:
    the first turn of the interval, 20 milliseconds after the call, finds
    the sum at the target or past it, writes the target and clears the
    interval. *)
Theorem landing_counter_skips_nonpositive element attribute n p :
  timers p = [] -> dataTarget element p = Some attribute ->
  - 2 ^ 53 < n <= 0 ->
  let p' := turns 1 (exec (animateCounter element (Fin (inject_Z n))) p) in
  shown element p' = Some (JSString.ofZ n ++ percent attribute)
  /\ timers p' = []
  /\ clock p' = clock p + 20.
Proof.
  intros Ht Ha Hn p'. subst p'.
  destruct (animateCounter_landing element (Fin (inject_Z n)) p Ht) as (Hs & Hd & Hc).
  rewrite Ha in Hd.
  pose proof (landing_counter_ends element attribute (Fin 0) _ _ (clock p + 20) 0 _
                Hs Hd ltac:(lia) ltac:(intros j Hj; lia)
                (first_sum_of_nonpositive n Hn)) as V.
  apply view_counter in V as (Vs & _ & Vc & Vt).
  rewrite Vs, Vt, Vc, numberToString_int.
  - repeat split. lia.
  - lia.
Qed.

Lemma paced_NaN current (k : nat) : (0 < k)%nat -> paced current NaN k = NaN.
Proof.
  destruct k as [|k]; [lia|]. intros _. cbn [paced].
  destruct (paced current NaN k); reflexivity.
Qed.

Lemma geb_NaN x : geb x NaN = false.
Proof. destruct x as [|[|]|q]; reflexivity. Qed.

(** X24.  A target that is [NaN], which is what [parseInt] makes of an
    attribute that does not start with a number, never ends the interval:
    after any number of turns its timer is pending, and from the first
    turn on the element shows [NaN], with a percent sign when the
    attribute holds a dot. *)
Theorem landing_counter_without_a_number element attribute p :
  timers p = [] -> dataTarget element p = Some attribute ->
  forall k : nat,
    let p' := turns k (exec (animateCounter element NaN) p) in
    (exists current,
       timers p'
       = [{| due := clock p + 20 + 20 * Z.of_nat k;
             act := CounterTick element current NaN NaN |}])
    /\ ((0 < k)%nat -> shown element p' = Some ("NaN" ++ percent attribute)).
Proof.
  intros Ht Ha k p'. subst p'.
  destruct (animateCounter_landing element NaN p Ht) as (Hs & Hd & Hc).
  rewrite Ha in Hd. change (div NaN (Fin 100)) with NaN in Hs.
  destruct (landing_counter_runs element attribute (Fin 0) NaN NaN (clock p + 20) k _
              Hs Hd ltac:(lia) ltac:(intros; apply geb_NaN)) as (Ht' & _ & _ & Hsh).
  split; [eauto|]. intros Hk. destruct (Hsh Hk) as [_ Hsh'].
  rewrite Hsh', paced_NaN by exact Hk. reflexivity.
Qed.

(** The sums of an increment that is an integer. *)
Lemma paced_int m (k : nat) :
  0 <= m -> Z.of_nat k * m < 2 ^ 53 ->
  paced (Fin 0) (Fin (inject_Z m)) k = Fin (inject_Z (Z.of_nat k * m)).
Proof.
  intros Hm. induction k as [|k IH]; intros Hk; [reflexivity|].
  cbn [paced]. rewrite IH by nia. cbn [add]. apply round64_int; [nia|].
  rewrite <- inject_Z_plus. apply inject_Z_injective. lia.
Qed.

Lemma geb_int a b : geb (Fin (inject_Z a)) (Fin (inject_Z b)) = (b <=? a).
Proof.
  destruct (Z.leb_spec b a) as [Hle|Hlt].
  - apply geb_Fin. rewrite <- Zle_Qle. exact Hle.
  - destruct (geb _ _) eqn:E; [|reflexivity].
    apply geb_Fin in E. rewrite <- Zle_Qle in E. lia.
Qed.

(** X25.  A target that is a positive multiple of 100 is reached in
    exactly a hundred turns, 2000 milliseconds, with no rounding on the
    way: turn [j] shows [j] hundredths of the target, and the hundredth
    shows the target and clears the interval. *)
Theorem landing_counter_of_hundreds element attribute m p :
  timers p = [] -> dataTarget element p = Some attribute ->
  1 <= m -> 100 * m < 2 ^ 53 ->
  let start := exec (animateCounter element (Fin (inject_Z (100 * m)))) p in
  (forall j : nat, (0 < j < 100)%nat ->
     shown element (turns j start)
     = Some (JSString.ofZ (Z.of_nat j * m) ++ percent attribute)
     /\ clock (turns j start) = clock p + 20 * Z.of_nat j
     /\ timers (turns j start) <> [])
  /\ shown element (turns 100 start) = Some (JSString.ofZ (100 * m) ++ percent attribute)
  /\ clock (turns 100 start) = clock p + 2000
  /\ timers (turns 100 start) = [].
Proof.
  intros Ht Ha Hm Hb start.
  destruct (animateCounter_landing element (Fin (inject_Z (100 * m))) p Ht)
    as (Hs & Hd & Hc).
  fold start in Hs, Hd, Hc. rewrite Ha in Hd.
  assert (Ei : div (Fin (inject_Z (100 * m))) (Fin 100) = Fin (inject_Z m)).
  { cbn [div]. change (is_zero 100) with false. cbn iota.
    apply round64_int; [lia|]. rewrite inject_Z_mult. field. }
  rewrite Ei in Hs.
  assert (Hnot : forall j, (1 <= j <= 99)%nat ->
            geb (paced (Fin 0) (Fin (inject_Z m)) j) (Fin (inject_Z (100 * m))) = false).
  { intros j Hj. rewrite paced_int by nia. rewrite geb_int.
    apply Z.leb_gt. nia. }
  assert (Hlast : geb (paced (Fin 0) (Fin (inject_Z m)) 100) (Fin (inject_Z (100 * m)))
                  = true).
  { rewrite paced_int by (change (Z.of_nat 100) with 100; lia).
    rewrite geb_int. apply Z.leb_le. change (Z.of_nat 100) with 100. lia. }
  split; [|].
  - intros j Hj.
    destruct (landing_counter_runs element attribute (Fin 0) (Fin (inject_Z m))
                (Fin (inject_Z (100 * m))) (clock p + 20) j start Hs Hd ltac:(lia))
      as (Ht' & _ & _ & Hsh).
    { intros i Hi. apply Hnot. lia. }
    destruct (Hsh ltac:(lia)) as [Hcl Hsh'].
    rewrite Hsh', Hcl, Ht', paced_int by nia. cbn [floor]. rewrite Qfloor_Z.
    rewrite numberToString_int by nia.
    split; [reflexivity|]. split; [lia|discriminate].
  - pose proof (landing_counter_ends element attribute (Fin 0) _ _ (clock p + 20) 99 start
                  Hs Hd ltac:(lia) Hnot Hlast) as V.
    apply view_counter in V as (Vs & _ & Vc & Vt).
    rewrite Vs, Vc, Vt, numberToString_int by lia.
    split; [reflexivity|]. split; [lia|reflexivity].
Qed.

End WithHost.

Import Browser.

(** The landing page with a counter whose target is [95.5]: [parseInt]
    makes 95 of it, and the dot brings the percent sign. *)
Definition landingPage (target : string) : page :=
  with_elements <["counter" := setp "data-target" target (labelled "0")]> formPage.

Lemma landing_counter_reaches_its_target_witness :
  let start := exec (animateCounter "counter" (Fin 95)) (landingPage "95.5") in
  exists k : nat,
    (k = 100 \/ k = 101)%nat
    /\ shown "counter" (turns k start) = Some "95%"
    /\ timers (turns k start) = []
    /\ clock (turns k start) = 20 * Z.of_nat k.
Proof.
  destruct (landing_counter_reaches_its_target "counter" "95.5" 95 (landingPage "95.5"))
    as (k & Hk & _ & Hs & Ht & Hc).
  - reflexivity.
  - reflexivity.
  - lia.
  - exists k. split; [exact Hk|]. split; [exact Hs|]. split; [exact Ht|exact Hc].
Defined.

(** A counter whose target is 0. *)
Lemma landing_counter_skips_nonpositive_witness :
  let p' := turns 1 (exec (animateCounter "counter" (Fin 0)) (landingPage "0")) in
  shown "counter" p' = Some "0" /\ timers p' = [] /\ clock p' = 20.
Proof.
  apply (landing_counter_skips_nonpositive "counter" "0" 0 (landingPage "0")).
  - reflexivity.
  - reflexivity.
  - lia.
Defined.

(** A counter whose attribute is [n/a]: three turns, and any number. *)
Lemma landing_counter_without_a_number_witness :
  let p' := turns 3 (exec (animateCounter "counter" NaN) (landingPage "n/a")) in
  (exists current,
     timers p' = [{| due := 80; act := CounterTick "counter" current NaN NaN |}])
  /\ ((0 < 3)%nat -> shown "counter" p' = Some "NaN").
Proof.
  apply (landing_counter_without_a_number "counter" "n/a" (landingPage "n/a")).
  - reflexivity.
  - reflexivity.
Defined.

(** The counter of [formPage], whose target is 1000: by tens. *)
Lemma landing_counter_of_hundreds_witness :
  let start := exec (animateCounter "counter" (Fin 1000)) formPage in
  shown "counter" (turns 42 start) = Some "420"
  /\ shown "counter" (turns 100 start) = Some "1000"
  /\ clock (turns 100 start) = 2000
  /\ timers (turns 100 start) = [].
Proof.
  destruct (landing_counter_of_hundreds "counter" "1000" 10 formPage)
    as (Hj & Hs & Hc & Ht).
  - reflexivity.
  - reflexivity.
  - lia.
  - lia.
  - destruct (Hj 42%nat ltac:(lia)) as (H42 & _ & _).
    split; [exact H42|]. split; [exact Hs|]. split; [exact Hc|exact Ht].
Defined.

(** A counter that has no [data-target] attribute: every turn throws at
    [includes], the text stays what it was and the interval goes on. *)
Example counter_without_attribute_throws :
  let bare := with_elements <["counter" := labelled "0"]> formPage in
  let start := exec (animateCounter "counter" (Fin 1000)) bare in
  outcome fire_next start
  = Throw (TypeError "Cannot read properties of null (reading 'includes')")
  /\ shown "counter" (turns 3 start) = Some "0"
  /\ timers (turns 3 start)
     = [{| due := 80; act := CounterTick "counter" (Fin 30) (Fin 10) (Fin 1000) |}].
Proof. vm_compute. repeat split. Qed.

End LandingCounter.

(** ** What a refresh draws *)
Module ChartDrawing.
Import JSNumber Json Eff Dom EventLoop Dashboard EffFacts NumberFacts.
Import DashboardFacts DashboardFrames DashboardRuns DashboardRefresh RefreshNotices.
Import FeedProperties ChartProperties.
Local Open Scope string_scope.
Local Open Scope eff_scope.

(** *** The chart a snapshot gives *)

(** [v.name] as a value: what the script reads, and [undefined] where
    reading throws. *)
Definition field (v : json) (name : string) : json :=
  match prop v name with
  | Ok x => x
  | Throw _ => JUndefined
  end.

(** The type each chart is constructed with. *)
Definition kindOf (name : string) : string :=
  if String.eqb name "riskDistribution" then "doughnut"
  else if String.eqb name "hourlyTrend" then "line"
  else if String.eqb name "performance" then "radar"
  else "bar".

(** The labels of the charts whose labels the script writes once, in the
    constructor, and never assigns. *)
Definition fixedLabels (name : string) : option json :=
  if String.eqb name "riskDistribution" then
    Some (JArr [JStr "Low Risk"; JStr "Medium Risk"; JStr "High Risk"])
  else if String.eqb name "featureImportance" then Some features
  else if String.eqb name "performance" then
    Some (JArr [JStr "Precision"; JStr "Recall"; JStr "F1-Score"; JStr "AUC Score"])
  else None.

(** [distribution.age_groups || { '<30': 25, '30-50': 45, '>50': 30 }] *)
Definition ageGroupsOf (d : json) : json :=
  or_else (field (field d "feature_distribution") "age_groups") defaultAgeGroups.

(** The labels the snapshot [d] gives the chart of a name. *)
Definition labelsOf (name : string) (d : json) : json :=
  match fixedLabels name with
  | Some l => l
  | None =>
      if String.eqb name "hourlyTrend"
      then or_else (field (field d "hourly_trend") "labels") hourLabels
      else objectKeys (ageGroupsOf d)
  end.

(** [Math.floor(Math.random() * 10)], for some number [Math.random]
    returns. *)
Definition randomCount (v : json) : Prop :=
  exists x, v = JNum (floor (mul x (Fin 10))).

(** The data [D] is what the snapshot [d] gives the chart of a name. *)
Definition plots (name : string) (d D : json) : Prop :=
  if String.eqb name "riskDistribution" then
    let riskData := field d "risk_distribution" in
    D = JArr [or_else (field riskData "low") (JNum (Fin 0));
              or_else (field riskData "medium") (JNum (Fin 0));
              or_else (field riskData "high") (JNum (Fin 0))]
  else if String.eqb name "featureImportance" then D = importance
  else if String.eqb name "hourlyTrend" then
    let given := field (field d "hourly_trend") "data" in
    if truthy given then D = given
    else exists counts,
           D = JArr counts /\ length counts = 24%nat /\ Forall randomCount counts
  else if String.eqb name "performance" then
    let metrics := field d "performance_metrics" in
    D = JArr [or_else (field metrics "precision") (JNum (Fin 92));
              or_else (field metrics "recall") (JNum (Fin 89));
              or_else (field metrics "f1_score") (JNum (Fin 90));
              or_else (field metrics "auc_score") (JNum (Fin 94))]
  else D = objectValues (ageGroupsOf d).

(** The chart of a name once it is drawn with the labels [l] and the
    data [D]: constructed, when there was none, and otherwise the instance
    that was there, of the type it had, with the data replaced, the labels
    replaced unless they are fixed, and [update()] called once more. *)
Definition redrawn (name : string) (l D : json) (before : option chart) : chart :=
  match before with
  | Some c =>
      {| kind := kind c;
         labels := match fixedLabels name with
                   | Some _ => labels c
                   | None => l
                   end;
         data := D;
         updates := S (updates c) |}
  | None => {| kind := kindOf name; labels := l; data := D; updates := 0 |}
  end.

(** From [before] to [after] the chart of a name is drawn from the
    snapshot [d]. *)
Definition rendered (name : string) (d : json) (before after : option chart) : Prop :=
  exists D, plots name d D /\ after = Some (redrawn name (labelsOf name d) D before).

(** *** What happens to a chart, whatever is drawn *)

(** From [before] to [after] the chart of a name is the same instance
    or one that was constructed meanwhile: its type is the type of the name,
    its fixed labels are as they were written, and [update()] was not
    called fewer times. *)
Definition tended (name : string) (before after : option chart) : Prop :=
  match before, after with
  | Some c, Some c' =>
      kind c' = kind c /\ (updates c <= updates c')%nat
      /\ (forall l, fixedLabels name = Some l -> labels c' = labels c)
  | None, Some c' =>
      kind c' = kindOf name /\ (forall l, fixedLabels name = Some l -> labels c' = l)
  | None, None => True
  | Some _, None => False
  end.

Lemma tended_refl name x : tended name x x.
Proof. destruct x as [c|]; simpl; auto. Qed.

Lemma tended_trans name a b c : tended name a b -> tended name b c -> tended name a c.
Proof.
  destruct a as [ca|], b as [cb|], c as [cc|]; simpl; try tauto.
  - intros (K1 & U1 & L1) (K2 & U2 & L2). split; [congruence|]. split; [lia|].
    intros l Hl. rewrite (L2 l Hl). apply (L1 l Hl).
  - intros (K1 & L1) (K2 & U2 & L2). split; [congruence|].
    intros l Hl. rewrite (L2 l Hl). apply (L1 l Hl).
Qed.

(** The registry grows, and every chart is tended. *)
Definition tends (p p' : page) : Prop :=
  grows p p'
  /\ (sound p -> forall name, tended name (chartOf name p) (chartOf name p')).

Lemma tends_refl p : tends p p.
Proof. split; [apply grows_refl|]. intros _ name. apply tended_refl. Qed.

Lemma tends_trans a b c : tends a b -> tends b c -> tends a c.
Proof.
  intros [G1 T1] [G2 T2]. split; [eapply grows_trans; eassumption|].
  intros Hs name. eapply tended_trans; [apply T1, Hs|].
  apply T2. apply G1, Hs.
Qed.

Lemma calm_grows s s' : calm s s' -> grows s s'.
Proof.
  intros (Hc & Hi & He). apply grows_same; [|exact Hc|exact Hi].
  intros id [e Hid]. destruct (elements s' !! id) eqn:E; [eauto|].
  apply He in E. congruence.
Qed.

Lemma calm_chartOf name s s' : calm s s' -> chartOf name s' = chartOf name s.
Proof. intros (Hc & Hi & _). unfold chartOf. rewrite Hc, Hi. reflexivity. Qed.

Lemma calm_sound s s' : calm s s' -> sound s -> sound s'.
Proof. intros Hc. apply (calm_grows _ _ Hc). Qed.

Lemma calm_tends s s' : calm s s' -> tends s s'.
Proof.
  intros Hc. split; [apply calm_grows, Hc|]. intros _ name.
  rewrite (calm_chartOf name _ _ Hc). apply tended_refl.
Qed.

Lemma respects_weaken {A} (R R' : page -> page -> Prop) (m : M page A) :
  (forall s s', R s s' -> R' s s') -> respects R m -> respects R' m.
Proof. intros HW Hm s. apply HW, Hm. Qed.

(** The end of a function that draws the chart of a name. *)
Lemma tends_upsert name kind0 l D (onSome : nat -> M page unit) :
  In name chartNames -> kind0 = kindOf name ->
  (forall l', fixedLabels name = Some l' -> l = l') ->
  (forall i s,
     elements (exec (onSome i) s) = elements s
     /\ charts (exec (onSome i) s) = charts s
     /\ length (instances (exec (onSome i) s)) = length (instances s)
     /\ (forall j, j <> i -> instances (exec (onSome i) s) !! j = instances s !! j)
     /\ (forall c, instances s !! i = Some c ->
           exists c', instances (exec (onSome i) s) !! i = Some c'
             /\ kind c' = kind c /\ (updates c <= updates c')%nat
             /\ (forall l', fixedLabels name = Some l' -> labels c' = labels c))) ->
  respects tends
    (bind get (fun p =>
       match charts p !! name with
       | Some instance => onSome instance
       | None => createChart name kind0 l D
       end)).
Proof.
  intros Hin Hk Hl Hsome s. rewrite bind_run. cbn [get].
  destruct (charts s !! name) as [i|] eqn:En.
  - destruct (Hsome i s) as (He & Hc & Hlen & Hj & Hown). fold (exec (onSome i) s).
    split; [apply grows_instances; assumption|].
    intros Hs n. unfold chartOf. rewrite Hc.
    destruct (charts s !! n) as [j|] eqn:Ej; [|exact I]. cbn [mbind option_bind].
    destruct (decide (n = name)) as [->|Hne].
    + assert (j = i) by congruence. subst j.
      destruct (sound_lookup s name i Hs En) as [c Hi]. rewrite Hi.
      destruct (Hown c Hi) as (c' & Hi' & K & U & L). rewrite Hi'. simpl. auto.
    + rewrite Hj by (eapply sound_distinct; eassumption).
      apply tended_refl.
  - fold (exec (createChart name kind0 l D) s).
    split; [apply grows_create; assumption|].
    intros Hs n. unfold chartOf. simpl.
    destruct (decide (n = name)) as [->|Hne].
    + rewrite lookup_insert_eq, En. cbn [mbind option_bind].
      rewrite lookup_app_r by lia. rewrite Nat.sub_diag. simpl.
      split; [exact Hk|]. intros l' Hl'. apply Hl, Hl'.
    + rewrite lookup_insert_ne by congruence.
      destruct (charts s !! n) as [j|] eqn:Ej; [|exact I]. cbn [mbind option_bind].
      destruct (sound_lookup s n j Hs Ej) as [c Hi].
      rewrite lookup_app_l by (eapply lookup_lt_Some, Hi). rewrite Hi.
      apply tended_refl.
Qed.

Ltac tends_calm := apply (respects_weaken calm tends _ calm_tends).

(** The side conditions of [tends_upsert], for the updates the script
    makes of an instance. *)
Ltac tends_instance :=
  intros ? ?; split; [reflexivity|]; split; [reflexivity|];
  split; [simpl; rewrite ?length_alter; reflexivity|];
  split;
    [ intros ? ?; simpl; rewrite ?list_lookup_alter_ne by congruence; reflexivity
    | let Hc := fresh in
      intros ? Hc; simpl; rewrite !list_lookup_alter_eq, Hc; simpl;
      eexists; split; [reflexivity|];
      split; [reflexivity|]; split; [simpl; lia|];
      let Hl := fresh in intros ? Hl; first [discriminate Hl|reflexivity] ].

Ltac tends_step :=
  lazymatch goal with
  | |- respects _ (bind get (fun p => match charts p !! _ with _ => _ end)) =>
      apply tends_upsert;
        [ simpl; tauto
        | reflexivity
        | let Hl := fresh in
          intros ? Hl; first [discriminate Hl|injection Hl as <-; reflexivity]
        | tends_instance ]
  | |- respects _ (bind _ _) =>
      apply (respects_bind tends tends_trans); [|intros ?]
  | |- respects _ (ret _) => apply (respects_ret tends tends_refl)
  | |- respects _ (throw _) => apply (respects_throw tends tends_refl)
  | |- respects _ (lift _) => apply (respects_lift tends tends_refl)
  | |- respects _ (if ?b then _ else _) => destruct b
  end.

Section WithHost.
Context `{Host}.

Lemma calm_randomCounts n : respects calm (randomCounts n).
Proof. induction n as [|n IH]; simpl; repeat calm_step. exact IH. Qed.

Lemma calm_feedEntry count prediction index :
  respects calm (feedEntry count prediction index).
Proof. unfold feedEntry. repeat calm_step. Qed.

Lemma calm_forEachFrom {A} (f : A -> nat -> M page unit) (l : list A) :
  (forall a i, respects calm (f a i)) ->
  forall index, respects calm (forEachFrom index l f).
Proof.
  intros Hf. induction l as [|a rest IH]; intros index; simpl.
  - calm_step.
  - calm_step; [apply Hf|apply IH].
Qed.

Lemma calm_updatePredictionFeed predictions r :
  respects calm (updatePredictionFeed predictions r).
Proof.
  unfold updatePredictionFeed.
  repeat first
    [ lazymatch goal with
      | |- respects _ (forEachFrom _ _ _) =>
          apply calm_forEachFrom; intros ? ?; apply calm_feedEntry
      | |- respects _ (try_catch _ _) =>
          apply (respects_try_catch calm calm_refl calm_trans); [|intros ?]
      end
    | calm_step ].
Qed.

Lemma calm_detached body : respects calm body -> respects calm (detached body).
Proof.
  intros Hb. unfold detached.
  apply (respects_try_catch calm calm_refl calm_trans); [exact Hb|].
  intros ?. calm_step.
Qed.

Lemma calm_updateLastUpdateTime : respects calm updateLastUpdateTime.
Proof. unfold updateLastUpdateTime. repeat calm_step. Qed.

Lemma calm_fire_next : respects calm fire_next.
Proof. unfold fire_next, run. repeat calm_step. Qed.

(** Every function that draws a chart tends it. *)
Lemma tends_updateRiskDistributionChart riskData :
  respects tends (updateRiskDistributionChart riskData).
Proof.
  unfold updateRiskDistributionChart.
  repeat first
    [ lazymatch goal with
      | |- respects _ (present _) => tends_calm; repeat calm_step
      | |- respects _ (assign_unguarded _ _ _) => tends_calm; apply calm_assign_unguarded
      end
    | tends_step ].
Qed.

Lemma tends_updateFeatureImportanceChart : respects tends updateFeatureImportanceChart.
Proof.
  unfold updateFeatureImportanceChart.
  repeat first
    [ lazymatch goal with
      | |- respects _ (present _) => tends_calm; repeat calm_step
      end
    | tends_step ].
Qed.

Lemma tends_updateHourlyTrendChart trendData :
  respects tends (updateHourlyTrendChart trendData).
Proof.
  unfold updateHourlyTrendChart.
  repeat first
    [ lazymatch goal with
      | |- respects _ (present _) => tends_calm; repeat calm_step
      | |- respects _ (randomCounts _) => tends_calm; apply calm_randomCounts
      end
    | tends_step ].
Qed.

Lemma tends_updatePerformanceChart metrics :
  respects tends (updatePerformanceChart metrics).
Proof.
  unfold updatePerformanceChart.
  repeat first
    [ lazymatch goal with
      | |- respects _ (present _) => tends_calm; repeat calm_step
      | |- respects _ (assign_unguarded _ _ _) => tends_calm; apply calm_assign_unguarded
      end
    | tends_step ].
Qed.

Lemma tends_updateAgeDistributionChart distribution :
  respects tends (updateAgeDistributionChart distribution).
Proof.
  unfold updateAgeDistributionChart.
  repeat first
    [ lazymatch goal with
      | |- respects _ (present _) => tends_calm; repeat calm_step
      end
    | tends_step ].
Qed.

Lemma tends_updateCharts data : respects tends (updateCharts data).
Proof.
  unfold updateCharts.
  repeat first
    [ lazymatch goal with
      | |- respects _ (updateRiskDistributionChart _) =>
          apply tends_updateRiskDistributionChart
      | |- respects _ updateFeatureImportanceChart =>
          apply tends_updateFeatureImportanceChart
      | |- respects _ (updateHourlyTrendChart _) => apply tends_updateHourlyTrendChart
      | |- respects _ (updatePerformanceChart _) => apply tends_updatePerformanceChart
      | |- respects _ (updateAgeDistributionChart _) =>
          apply tends_updateAgeDistributionChart
      end
    | tends_step ].
Qed.

Lemma tends_updateDashboard data feedReply :
  respects tends (updateDashboard data feedReply).
Proof.
  unfold updateDashboard.
  repeat first
    [ lazymatch goal with
      | |- respects _ (updateStats _) => tends_calm; apply calm_updateStats
      | |- respects _ (updateCharts _) => apply tends_updateCharts
      | |- respects _ (detached _) =>
          tends_calm; apply calm_detached, calm_updatePredictionFeed
      end
    | tends_step ].
Qed.

Lemma tends_attempt r feedReply : respects tends (attempt r feedReply).
Proof.
  unfold attempt.
  repeat first
    [ lazymatch goal with
      | |- respects _ (showLoading _) => tends_calm; apply calm_showLoading
      | |- respects _ (await _ _) => tends_calm; repeat calm_step
      | |- respects _ (modify _) => tends_calm; calm_step
      | |- respects _ (updateDashboard _ _) => apply tends_updateDashboard
      | |- respects _ updateLastUpdateTime => tends_calm; apply calm_updateLastUpdateTime
      | |- respects _ (showNotification _ _) => tends_calm; apply calm_showNotification
      end
    | tends_step ].
Qed.

Lemma tends_recover feedReply e : respects tends (recover feedReply e).
Proof.
  unfold recover, loadSampleData.
  repeat first
    [ lazymatch goal with
      | |- respects _ (record _) => tends_calm; repeat calm_step
      | |- respects _ (samplePredictions _ _) => tends_calm; apply calm_samplePredictions
      | |- respects _ (modify _) => tends_calm; calm_step
      | |- respects _ (updateDashboard _ _) => apply tends_updateDashboard
      | |- respects _ updateLastUpdateTime => tends_calm; apply calm_updateLastUpdateTime
      | |- respects _ (showNotification _ _) => tends_calm; apply calm_showNotification
      end
    | tends_step ].
Qed.

Lemma tends_loadDashboardData r feedReply :
  respects tends (loadDashboardData r feedReply).
Proof.
  rewrite loadDashboardData_split.
  apply (respects_try_catch_finally tends tends_trans).
  - apply tends_attempt.
  - apply tends_recover.
  - tends_calm. apply calm_showLoading.
Qed.

Lemma tends_after es : forall p, tends p (after es p).
Proof.
  induction es as [|e es IH]; intros p; simpl.
  - apply tends_refl.
  - eapply tends_trans; [|apply IH].
    destruct e as [r feedReply|]; unfold exec, step.
    + apply tends_loadDashboardData.
    + apply calm_tends, calm_fire_next.
Qed.

(** *** What a function that returns has drawn *)

Lemma lift_ok_inv {A B} (r : result A) (k : A -> M page B) s b s' :
  bind (lift r) k s = (Ok b, s') -> exists a, r = Ok a /\ k a s = (Ok b, s').
Proof. destruct r as [a|e]; [eauto|]. rewrite bind_run. discriminate. Qed.

Lemma field_read v name x : prop v name = Ok x -> field v name = x.
Proof. unfold field. intros ->. reflexivity. Qed.

Lemma calm_run {A} (m : M page A) s a s' :
  respects calm m -> m s = (a, s') -> calm s s'.
Proof. intros Hm E. specialize (Hm s). rewrite E in Hm. exact Hm. Qed.

(** The end of a function that draws the chart of a name: the chart is
    redrawn. *)
Lemma upsert_renders name kind0 l D (onSome : nat -> M page unit) s r s' :
  sound s -> kind0 = kindOf name ->
  (forall i s, charts (exec (onSome i) s) = charts s) ->
  (forall i s c, instances s !! i = Some c ->
     instances (exec (onSome i) s) !! i = Some (redrawn name l D (Some c))) ->
  bind get (fun p =>
    match charts p !! name with
    | Some instance => onSome instance
    | None => createChart name kind0 l D
    end) s = (r, s') ->
  chartOf name s' = Some (redrawn name l D (chartOf name s)).
Proof.
  intros Hs Hk Hc Hd E. rewrite bind_run in E. cbn [get] in E.
  unfold chartOf.
  destruct (charts s !! name) as [i|] eqn:En.
  - destruct (sound_lookup s name i Hs En) as [c Hi].
    assert (Es : s' = exec (onSome i) s) by (unfold exec; rewrite E; reflexivity).
    subst s'. rewrite Hc, En. cbn [mbind option_bind]. rewrite Hi.
    apply Hd, Hi.
  - injection E as _ <-. simpl. rewrite lookup_insert_eq. cbn [mbind option_bind].
    rewrite lookup_app_r by lia. rewrite Nat.sub_diag, Hk. reflexivity.
Qed.

(** The end of a run [E] of such a function. *)
Ltac renders E Hs :=
  eapply upsert_renders in E;
    [ | exact Hs | reflexivity | intros ? ?; reflexivity
      | let Hi := fresh in
        intros ? ? ? Hi; simpl; rewrite !list_lookup_alter_eq, Hi; reflexivity ].

(** A run [E] that starts with a step that draws nothing: the rest of
    it, from a registry that is as sound and holds the same charts. *)
Ltac past_calm E Hs lem :=
  let E0 := fresh "E" in
  let C := fresh "C" in
  apply bind_ok_inv in E as (? & ? & E0 & E);
  pose proof (calm_run _ _ _ _ lem E0) as C;
  apply (calm_sound _ _ C) in Hs;
  rewrite <- ?(calm_chartOf _ _ _ C);
  clear E0 C.

Lemma randomCounts_run n :
  forall s, exists counts s',
    randomCounts n s = (Ok counts, s')
    /\ length counts = n /\ Forall randomCount counts /\ calm s s'.
Proof.
  induction n as [|n IH]; intros s.
  - exists [], s. split; [reflexivity|]. split; [reflexivity|].
    split; [constructor|apply calm_refl].
  - destruct (IH (with_drawn S s)) as (counts & s' & E & Hl & Hf & Hc).
    exists (JNum (floor (mul (random s (drawn s)) (Fin 10))) :: counts), s'.
    split; [|split; [|split]].
    + cbn [randomCounts]. unfold mathRandom. rewrite !bind_run. cbn [get].
      rewrite bind_run. cbn [modify ret]. rewrite bind_run, E. reflexivity.
    + simpl. congruence.
    + constructor; [eexists; reflexivity|exact Hf].
    + eapply calm_trans; [|exact Hc].
      split; [reflexivity|]. split; [reflexivity|]. intros id. reflexivity.
Qed.

Lemma updateRiskDistributionChart_renders d riskData s s' :
  prop d "risk_distribution" = Ok riskData ->
  sound s -> is_Some (elements s !! "riskDistributionChart") ->
  updateRiskDistributionChart riskData s = (Ok tt, s') ->
  rendered "riskDistribution" d
    (chartOf "riskDistribution" s) (chartOf "riskDistribution" s').
Proof.
  intros Ed Hs Hc E. unfold updateRiskDistributionChart in E.
  rewrite bind_run, present_run, bool_decide_eq_true_2 in E by assumption.
  cbn [negb] in E.
  apply lift_ok_inv in E as (low & El & E).
  apply lift_ok_inv in E as (medium & Em & E).
  apply lift_ok_inv in E as (high & Eh & E). cbv zeta in E.
  past_calm E Hs (calm_assign_unguarded "lowRiskPercent" "textContent"
                    (percent (or_else low (JNum (Fin 0)))
                       (plus (plus (or_else low (JNum (Fin 0)))
                                (or_else medium (JNum (Fin 0))))
                          (or_else high (JNum (Fin 0)))))).
  past_calm E Hs (calm_assign_unguarded "mediumRiskPercent" "textContent"
                    (percent (or_else medium (JNum (Fin 0)))
                       (plus (plus (or_else low (JNum (Fin 0)))
                                (or_else medium (JNum (Fin 0))))
                          (or_else high (JNum (Fin 0)))))).
  past_calm E Hs (calm_assign_unguarded "highRiskPercent" "textContent"
                    (percent (or_else high (JNum (Fin 0)))
                       (plus (plus (or_else low (JNum (Fin 0)))
                                (or_else medium (JNum (Fin 0))))
                          (or_else high (JNum (Fin 0)))))).
  renders E Hs.
  eexists. split; [|exact E].
  unfold plots. cbn [String.eqb Ascii.eqb Bool.eqb]. cbv zeta.
  rewrite (field_read _ _ _ Ed), (field_read _ _ _ El), (field_read _ _ _ Em),
    (field_read _ _ _ Eh).
  reflexivity.
Qed.

Lemma updateFeatureImportanceChart_renders d s s' :
  sound s -> is_Some (elements s !! "featureImportanceChart") ->
  updateFeatureImportanceChart s = (Ok tt, s') ->
  rendered "featureImportance" d
    (chartOf "featureImportance" s) (chartOf "featureImportance" s').
Proof.
  intros Hs Hc E. unfold updateFeatureImportanceChart in E.
  rewrite bind_run, present_run, bool_decide_eq_true_2 in E by assumption.
  cbn [negb] in E.
  renders E Hs.
  eexists. split; [|exact E]. reflexivity.
Qed.

Lemma updateHourlyTrendChart_renders d trendData s s' :
  prop d "hourly_trend" = Ok trendData ->
  sound s -> is_Some (elements s !! "hourlyTrendChart") ->
  updateHourlyTrendChart trendData s = (Ok tt, s') ->
  rendered "hourlyTrend" d (chartOf "hourlyTrend" s) (chartOf "hourlyTrend" s').
Proof.
  intros Ed Hs Hc E. unfold updateHourlyTrendChart in E.
  rewrite bind_run, present_run, bool_decide_eq_true_2 in E by assumption.
  cbn [negb] in E.
  apply lift_ok_inv in E as (labels0 & El & E). cbv zeta in E.
  apply lift_ok_inv in E as (data0 & Ea & E).
  apply bind_ok_inv in E as (D & s1 & E1 & E).
  assert (HD : calm s s1
               /\ if truthy data0 then D = data0
                  else exists counts,
                         D = JArr counts /\ length counts = 24%nat
                         /\ Forall randomCount counts).
  { destruct (truthy data0).
    - injection E1 as <- <-. split; [apply calm_refl|reflexivity].
    - destruct (randomCounts_run 24 s) as (counts & s2 & E2 & Hl & Hf & C).
      rewrite bind_run, E2 in E1. injection E1 as <- <-.
      split; [exact C|]. exists counts. auto. }
  destruct HD as [C HD].
  apply (calm_sound _ _ C) in Hs. rewrite <- (calm_chartOf _ _ _ C).
  renders E Hs.
  assert (EL : labelsOf "hourlyTrend" d = or_else labels0 hourLabels).
  { unfold labelsOf. change (fixedLabels "hourlyTrend") with (@None json).
    cbn [String.eqb Ascii.eqb Bool.eqb].
    rewrite (field_read _ _ _ Ed), (field_read _ _ _ El). reflexivity. }
  exists D. split; [|rewrite EL; exact E].
  unfold plots. cbn [String.eqb Ascii.eqb Bool.eqb]. cbv zeta.
  rewrite (field_read _ _ _ Ed), (field_read _ _ _ Ea). exact HD.
Qed.

Lemma updatePerformanceChart_renders d metrics s s' :
  prop d "performance_metrics" = Ok metrics ->
  sound s -> is_Some (elements s !! "performanceChart") ->
  updatePerformanceChart metrics s = (Ok tt, s') ->
  rendered "performance" d (chartOf "performance" s) (chartOf "performance" s').
Proof.
  intros Ed Hs Hc E. unfold updatePerformanceChart in E.
  rewrite bind_run, present_run, bool_decide_eq_true_2 in E by assumption.
  cbn [negb] in E.
  apply lift_ok_inv in E as (precision & Ep & E).
  apply lift_ok_inv in E as (text1 & _ & E).
  past_calm E Hs (calm_assign_unguarded "precisionValue" "textContent" (text1 ++ "%")).
  apply lift_ok_inv in E as (recall & Er & E).
  apply lift_ok_inv in E as (text2 & _ & E).
  past_calm E Hs (calm_assign_unguarded "recallValue" "textContent" (text2 ++ "%")).
  apply lift_ok_inv in E as (f1 & Ef & E).
  apply lift_ok_inv in E as (text3 & _ & E).
  past_calm E Hs (calm_assign_unguarded "f1Value" "textContent" (text3 ++ "%")).
  apply lift_ok_inv in E as (auc & Eu & E). cbv zeta in E.
  renders E Hs.
  eexists. split; [|exact E].
  unfold plots. cbn [String.eqb Ascii.eqb Bool.eqb]. cbv zeta.
  rewrite (field_read _ _ _ Ed), (field_read _ _ _ Ep), (field_read _ _ _ Er),
    (field_read _ _ _ Ef), (field_read _ _ _ Eu).
  reflexivity.
Qed.

Lemma updateAgeDistributionChart_renders d distribution s s' :
  prop d "feature_distribution" = Ok distribution ->
  sound s -> is_Some (elements s !! "ageDistributionChart") ->
  updateAgeDistributionChart distribution s = (Ok tt, s') ->
  rendered "ageDistribution" d
    (chartOf "ageDistribution" s) (chartOf "ageDistribution" s').
Proof.
  intros Ed Hs Hc E. unfold updateAgeDistributionChart in E.
  rewrite bind_run, present_run, bool_decide_eq_true_2 in E by assumption.
  cbn [negb] in E.
  apply lift_ok_inv in E as (groups & Eg & E). cbv zeta in E.
  renders E Hs.
  assert (EG : ageGroupsOf d = or_else groups defaultAgeGroups).
  { unfold ageGroupsOf. rewrite (field_read _ _ _ Ed), (field_read _ _ _ Eg).
    reflexivity. }
  assert (EL : labelsOf "ageDistribution" d
               = objectKeys (or_else groups defaultAgeGroups)).
  { unfold labelsOf. change (fixedLabels "ageDistribution") with (@None json).
    cbn [String.eqb Ascii.eqb Bool.eqb]. rewrite EG. reflexivity. }
  eexists. split; [|rewrite EL; exact E].
  unfold plots. cbn [String.eqb Ascii.eqb Bool.eqb]. rewrite EG. reflexivity.
Qed.

Lemma steady_chartOf T name p p' :
  steady T p p' -> sound p -> ~ In name T -> chartOf name p' = chartOf name p.
Proof. intros (_ & F & _) Hs Hn. apply F; assumption. Qed.

(** [updateCharts] that returns has drawn the five charts from the
    snapshot, each of them once. *)
Lemma updateCharts_renders d s s' :
  sound s -> (forall c, In c canvases -> is_Some (elements s !! c)) ->
  updateCharts d s = (Ok tt, s') ->
  forall name, In name chartNames ->
    rendered name d (chartOf name s) (chartOf name s').
Proof.
  intros Hs Hc E. unfold updateCharts in E.
  apply lift_ok_inv in E as (riskData & Er & E).
  apply bind_ok_inv in E as ([] & s1 & E1 & E).
  apply bind_ok_inv in E as ([] & s2 & E2 & E).
  apply lift_ok_inv in E as (trendData & Et & E).
  apply bind_ok_inv in E as ([] & s3 & E3 & E).
  apply lift_ok_inv in E as (metrics & Em & E).
  apply bind_ok_inv in E as ([] & s4 & E4 & E).
  apply lift_ok_inv in E as (distribution & Ed & E).
  grown G1 E1. grown G2 E2. grown G3 E3. grown G4 E4.
  pose proof (proj2 (proj2 (proj2 G1)) Hs) as Hs1.
  pose proof (proj2 (proj2 (proj2 G2)) Hs1) as Hs2.
  pose proof (proj2 (proj2 (proj2 G3)) Hs2) as Hs3.
  pose proof (proj2 (proj2 (proj2 G4)) Hs3) as Hs4.
  set (T1 := ["riskDistribution"]). set (T2 := ["featureImportance"]).
  set (T3 := ["hourlyTrend"]). set (T4 := ["performance"]).
  set (T5 := ["ageDistribution"]).
  framed S1 T1 E1. framed S2 T2 E2. framed S3 T3 E3. framed S4 T4 E4. framed S5 T5 E.
  intros name Hin. unfold chartNames in Hin. cbn [In] in Hin.
  destruct Hin as [<-|[<-|[<-|[<-|[<-|[]]]]]].
  - rewrite (steady_chartOf T5 _ _ _ S5 Hs4), (steady_chartOf T4 _ _ _ S4 Hs3),
      (steady_chartOf T3 _ _ _ S3 Hs2), (steady_chartOf T2 _ _ _ S2 Hs1)
      by (simpl; intuition discriminate).
    eapply updateRiskDistributionChart_renders; [exact Er|exact Hs| |exact E1].
    apply Hc. simpl. tauto.
  - rewrite (steady_chartOf T5 _ _ _ S5 Hs4), (steady_chartOf T4 _ _ _ S4 Hs3),
      (steady_chartOf T3 _ _ _ S3 Hs2) by (simpl; intuition discriminate).
    rewrite <- (steady_chartOf T1 "featureImportance" _ _ S1 Hs)
      by (simpl; intuition discriminate).
    eapply updateFeatureImportanceChart_renders; [exact Hs1| |exact E2].
    apply (proj1 G1), Hc. simpl. tauto.
  - rewrite (steady_chartOf T5 _ _ _ S5 Hs4), (steady_chartOf T4 _ _ _ S4 Hs3)
      by (simpl; intuition discriminate).
    rewrite <- (steady_chartOf T1 "hourlyTrend" _ _ S1 Hs),
      <- (steady_chartOf T2 "hourlyTrend" _ _ S2 Hs1)
      by (simpl; intuition discriminate).
    eapply updateHourlyTrendChart_renders; [exact Et|exact Hs2| |exact E3].
    apply (proj1 G2), (proj1 G1), Hc. simpl. tauto.
  - rewrite (steady_chartOf T5 _ _ _ S5 Hs4) by (simpl; intuition discriminate).
    rewrite <- (steady_chartOf T1 "performance" _ _ S1 Hs),
      <- (steady_chartOf T2 "performance" _ _ S2 Hs1),
      <- (steady_chartOf T3 "performance" _ _ S3 Hs2)
      by (simpl; intuition discriminate).
    eapply updatePerformanceChart_renders; [exact Em|exact Hs3| |exact E4].
    apply (proj1 G3), (proj1 G2), (proj1 G1), Hc. simpl. tauto.
  - rewrite <- (steady_chartOf T1 "ageDistribution" _ _ S1 Hs),
      <- (steady_chartOf T2 "ageDistribution" _ _ S2 Hs1),
      <- (steady_chartOf T3 "ageDistribution" _ _ S3 Hs2),
      <- (steady_chartOf T4 "ageDistribution" _ _ S4 Hs3)
      by (simpl; intuition discriminate).
    eapply updateAgeDistributionChart_renders; [exact Ed|exact Hs4| |exact E].
    apply (proj1 G4), (proj1 G3), (proj1 G2), (proj1 G1), Hc. simpl. tauto.
Qed.

(** [updateDashboard] that returns has drawn them, and nothing else has
    touched them. *)
Lemma updateDashboard_renders d feedReply s s' :
  sound s -> (forall c, In c canvases -> is_Some (elements s !! c)) ->
  updateDashboard d feedReply s = (Ok tt, s') ->
  forall name, In name chartNames ->
    rendered name d (chartOf name s) (chartOf name s').
Proof.
  intros Hs Hc E name Hin. unfold updateDashboard in E.
  apply lift_ok_inv in E as (overview & _ & E).
  apply bind_ok_inv in E as ([] & s1 & E1 & E).
  apply bind_ok_inv in E as ([] & s2 & E2 & E).
  apply lift_ok_inv in E as (timeline & _ & E).
  pose proof (calm_run _ _ _ _ (calm_updateStats overview) E1) as C1.
  pose proof (calm_run _ _ _ _
                (calm_detached _ (calm_updatePredictionFeed timeline feedReply)) E) as C3.
  rewrite (calm_chartOf _ _ _ C3), <- (calm_chartOf name _ _ C1).
  eapply updateCharts_renders; [apply (calm_sound _ _ C1), Hs| |exact E2|exact Hin].
  intros c Hcan. apply (proj1 (calm_grows _ _ C1)), Hc, Hcan.
Qed.

End WithHost.

(** *** What a function leaves as it was *)

(** The data of the page is as it was. *)
Definition sameData (p p' : page) : Prop := dashboardData p' = dashboardData p.

(** The feed, its items and the time are as they were. *)
Definition sameFeed (p p' : page) : Prop :=
  feedItems p' = feedItems p /\ feed p' = feed p /\ clock p' = clock p.

Lemma sameData_refl p : sameData p p.
Proof. reflexivity. Qed.

Lemma sameData_trans a b c : sameData a b -> sameData b c -> sameData a c.
Proof. unfold sameData. congruence. Qed.

Lemma sameFeed_refl p : sameFeed p p.
Proof. repeat split. Qed.

Lemma sameFeed_trans a b c : sameFeed a b -> sameFeed b c -> sameFeed a c.
Proof. unfold sameFeed. intros (? & ? & ?) (? & ? & ?). repeat split; congruence. Qed.

(** One step through a function, for a relation [R] that every write
    but the ones to the fields it speaks of respects. *)
Ltac frame_step R Rrefl Rtrans :=
  lazymatch goal with
  | |- respects _ (bind _ _) => apply (respects_bind R Rtrans); [|intros ?]
  | |- respects _ (ret _) => apply (respects_ret R Rrefl)
  | |- respects _ (throw _) => apply (respects_throw R Rrefl)
  | |- respects _ (lift _) => apply (respects_lift R Rrefl)
  | |- respects _ get => apply (respects_get R Rrefl)
  | |- respects _ (when _ _) => apply (respects_when R Rrefl)
  | |- respects _ (try_catch _ _) =>
      apply (respects_try_catch R Rrefl Rtrans); [|intros ?]
  | |- respects _ (modify _) =>
      apply respects_modify; intros ?; repeat split
  | |- respects _ (record _) => unfold record
  | |- respects _ (setTimeout _ _) => unfold setTimeout
  | |- respects _ (present _) => unfold present
  | |- respects _ (assign _ _ _) => unfold assign
  | |- respects _ (assign_unguarded _ _ _) => unfold assign_unguarded
  | |- respects _ now => unfold now
  | |- respects _ mathRandom => unfold mathRandom
  | |- respects _ (await _ _) => unfold await
  | |- respects _ (createChart _ _ _ _) => unfold createChart
  | |- respects _ (animateCounter _ _) => unfold animateCounter
  | |- respects _ (detached _) => unfold detached
  | |- respects _ (if ?b then _ else _) => destruct b
  | |- respects _ (match ?x with _ => _ end) => destruct x
  end.

Ltac data_step := frame_step sameData sameData_refl sameData_trans.
Ltac feed_step := frame_step sameFeed sameFeed_refl sameFeed_trans.

Section Frames.
Context `{Host}.

Lemma sameData_randomCounts n : respects sameData (randomCounts n).
Proof. induction n as [|n IH]; simpl; repeat data_step. exact IH. Qed.

Lemma sameFeed_randomCounts n : respects sameFeed (randomCounts n).
Proof. induction n as [|n IH]; simpl; repeat feed_step. exact IH. Qed.

Lemma sameData_updateStats overview : respects sameData (updateStats overview).
Proof. unfold updateStats. repeat data_step. Qed.

Lemma sameFeed_updateStats overview : respects sameFeed (updateStats overview).
Proof. unfold updateStats. repeat feed_step. Qed.

Lemma sameData_updateCharts d : respects sameData (updateCharts d).
Proof.
  unfold updateCharts, updateRiskDistributionChart, updateFeatureImportanceChart,
    updateHourlyTrendChart, updatePerformanceChart, updateAgeDistributionChart.
  repeat first
    [ lazymatch goal with
      | |- respects _ (randomCounts _) => apply sameData_randomCounts
      end
    | data_step ].
Qed.

Lemma sameFeed_updateCharts d : respects sameFeed (updateCharts d).
Proof.
  unfold updateCharts, updateRiskDistributionChart, updateFeatureImportanceChart,
    updateHourlyTrendChart, updatePerformanceChart, updateAgeDistributionChart.
  repeat first
    [ lazymatch goal with
      | |- respects _ (randomCounts _) => apply sameFeed_randomCounts
      end
    | feed_step ].
Qed.

Lemma sameData_forEachFrom {A} (f : A -> nat -> M page unit) (l : list A) :
  (forall a i, respects sameData (f a i)) ->
  forall index, respects sameData (forEachFrom index l f).
Proof.
  intros Hf. induction l as [|a rest IH]; intros index; simpl.
  - data_step.
  - data_step; [apply Hf|apply IH].
Qed.

Lemma sameData_updatePredictionFeed predictions r :
  respects sameData (updatePredictionFeed predictions r).
Proof.
  unfold updatePredictionFeed.
  repeat first
    [ lazymatch goal with
      | |- respects _ (forEachFrom _ _ _) =>
          apply sameData_forEachFrom; intros ? ?; unfold feedEntry; repeat data_step
      end
    | data_step ].
Qed.

Lemma sameData_updateDashboard d feedReply :
  respects sameData (updateDashboard d feedReply).
Proof.
  unfold updateDashboard.
  repeat first
    [ lazymatch goal with
      | |- respects _ (updateStats _) => apply sameData_updateStats
      | |- respects _ (updateCharts _) => apply sameData_updateCharts
      | |- respects _ (updatePredictionFeed _ _) => apply sameData_updatePredictionFeed
      end
    | data_step ].
Qed.

Lemma sameData_updateLastUpdateTime : respects sameData updateLastUpdateTime.
Proof. unfold updateLastUpdateTime. repeat data_step. Qed.

Lemma sameFeed_updateLastUpdateTime : respects sameFeed updateLastUpdateTime.
Proof. unfold updateLastUpdateTime. repeat feed_step. Qed.

Lemma sameData_showNotification message type :
  respects sameData (showNotification message type).
Proof. unfold showNotification. repeat data_step. Qed.

Lemma sameFeed_showNotification message type :
  respects sameFeed (showNotification message type).
Proof. unfold showNotification. repeat feed_step. Qed.

Lemma sameData_showLoading show : respects sameData (showLoading show).
Proof. unfold showLoading. repeat data_step. Qed.

Lemma sameFeed_showLoading show : respects sameFeed (showLoading show).
Proof. unfold showLoading. repeat feed_step. Qed.

Lemma sameFeed_samplePredictions n : forall i, respects sameFeed (samplePredictions n i).
Proof.
  induction n as [|n IH]; intros i; simpl.
  - feed_step.
  - unfold samplePrediction. repeat feed_step. apply IH.
Qed.

End Frames.

(** *** The items of the feed *)

Section FeedItems.
Context `{Host}.

(** The item the feed shows for a prediction, under a title: the time
    of the prediction at the time [current], its glucose, its age and its
    risk level, with [N/A] and [unknown] for what is missing. *)
Definition itemWith (heading : string) (current : number) (prediction : json) : feedItem :=
  let predictionData := or_else (field prediction "prediction") (JObj []) in
  let riskLevel := or_else (field prediction "risk_level") (JStr "unknown") in
  {| title := heading;
     time := formatTime current (field prediction "timestamp");
     glucose :=
       toString (or_else (or_else (field predictionData "Glucose")
                            (field predictionData "glucose")) (JStr "N/A"));
     age :=
       toString (or_else (or_else (field predictionData "Age")
                            (field predictionData "age")) (JStr "N/A"));
     badgeClass := "risk-badge " ++ toString riskLevel;
     badge := toUpperCase (toString riskLevel);
     shown := false |}.

(** The item of the prediction of rank [index] among [count]: they are
    numbered from [count] down to 1. *)
Definition itemOf (current : number) (count index : nat) (prediction : json) : feedItem :=
  itemWith ("Prediction #" ++ JSString.ofZ (Z.of_nat count - Z.of_nat index))
    current prediction.

Lemma feedEntry_renders count prediction index p :
  renderable prediction ->
  feedEntry count prediction index p
  = (Ok tt, entered index
              (itemWith (titleAt count index) (JSNumber.ofZ (clock p)) prediction) p).
Proof.
  intros (level & Hl & Hcase). unfold feedEntry.
  destruct (prop_other prediction "risk_level" level "prediction" Hl) as [inner Hi].
  destruct (prop_other prediction "risk_level" level "timestamp" Hl) as [timestamp Ht].
  rewrite (bind_lift _ _ _ _ Hi). cbv zeta.
  destruct (prop_fallback inner "Glucose") as [g1 Hg1].
  destruct (prop_fallback inner "glucose") as [g2 Hg2].
  destruct (prop_fallback inner "Age") as [a1 Ha1].
  destruct (prop_fallback inner "age") as [a2 Ha2].
  rewrite (bind_lift _ _ _ _ Hg1), (bind_lift _ _ _ _ Hg2).
  rewrite (bind_lift _ _ _ _ Ha1), (bind_lift _ _ _ _ Ha2).
  rewrite (bind_lift _ _ _ _ Hl), (bind_lift _ _ _ _ Ht).
  assert (Hs : stringReceiver (or_else level (JStr "unknown")) "toUpperCase"
               = Ok (toString (or_else level (JStr "unknown")))).
  { unfold or_else. destruct Hcase as [Hf|[s ->]].
    - rewrite Hf. reflexivity.
    - destruct (truthy (JStr s)); reflexivity. }
  unfold now. rewrite !bind_run. cbn [get ret].
  rewrite (bind_lift _ _ _ _ Hs). rewrite !bind_run. cbn [get].
  unfold itemWith, titleAt.
  rewrite (field_read _ _ _ Hi), (field_read _ _ _ Hl), (field_read _ _ _ Ht),
    (field_read _ _ _ Hg1), (field_read _ _ _ Hg2), (field_read _ _ _ Ha1),
    (field_read _ _ _ Ha2).
  reflexivity.
Qed.

(** The loop over predictions that are all renderable: their items, in
    their order. *)
Lemma forEachFrom_renders count items :
  Forall renderable items ->
  forall index p,
    exists p',
      forEachFrom index items (feedEntry count) p = (Ok tt, p')
      /\ feedItems p'
         = (feedItems p
            ++ imap (fun j => itemWith (titleAt count (index + j))
                                (JSNumber.ofZ (clock p))) items)%list
      /\ feed p'
         = (feed p ++ seq (length (feedItems p)) (length items))%list
      /\ clock p' = clock p.
Proof.
  induction 1 as [|prediction items Hr _ IH]; intros index p.
  - exists p. simpl. rewrite !app_nil_r. auto.
  - pose proof (feedEntry_renders count prediction index p Hr) as E1.
    set (item := itemWith (titleAt count index) (JSNumber.ofZ (clock p)) prediction) in *.
    destruct (IH (S index) (entered index item p)) as (p' & E2 & Hi & Hf & Hk).
    exists p'. split; [|split; [|split]].
    + cbn [forEachFrom]. rewrite bind_run, E1. exact E2.
    + rewrite Hi. simpl. rewrite <- app_assoc. simpl. rewrite Nat.add_0_r.
      do 2 f_equal. apply imap_ext. intros j x _. simpl.
      rewrite Nat.add_succ_r. reflexivity.
    + rewrite Hf. simpl. rewrite <- app_assoc, length_app. simpl.
      rewrite Nat.add_1_r. reflexivity.
    + rewrite Hk. reflexivity.
Qed.

Lemma sampleShaped_renderable prediction : sampleShaped prediction -> renderable prediction.
Proof.
  intros (timestamp & glucose & age & level & -> & Hl).
  exists level. split; [reflexivity|]. simpl in Hl.
  destruct Hl as [<-|[<-|[<-|[<-|[]]]]]; eauto.
Qed.

(** The feed of a list of renderable predictions that is passed to the
    function, on a page that has the container: the items of the
    predictions, and no other. *)
Lemma updatePredictionFeed_renders items r p :
  is_Some (elements p !! "predictionFeed") ->
  items <> [] -> (Z.of_nat (length items) < 2 ^ 32)%Z ->
  Forall renderable items ->
  exists p',
    updatePredictionFeed (JArr items) r p = (Ok tt, p')
    /\ feedItems p'
       = (feedItems p ++ imap (itemOf (JSNumber.ofZ (clock p)) (length items)) items)%list
    /\ feed p' = seq (length (feedItems p)) (length items).
Proof.
  intros Hc Hne Hn Hr. rewrite updatePredictionFeed_given by assumption.
  destruct (Z.eqb_spec (Z.of_nat (length items)) 0) as [E0|_].
  { destruct items; [congruence|discriminate E0]. }
  destruct (forEachFrom_renders (JNum (Fin (inject_Z (Z.of_nat (length items)))))
              items Hr 0 (cleared p)) as (p' & E & Hi & Hf & _).
  exists p'. split; [exact E|]. split; [|exact Hf].
  rewrite Hi. change (feedItems (cleared p)) with (feedItems p).
  change (clock (cleared p)) with (clock p). f_equal.
  apply imap_ext. intros j x Hj. simpl. unfold itemOf. f_equal.
  apply titleAt_counts; [|exact Hn]. eapply lookup_lt_Some, Hj.
Qed.

End FeedItems.

(** *** A refresh *)

Section Refresh.
Context `{Host}.

Lemma run_respects {A} (R : page -> page -> Prop) (m : M page A) s a s' :
  respects R m -> m s = (a, s') -> R s s'.
Proof. intros Hm E. specialize (Hm s). rewrite E in Hm. exact Hm. Qed.

Lemma calm_complete s s' : calm s s' -> complete s -> complete s'.
Proof. intros C. apply complete_keeps, (proj1 (calm_grows _ _ C)). Qed.

Lemma calm_record c : respects calm (record c).
Proof. repeat calm_step. Qed.

Lemma sameFeed_record c : respects sameFeed (record c).
Proof. repeat feed_step. Qed.

(** The [catch] block, on a complete page: the sample data is
    installed, its five predictions are generated, the five charts are
    drawn from it, each of them once, and the feed holds the items of the
    five predictions. *)
Lemma recover_renders feedReply e s :
  complete s ->
  exists tl s',
    recover feedReply e s = (Ok tt, s')
    /\ length tl = 5%nat /\ Forall sampleShaped tl
    /\ dashboardData s' = Some (sampleData tl)
    /\ (sound s ->
        forall name, In name chartNames ->
          rendered name (sampleData tl) (chartOf name s) (chartOf name s'))
    /\ feedItems s'
       = (feedItems s ++ imap (itemOf (JSNumber.ofZ (clock s)) 5) tl)%list
    /\ feed s' = seq (length (feedItems s)) 5.
Proof.
  intros Hs.
  destruct (record (ConsoleError "Error loading dashboard data:") s)
    as [r1 s1] eqn:E1.
  assert (r1 = Ok tt) by (injection E1 as <- _; reflexivity). subst r1.
  destruct (showNotification "Failed to load dashboard data" "error" s1)
    as [r2 s2] eqn:E2.
  assert (r2 = Ok tt).
  { destruct (showNotification_raises "Failed to load dashboard data" "error" s1)
      as (? & ? & E & _). congruence. }
  subst r2.
  destruct (record (ConsoleLog "Loading sample data for development") s2)
    as [r3 s3] eqn:E3.
  assert (r3 = Ok tt) by (injection E3 as <- _; reflexivity). subst r3.
  destruct (samplePredictions_run 5 0 s3) as (tl & s4 & E4 & Hlen & Hshape & _ & _).
  set (s5 := with_dashboardData (fun _ => Some (sampleData tl)) s4).
  (* nothing is drawn and the feed is not touched up to here *)
  pose proof (run_respects calm _ _ _ _ (calm_record _) E1) as C1.
  pose proof (run_respects calm _ _ _ _ (calm_showNotification _ _) E2) as C2.
  pose proof (run_respects calm _ _ _ _ (calm_record _) E3) as C3.
  pose proof (run_respects calm _ _ _ _ (calm_samplePredictions 5 0) E4) as C4.
  assert (C5 : calm s s5).
  { eapply calm_trans; [exact C1|]. eapply calm_trans; [exact C2|].
    eapply calm_trans; [exact C3|]. eapply calm_trans; [exact C4|].
    split; [reflexivity|]. split; [reflexivity|]. intros id. reflexivity. }
  pose proof (run_respects sameFeed _ _ _ _ (sameFeed_record _) E1) as F1.
  pose proof (run_respects sameFeed _ _ _ _ (sameFeed_showNotification _ _) E2) as F2.
  pose proof (run_respects sameFeed _ _ _ _ (sameFeed_record _) E3) as F3.
  pose proof (run_respects sameFeed _ _ _ _ (sameFeed_samplePredictions 5 0) E4) as F4.
  assert (F5 : sameFeed s s5).
  { eapply sameFeed_trans; [exact F1|]. eapply sameFeed_trans; [exact F2|].
    eapply sameFeed_trans; [exact F3|]. eapply sameFeed_trans; [exact F4|].
    repeat split. }
  assert (Hready : ready tl (raised (calls s5)) s5).
  { split; [apply (calm_complete _ _ C5), Hs|]. split; reflexivity. }
  (* the dashboard, on the sample data *)
  destruct (runs_updateStats tl _ _ eq_refl s5 Hready) as ([] & sA & EA & HrA & _).
  destruct (runs_updateCharts tl _ sA HrA) as ([] & sB & EB & HrB & _).
  destruct (updatePredictionFeed_renders tl feedReply sB) as (sC & EC & Hitems & Hfeed).
  { apply (proj1 HrB). unfold required. apply in_or_app. right. apply in_or_app.
    right. simpl. tauto. }
  { intros ->. discriminate Hlen. }
  { rewrite Hlen. reflexivity. }
  { eapply Forall_impl; [exact Hshape|]. apply sampleShaped_renderable. }
  assert (ED : updateDashboard (sampleData tl) feedReply s5 = (Ok tt, sC)).
  { unfold updateDashboard, detached.
    erewrite bind_ok by reflexivity. erewrite bind_ok by exact EA.
    erewrite bind_ok by exact EB. erewrite bind_ok by reflexivity.
    apply try_catch_ok. exact EC. }
  destruct (updateLastUpdateTime sC) as [r6 s6] eqn:E6.
  assert (r6 = Ok tt) by (injection E6 as <- _; reflexivity). subst r6.
  pose proof (run_respects calm _ _ _ _ calm_updateLastUpdateTime E6) as C6.
  pose proof (run_respects sameFeed _ _ _ _ sameFeed_updateLastUpdateTime E6) as F6.
  pose proof (run_respects sameData _ _ _ _ sameData_updateLastUpdateTime E6) as D6.
  pose proof (run_respects sameData _ _ _ _ (sameData_updateDashboard _ _) ED) as D5.
  pose proof (run_respects sameFeed _ _ _ _ (sameFeed_updateStats _) EA) as FA.
  pose proof (run_respects sameFeed _ _ _ _ (sameFeed_updateCharts _) EB) as FB.
  exists tl, s6. split; [|split; [exact Hlen|split; [exact Hshape|split; [|split; [|split]]]]].
  - unfold recover, loadSampleData.
    erewrite bind_ok by exact E1. erewrite bind_ok by exact E2.
    erewrite bind_ok by exact E3. erewrite bind_ok by exact E4.
    erewrite bind_ok by reflexivity. fold s5.
    erewrite bind_ok by exact ED. exact E6.
  - rewrite D6, D5. reflexivity.
  - intros Hsound name Hin.
    rewrite (calm_chartOf _ _ _ C6), <- (calm_chartOf name _ _ C5).
    eapply updateDashboard_renders; [apply (calm_sound _ _ C5), Hsound| |exact ED|exact Hin].
    intros c Hc. apply (proj1 Hready). unfold required. apply in_or_app. left. exact Hc.
  - destruct F5 as (I5 & _ & K5). destruct FA as (IA & _ & KA).
    destruct FB as (IB & _ & KB). destruct F6 as (I6 & _ & _).
    rewrite I6, Hitems, Hlen, IB, IA, I5, KB, KA, K5. reflexivity.
  - destruct F5 as (I5 & _ & _). destruct FA as (IA & _ & _).
    destruct FB as (IB & _ & _). destruct F6 as (_ & G6 & _).
    rewrite G6, Hfeed, Hlen, IB, IA, I5. reflexivity.
Qed.

(** The [try] block of a refresh that fails: it is given up before
    anything is drawn. *)
Lemma attempt_failing r feedReply p :
  failing r ->
  exists e s1,
    attempt r feedReply p = (Throw e, s1) /\ calm p s1 /\ sameFeed p s1.
Proof.
  intros Hr. unfold attempt.
  destruct (showLoading true p) as [r0 s0] eqn:E0.
  assert (r0 = Ok tt) by (injection E0 as <- _; reflexivity). subst r0.
  pose proof (run_respects calm _ _ _ _ (calm_showLoading _) E0) as C0.
  pose proof (run_respects sameFeed _ _ _ _ (sameFeed_showLoading _) E0) as F0.
  erewrite bind_ok by exact E0.
  edestruct await_failing as [e Ee]; [exact Hr| |].
  2:{ exists e. eexists. split; [exact Ee|]. split.
      - eapply calm_trans; [exact C0|].
        split; [reflexivity|]. split; [reflexivity|]. intros id. reflexivity.
      - eapply sameFeed_trans; [exact F0|]. repeat split. }
  intros data error Hprop Ht. exists (ThrownError error).
  rewrite bind_run. unfold lift at 1. rewrite Hprop, Ht. reflexivity.
Qed.

(** Any refresh, on a complete page with a sound registry: the page
    ends with some data, the body of the response or the sample data, and
    every chart is then drawn from it; a chart that was drawn from the
    response before the fallback is drawn again. *)
Lemma refresh_draws r feedReply p :
  complete p -> sound p ->
  let p' := exec (loadDashboardData r feedReply) p in
  exists d,
    dashboardData p' = Some d
    /\ (r = Parsed d \/ exists timeline, d = sampleData timeline)
    /\ forall name, In name chartNames ->
         exists mid,
           tended name (chartOf name p) mid
           /\ rendered name d mid (chartOf name p').
Proof.
  intros Hp Hs p'. subst p'. unfold exec. rewrite loadDashboardData_split.
  unfold try_catch_finally.
  destruct (attempt r feedReply p) as [[[]|e] s1] eqn:Ea.
  - (* the response is rendered *)
    destruct (showLoading false s1) as [rf sf] eqn:Ef.
    pose proof (run_respects calm _ _ _ _ (calm_showLoading _) Ef) as Cf.
    pose proof (run_respects sameData _ _ _ _ (sameData_showLoading _) Ef) as Df.
    assert (Es : snd (match rf with
                      | Ok _ => (Ok tt, sf)
                      | Throw e => (@Throw unit e, sf)
                      end) = sf) by (destruct rf; reflexivity).
    rewrite Es. clear Es.
    unfold attempt in Ea.
    apply bind_ok_inv in Ea as ([] & sa & E0 & Ea).
    apply bind_ok_inv in Ea as (d & sb & Eaw & Ea).
    apply lift_ok_inv in Ea as (error & _ & Ea).
    destruct (truthy error); [discriminate Ea|].
    apply bind_ok_inv in Ea as ([] & sc & Ec & Ea).
    apply bind_ok_inv in Ea as ([] & sd & Ed & Ea).
    apply bind_ok_inv in Ea as ([] & se & Ee & Ea).
    pose proof (run_respects calm _ _ _ _ (calm_showLoading _) E0) as C0.
    assert (Cw : calm sa sb).
    { eapply (run_respects calm); [|exact Eaw]. unfold await. repeat calm_step. }
    assert (Cc : calm sb sc).
    { injection Ec as <-. split; [reflexivity|]. split; [reflexivity|].
      intros id. reflexivity. }
    assert (Cpre : calm p sc).
    { eapply calm_trans; [exact C0|]. eapply calm_trans; eassumption. }
    pose proof (run_respects calm _ _ _ _ calm_updateLastUpdateTime Ee) as Ce.
    pose proof (run_respects calm _ _ _ _ (calm_showNotification _ _) Ea) as Cn.
    assert (Cpost : calm sd sf).
    { eapply calm_trans; [exact Ce|]. eapply calm_trans; eassumption. }
    pose proof (run_respects sameData _ _ _ _ (sameData_updateDashboard _ _) Ed) as Dd.
    pose proof (run_respects sameData _ _ _ _ sameData_updateLastUpdateTime Ee) as De.
    pose proof (run_respects sameData _ _ _ _ (sameData_showNotification _ _) Ea) as Dn.
    exists d. split; [|split].
    + rewrite Df, Dn, De, Dd. injection Ec as <-. reflexivity.
    + left. eapply await_returns, Eaw.
    + intros name Hin. exists (chartOf name p). split; [apply tended_refl|].
      rewrite (calm_chartOf _ _ _ Cpost), <- (calm_chartOf name _ _ Cpre).
      eapply updateDashboard_renders;
        [apply (calm_sound _ _ Cpre), Hs| |exact Ed|exact Hin].
      intros c Hc. apply (calm_complete _ _ Cpre Hp). unfold required.
      apply in_or_app. left. exact Hc.
  - (* the fallback *)
    pose proof (run_respects tends _ _ _ _ (tends_attempt _ _) Ea) as [G1 T1].
    assert (Hp1 : complete s1) by (eapply complete_keeps; [exact (proj1 G1)|exact Hp]).
    assert (Hs1 : sound s1) by (apply G1, Hs).
    destruct (recover_renders feedReply e s1 Hp1)
      as (tl & s2 & E2 & _ & _ & Hd & Hr & _).
    rewrite E2.
    destruct (showLoading false s2) as [rf sf] eqn:Ef.
    pose proof (run_respects calm _ _ _ _ (calm_showLoading _) Ef) as Cf.
    pose proof (run_respects sameData _ _ _ _ (sameData_showLoading _) Ef) as Df.
    assert (Es : snd (match rf with
                      | Ok _ => (Ok tt, sf)
                      | Throw e => (@Throw unit e, sf)
                      end) = sf) by (destruct rf; reflexivity).
    rewrite Es. clear Es.
    exists (sampleData tl). split; [rewrite Df; exact Hd|]. split; [eauto|].
    intros name Hin. exists (chartOf name s1). split; [apply T1, Hs|].
    rewrite (calm_chartOf _ _ _ Cf). apply Hr; assumption.
Qed.

End Refresh.

End ChartDrawing.

(** ** The claims on the refresh cycle *)
Module RefreshClaims.
Import JSNumber Json Eff Dom EventLoop Dashboard EffFacts NumberFacts.
Import DashboardFacts DashboardFrames DashboardRuns DashboardRefresh RefreshNotices.
Import FeedProperties ChartProperties ChartDrawing.
Local Open Scope string_scope.
Local Open Scope eff_scope.

Section WithHost.
Context `{Host}.

(** The five charts of the page are as the snapshot [d] gives them:
    each has the type of its name, the labels and the data of [d]. *)
Definition drawn (d : json) (p : page) : Prop :=
  forall name, In name chartNames ->
    exists c, chartOf name p = Some c
      /\ kind c = kindOf name
      /\ labels c = labelsOf name d
      /\ plots name d (data c).

(** A chart that is drawn, there being none when the page was loaded. *)
Lemma rendered_drawn name d mid after :
  tended name None mid -> rendered name d mid after ->
  exists c, after = Some c
    /\ kind c = kindOf name /\ labels c = labelsOf name d /\ plots name d (data c).
Proof.
  intros Tm (D & HP & ->). eexists. split; [reflexivity|].
  destruct mid as [cm|]; cbn [redrawn kind labels data].
  - destruct Tm as [Km Lm]. split; [exact Km|]. split; [|exact HP].
    unfold labelsOf. destruct (fixedLabels name) as [l|] eqn:El; [|reflexivity].
    apply Lm. reflexivity.
  - split; [reflexivity|]. split; [reflexivity|exact HP].
Qed.

(** What the sample data gives a chart is its entry in [sampleCharts]. *)
Lemma plots_sample tl name D D' :
  In (name, D) sampleCharts -> plots name (sampleData tl) D' -> D' = D.
Proof.
  intros Hin HP. unfold sampleCharts in Hin. cbn [In] in Hin.
  destruct Hin as [Heq|[Heq|[Heq|[Heq|[Heq|[]]]]]];
    apply pair_equal_spec in Heq; destruct Heq as [<- <-]; exact HP.
Qed.

(** C7.  On a complete page that has no chart yet, a sequence of events
    that ends with a refresh leaves the five charts registered, one
    instance each: the registry holds the five names and no other, five
    instances were constructed, and each chart has the type of its name
    and the labels and the data that the data of the page, the body of the
    response or the sample data, gives it.  Whatever follows, refreshes
    and timers alike, leaves every name with the instance it has, and
    constructs no other instance.  A refresh that comes after that
    constructs no chart either: the page ends with some data, the body of
    the response or the sample data, and every chart is the instance it
    was, of the type of its name, with [update()] called at least once
    more, the labels the data gives it (the ones it was constructed with,
    for the three charts whose labels are fixed) and the data the data
    gives it. *)
Theorem one_chart_per_name es1 r feedReply es2 r' feedReply' p :
  complete p -> charts p = ∅ -> instances p = [] ->
  let p1 := after (es1 ++ [Refresh r feedReply]) p in
  let p2 := after es2 p1 in
  let p3 := exec (loadDashboardData r' feedReply') p2 in
  (forall name, registered name p1 <-> In name chartNames)
  /\ length (instances p1) = 5%nat
  /\ (exists d,
        dashboardData p1 = Some d
        /\ (r = Parsed d \/ exists timeline, d = sampleData timeline)
        /\ drawn d p1)
  /\ sound p2
  /\ charts p2 = charts p1
  /\ length (instances p2) = 5%nat
  /\ charts p3 = charts p2
  /\ length (instances p3) = 5%nat
  /\ exists d,
       dashboardData p3 = Some d
       /\ (r' = Parsed d \/ exists timeline, d = sampleData timeline)
       /\ forall name, In name chartNames ->
            exists i c c',
              charts p2 !! name = Some i
              /\ instances p2 !! i = Some c /\ instances p3 !! i = Some c'
              /\ kind c = kindOf name /\ kind c' = kindOf name
              /\ (updates c < updates c')%nat
              /\ labels c' = labelsOf name d
              /\ plots name d (data c').
Proof.
  intros Hp Hc Hi p1 p2 p3.
  pose proof (sound_fresh p Hc Hi) as Hs.
  pose proof (grows_after (es1 ++ [Refresh r feedReply]) p) as G1. fold p1 in G1.
  pose proof (grows_after es2 p1) as G2. fold p2 in G2.
  assert (G3 : grows p2 p3) by apply grows_loadDashboardData.
  assert (Hreg1 : forall name, registered name p1 <-> In name chartNames).
  { intros name. split.
    - intros Hr. destruct G1 as (_ & _ & Hd & _).
      destruct (Hd name Hr) as [[i Hi']|Hin]; [|exact Hin].
      rewrite Hc, lookup_empty in Hi'. discriminate.
    - apply after_registers; [exact Hp|]. exists r, feedReply.
      apply in_or_app. right. left. reflexivity. }
  assert (Hs1 : sound p1) by (apply G1, Hs).
  assert (Hs2 : sound p2) by (apply G2, Hs1).
  assert (Hs3 : sound p3) by (apply G3, Hs2).
  assert (Hch : charts p2 = charts p1).
  { apply registry_settled; [exact G2|]. intros name Hin. apply Hreg1, Hin. }
  assert (Hreg2 : forall name, registered name p2 <-> In name chartNames).
  { intros name. unfold registered. rewrite Hch. apply Hreg1. }
  assert (Hch3 : charts p3 = charts p2).
  { apply registry_settled; [exact G3|]. intros name Hin. apply Hreg2, Hin. }
  assert (Hp2 : complete p2).
  { eapply complete_keeps; [exact (proj1 G2)|].
    eapply complete_keeps; [exact (proj1 G1)|exact Hp]. }
  split; [exact Hreg1|]. split; [apply registry_size; assumption|].
  split.
  { (* the charts of the first refresh: there was none on the page *)
    set (p0 := after es1 p).
    assert (E1 : p1 = exec (loadDashboardData r feedReply) p0).
    { unfold p1, p0. rewrite after_app. reflexivity. }
    pose proof (grows_after es1 p) as G0. fold p0 in G0.
    assert (Hs0 : sound p0) by (apply G0, Hs).
    assert (Hp0 : complete p0) by (eapply complete_keeps; [exact (proj1 G0)|exact Hp]).
    pose proof (tends_after es1 p) as T0. fold p0 in T0.
    destruct (refresh_draws r feedReply p0 Hp0 Hs0) as (d & Hd & Hfrom & Hdraw).
    rewrite <- E1 in Hd, Hdraw.
    exists d. split; [exact Hd|]. split; [exact Hfrom|].
    intros name Hin. destruct (Hdraw name Hin) as (mid & Tm & Hr).
    apply (rendered_drawn name d mid); [|exact Hr].
    pose proof (proj2 T0 Hs name) as Tc.
    assert (E0 : chartOf name p = None)
      by (unfold chartOf; rewrite Hc, lookup_empty; reflexivity).
    rewrite E0 in Tc. eapply tended_trans; [exact Tc|exact Tm]. }
  split; [exact Hs2|]. split; [exact Hch|].
  split; [apply registry_size; assumption|].
  split; [exact Hch3|].
  split.
  { apply registry_size; [exact Hs3|].
    intros name. unfold registered. rewrite Hch3. apply Hreg2. }
  (* the charts before the refresh: constructed since the page had none *)
  assert (T2 : tends p p2).
  { unfold p2, p1. rewrite <- after_app. apply tends_after. }
  destruct (refresh_draws r' feedReply' p2 Hp2 Hs2) as (d & Hd & Hfrom & Hdraw).
  fold p3 in Hd, Hdraw.
  exists d. split; [exact Hd|]. split; [exact Hfrom|].
  intros name Hin.
  destruct (proj2 (Hreg2 name) Hin) as [i Ei].
  destruct (sound_lookup p2 name i Hs2 Ei) as [c Ec].
  pose proof (proj2 T2 Hs name) as Tc.
  assert (E0 : chartOf name p = None) by (unfold chartOf; rewrite Hc, lookup_empty; reflexivity).
  assert (E2 : chartOf name p2 = Some c) by (unfold chartOf; rewrite Ei; exact Ec).
  rewrite E0, E2 in Tc. destruct Tc as [Kc Lc].
  destruct (Hdraw name Hin) as (mid & Tm & D & HP & E3).
  rewrite E2 in Tm. destruct mid as [cm|]; [|destruct Tm].
  destruct Tm as (Km & Um & Lm).
  unfold chartOf in E3. rewrite Hch3, Ei in E3. cbn [mbind option_bind] in E3.
  exists i, c, (redrawn name (labelsOf name d) D (Some cm)).
  split; [exact Ei|]. split; [exact Ec|]. split; [exact E3|].
  split; [exact Kc|]. cbn [redrawn kind updates labels data].
  split; [congruence|]. split; [lia|]. split; [|exact HP].
  unfold labelsOf. destruct (fixedLabels name) as [l|] eqn:El; [|reflexivity].
  rewrite (Lm l eq_refl). apply Lc. reflexivity.
Qed.

(** C8, as the code has it.  A refresh that fails, by a rejected
    request, by a body that is not JSON or by a response with an [error]
    field that is truthy, on a complete page: nothing is thrown, the one
    notification raised is the error notification, and the data of the page
    is the sample data with its five generated predictions.  The page shows
    it.  The feed holds the items of the five predictions, in their order,
    and no other.  The five charts are registered, and each of them is drawn
    from the sample data, once: constructed with its type, its labels and
    its data when there was none, and otherwise the instance that was
    there, with the data of the sample data, its labels when the script
    assigns them, and [update()] called once more (the registry being sound
    before the refresh).  Every statistic that has its element shows its
    value of the sample data. *)
Theorem failed_refresh_falls_back r feedReply p :
  complete p -> failing r ->
  exists timeline p',
    loadDashboardData r feedReply p = (Ok tt, p')
    /\ raised (calls p')
       = (raised (calls p) ++ [("Failed to load dashboard data", "error")])%list
    /\ length timeline = 5%nat
    /\ Forall sampleShaped timeline
    /\ dashboardData p' = Some (sampleData timeline)
    /\ feed p' = seq (length (feedItems p)) 5
    /\ feedItems p'
       = (feedItems p ++ imap (itemOf (JSNumber.ofZ (clock p)) 5) timeline)%list
    /\ (forall name, In name chartNames -> registered name p')
    /\ (forall id text,
          In (id, text) sampleStats -> is_Some (elements p !! id) ->
          textOf id p' = Some text)
    /\ (sound p ->
        forall name D, In (name, D) sampleCharts ->
          chartOf name p'
          = Some (redrawn name (labelsOf name (sampleData timeline)) D (chartOf name p))).
Proof.
  intros Hp Hr.
  destruct (refresh_failing r feedReply p Hp Hr)
    as (timeline & p' & E & Hraised & Hlen & Hdata & _ & Hreg & Hstats & _).
  (* the same run, by its three blocks *)
  destruct (attempt_failing r feedReply p Hr) as (e & s1 & E1 & C1 & F1).
  destruct (recover_renders feedReply e s1 (calm_complete _ _ C1 Hp))
    as (tl & s2 & E2 & _ & Hshape & Hd2 & Hdraw & Hitems & Hfeed).
  destruct (showLoading false s2) as [rf s3] eqn:E3.
  assert (rf = Ok tt) by (injection E3 as <- _; reflexivity). subst rf.
  pose proof (run_respects calm _ _ _ _ (calm_showLoading _) E3) as C3.
  pose proof (run_respects sameFeed _ _ _ _ (sameFeed_showLoading _) E3) as F3.
  pose proof (run_respects sameData _ _ _ _ (sameData_showLoading _) E3) as D3.
  assert (E' : loadDashboardData r feedReply p = (Ok tt, s3)).
  { rewrite loadDashboardData_split.
    eapply try_catch_finally_caught; [exact E1|exact E2|exact E3]. }
  rewrite E in E'. injection E' as <-.
  assert (tl = timeline).
  { rewrite D3, Hd2 in Hdata. unfold sampleData in Hdata. congruence. }
  subst tl.
  destruct F1 as (I1 & G1 & K1). destruct F3 as (I3 & G3 & _).
  exists timeline, p'.
  split; [exact E|]. split; [exact Hraised|]. split; [exact Hlen|].
  split; [exact Hshape|]. split; [exact Hdata|].
  split; [rewrite G3, Hfeed, I1; reflexivity|].
  split; [rewrite I3, Hitems, I1, K1; reflexivity|].
  split; [exact Hreg|]. split; [exact Hstats|].
  intros Hs name D Hin.
  assert (Hname : In name chartNames).
  { unfold sampleCharts in Hin. cbn [In] in Hin.
    destruct Hin as [Heq|[Heq|[Heq|[Heq|[Heq|[]]]]]];
      apply pair_equal_spec in Heq; destruct Heq as [<- _]; simpl; tauto. }
  destruct (Hdraw (calm_sound _ _ C1 Hs) name Hname) as (D' & HP & Ec).
  rewrite (calm_chartOf _ _ _ C3), Ec, (calm_chartOf _ _ _ C1).
  rewrite (plots_sample timeline name D D' Hin HP). reflexivity.
Qed.

End WithHost.

(** *** In the browser *)

Import Browser.

(** A first refresh that fails, then a timer and a refresh the server
    answers with [null], and a last refresh that fails. *)
Lemma one_chart_per_name_witness :
  let p1 := after ([] ++ [Refresh FetchRejected FetchRejected]) dashboardPage in
  let p2 := after [Tick; Refresh (Parsed JNull) FetchRejected] p1 in
  let p3 := exec (loadDashboardData JsonRejected FetchRejected) p2 in
  (forall name, registered name p1 <-> In name chartNames)
  /\ length (instances p1) = 5%nat
  /\ (exists d,
        dashboardData p1 = Some d
        /\ (FetchRejected = Parsed d \/ exists timeline, d = sampleData timeline)
        /\ drawn d p1)
  /\ sound p2
  /\ charts p2 = charts p1
  /\ length (instances p2) = 5%nat
  /\ charts p3 = charts p2
  /\ length (instances p3) = 5%nat
  /\ exists d,
       dashboardData p3 = Some d
       /\ (JsonRejected = Parsed d \/ exists timeline, d = sampleData timeline)
       /\ forall name, In name chartNames ->
            exists i c c',
              charts p2 !! name = Some i
              /\ instances p2 !! i = Some c /\ instances p3 !! i = Some c'
              /\ kind c = kindOf name /\ kind c' = kindOf name
              /\ (updates c < updates c')%nat
              /\ labels c' = labelsOf name d
              /\ plots name d (data c').
Proof.
  apply (one_chart_per_name [] FetchRejected FetchRejected
           [Tick; Refresh (Parsed JNull) FetchRejected]
           JsonRejected FetchRejected dashboardPage).
  - exact dashboardPage_has_required.
  - reflexivity.
  - reflexivity.
Defined.

(** What the five charts are after these three refreshes: each of them
    was constructed by the first and updated by the two others. *)
Example three_refreshes_one_instance :
  let p3 := after [Refresh FetchRejected FetchRejected; Tick;
                   Refresh (Parsed JNull) FetchRejected;
                   Refresh JsonRejected FetchRejected] dashboardPage in
  map (fun name => charts p3 !! name) chartNames = map Some [0; 1; 2; 3; 4]%nat
  /\ map updates (instances p3) = [2; 2; 2; 2; 2]%nat
  /\ map kind (instances p3) = ["doughnut"; "bar"; "line"; "radar"; "bar"]
  /\ map data (instances p3) = map snd sampleCharts
  /\ labels <$> instances p3 !! 2%nat = Some hourlyLabels
  /\ labels <$> instances p3 !! 4%nat = Some (JArr [JStr "<30"; JStr "30-50"; JStr ">50"]).
Proof. vm_compute. repeat split. Qed.

(** A snapshot of the server with hours and age groups of its own. *)
Definition serverSnapshot : json :=
  JObj [("overview",
         JObj [("total_predictions", JNum (Fin 3)); ("model_accuracy", JNum (Fin 90));
               ("avg_response_time", JNum (Fin 1))]);
        ("risk_distribution",
         JObj [("low", JNum (Fin 2)); ("medium", JNum (Fin 1)); ("high", JNum (Fin 0))]);
        ("hourly_trend",
         JObj [("labels", JArr [JStr "9:00"; JStr "10:00"]);
               ("data", JArr [JNum (Fin 1); JNum (Fin 2)])]);
        ("feature_distribution",
         JObj [("age_groups",
                JObj [("older", JNum (Fin 1)); ("40", JNum (Fin 2)); ("7", JNum (Fin 0))])]);
        ("performance_metrics",
         JObj [("precision", JNum (Fin 80)); ("recall", JNum (Fin 70));
               ("f1_score", JNum (Fin 75)); ("auc_score", JNum (Fin 85))]);
        ("predictions_timeline", JArr [])].

(** The charts the sample data constructed, redrawn from that snapshot:
    the same five instances, with the hours and the age groups of the
    snapshot for labels, the age groups named by a number first, and with
    its data. *)
Example server_data_redraws_in_place :
  let p1 := after [Refresh FetchRejected FetchRejected] dashboardPage in
  let p2 := after [Refresh (Parsed serverSnapshot) FetchRejected] p1 in
  raised (calls p2)
  = [("Failed to load dashboard data", "error"); ("Dashboard updated successfully", "success")]
  /\ map (fun name => charts p1 !! name) chartNames = map Some [0; 1; 2; 3; 4]%nat
  /\ map (fun name => charts p2 !! name) chartNames = map Some [0; 1; 2; 3; 4]%nat
  /\ map updates (instances p1) = [0; 0; 0; 0; 0]%nat
  /\ map updates (instances p2) = [1; 1; 1; 1; 1]%nat
  /\ map kind (instances p2) = map kind (instances p1)
  /\ map (fun name => labels <$> chartOf name p2) chartNames
     = map (fun name => Some (labelsOf name serverSnapshot)) chartNames
  /\ labels <$> chartOf "hourlyTrend" p2 = Some (JArr [JStr "9:00"; JStr "10:00"])
  /\ labels <$> chartOf "ageDistribution" p2 = Some (JArr [JStr "7"; JStr "40"; JStr "older"])
  /\ data <$> chartOf "ageDistribution" p2
     = Some (JArr [JNum (Fin 0); JNum (Fin 2); JNum (Fin 1)])
  /\ data <$> chartOf "riskDistribution" p2
     = Some (JArr [JNum (Fin 2); JNum (Fin 1); JNum (Fin 0)])
  /\ data <$> chartOf "hourlyTrend" p2 = Some (JArr [JNum (Fin 1); JNum (Fin 2)])
  /\ data <$> chartOf "performance" p2
     = Some (JArr [JNum (Fin 80); JNum (Fin 70); JNum (Fin 75); JNum (Fin 85)]).
Proof. vm_compute. repeat split. Qed.

Lemma failed_refresh_falls_back_witness :
  exists timeline p',
    loadDashboardData FetchRejected FetchRejected dashboardPage = (Ok tt, p')
    /\ raised (calls p')
       = (raised (calls dashboardPage) ++ [("Failed to load dashboard data", "error")])%list
    /\ length timeline = 5%nat
    /\ Forall sampleShaped timeline
    /\ dashboardData p' = Some (sampleData timeline)
    /\ feed p' = seq (length (feedItems dashboardPage)) 5
    /\ feedItems p'
       = (feedItems dashboardPage
          ++ imap (itemOf (JSNumber.ofZ (clock dashboardPage)) 5) timeline)%list
    /\ (forall name, In name chartNames -> registered name p')
    /\ (forall id text,
          In (id, text) sampleStats -> is_Some (elements dashboardPage !! id) ->
          textOf id p' = Some text)
    /\ (sound dashboardPage ->
        forall name D, In (name, D) sampleCharts ->
          chartOf name p'
          = Some (redrawn name (labelsOf name (sampleData timeline)) D
                    (chartOf name dashboardPage))).
Proof.
  apply (failed_refresh_falls_back FetchRejected FetchRejected dashboardPage).
  - exact dashboardPage_has_required.
  - left. reflexivity.
Defined.

(** A snapshot the server sends with an [error] field that is [null]. *)
Definition snapshotWithNullError : json :=
  match sampleData [] with
  | JObj fields => JObj (("error", JNull) :: fields)
  | other => other
  end.

(** C8, as it is stated, fails for a response that carries an [error]
    field beside a snapshot, when the field is falsy: the script tests
    [if (data.error)], so that a [null] (or an empty string, or [false])
    is no failure.  The response is installed as the data of the page and
    rendered, the notification raised is the success notification, and
    the sample data is not loaded. *)
Lemma null_error_field_is_no_failure :
  let p' := exec (loadDashboardData (Parsed snapshotWithNullError) FetchRejected)
              dashboardPage in
  prop snapshotWithNullError "error" = Ok JNull
  /\ outcome (loadDashboardData (Parsed snapshotWithNullError) FetchRejected)
       dashboardPage = Ok tt
  /\ raised (calls p') = [("Dashboard updated successfully", "success")]
  /\ dashboardData p' = Some snapshotWithNullError
  /\ map (fun name => data <$> chartOf name p') chartNames
     = map (fun entry => Some (snd entry)) sampleCharts.
Proof. vm_compute. repeat split. Qed.

End RefreshClaims.
